(** * Fiber Arts Finder: a shallow embedding of [fiber_arts_finder.py]

    The development follows the source file top down: the Python values and
    string operations the program relies on, the three entity classes
    ([Pattern], [Shop], [Yarn]), the catalogue ([Graph] in the source) with
    its cache, its look-ups and its two network builders.

    Conventions.
    - Text is [string] over 8-bit characters; the case and whitespace
      classes are those of ASCII.
    - A Python float is idealised as a real number that carries the text
      [repr] prints for it. Where rounding decides what the code does,
      [Binary64] gives the same formula on IEEE 754 binary64 numbers.
    - A raised exception is a value of [res]; code that prints, mutates the
      catalogue or calls a remote service runs in the monad [M] over
      [World]. *)

From Stdlib Require Import String Ascii List ZArith Lia Bool Reals Lra.
From Stdlib Require Import DecimalString DecimalPos Sorting.Sorted Permutation.
From Stdlib Require PrimInt63 PrimFloat.
Import ListNotations.

Local Open Scope string_scope.
Local Open Scope Z_scope.

(* ================================================================= *)
(** ** Python strings *)

Module PyStr.

Definition code (c : ascii) : N := N_of_ascii c.

(** [str.isspace] on the ASCII range. *)
Definition is_space (c : ascii) : bool :=
  let n := code c in
  ((9 <=? n) && (n <=? 13) || (28 <=? n) && (n <=? 32))%N.

Definition is_upper (c : ascii) : bool :=
  let n := code c in ((65 <=? n) && (n <=? 90))%N.

Definition is_lower (c : ascii) : bool :=
  let n := code c in ((97 <=? n) && (n <=? 122))%N.

Definition is_digit (c : ascii) : bool :=
  let n := code c in ((48 <=? n) && (n <=? 57))%N.

Definition upper (c : ascii) : ascii :=
  if is_lower c then ascii_of_N (code c - 32) else c.

Definition lower (c : ascii) : ascii :=
  if is_upper c then ascii_of_N (code c + 32) else c.

Definition is_empty (s : string) : bool :=
  match s with EmptyString => true | String _ _ => false end.

Fixpoint lstrip (s : string) : string :=
  match s with
  | EmptyString => EmptyString
  | String c r => if is_space c then lstrip r else s
  end.

Fixpoint rstrip (s : string) : string :=
  match s with
  | EmptyString => EmptyString
  | String c r =>
      let r' := rstrip r in
      if is_space c && is_empty r' then EmptyString else String c r'
  end.

(** [s.strip()] *)
Definition strip (s : string) : string := lstrip (rstrip s).

(** White space as [int] and [float] see it in ASCII text: the C locale's
    [isspace]. ([str.strip] also removes the separators 0x1c to 0x1f,
    with which [int] and [float] raise.) *)
Definition is_c_space (c : ascii) : bool :=
  let n := code c in ((9 <=? n) && (n <=? 13) || (n =? 32))%N.

Fixpoint lstrip_c (s : string) : string :=
  match s with
  | EmptyString => EmptyString
  | String c r => if is_c_space c then lstrip_c r else s
  end.

Fixpoint rstrip_c (s : string) : string :=
  match s with
  | EmptyString => EmptyString
  | String c r =>
      let r' := rstrip_c r in
      if is_c_space c && is_empty r' then EmptyString else String c r'
  end.

Definition strip_c (s : string) : string := lstrip_c (rstrip_c s).

(** [s.title()]: the first cased character after an uncased one is
    upper-cased, every other cased character is lower-cased. The cased
    characters are the ASCII letters: on text outside ASCII Python's
    [title] differs, and a second pass can even change what the first
    returned, which never happens here ([is_ascii] marks where the two
    agree). *)
Fixpoint title_from (prev_cased : bool) (s : string) : string :=
  match s with
  | EmptyString => EmptyString
  | String c r =>
      if is_lower c then
        String (if prev_cased then c else upper c) (title_from true r)
      else if is_upper c then
        String (if prev_cased then lower c else c) (title_from true r)
      else String c (title_from false r)
  end.

Definition title (s : string) : string := title_from false s.

(** Text within the ASCII range. There the classes above are those of
    Python's [str]; outside it Python has further white space and cased
    letters, for which [strip], [title] and [lower_str] as written here
    do not stand. *)
Fixpoint is_ascii (s : string) : bool :=
  match s with
  | EmptyString => true
  | String c r => (code c <? 128)%N && is_ascii r
  end.

(** [s.lower()] *)
Fixpoint lower_str (s : string) : string :=
  match s with
  | EmptyString => EmptyString
  | String c r => String (lower c) (lower_str r)
  end.

(** [s.split(sep)] for a one-character separator. *)
Fixpoint split (sep : ascii) (s : string) : list string :=
  match s with
  | EmptyString => [EmptyString]
  | String c r =>
      if Ascii.eqb c sep then EmptyString :: split sep r
      else match split sep r with
           | h :: t => String c h :: t
           | [] => [String c EmptyString]
           end
  end.

Fixpoint contains (c : ascii) (s : string) : bool :=
  match s with
  | EmptyString => false
  | String c' r => Ascii.eqb c' c || contains c r
  end.

(** [sep.join(l)] *)
Fixpoint join (sep : string) (l : list string) : string :=
  match l with
  | [] => EmptyString
  | [x] => x
  | x :: r => x ++ sep ++ join sep r
  end.

(** The digits of a decimal literal, with single underscores between
    digits as [int] accepts them. *)
Fixpoint digits_value (acc : Z) (after_digit : bool) (s : string) : option Z :=
  match s with
  | EmptyString => if after_digit then Some acc else None
  | String c r =>
      if is_digit c then
        digits_value (10 * acc + Z.of_N (code c - 48)) true r
      else if Ascii.eqb c "_" then
        if after_digit then digits_value acc false r else None
      else None
  end.

(** [int(s)] in base ten, for ASCII text; [None] stands for
    [ValueError]. *)
Definition parse_int (s : string) : option Z :=
  match strip_c s with
  | String "-" r => option_map Z.opp (digits_value 0 false r)
  | String "+" r => digits_value 0 false r
  | t => digits_value 0 false t
  end.

(** [str(z)] for an [int]. *)
Definition of_int (z : Z) : string := NilZero.string_of_int (Z.to_int z).

End PyStr.

(* ================================================================= *)
(** ** Python values, exceptions and dictionaries *)

(** The exceptions the modelled code can raise. [RequestError] stands for
    whatever [requests.get(...)] or [.json()] raises. *)
Inductive exn : Set :=
| AttributeError | IndexError | KeyError | TypeError | ValueError
| UnboundLocalError | FileNotFoundError | RequestError.

Inductive res (A : Type) : Type :=
| Ok (a : A)
| Raise (e : exn).
Arguments Ok {A} a.
Arguments Raise {A} e.

Definition res_bind {A B} (r : res A) (k : A -> res B) : res B :=
  match r with Ok a => k a | Raise e => Raise e end.


(** An insertion-ordered dictionary with string keys, as [dict] is. *)
Module Dict.

Definition t (V : Type) : Type := list (string * V).

Fixpoint get {V} (k : string) (d : t V) : option V :=
  match d with
  | [] => None
  | (k', v) :: r => if String.eqb k' k then Some v else get k r
  end.

(** [d[k] = v]: an existing key keeps its position. *)
Fixpoint set {V} (k : string) (v : V) (d : t V) : t V :=
  match d with
  | [] => [(k, v)]
  | (k', v') :: r =>
      if String.eqb k' k then (k', v) :: r else (k', v') :: set k v r
  end.

(** [d.update(e)] *)
Definition update {V} (d e : t V) : t V :=
  fold_left (fun acc kv => set (fst kv) (snd kv) acc) e d.

Definition keys {V} (d : t V) : list string := map fst d.

Definition mem {V} (k : string) (d : t V) : bool :=
  match get k d with Some _ => true | None => false end.

End Dict.

(** A float: its value, idealised as a real, and the text [repr] gives. *)
Record pyfloat : Type := { fval : R; frepr : string }.

#[warnings="-register-all"]
Inductive pyval : Type :=
| PNone
| PBool (b : bool)
| PInt (z : Z)
| PFloat (f : pyfloat)
| PStr (s : string)
| PList (l : list pyval)
| PDict (d : list (string * pyval)).

Module Py.

Import PyStr.

(** A float produced by arithmetic; the program never prints one, and its
    text is left empty. *)
Definition float_obj (x : R) : pyval := PFloat {| fval := x; frepr := EmptyString |}.

Definition Req_bool (x y : R) : bool := if Req_dec_T x y then true else false.
Definition Rle_bool (x y : R) : bool := if Rle_dec x y then true else false.

(** [bool(v)] *)
Definition truthy (v : pyval) : bool :=
  match v with
  | PNone => false
  | PBool b => b
  | PInt z => negb (z =? 0)
  | PFloat f => negb (Req_bool (fval f) 0)
  | PStr s => negb (is_empty s)
  | PList l => match l with [] => false | _ => true end
  | PDict d => match d with [] => false | _ => true end
  end.

Definition num_eq (a b : Z + R) : bool :=
  match a, b with
  | inl x, inl y => x =? y
  | inl x, inr y => Req_bool (IZR x) y
  | inr x, inl y => Req_bool x (IZR y)
  | inr x, inr y => Req_bool x y
  end.

Definition as_num (v : pyval) : option (Z + R) :=
  match v with
  | PBool b => Some (inl (if b then 1 else 0))
  | PInt z => Some (inl z)
  | PFloat f => Some (inr (fval f))
  | _ => None
  end.

(** [a == b] *)
Fixpoint eq (a b : pyval) : bool :=
  match a, b with
  | PNone, PNone => true
  | PStr s, PStr t => String.eqb s t
  | PList l1, PList l2 =>
      (fix go (l1 l2 : list pyval) : bool :=
         match l1, l2 with
         | [], [] => true
         | x :: xs, y :: ys => eq x y && go xs ys
         | _, _ => false
         end) l1 l2
  | PDict d1, PDict d2 =>
      (length d1 =? length d2)%nat &&
      (fix all (d : list (string * pyval)) : bool :=
         match d with
         | [] => true
         | (k, v) :: r =>
             match Dict.get k d2 with
             | Some v' => eq v v'
             | None => false
             end && all r
         end) d1
  | _, _ =>
      match as_num a, as_num b with
      | Some x, Some y => num_eq x y
      | _, _ => false
      end
  end.

Definition hex_digit (n : N) : ascii :=
  if (n <? 10)%N then ascii_of_N (48 + n) else ascii_of_N (87 + n).

Definition squote : ascii := ascii_of_N 39.
Definition dquote : ascii := ascii_of_N 34.
Definition bslash : ascii := ascii_of_N 92.

Fixpoint escape (q : ascii) (s : string) : string :=
  match s with
  | EmptyString => EmptyString
  | String c r =>
      let n := code c in
      (if Ascii.eqb c bslash || Ascii.eqb c q then String bslash (String c EmptyString)
       else if (n =? 10)%N then String bslash "n"
       else if (n =? 13)%N then String bslash "r"
       else if (n =? 9)%N then String bslash "t"
       else if (n <? 32)%N || (n =? 127)%N then
         String bslash (String "x" (String (hex_digit (n / 16)) (String (hex_digit (n mod 16)) EmptyString)))
       else String c EmptyString) ++ escape q r
  end.

(** [repr(s)] for a [str]. *)
Definition repr_str (s : string) : string :=
  let q := if contains squote s && negb (contains dquote s) then dquote else squote in
  String q (escape q s ++ String q EmptyString).

(** [repr(v)] *)
Fixpoint repr (v : pyval) : string :=
  match v with
  | PNone => "None"
  | PBool b => if b then "True" else "False"
  | PInt z => of_int z
  | PFloat f => frepr f
  | PStr s => repr_str s
  | PList l => "[" ++ join ", " (map repr l) ++ "]"
  | PDict d =>
      "{" ++ join ", " (map (fun kv => repr_str (fst kv) ++ ": " ++ repr (snd kv)) d) ++ "}"
  end.

(** [str(v)], which is what an f-string field produces. *)
Definition str (v : pyval) : string :=
  match v with
  | PStr s => s
  | _ => repr v
  end.

(** [v.get(k)], a method of [dict] only. *)
Definition get (v : pyval) (k : string) : res pyval :=
  match v with
  | PDict d => Ok (match Dict.get k d with Some x => x | None => PNone end)
  | _ => Raise AttributeError
  end.

(** [v[k]] for a string key. *)
Definition item (v : pyval) (k : string) : res pyval :=
  match v with
  | PDict d => match Dict.get k d with Some x => Ok x | None => Raise KeyError end
  | _ => Raise TypeError
  end.

(** [v[0]] *)
Definition item0 (v : pyval) : res pyval :=
  match v with
  | PList l => match l with x :: _ => Ok x | [] => Raise IndexError end
  | PStr s => match s with String c _ => Ok (PStr (String c EmptyString)) | EmptyString => Raise IndexError end
  | PDict _ => Raise KeyError
  | _ => Raise TypeError
  end.

Fixpoint chars (s : string) : list pyval :=
  match s with
  | EmptyString => []
  | String c r => PStr (String c EmptyString) :: chars r
  end.

(** The items a [for] loop over [v] visits. *)
Definition iter (v : pyval) : res (list pyval) :=
  match v with
  | PList l => Ok l
  | PStr s => Ok (chars s)
  | PDict d => Ok (map (fun kv => PStr (fst kv)) d)
  | _ => Raise TypeError
  end.

(** The receiver of a [str] method such as [.strip()] or [.title()]. *)
Definition as_str (v : pyval) : res string :=
  match v with
  | PStr s => Ok s
  | _ => Raise AttributeError
  end.

(** [int(v)] *)
Definition int (v : pyval) : res Z :=
  match v with
  | PBool b => Ok (if b then 1 else 0)
  | PInt z => Ok z
  | PFloat f => Ok (if Rle_bool 0 (fval f) then Int_part (fval f) else - Int_part (- fval f))
  | PStr s => match parse_int s with Some z => Ok z | None => Raise ValueError end
  | _ => Raise TypeError
  end.

(** The stable descending sort behind [sorted(..., reverse=True)] and
    [heapq.nlargest]: an element goes in front of the first one whose key
    is not greater than its own. *)
Section Sorted.
Context {A : Type} (gtb : A -> A -> bool).

Fixpoint insert_desc (x : A) (l : list A) : list A :=
  match l with
  | [] => [x]
  | y :: r => if gtb y x then y :: insert_desc x r else x :: y :: r
  end.

Fixpoint sorted_desc (l : list A) : list A :=
  match l with
  | [] => []
  | x :: r => insert_desc x (sorted_desc r)
  end.
End Sorted.

End Py.

(* ================================================================= *)
(** ** The outside world *)

(** [requests.get(url, ...).json()]: the decoded body, or the exception the
    request raises. A [Web] is the service as it answers at one moment; the
    code reads it from the [World] at every request, and a statement about
    two calls between which the service may change runs the second one in
    a world with another [Web]. *)
Definition Web : Type := string -> res pyval.

Definition RAVELRY_ENDPOINT : string := "https://api.ravelry.com".
Definition RAVELRY_PATTERNS : string := RAVELRY_ENDPOINT ++ "/patterns/search.json".
Definition RAVELRY_SHOPS : string := RAVELRY_ENDPOINT ++ "/shops/search.json".
Definition RAVELRY_YARNS : string := RAVELRY_ENDPOINT ++ "/yarns/search.json".
Definition GEOCODE_KEY : string := EmptyString.

Definition nl : string := String (ascii_of_N 10) EmptyString.

(** Code with effects: a computation over a state [S] leaves a state and
    either returns or raises. An exception keeps the changes made before
    it, as in Python. [S] is an object for a method that assigns
    attributes of [self], and the [World] for the catalogue. *)
Definition M (S A : Type) : Type := S -> S * res A.

Definition ret {S A} (a : A) : M S A := fun s => (s, Ok a).
Definition raise {S A} (e : exn) : M S A := fun s => (s, Raise e).
Definition lift {S A} (r : res A) : M S A := fun s => (s, r).
Definition bind {S A B} (m : M S A) (k : A -> M S B) : M S B :=
  fun s =>
    match m s with
    | (s1, Ok a) => k a s1
    | (s1, Raise e) => (s1, Raise e)
    end.
Definition modify {S} (f : S -> S) : M S unit := fun s => (f s, Ok tt).
Definition gets {S A} (f : S -> A) : M S A := fun s => (s, Ok (f s)).

Declare Scope M_scope.
Delimit Scope M_scope with M.
Notation "x <- m ;; k" := (bind m (fun x => k))
  (at level 61, m at next level, right associativity) : M_scope.
Notation "m ;; k" := (bind m (fun _ => k))
  (at level 61, right associativity) : M_scope.
Local Open Scope M_scope.

(** [for item in items: self.<attr>.append(item.get(key))] *)
Fixpoint append_gets {T} (append : pyval -> T -> T) (key : string)
    (items : list pyval) : M T unit :=
  match items with
  | [] => ret tt
  | item :: rest =>
      v <- lift (Py.get item key) ;;
      modify (append v) ;;
      append_gets append key rest
  end.

(** [if v: for item in v: ...] *)
Definition for_if_truthy {T} (v : pyval) (body : list pyval -> M T unit) : M T unit :=
  if Py.truthy v then items <- lift (Py.iter v) ;; body items else ret tt.

(* ================================================================= *)
(** ** class Pattern *)

Module Pattern.

(** The attributes of an instance. The last four exist only once
    [getFullData] has assigned them. *)
Record t : Type := mk {
  id : pyval;
  name : string;
  free : pyval;
  link : pyval;
  designer : string;
  info : string;
  currency : option pyval;
  price : option pyval;
  recyarn : option (list pyval);
  category : option (list pyval)
}.

Definition base_info (id : pyval) (name : string) (designer : string) (link : pyval) : string :=
  "Pattern ID: " ++ Py.str id ++ nl ++ "Pattern Name: " ++ name ++ nl
  ++ "Pattern Designer: " ++ designer ++ nl ++ "Pattern Link: " ++ Py.str link.

(** [Pattern(id, name, free, link, designer)] *)
Definition init (id : pyval) (name : string) (free link : pyval) (designer : string) : t :=
  {| id := id; name := name; free := free; link := link; designer := designer;
     info := base_info id name designer link;
     currency := None; price := None; recyarn := None; category := None |}.

Definition set_currency v (p : t) : t :=
  mk (id p) (name p) (free p) (link p) (designer p) (info p) (Some v) (price p) (recyarn p) (category p).
Definition set_price v (p : t) : t :=
  mk (id p) (name p) (free p) (link p) (designer p) (info p) (currency p) (Some v) (recyarn p) (category p).
Definition set_recyarn v (p : t) : t :=
  mk (id p) (name p) (free p) (link p) (designer p) (info p) (currency p) (price p) (Some v) (category p).
Definition set_category v (p : t) : t :=
  mk (id p) (name p) (free p) (link p) (designer p) (info p) (currency p) (price p) (recyarn p) (Some v).
Definition set_info v (p : t) : t :=
  mk (id p) (name p) (free p) (link p) (designer p) v (currency p) (price p) (recyarn p) (category p).

Definition append_recyarn (v : pyval) (p : t) : t :=
  set_recyarn (match recyarn p with Some l => l ++ [v] | None => [v] end) p.
Definition append_category (v : pyval) (p : t) : t :=
  set_category (match category p with Some l => l ++ [v] | None => [v] end) p.

Definition opt_str (o : option pyval) : string :=
  match o with Some v => Py.str v | None => EmptyString end.
Definition opt_list (o : option (list pyval)) : pyval :=
  PList (match o with Some l => l | None => [] end).

Definition full_info (p : t) : string :=
  base_info (id p) (name p) (designer p) (link p) ++ nl
  ++ "Pattern Recommended Yarns by ID: " ++ Py.str (opt_list (recyarn p)) ++ nl
  ++ "Pattern Category: " ++ Py.str (opt_list (category p)) ++ nl
  ++ "Pattern Price: " ++ opt_str (price p) ++ " " ++ opt_str (currency p).

Definition getFullData (web : Web) : M t unit :=
  self <- gets (fun self => self) ;;
  data <- lift (res_bind (web (RAVELRY_ENDPOINT ++ "/patterns/" ++ Py.str (id self) ++ ".json"))
                  (fun body => Py.item body "pattern")) ;;
  c <- lift (Py.get data "currency") ;;
  modify (set_currency c) ;;
  pr <- lift (Py.get data "price") ;;
  modify (set_price pr) ;;
  recYarn <- lift (Py.get data "packs") ;;
  modify (set_recyarn []) ;;
  for_if_truthy recYarn (append_gets append_recyarn "yarn_id") ;;
  cat <- lift (Py.get data "pattern_categories") ;;
  modify (set_category []) ;;
  for_if_truthy cat (append_gets append_category "name") ;;
  modify (fun p => set_info (full_info p) p).

Definition getInfo (self : t) : string := info self.

(** [self.__dict__], in the order the attributes were first assigned. *)
Definition dict (p : t) : list (string * pyval) :=
  [("id", id p); ("name", PStr (name p)); ("free", free p); ("link", link p);
   ("designer", PStr (designer p)); ("info", PStr (info p))]
  ++ match currency p with Some v => [("currency", v)] | None => [] end
  ++ match price p with Some v => [("price", v)] | None => [] end
  ++ match recyarn p with Some l => [("recyarn", PList l)] | None => [] end
  ++ match category p with Some l => [("category", PList l)] | None => [] end.

End Pattern.

(* ================================================================= *)
(** ** Floating-point coercion and [math] *)

Module PyFloat.

Import PyStr.

(** A run of decimal digits, in which one underscore may stand between
    two digits: its value on top of [acc], how many digits were read, and
    the rest of the text. *)
Fixpoint digits (acc : Z) (n : nat) (s : string) : Z * nat * string :=
  match s with
  | String c r =>
      if is_digit c then digits (10 * acc + Z.of_N (code c - 48)) (S n) r
      else if Ascii.eqb c "_" then
        match n, r with
        | S _, String c' _ => if is_digit c' then digits acc n r else (acc, n, s)
        | _, _ => (acc, n, s)
        end
      else (acc, n, s)
  | EmptyString => (acc, n, s)
  end.

Definition exponent (s : string) : option Z :=
  match s with
  | EmptyString => Some 0
  | String c r =>
      if Ascii.eqb c "e" || Ascii.eqb c "E" then
        let '(neg, r1) :=
          match r with
          | String "-" r' => (true, r')
          | String "+" r' => (false, r')
          | _ => (false, r)
          end in
        match digits 0 0 r1 with
        | (_, O, _) => None
        | (e, _, EmptyString) => Some (if neg then - e else e)
        | _ => None
        end
      else None
  end.

Definition unsigned (s : string) : option R :=
  let '(ip, ni, r1) := digits 0 0 s in
  let '(m, nf, r2) :=
    match r1 with
    | String "." r' => let '(m, nf, r2) := digits ip 0 r' in (m, nf, r2)
    | _ => (ip, O, r1)
    end in
  match (ni + nf)%nat with
  | O => None
  | _ => option_map (fun e => (IZR m * powerRZ 10 (e - Z.of_nat nf))%R) (exponent r2)
  end.

(** [float(s)] for a decimal literal; [None] stands for [ValueError].
    The texts [inf], [infinity] and [nan], for which [float] returns a
    value that is no real number, are outside this idealisation: nothing
    proved below about a distance holds for them. *)
Definition parse (s : string) : option R :=
  match strip_c s with
  | String "-" r => option_map Ropp (unsigned r)
  | String "+" r => unsigned r
  | t => unsigned t
  end.

(** [float(v)] *)
Definition float (v : pyval) : res R :=
  match v with
  | PBool b => Ok (if b then 1%R else 0%R)
  | PInt z => Ok (IZR z)
  | PFloat f => Ok (fval f)
  | PStr s => match parse s with Some x => Ok x | None => Raise ValueError end
  | _ => Raise TypeError
  end.

(** [math.sqrt] and [math.asin], with their domain errors. *)
Definition math_sqrt (x : R) : res R :=
  if Py.Rle_bool 0 x then Ok (sqrt x) else Raise ValueError.

Definition math_asin (x : R) : res R :=
  if Py.Rle_bool (-1) x && Py.Rle_bool x 1 then Ok (asin x) else Raise ValueError.

End PyFloat.

(* ================================================================= *)
(** ** class Shop *)

Module Shop.

Record t : Type := mk {
  id : pyval;
  name : string;
  lat : pyval;
  long : pyval;
  city : pyval;
  info : string
}.

(** [Shop(id, name, lat, long, city)] *)
Definition init (id : pyval) (name : string) (lat long city : pyval) : t :=
  {| id := id; name := name; lat := lat; long := long; city := city;
     info := "Shop ID: " ++ Py.str id ++ nl ++ "Shop Name: " ++ name ++ nl
             ++ "Shop City: " ++ Py.str city |}.

Definition getInfo (self : t) : string := info self.

Local Open Scope R_scope.

(** Radius of the earth in miles. *)
Definition R_earth : R := 39631 / 10.

(** The Haversine formula on real numbers. The latitude and longitude of
    the shop are coerced before the other point's, as the source evaluates
    them. On real numbers the argument of the arc sine never leaves
    [0, 1]; what rounding does to it is in [Binary64.calcDistance]. *)
Definition calcDistance (self : t) (otherlat otherlong : pyval) : res R :=
  res_bind (PyFloat.float (lat self)) (fun slat =>
  res_bind (PyFloat.float otherlat) (fun olat =>
  let dLat := (slat - olat) * (PI / 180) in
  res_bind (PyFloat.float (long self)) (fun slong =>
  res_bind (PyFloat.float otherlong) (fun olong =>
  let dLong := (slong - olong) * (PI / 180) in
  let a := sin (dLat / 2) * sin (dLat / 2)
           + cos (slat * (PI / 180)) * cos (olat * (PI / 180))
             * (sin (dLong / 2) * sin (dLong / 2)) in
  res_bind (PyFloat.math_sqrt a) (fun r =>
  res_bind (PyFloat.math_asin r) (fun h =>
  Ok (2 * h * R_earth))))))).

Definition dict (s : t) : list (string * pyval) :=
  [("id", id s); ("name", PStr (name s)); ("lat", lat s); ("long", long s);
   ("city", city s); ("info", PStr (info s))].

End Shop.

(* ================================================================= *)
(** ** [Shop.calcDistance] on binary64 numbers

    The Haversine formula as the interpreter computes it: every sum,
    product, quotient and square root rounded to the nearest binary64
    number. The sine, cosine and arc sine are those of the C library;
    IEEE 754 does not fix their values, and they are parameters here. *)

Module Binary64.

Import PrimInt63 PrimFloat.
Local Open Scope float_scope.

(** [float(text)] for a decimal text of few digits: [digits] are the
    digits without the point, [scale] is the power of ten that has as many
    zeros as there are digits after the point. Below 2^53 both numbers are
    binary64 numbers, and their quotient rounded to nearest is the number
    nearest to the decimal, which is what [float] returns. *)
Definition decimal (negative : bool) (digits scale : int) : float :=
  let x := of_uint63 digits / of_uint63 scale in
  if negative then - x else x.

(** [math.pi] *)
Definition math_pi : float := 0x1.921fb54442d18p+1.

Section Libm.

Variables libm_sin libm_cos libm_asin : float -> float.

(** [math.sin], [math.cos], [math.sqrt] and [math.asin]: a result that is
    not a number, from an argument that is one, is a [ValueError]. This is
    the case of an infinite angle, of a negative radicand and of an arc
    sine outside [-1, 1]. *)
Definition math_sin (x : float) : res float :=
  if is_infinity x then Raise ValueError else Ok (libm_sin x).

Definition math_cos (x : float) : res float :=
  if is_infinity x then Raise ValueError else Ok (libm_cos x).

Definition math_sqrt (x : float) : res float :=
  if x <? 0 then Raise ValueError else Ok (sqrt x).

Definition math_asin (x : float) : res float :=
  if 1 <? abs x then Raise ValueError else Ok (libm_asin x).

(** [calcDistance] once [float(...)] has read the four coordinates. *)
Definition calcDistance (slat slong otherlat otherlong : float) : res float :=
  let R := decimal false 39631 10 in
  let dLat := (slat - otherlat) * (math_pi / 180) in
  let dLong := (slong - otherlong) * (math_pi / 180) in
  res_bind (math_sin (dLat / 2)) (fun s1 =>
  res_bind (math_sin (dLat / 2)) (fun s1' =>
  res_bind (math_cos (slat * (math_pi / 180))) (fun c1 =>
  res_bind (math_cos (otherlat * (math_pi / 180))) (fun c2 =>
  res_bind (math_sin (dLong / 2)) (fun s2 =>
  res_bind (math_sin (dLong / 2)) (fun s2' =>
  let a := (s1 * s1') + c1 * c2 * (s2 * s2') in
  res_bind (math_sqrt a) (fun r =>
  res_bind (math_asin r) (fun h =>
  Ok (2 * h * R))))))))).

End Libm.

End Binary64.

(* ================================================================= *)
(** ** class Yarn *)

Module Yarn.

Import PyStr.

(** [fiberContent] exists only once [getFullData] has assigned it. *)
Record t : Type := mk {
  id : pyval;
  name : string;
  brand : string;
  weight : pyval;
  info : string;
  fiberContent : option (list string)
}.

Definition base_info (id : pyval) (name brand : string) (weight : pyval) : string :=
  "Yarn ID: " ++ Py.str id ++ nl ++ "Yarn Name: " ++ name ++ nl
  ++ "Yarn Brand: " ++ brand ++ nl ++ "Yarn Weight: " ++ Py.str weight.

(** [Yarn(id, name, brand, weight)] *)
Definition init (id : pyval) (name brand : string) (weight : pyval) : t :=
  {| id := id; name := name; brand := brand; weight := weight;
     info := base_info id name brand weight; fiberContent := None |}.

Definition set_fiberContent (l : list string) (y : t) : t :=
  mk (id y) (name y) (brand y) (weight y) (info y) (Some l).
Definition set_info (s : string) (y : t) : t :=
  mk (id y) (name y) (brand y) (weight y) s (fiberContent y).
Definition append_fiberContent (s : string) (y : t) : t :=
  set_fiberContent (match fiberContent y with Some l => l ++ [s] | None => [s] end) y.

(** The local list [yarnfibers]: one [(percentage, fiber)] pair for each
    item of [yarn_fibers]. *)
Fixpoint fiber_details (fibers : list pyval) : res (list (pyval * pyval)) :=
  match fibers with
  | [] => Ok []
  | fiber :: rest =>
      res_bind (Py.get fiber "percentage") (fun pct =>
      res_bind (Py.get fiber "fiber_type") (fun ft =>
      res_bind (fiber_details rest) (fun ds => Ok ((pct, ft) :: ds))))
  end.

(** The f-string [{percentage}% {material}]. *)
Definition fiber_line (percentage material : pyval) : string :=
  Py.str percentage ++ "% " ++ Py.str material.

Fixpoint append_lines (yarnfibers : list (pyval * pyval)) : M t unit :=
  match yarnfibers with
  | [] => ret tt
  | (percentage, fiber) :: rest =>
      material <- lift (Py.get fiber "name") ;;
      modify (append_fiberContent (fiber_line percentage material)) ;;
      append_lines rest
  end.

Definition full_info (y : t) : string :=
  base_info (id y) (name y) (brand y) (weight y) ++ nl ++ "Yarn Fiber Content:"
  ++ Py.str (PList (map PStr (match fiberContent y with Some l => l | None => [] end))).

Definition getFullData (web : Web) : M t unit :=
  self <- gets (fun self => self) ;;
  data <- lift (res_bind (web (RAVELRY_ENDPOINT ++ "/yarns/" ++ Py.str (id self) ++ ".json"))
                  (fun body => Py.item body "yarn")) ;;
  fibers <- lift (Py.get data "yarn_fibers") ;;
  yarnfibers <- lift (if Py.truthy fibers
                      then res_bind (Py.iter fibers) fiber_details
                      else Ok []) ;;
  modify (set_fiberContent []) ;;
  append_lines yarnfibers ;;
  modify (fun y => set_info (full_info y) y).

Definition getInfo (self : t) : string := info self.

(** The percentage the loop of [getMainFiber] keeps for an entry: [None]
    when the loop goes on to the next entry ([continue]). *)
Definition percentage (content : string) : res (option Z) :=
  let p0 := strip (hd EmptyString (split "%" content)) in
  if String.eqb p0 "None" || String.eqb p0 "null" then Ok None
  else if is_empty p0 then Ok None
  else match parse_int p0 with
       | None => Raise ValueError
       | Some pct => if pct =? 0 then Ok None else Ok (Some pct)
       end.

(** [parts[1].strip().title()] *)
Definition fiber_name (content : string) : res string :=
  match split "%" content with
  | _ :: part :: _ => Ok (title (strip part))
  | _ => Raise IndexError
  end.

(** One round of the loop over [(mainFiber, highestpct)]. *)
Definition main_step (st : option string * Z) (content : string) : res (option string * Z) :=
  res_bind (percentage content) (fun o =>
  match o with
  | None => Ok st
  | Some pct =>
      res_bind (fiber_name content) (fun fiber =>
      if negb (pct =? 0) && (snd st <=? pct) then Ok (Some fiber, pct) else Ok st)
  end).

Fixpoint main_loop (st : option string * Z) (contents : list string) : res (option string * Z) :=
  match contents with
  | [] => Ok st
  | content :: rest => res_bind (main_step st content) (fun st' => main_loop st' rest)
  end.

(** [getMainFiber] on the value of [self.fiberContent]. *)
Definition main_fiber (fiberContent : list string) : res string :=
  res_bind (main_loop (None, 0) fiberContent) (fun st =>
  match fst st with
  | Some (String c r) => Ok (String c r)
  | _ =>
      match fiberContent with
      | first :: _ => fiber_name first
      | [] => Raise IndexError
      end
  end).

Definition getMainFiber (self : t) : res string :=
  match fiberContent self with
  | Some l => main_fiber l
  | None => Raise AttributeError
  end.

Definition dict (y : t) : list (string * pyval) :=
  [("id", id y); ("name", PStr (name y)); ("brand", PStr (brand y));
   ("weight", weight y); ("info", PStr (info y))]
  ++ match fiberContent y with
     | Some l => [("fiberContent", PList (map PStr l))]
     | None => []
     end.

End Yarn.

(* ================================================================= *)
(** ** The part of [networkx] the catalogue uses *)

Module nx.

(** Values of node and edge attributes. *)
Inductive attr : Type :=
| AStr (s : string)
| AShop (s : Shop.t)
| AFloat (x : R).

(** An undirected graph: nodes in insertion order with their attribute
    dictionaries, and one entry for each edge, whichever way round it was
    first added. *)
Record Graph : Type := mk {
  node : Dict.t (Dict.t attr);
  edges : list ((string * string) * Dict.t attr)
}.

(** [nx.Graph()] *)
Definition empty : Graph := {| node := []; edges := [] |}.

Definition nodes (g : Graph) : list string := Dict.keys (node g).

(** [g.add_node(n, **attrs)] *)
Definition add_node (n : string) (attrs : Dict.t attr) (g : Graph) : Graph :=
  let old := match Dict.get n (node g) with Some d => d | None => [] end in
  {| node := Dict.set n (Dict.update old attrs) (node g); edges := edges g |}.

Definition same_edge (u v : string) (e : string * string) : bool :=
  String.eqb (fst e) u && String.eqb (snd e) v
  || String.eqb (fst e) v && String.eqb (snd e) u.

Fixpoint set_edge (u v : string) (attrs : Dict.t attr)
    (es : list ((string * string) * Dict.t attr)) : list ((string * string) * Dict.t attr) :=
  match es with
  | [] => [((u, v), attrs)]
  | (e, d) :: r =>
      if same_edge u v e then (e, Dict.update d attrs) :: r
      else (e, d) :: set_edge u v attrs r
  end.

Definition ensure_node (n : string) (nd : Dict.t (Dict.t attr)) : Dict.t (Dict.t attr) :=
  if Dict.mem n nd then nd else (nd ++ [(n, [])])%list.

(** [g.add_edge(u, v, **attrs)] *)
Definition add_edge (u v : string) (attrs : Dict.t attr) (g : Graph) : Graph :=
  {| node := ensure_node v (ensure_node u (node g));
     edges := set_edge u v attrs (edges g) |}.

Definition get_edge (u v : string) (g : Graph) : option (Dict.t attr) :=
  option_map snd (find (fun e => same_edge u v (fst e)) (edges g)).

(** [g.nodes[n][key]] *)
Definition node_attr (g : Graph) (n key : string) : res attr :=
  match Dict.get n (node g) with
  | Some d => match Dict.get key d with Some a => Ok a | None => Raise KeyError end
  | None => Raise KeyError
  end.

(** A loop on a node counts twice. *)
Definition degree (g : Graph) (n : string) : Z :=
  fold_left (fun acc e =>
               acc + (if String.eqb (fst (fst e)) n then 1 else 0)
                   + (if String.eqb (snd (fst e)) n then 1 else 0))
            (edges g) 0.

(** [nx.degree_centrality(g)]; the quotient [d / (n - 1)] is kept as the
    pair of its numerator and denominator. *)
Definition degree_centrality (g : Graph) : Dict.t (Z * Z) :=
  let n := Z.of_nat (length (node g)) in
  if n <=? 1 then map (fun k => (k, (1, 1))) (nodes g)
  else map (fun k => (k, (degree g k, n - 1))) (nodes g).

End nx.

(* ================================================================= *)
(** ** class Graph: the catalogue *)

Module Graph.

Import PyStr.

Record t : Type := mk {
  patterns : list Pattern.t;
  shops : list Shop.t;
  yarns : list Yarn.t
}.

(** The catalogue [self], the web, the cache files and what was printed. *)
Record World : Type := mkWorld {
  self : t;
  web : Web;
  files : Dict.t pyval;
  stdout : list string
}.

Definition set_self (g : t) (w : World) : World :=
  mkWorld g (web w) (files w) (stdout w).
Definition set_patterns (l : list Pattern.t) (w : World) : World :=
  set_self (mk l (shops (self w)) (yarns (self w))) w.
Definition set_yarns (l : list Yarn.t) (w : World) : World :=
  set_self (mk (patterns (self w)) (shops (self w)) l) w.

Definition print (s : string) : M World unit :=
  modify (fun w => mkWorld (self w) (web w) (files w) (stdout w ++ [s])%list).

Fixpoint replace {A} (i : nat) (x : A) (l : list A) : list A :=
  match l, i with
  | [], _ => []
  | _ :: r, O => x :: r
  | y :: r, S j => y :: replace j x r
  end.

(** A method of the [i]-th pattern, which the catalogue holds by
    reference: what it assigns is seen by the catalogue. *)
Definition on_pattern {A} (i : nat) (m : M Pattern.t A) : M World A :=
  fun w =>
    match nth_error (patterns (self w)) i with
    | Some p => let '(p', r) := m p in (set_patterns (replace i p' (patterns (self w))) w, r)
    | None => (w, Raise IndexError)
    end.

Definition on_yarn {A} (i : nat) (m : M Yarn.t A) : M World A :=
  fun w =>
    match nth_error (yarns (self w)) i with
    | Some y => let '(y', r) := m y in (set_yarns (replace i y' (yarns (self w))) w, r)
    | None => (w, Raise IndexError)
    end.

Definition the_pattern (i : nat) : M World Pattern.t :=
  on_pattern i (gets (fun p => p)).
Definition the_yarn (i : nat) : M World Yarn.t :=
  on_yarn i (gets (fun y => y)).

(** The position of the first element a loop with an early [return]
    stops at. *)
Fixpoint first_index {A} (test : A -> bool) (l : list A) : option nat :=
  match l with
  | [] => None
  | x :: r => if test x then Some O else option_map S (first_index test r)
  end.

(** *** Fetching the listings *)

Definition get_json (url : string) : M World pyval :=
  w <- gets web ;; lift (w url).

Fixpoint fetch_pages (url key : string) (first : nat) (count : nat) : M World (list pyval) :=
  match count with
  | O => ret []
  | S n =>
      data <- get_json (url ++ "?page=" ++ of_int (Z.of_nat first)) ;;
      page <- lift (res_bind (Py.item data key) Py.iter) ;;
      rest <- fetch_pages url key (S first) n ;;
      ret (page ++ rest)%list
  end.

Definition fetchData (url key : string) : M World (list pyval) :=
  data <- get_json url ;;
  n <- lift (res_bind (res_bind (Py.item data "paginator")
                        (fun p => Py.item p "page_count")) Py.int) ;;
  fetch_pages url key 1 (Z.to_nat n).

Definition fetchPatternData (url : string) := fetchData url "patterns".
Definition fetchShopsData (url : string) := fetchData url "shops".
Definition fetchYarnsData (url : string) := fetchData url "yarns".

(** [v.get(key).strip().title()] *)
Definition get_title (v : pyval) (key : string) : res string :=
  res_bind (res_bind (Py.get v key) Py.as_str) (fun s => Ok (title (strip s))).

(** *** The cache *)

Inductive objects : Type :=
| Patterns (l : list Pattern.t)
| Shops (l : list Shop.t)
| Yarns (l : list Yarn.t).

(** [object.__dict__] for each object of the list. *)
Definition dicts (l : objects) : list pyval :=
  match l with
  | Patterns ps => map (fun o => PDict (Pattern.dict o)) ps
  | Shops ss => map (fun o => PDict (Shop.dict o)) ss
  | Yarns ys => map (fun o => PDict (Yarn.dict o)) ys
  end.

(** [cacheData(list, filepath)]. The file holds the JSON text of [data];
    [json.load] gives back the value [json.dump] was given. The file
    system is the simplest one: a file is known by the text of its name,
    and [open] refuses the empty name only. Two names of one file, and a
    path that cannot be written, are not in it; a statement that depends
    on them says what it takes of the files as a hypothesis. *)
Definition cacheData (list : objects) (filepath : string) : M World unit :=
  let data := dicts list in
  if is_empty filepath then raise FileNotFoundError
  else modify (fun w => mkWorld (self w) (web w)
                          (Dict.set filepath (PList data) (files w)) (stdout w)).

Definition load_pattern (object : pyval) : res Pattern.t :=
  res_bind (Py.get object "id") (fun id =>
  res_bind (get_title object "name") (fun name =>
  res_bind (Py.get object "free") (fun free =>
  res_bind (Py.get object "link") (fun link =>
  res_bind (get_title object "designer") (fun designer =>
  Ok (Pattern.init id name free link designer)))))).

Definition load_shop (object : pyval) : res Shop.t :=
  res_bind (Py.get object "id") (fun id =>
  res_bind (get_title object "name") (fun name =>
  res_bind (Py.get object "lat") (fun lat =>
  res_bind (Py.get object "long") (fun long =>
  res_bind (Py.get object "city") (fun city =>
  Ok (Shop.init id name lat long city)))))).

Definition load_yarn (object : pyval) : res Yarn.t :=
  res_bind (Py.get object "id") (fun id =>
  res_bind (get_title object "name") (fun name =>
  res_bind (get_title object "brand") (fun brand =>
  res_bind (Py.get object "weight") (fun weight =>
  Ok (Yarn.init id name brand weight))))).

(** A list comprehension [[f(object) for object in object_data]]. *)
Fixpoint comprehension {A} (f : pyval -> res A) (l : list pyval) : res (list A) :=
  match l with
  | [] => Ok []
  | x :: r => res_bind (f x) (fun a => res_bind (comprehension f r) (fun r' => Ok (a :: r')))
  end.

(** What [loadCache] builds from the decoded content of the file. *)
Definition load_objects (object_data : pyval) (type : string) : res objects :=
  if String.eqb type "pattern" then
    res_bind (Py.iter object_data) (fun l =>
    res_bind (comprehension load_pattern l) (fun d => Ok (Patterns d)))
  else if String.eqb type "shop" then
    res_bind (Py.iter object_data) (fun l =>
    res_bind (comprehension load_shop l) (fun d => Ok (Shops d)))
  else if String.eqb type "yarn" then
    res_bind (Py.iter object_data) (fun l =>
    res_bind (comprehension load_yarn l) (fun d => Ok (Yarns d)))
  else Raise UnboundLocalError.

(** [loadCache(fileName, type)]; [None] is the value [False]. *)
Definition loadCache (fileName : pyval) (type : string) : M World (option objects) :=
  if Py.truthy fileName then
    path <- lift (match fileName with PStr s => Ok s | _ => Raise TypeError end) ;;
    fs <- gets files ;;
    object_data <- lift (match Dict.get path fs with
                         | Some v => Ok v
                         | None => Raise FileNotFoundError
                         end) ;;
    data <- lift (load_objects object_data type) ;;
    ret (Some data)
  else ret None.

(** *** [__init__] *)

Definition listed_pattern (pattern : pyval) : res Pattern.t :=
  res_bind (Py.get pattern "id") (fun id =>
  res_bind (get_title pattern "name") (fun name =>
  res_bind (Py.get pattern "free") (fun free =>
  res_bind (Py.get pattern "permalink") (fun permalink =>
  res_bind (match pattern with
            | PDict d => Ok (match Dict.get "designer" d with Some x => x | None => PDict [] end)
            | _ => Raise AttributeError
            end) (fun d =>
  res_bind (get_title d "name") (fun designer =>
  Ok (Pattern.init id name free
        (PStr ("https://www.ravelry.com/patterns/library/" ++ Py.str permalink))
        designer))))))).

Definition listed_shop (shop : pyval) : res Shop.t :=
  res_bind (Py.get shop "id") (fun id =>
  res_bind (get_title shop "name") (fun name =>
  res_bind (Py.get shop "latitude") (fun lat =>
  res_bind (Py.get shop "longitude") (fun long =>
  res_bind (Py.get shop "city") (fun city =>
  Ok (Shop.init id name lat long city)))))).

Definition listed_yarn (yarn : pyval) : res Yarn.t :=
  res_bind (Py.get yarn "id") (fun id =>
  res_bind (get_title yarn "name") (fun name =>
  res_bind (get_title yarn "yarn_company_name") (fun brand =>
  res_bind (Py.get yarn "yarn_weight") (fun weight =>
  Ok (Yarn.init id name brand weight))))).

Definition init_patterns (patternsCache : pyval) : M World (list Pattern.t) :=
  if Py.truthy patternsCache then
    o <- loadCache patternsCache "pattern" ;;
    ret (match o with Some (Patterns l) => l | _ => [] end)
  else
    l <- fetchPatternData RAVELRY_PATTERNS ;;
    lift (comprehension listed_pattern l).

Definition init_shops (shopsCache : pyval) : M World (list Shop.t) :=
  if Py.truthy shopsCache then
    o <- loadCache shopsCache "shop" ;;
    ret (match o with Some (Shops l) => l | _ => [] end)
  else
    l <- fetchShopsData RAVELRY_SHOPS ;;
    lift (comprehension listed_shop l).

Definition init_yarns (yarnsCache : pyval) : M World (list Yarn.t) :=
  if Py.truthy yarnsCache then
    o <- loadCache yarnsCache "yarn" ;;
    ret (match o with Some (Yarns l) => l | _ => [] end)
  else
    l <- fetchYarnsData RAVELRY_YARNS ;;
    lift (comprehension listed_yarn l).

(** [Graph(patternsCache, shopsCache, yarnsCache)] *)
Definition init (patternsCache shopsCache yarnsCache : pyval) : M World unit :=
  ps <- init_patterns patternsCache ;;
  modify (set_patterns ps) ;;
  ss <- init_shops shopsCache ;;
  modify (fun w => set_self (mk (patterns (self w)) ss (yarns (self w))) w) ;;
  ys <- init_yarns yarnsCache ;;
  modify (set_yarns ys).

(** *** Look-ups *)

(** The names of the yarns of the catalogue whose id is [recyarn[i]], for
    each [i] in turn. *)
Definition yarn_names (fmt : Yarn.t -> string) (recyarn : list pyval) (ys : list Yarn.t) : list string :=
  flat_map (fun r => map fmt (filter (fun yarn => Py.eq r (Yarn.id yarn)) ys)) recyarn.

Definition str_list (l : list string) : string := Py.str (PList (map PStr l)).

(** The body run for the pattern found at position [i]. *)
Definition found_pattern (i : nat) (fmt : Yarn.t -> string) (heading : string) : M World pyval :=
  pattern <- the_pattern i ;;
  print ("Found " ++ Pattern.name pattern ++ "!") ;;
  w <- gets web ;;
  on_pattern i (Pattern.getFullData w) ;;
  pattern <- the_pattern i ;;
  recyarn <- lift (match Pattern.recyarn pattern with
                   | Some l => Ok l
                   | None => Raise AttributeError
                   end) ;;
  ys <- gets (fun w => yarns (self w)) ;;
  let yarnList := yarn_names fmt recyarn ys in
  ret (PStr (Pattern.getInfo pattern ++ nl ++ heading ++ str_list yarnList)).

Definition not_found_pattern : pyval := PStr "Sorry, we couldn't find your pattern.".

(** [name.title()], evaluated when the loop compares the first element. *)
Definition title_of {A} (name : pyval) (l : list A) : res string :=
  match l with
  | [] => Ok EmptyString
  | _ :: _ => res_bind (Py.as_str name) (fun s => Ok (title s))
  end.

Definition getPattern (id name : pyval) : M World pyval :=
  ps <- gets (fun w => patterns (self w)) ;;
  if Py.truthy id then
    match first_index (fun pattern => Py.eq (Pattern.id pattern) id) ps with
    | Some i =>
        found_pattern i (fun yarn => Yarn.brand yarn ++ " " ++ Yarn.name yarn)
          "Recommended Yarns by Name: "
    | None => ret not_found_pattern
    end
  else if Py.truthy name then
    t <- lift (title_of name ps) ;;
    match first_index (fun pattern => String.eqb (Pattern.name pattern) t) ps with
    | Some i =>
        found_pattern i (fun yarn => Yarn.name yarn ++ " by " ++ Yarn.brand yarn)
          "Recommended Yarns by Brand + Name: "
    | None => ret not_found_pattern
    end
  else ret (PBool false).

(** The body run for the shop found: [shop.getFullData()] is an attribute
    the class [Shop] does not define. *)
Definition found_shop (shop : Shop.t) : M World pyval :=
  print ("Found " ++ Shop.name shop ++ "!") ;;
  (raise AttributeError : M World unit) ;;
  ret (PStr (Shop.getInfo shop)).

Definition getShop (id name : pyval) : M World pyval :=
  ss <- gets (fun w => shops (self w)) ;;
  if Py.truthy id then
    match find (fun shop => Py.eq (Shop.id shop) id) ss with
    | Some shop => found_shop shop
    | None => ret PNone
    end
  else if Py.truthy name then
    t <- lift (title_of name ss) ;;
    match find (fun shop => String.eqb (Shop.name shop) t) ss with
    | Some shop => found_shop shop
    | None => ret PNone
    end
  else ret (PBool false).

Definition found_yarn (i : nat) : M World pyval :=
  yarn <- the_yarn i ;;
  print ("Found " ++ Yarn.name yarn ++ "!") ;;
  w <- gets web ;;
  on_yarn i (Yarn.getFullData w) ;;
  yarn <- the_yarn i ;;
  ret (PStr (Yarn.getInfo yarn)).

Definition getYarn (id name : pyval) : M World pyval :=
  ys <- gets (fun w => yarns (self w)) ;;
  if Py.truthy id then
    match first_index (fun yarn => Py.eq (Yarn.id yarn) id) ys with
    | Some i => found_yarn i
    | None => ret PNone
    end
  else if Py.truthy name then
    t <- lift (title_of name ys) ;;
    match first_index (fun yarn => String.eqb (Yarn.name yarn) t) ys with
    | Some i => found_yarn i
    | None => ret PNone
    end
  else ret (PBool false).

(** *** The yarn network of a designer *)

(** [Counter(l)]: each element with the number of times it occurs, in
    the order of first occurrence. *)
Definition Counter (l : list string) : Dict.t Z :=
  fold_left (fun d x => Dict.set x (1 + match Dict.get x d with Some n => n | None => 0 end) d)
            l [].

(** [c.most_common(n)] *)
Definition most_common (n : nat) (c : Dict.t Z) : list (string * Z) :=
  firstn n (Py.sorted_desc (fun y x => snd x <? snd y) c).

(** The positions of the elements of [l] that pass [test], from [from]. *)
Fixpoint positions {A} (test : A -> bool) (from : nat) (l : list A) : list nat :=
  match l with
  | [] => []
  | x :: r => if test x then from :: positions test (S from) r
              else positions test (S from) r
  end.

Definition yarn_label (yarn : Yarn.t) : string :=
  Yarn.name yarn ++ " by " ++ Yarn.brand yarn.

(** The body of [for yarn in self.yarns] inside [createYarnGraph]. *)
Definition link_yarn (patternName : string) (recyarn : pyval)
    (acc : nx.Graph * list string) (yarn : Yarn.t) : nx.Graph * list string :=
  if Py.eq (Yarn.id yarn) recyarn then
    let yarnName := yarn_label yarn in
    let g1 := nx.add_node yarnName [("label", nx.AStr yarnName); ("type", nx.AStr "yarn")] (fst acc) in
    let g2 := nx.add_edge patternName yarnName [] g1 in
    (g2, (snd acc ++ [yarn_label yarn])%list)
  else acc.

(** The loop over [designerPatterns], given by their positions in
    [self.patterns]: the list holds the patterns of the catalogue
    themselves, and [getFullData] assigns to them. *)
Fixpoint yarn_loop (designerPatterns : list nat) (acc : nx.Graph * list string)
    : M World (nx.Graph * list string) :=
  match designerPatterns with
  | [] => ret acc
  | i :: rest =>
      w <- gets web ;;
      on_pattern i (Pattern.getFullData w) ;;
      pattern <- the_pattern i ;;
      let g := nx.add_node (Pattern.name pattern)
                 [("label", nx.AStr (Pattern.name pattern)); ("type", nx.AStr "pattern")]
                 (fst acc) in
      recyarns <- lift (match Pattern.recyarn pattern with
                        | Some l => Ok l
                        | None => Raise AttributeError
                        end) ;;
      ys <- gets (fun w => yarns (self w)) ;;
      yarn_loop rest
        (fold_left (fun acc recyarn => fold_left (link_yarn (Pattern.name pattern) recyarn) ys acc)
                   recyarns (g, snd acc))
  end.

(** What [createYarnGraph] returns: the graph alone, or the pair of the
    graph and the most common yarns. *)
Inductive yarn_graph : Type :=
| GraphOnly (graph : nx.Graph)
| GraphAndTop (graph : nx.Graph) (top : list (string * Z)).

Definition createYarnGraph (designer : string) : M World yarn_graph :=
  print "Creating graph..." ;;
  let graph := nx.empty in
  let designerClean := title (strip designer) in
  ps <- gets (fun w => patterns (self w)) ;;
  match positions (fun pattern => String.eqb (Pattern.designer pattern) designerClean) O ps with
  | [] =>
      print ("No patterns found for designer: " ++ designerClean) ;;
      ret (GraphOnly graph)
  | designerPatterns =>
      r <- yarn_loop designerPatterns (graph, []) ;;
      let yarnCount := Counter (snd r) in
      ret (GraphAndTop (fst r) (most_common 5 yarnCount))
  end.

(** *** The shop network of a city *)

Definition shop_label (shop : Shop.t) : string :=
  Shop.name shop ++ " (" ++ Py.str (Shop.city shop) ++ ")".

(** The first loop: the shops that have both coordinates, at most 50
    miles from the city. *)
Fixpoint near_shops (cityLat cityLong : R) (ss : list Shop.t) (graph : nx.Graph) : res nx.Graph :=
  match ss with
  | [] => Ok graph
  | shop :: rest =>
      if Py.truthy (Shop.lat shop) && Py.truthy (Shop.long shop) then
        res_bind (Shop.calcDistance shop (Py.float_obj cityLat) (Py.float_obj cityLong)) (fun d =>
        if Py.Rle_bool d 50 then
          near_shops cityLat cityLong rest
            (nx.add_node (shop_label shop) [("object", nx.AShop shop); ("type", nx.AStr "shop")] graph)
        else near_shops cityLat cityLong rest graph)
      else near_shops cityLat cityLong rest graph
  end.

(** [graph.nodes[n]['object']], on which [calcDistance], [lat] and [long]
    are then looked up. *)
Definition node_shop (graph : nx.Graph) (n : string) : res Shop.t :=
  res_bind (nx.node_attr graph n "object") (fun a =>
  match a with
  | nx.AShop s => Ok s
  | _ => Raise AttributeError
  end).

(** The body of the inner loop over [other_shop]. *)
Definition link_shop (shop : string) (graph : nx.Graph) (other_shop : string) : res nx.Graph :=
  if negb (String.eqb other_shop shop) then
    res_bind (node_shop graph shop) (fun s =>
    res_bind (node_shop graph other_shop) (fun o =>
    res_bind (Shop.calcDistance s (Shop.lat o) (Shop.long o)) (fun d =>
    Ok (nx.add_edge shop other_shop [("length", nx.AFloat d)] graph))))
  else Ok graph.

Fixpoint for_each {A S} (body : S -> A -> res S) (l : list A) (s : S) : res S :=
  match l with
  | [] => Ok s
  | x :: r => res_bind (body s x) (for_each body r)
  end.

(** The second loop: an edge between every two nodes. Adding an edge
    between two nodes of the graph adds no node, so both loops run over
    the nodes the first loop left. *)
Definition link_shops (graph : nx.Graph) : res nx.Graph :=
  let ns := nx.nodes graph in
  for_each (fun g shop => for_each (link_shop shop) ns g) ns graph.

(** [sorted(degCent.items(), key=value, reverse=True)], first three keys. *)
Definition top_three (graph : nx.Graph) : list string :=
  let degCent := nx.degree_centrality graph in
  let gtb (y x : string * (Z * Z)) :=
      fst (snd x) * snd (snd y) <? fst (snd y) * snd (snd x) in
  firstn 3 (map fst (Py.sorted_desc gtb degCent)).

(** [createShopGraph(city)]; [None] is the bare [return]. *)
Definition createShopGraph (city : string) : M World (option (nx.Graph * list string)) :=
  let cityClean := lower_str (strip city) in
  let LINK := "https://geocode.maps.co/search?city=" ++ cityClean ++ "&api_key=" ++ GEOCODE_KEY in
  response <- get_json LINK ;;
  data <- lift (Py.item0 response) ;;
  cityLat <- lift (res_bind (Py.get data "lat") PyFloat.float) ;;
  cityLong <- lift (res_bind (Py.get data "lon") PyFloat.float) ;;
  print "Creating graph..." ;;
  ss <- gets (fun w => shops (self w)) ;;
  graph <- lift (near_shops cityLat cityLong ss nx.empty) ;;
  graph <- lift (link_shops graph) ;;
  match nx.nodes graph with
  | [] =>
      print "There are no yarn shops within a 50 mile radius of this city." ;;
      ret None
  | _ => ret (Some (graph, top_three graph))
  end.

(** *** Drawing a network *)

(** The colours [visualizeGraph] gives to the types of nodes. *)
Definition color_map : Dict.t string :=
  [("pattern", "#F3F4F0"); ("yarn", "#EE6E62"); ("shop", "#EE6E62")].

(** [color_map[G.nodes[node]['type']]] *)
Definition node_color (G : nx.Graph) (node : string) : res string :=
  res_bind (nx.node_attr G node "type") (fun t =>
  match t with
  | nx.AStr s =>
      match Dict.get s color_map with
      | Some c => Ok c
      | None => Raise KeyError
      end
  | _ => Raise KeyError
  end).

(** [[color_map[G.nodes[node]['type']] for node in G]] *)
Definition node_colors (G : nx.Graph) : res (list string) :=
  for_each (fun colors node =>
              res_bind (node_color G node) (fun c => Ok (colors ++ [c])%list))
           (nx.nodes G) [].

(** [visualizeGraph(G, title)]: the line it prints and the colours it looks
    up. The figure that [matplotlib] then draws and shows is not part of
    the world modelled here. *)
Definition visualizeGraph (G : nx.Graph) (title : pyval) : M World unit :=
  print "Visualizing graph..." ;;
  colors <- lift (node_colors G) ;;
  ret tt.

End Graph.

(* ================================================================= *)
(** ** class Interact: how the menu uses the catalogue *)

Module Interact.

(** [yarnGraph[0]] in [visualizeYarnNetwork]. A pair gives its first
    component; a graph is subscripted by a node, and 0 is not a node. *)
Definition yarnGraph_0 (yarnGraph : Graph.yarn_graph) : res nx.Graph :=
  match yarnGraph with
  | Graph.GraphAndTop graph _ => Ok graph
  | Graph.GraphOnly _ => Raise KeyError
  end.

(** [yarnGraph[1]] *)
Definition yarnGraph_1 (yarnGraph : Graph.yarn_graph) : res (list (string * Z)) :=
  match yarnGraph with
  | Graph.GraphAndTop _ top => Ok top
  | Graph.GraphOnly _ => Raise KeyError
  end.

(** [shopGraph[0]] and [shopGraph[1]] in [visualizeShopNetwork]; [None]
    cannot be subscripted. *)
Definition shopGraph_0 (shopGraph : option (nx.Graph * list string)) : res nx.Graph :=
  match shopGraph with
  | Some (graph, _) => Ok graph
  | None => Raise TypeError
  end.

Definition shopGraph_1 (shopGraph : option (nx.Graph * list string)) : res (list string) :=
  match shopGraph with
  | Some (_, top) => Ok top
  | None => Raise TypeError
  end.

(** The f-string with [len(G.nodes())] and [len(G.edges())]. *)
Definition created_line (G : nx.Graph) : string :=
  "Graph created with " ++ PyStr.of_int (Z.of_nat (length (nx.nodes G)))
  ++ " nodes and " ++ PyStr.of_int (Z.of_nat (length (nx.edges G))) ++ " edges".

(** The text of a list of [(label, count)] tuples. *)
Definition top_text (top : list (string * Z)) : string :=
  "[" ++ PyStr.join ", "
           (map (fun e => "(" ++ Py.repr_str (fst e) ++ ", " ++ PyStr.of_int (snd e) ++ ")")
                top)
  ++ "]".

Section Menu.

(** The home page of the menu, to which both methods return at their
    end. *)
Variable beginInteraction : M Graph.World unit.

Definition visualizeYarnNetwork (designer : string) (title : pyval) : M Graph.World unit :=
  yarnGraph <- Graph.createYarnGraph designer ;;
  G <- lift (yarnGraph_0 yarnGraph) ;;
  if (length (nx.nodes G) =? 0)%nat then
    Graph.print ("No data found for designer: " ++ designer) ;;
    beginInteraction
  else
    Graph.print (created_line G) ;;
    Graph.visualizeGraph G title ;;
    top <- lift (yarnGraph_1 yarnGraph) ;;
    Graph.print ("Top 5 Recommended Yarns by " ++ designer ++ ": " ++ top_text top) ;;
    beginInteraction.

Definition visualizeShopNetwork (title : pyval) (city : string) : M Graph.World unit :=
  shopGraph <- Graph.createShopGraph city ;;
  G <- lift (shopGraph_0 shopGraph) ;;
  Graph.print (created_line G) ;;
  Graph.visualizeGraph G title ;;
  top <- lift (shopGraph_1 shopGraph) ;;
  Graph.print ("Top 3 Most Central Yarn Shops near " ++ city ++ ": " ++ Graph.str_list top) ;;
  beginInteraction.

End Menu.

(** [cacheAllData(shopsfile, yarnsfile, patternsfile)] *)
Definition cacheAllData (shopsfile yarnsfile patternsfile : string) : M Graph.World unit :=
  ss <- gets (fun w => Graph.shops (Graph.self w)) ;;
  Graph.cacheData (Graph.Shops ss) shopsfile ;;
  ys <- gets (fun w => Graph.yarns (Graph.self w)) ;;
  Graph.cacheData (Graph.Yarns ys) yarnsfile ;;
  ps <- gets (fun w => Graph.patterns (Graph.self w)) ;;
  Graph.cacheData (Graph.Patterns ps) patternsfile.

(** *** The finder of alternative yarns

    The part of [optionFive] that runs once the target pattern is found.
    The source has it twice, after the search by id and after the search
    by name; the two copies differ in the full stop that ends one printed
    line. The first copy is in the body of a [try] whose handler takes a
    [ValueError]; the handler belongs to the menu and is not part of this
    definition, which gives the exception the body raises. Objects are
    held by their positions in the catalogue, which is how
    [yarn not in recommended_yarns] tells them apart. *)

(** [recommended_yarns], [main_fibers] and [recommended_yarnweights]. *)
Record picks : Type := mk_picks {
  recommended_yarns : list nat;
  main_fibers : list string;
  recommended_yarnweights : list pyval
}.

(** [alternative_yarns.add(label)] *)
Definition add_label (label : string) (s : list string) : list string :=
  if existsb (String.eqb label) s then s else (s ++ [label])%list.

(** [for yarn in self.graph.yarns] for one id the target recommends. *)
Fixpoint pick_yarns (yarn_id : pyval) (js : list nat) (acc : picks) : M Graph.World picks :=
  match js with
  | [] => ret acc
  | j :: rest =>
      yarn <- Graph.the_yarn j ;;
      if Py.eq (Yarn.id yarn) yarn_id then
        w <- gets Graph.web ;;
        Graph.on_yarn j (Yarn.getFullData w) ;;
        yarn <- Graph.the_yarn j ;;
        mainFiber <- lift (Yarn.getMainFiber yarn) ;;
        pick_yarns yarn_id rest
          (mk_picks (recommended_yarns acc ++ [j]) (main_fibers acc ++ [mainFiber])
                    (recommended_yarnweights acc ++ [Yarn.weight yarn]))
      else pick_yarns yarn_id rest acc
  end.

(** [for yarn_id in target_pattern.recyarn] *)
Fixpoint pick_all (yarn_ids : list pyval) (acc : picks) : M Graph.World picks :=
  match yarn_ids with
  | [] => ret acc
  | yarn_id :: rest =>
      n <- gets (fun w => length (Graph.yarns (Graph.self w))) ;;
      acc' <- pick_yarns yarn_id (seq 0 n) acc ;;
      pick_all rest acc'
  end.

(** The loop that collects and hydrates the other patterns of the
    designer. *)
Fixpoint similar_loop (pattern_designer : string) (target : nat) (positions : list nat)
    (similar_patterns : list nat) : M Graph.World (list nat) :=
  match positions with
  | [] => ret similar_patterns
  | i :: rest =>
      pattern <- Graph.the_pattern i ;;
      target_pattern <- Graph.the_pattern target ;;
      if String.eqb (Pattern.designer pattern) pattern_designer
         && negb (Py.eq (Pattern.id pattern) (Pattern.id target_pattern))
      then
        w <- gets Graph.web ;;
        Graph.on_pattern i (Pattern.getFullData w) ;;
        similar_loop pattern_designer target rest (similar_patterns ++ [i])%list
      else similar_loop pattern_designer target rest similar_patterns
  end.

(** [for yarn in self.graph.yarns] for one id a similar pattern
    recommends. *)
Fixpoint alt_yarns (p : picks) (yarn_id : pyval) (js : list nat)
    (alternative_yarns : list string) : M Graph.World (list string) :=
  match js with
  | [] => ret alternative_yarns
  | j :: rest =>
      yarn <- Graph.the_yarn j ;;
      if Py.eq (Yarn.id yarn) yarn_id then
        w <- gets Graph.web ;;
        Graph.on_yarn j (Yarn.getFullData w) ;;
        yarn <- Graph.the_yarn j ;;
        main_fiber <- lift (Yarn.getMainFiber yarn) ;;
        if existsb (String.eqb main_fiber) (main_fibers p)
           && existsb (fun weight => Py.eq weight (Yarn.weight yarn)) (recommended_yarnweights p)
           && negb (existsb (Nat.eqb j) (recommended_yarns p))
        then
          Graph.print "Found an alternative yarn" ;;
          alt_yarns p yarn_id rest (add_label (Graph.yarn_label yarn) alternative_yarns)
        else alt_yarns p yarn_id rest alternative_yarns
      else alt_yarns p yarn_id rest alternative_yarns
  end.

(** [for yarn_id in pattern.recyarn], passing over [None]. *)
Fixpoint alt_ids (p : picks) (yarn_ids : list pyval) (alternative_yarns : list string)
    : M Graph.World (list string) :=
  match yarn_ids with
  | [] => ret alternative_yarns
  | PNone :: rest => alt_ids p rest alternative_yarns
  | yarn_id :: rest =>
      n <- gets (fun w => length (Graph.yarns (Graph.self w))) ;;
      alts <- alt_yarns p yarn_id (seq 0 n) alternative_yarns ;;
      alt_ids p rest alts
  end.

(** [for pattern in similar_patterns], passing over a pattern without
    [recyarn]. *)
Fixpoint alt_patterns (p : picks) (similar_patterns : list nat)
    (alternative_yarns : list string) : M Graph.World (list string) :=
  match similar_patterns with
  | [] => ret alternative_yarns
  | i :: rest =>
      pattern <- Graph.the_pattern i ;;
      match Pattern.recyarn pattern with
      | None => alt_patterns p rest alternative_yarns
      | Some recyarn =>
          alts <- alt_ids p recyarn alternative_yarns ;;
          alt_patterns p rest alts
      end
  end.

(** [[f"{yarn.name} by {yarn.brand}" for yarn in recommended_yarns]] *)
Fixpoint labels_of (js : list nat) : M Graph.World (list string) :=
  match js with
  | [] => ret []
  | j :: rest =>
      yarn <- Graph.the_yarn j ;;
      labels <- labels_of rest ;;
      ret (Graph.yarn_label yarn :: labels)
  end.

Section Finder.

Variable beginInteraction : M Graph.World unit.

(** The text of a set of labels. Python does not fix the order in which
    a set gives its elements, so the text is left open. *)
Variable set_text : list string -> string.

(** [stop] is the full stop of the copy that follows the search by name,
    and empty in the other one; [target] is the position of the pattern
    found. *)
Definition find_alternatives (stop : string) (target : nat) : M Graph.World unit :=
  w <- gets Graph.web ;;
  Graph.on_pattern target (Pattern.getFullData w) ;;
  target_pattern <- Graph.the_pattern target ;;
  let pattern_designer := Pattern.designer target_pattern in
  recyarn <- lift (match Pattern.recyarn target_pattern with
                   | Some l => Ok l
                   | None => Raise AttributeError
                   end) ;;
  p <- pick_all recyarn (mk_picks [] [] []) ;;
  match recommended_yarns p with
  | [] =>
      Graph.print "No recommended yarns found for this pattern" ;;
      beginInteraction
  | _ :: _ =>
      Graph.print "Found recommended yarns!" ;;
      m <- gets (fun w => length (Graph.patterns (Graph.self w))) ;;
      similar_patterns <- similar_loop pattern_designer target (seq 0 m) [] ;;
      Graph.print ("Found other patterns by " ++ pattern_designer ++ "!") ;;
      alternative_yarns <- alt_patterns p similar_patterns [] ;;
      labels <- labels_of (recommended_yarns p) ;;
      Graph.print (pattern_designer ++ " recommends these yarns for this pattern: "
                   ++ Graph.str_list labels ++ stop) ;;
      match alternative_yarns with
      | [] => Graph.print (nl ++ "No alternative yarns found in similar patterns")
      | _ :: _ =>
          Graph.print (nl ++ "Alternative yarns used in similar patterns: "
                       ++ set_text alternative_yarns)
      end ;;
      beginInteraction
  end.

End Finder.

End Interact.

(* ================================================================= *)
(** ** Vocabulary of the statements *)

(** *** Fibers *)

(** An entry the loop of [getMainFiber] passes over, or one it keeps with a
    percentage that [cmp] relates to [pct]. *)
Definition entry_bounded (cmp : Z -> Z -> Prop) (pct : Z) (content : string) : Prop :=
  Yarn.percentage content = Ok None
  \/ exists q fiber, Yarn.percentage content = Ok (Some q)
                     /\ Yarn.fiber_name content = Ok fiber /\ cmp q pct.

(** The percentage text of an entry: [parts[0].strip()]. *)
Definition percentage_text (content : string) : string :=
  PyStr.strip (hd EmptyString (PyStr.split "%" content)).

(** An entry without a percentage: the percentage text is empty, the
    token None or null, or an integer equal to zero. *)
Definition no_percentage (content : string) : Prop :=
  percentage_text content = EmptyString
  \/ percentage_text content = "None"
  \/ percentage_text content = "null"
  \/ PyStr.parse_int (percentage_text content) = Some 0.

(** A yarn whose fiber content has been filled in. *)
Definition yarn_with (fiberContent : list string) : Yarn.t :=
  Yarn.set_fiberContent fiberContent
    (Yarn.init (PInt 1) "Merino" "Acme" (PStr "Worsted")).

(** *** The cache *)

(** A name that [.strip().title()] leaves unchanged. *)
Definition normalized (s : string) : Prop := PyStr.title (PyStr.strip s) = s.

(** The [type] argument under which [loadCache] reads back a list. *)
Definition kind (l : Graph.objects) : string :=
  match l with
  | Graph.Patterns _ => "pattern"
  | Graph.Shops _ => "shop"
  | Graph.Yarns _ => "yarn"
  end.

(** The objects as their constructors first made them: the attributes
    given to the constructor, [info] as the constructor writes it, and none
    of the attributes [getFullData] assigns. *)
Definition as_constructed (l : Graph.objects) : Graph.objects :=
  match l with
  | Graph.Patterns ps =>
      Graph.Patterns
        (map (fun p => Pattern.init (Pattern.id p) (Pattern.name p) (Pattern.free p)
                         (Pattern.link p) (Pattern.designer p)) ps)
  | Graph.Shops ss =>
      Graph.Shops
        (map (fun s => Shop.init (Shop.id s) (Shop.name s) (Shop.lat s) (Shop.long s)
                         (Shop.city s)) ss)
  | Graph.Yarns ys =>
      Graph.Yarns
        (map (fun y => Yarn.init (Yarn.id y) (Yarn.name y) (Yarn.brand y) (Yarn.weight y)) ys)
  end.

Definition names_normalized (l : Graph.objects) : Prop :=
  match l with
  | Graph.Patterns ps =>
      Forall (fun p => normalized (Pattern.name p) /\ normalized (Pattern.designer p)) ps
  | Graph.Shops ss => Forall (fun s => normalized (Shop.name s)) ss
  | Graph.Yarns ys =>
      Forall (fun y => normalized (Yarn.name y) /\ normalized (Yarn.brand y)) ys
  end.

(** Every text that a constructor call of [loadCache] passes through
    [.strip().title()] satisfies [P]: the names and designers of the
    patterns, the names of the shops, the names and brands of the yarns. *)
Definition names_all (P : string -> Prop) (l : Graph.objects) : Prop :=
  match l with
  | Graph.Patterns ps => Forall (fun p => P (Pattern.name p) /\ P (Pattern.designer p)) ps
  | Graph.Shops ss => Forall (fun s => P (Shop.name s)) ss
  | Graph.Yarns ys => Forall (fun y => P (Yarn.name y) /\ P (Yarn.brand y)) ys
  end.

Definition names_ascii (l : Graph.objects) : Prop :=
  names_all (fun s => PyStr.is_ascii s = true) l.

(** The objects as [loadCache] builds them from what [cacheData] wrote:
    each one made by its constructor from the attributes the constructor
    takes, with the names passed through [.strip().title()] once more. *)
Definition reloaded (l : Graph.objects) : Graph.objects :=
  match l with
  | Graph.Patterns ps =>
      Graph.Patterns
        (map (fun p => Pattern.init (Pattern.id p) (PyStr.title (PyStr.strip (Pattern.name p)))
                         (Pattern.free p) (Pattern.link p)
                         (PyStr.title (PyStr.strip (Pattern.designer p)))) ps)
  | Graph.Shops ss =>
      Graph.Shops
        (map (fun s => Shop.init (Shop.id s) (PyStr.title (PyStr.strip (Shop.name s)))
                         (Shop.lat s) (Shop.long s) (Shop.city s)) ss)
  | Graph.Yarns ys =>
      Graph.Yarns
        (map (fun y => Yarn.init (Yarn.id y) (PyStr.title (PyStr.strip (Yarn.name y)))
                         (PyStr.title (PyStr.strip (Yarn.brand y))) (Yarn.weight y)) ys)
  end.

(** *** A small catalogue used in the examples

    Two yarns, and three patterns of which two are by Jane Doe: the Hat
    recommends both yarns and the Scarf the first one. *)
Definition Y1 : Yarn.t := Yarn.init (PInt 1) "Merino" "Acme" (PStr "Worsted").
Definition Y2 : Yarn.t := Yarn.init (PInt 2) "Sock" "Bolt" (PStr "Fingering").
Definition P1 : Pattern.t :=
  Pattern.init (PInt 10) "Hat" (PBool true) (PStr "hat") "Jane Doe".
Definition P2 : Pattern.t :=
  Pattern.init (PInt 11) "Scarf" (PBool false) (PStr "scarf") "Jane Doe".
Definition P3 : Pattern.t :=
  Pattern.init (PInt 12) "Mitt" (PBool false) (PStr "mitt") "John Roe".

Definition packs (ids : list Z) : pyval :=
  PList (map (fun z => PDict [("yarn_id", PInt z)]) ids).

Definition example_web : Web := fun url =>
  if String.eqb url "https://api.ravelry.com/patterns/10.json" then
    Ok (PDict [("pattern", PDict [("currency", PStr "USD"); ("packs", packs [1; 2])])])
  else if String.eqb url "https://api.ravelry.com/patterns/11.json" then
    Ok (PDict [("pattern", PDict [("packs", packs [1])])])
  else Raise RequestError.

Definition example_world : Graph.World :=
  Graph.mkWorld (Graph.mk [P1; P3; P2] [] [Y1; Y2]) example_web [] [].

(** *** Look-ups *)

(** Neither an id nor a name is given: both are [None], or empty or zero. *)
Definition no_selector (id name : pyval) : Prop :=
  Py.truthy id = false /\ Py.truthy name = false.

(** A selector is given and no record of [l] matches it: an id that no
    record has, or, without an id, a name that no record has once it is
    title-cased. *)
Definition unmatched {A} (get_id : A -> pyval) (get_name : A -> string)
    (l : list A) (id name : pyval) : Prop :=
  (Py.truthy id = true /\ forall x, In x l -> Py.eq (get_id x) id = false)
  \/ (Py.truthy id = false
      /\ exists s, name = PStr s /\ s <> EmptyString
                   /\ forall x, In x l -> get_name x <> PyStr.title s).

(** A selector is given and some record of [l] matches it. *)
Definition matched {A} (get_id : A -> pyval) (get_name : A -> string)
    (l : list A) (id name : pyval) : Prop :=
  (Py.truthy id = true /\ exists x, In x l /\ Py.eq (get_id x) id = true)
  \/ (Py.truthy id = false
      /\ exists s, name = PStr s /\ s <> EmptyString
                   /\ exists x, In x l /\ get_name x = PyStr.title s).

(** The world after [print(line)]. *)
Definition printed (line : string) (w : Graph.World) : Graph.World :=
  Graph.mkWorld (Graph.self w) (Graph.web w) (Graph.files w) (Graph.stdout w ++ [line])%list.

Definition S1 : Shop.t :=
  Shop.init (PInt 7) "Knit Nook" (PStr "40.0") (PStr "-75.0") (PStr "Philadelphia").

Definition shop_world : Graph.World :=
  Graph.mkWorld (Graph.mk [P1] [S1] [Y1]) example_web [] [].

(** *** Ranking *)

(** One step of [Counter(l)]. *)
Definition count_step (d : Dict.t Z) (x : string) : Dict.t Z :=
  Dict.set x (1 + match Dict.get x d with Some n => n | None => 0 end) d.

(** How many times [x] occurs in [l]. *)
Definition occurrences (x : string) (l : list string) : Z :=
  Z.of_nat (count_occ string_dec l x).

(** The distinct elements of [l] after those of [seen], in the order in
    which they are first met. *)
Fixpoint first_seen (seen l : list string) : list string :=
  match l with
  | [] => seen
  | x :: r => first_seen (if in_dec string_dec x seen then seen else seen ++ [x])%list r
  end.

(** [top] ranks the [n] most frequent labels of [l]: each label once, with
    the number of its occurrences, by descending count; labels with the
    same count come in the order in which [l] first has them, none being
    skipped; and no label left out occurs more often than one listed. *)
Definition ranked (n : nat) (l : list string) (top : list (string * Z)) : Prop :=
  length top = Nat.min n (length (first_seen [] l))
  /\ (forall x c, In (x, c) top -> In x l /\ c = occurrences x l)
  /\ NoDup (map fst top)
  /\ StronglySorted (fun a b => snd b <= snd a) top
  /\ (forall c, exists more,
         filter (fun x => occurrences x l =? c) (first_seen [] l)
         = (map fst (filter (fun e => snd e =? c) top) ++ more)%list)
  /\ (forall x, In x l -> ~ In x (map fst top) ->
                forall e, In e top -> occurrences x l <= snd e).

Definition yarn_attrs (label : string) : Dict.t nx.attr :=
  [("label", nx.AStr label); ("type", nx.AStr "yarn")].
Definition pattern_attrs (label : string) : Dict.t nx.attr :=
  [("label", nx.AStr label); ("type", nx.AStr "pattern")].

(** The network of Jane Doe in the example catalogue. *)
Definition example_graph : nx.Graph :=
  {| nx.node := [("Hat", pattern_attrs "Hat");
                 ("Merino by Acme", yarn_attrs "Merino by Acme");
                 ("Sock by Bolt", yarn_attrs "Sock by Bolt");
                 ("Scarf", pattern_attrs "Scarf")];
     nx.edges := [(("Hat", "Merino by Acme"), []);
                  (("Hat", "Sock by Bolt"), []);
                  (("Scarf", "Merino by Acme"), [])] |}.

(** *** The yarn network *)

(** [pattern.getFullData()] returns. *)
Definition hydrates (web : Web) (p : Pattern.t) : Prop :=
  snd (Pattern.getFullData web p) = Ok tt.

(** The pattern as [getFullData] leaves it. *)
Definition hydrated (web : Web) (p : Pattern.t) : Pattern.t :=
  fst (Pattern.getFullData web p).

Definition by_designer (designer : string) (pattern : Pattern.t) : bool :=
  String.eqb (Pattern.designer pattern) (PyStr.title (PyStr.strip designer)).

(** The labels of the yarns of the catalogue that a pattern recommends:
    for each recommended id in turn, every yarn with that id. *)
Definition pattern_labels (ys : list Yarn.t) (p : Pattern.t) : list string :=
  flat_map (fun recyarn =>
              map Graph.yarn_label (filter (fun yarn => Py.eq (Yarn.id yarn) recyarn) ys))
           (match Pattern.recyarn p with Some l => l | None => [] end).

(** Every yarn label met for the patterns of a designer, with
    multiplicity, in the order of the catalogue. *)
Definition designer_labels (w : Graph.World) (designer : string) : list string :=
  flat_map (fun p => pattern_labels (Graph.yarns (Graph.self w)) (hydrated (Graph.web w) p))
           (filter (by_designer designer) (Graph.patterns (Graph.self w))).

(** *** The shop network *)

(** The point the geocoder gives for [city], as [createShopGraph] reads
    it. *)
Definition city_point (w : Graph.World) (city : string) : res (R * R) :=
  res_bind (Graph.web w ("https://geocode.maps.co/search?city="
                         ++ PyStr.lower_str (PyStr.strip city)
                         ++ "&api_key=" ++ GEOCODE_KEY)) (fun response =>
  res_bind (Py.item0 response) (fun data =>
  res_bind (res_bind (Py.get data "lat") PyFloat.float) (fun cityLat =>
  res_bind (res_bind (Py.get data "lon") PyFloat.float) (fun cityLong =>
  Ok (cityLat, cityLong))))).

(** [shop.lat and shop.long] *)
Definition has_coordinates (shop : Shop.t) : bool :=
  Py.truthy (Shop.lat shop) && Py.truthy (Shop.long shop).

Definition distance_to (shop : Shop.t) (lat long : R) : res R :=
  Shop.calcDistance shop (Py.float_obj lat) (Py.float_obj long).

Definition distance_between (shop other : Shop.t) : res R :=
  Shop.calcDistance shop (Shop.lat other) (Shop.long other).

(** The test of the first loop of [createShopGraph]. *)
Definition included (cityLat cityLong : R) (shop : Shop.t) : bool :=
  has_coordinates shop
  && match distance_to shop cityLat cityLong with
     | Ok d => Py.Rle_bool d 50
     | Raise _ => false
     end.

Definition shop_attrs (shop : Shop.t) : Dict.t nx.attr :=
  [("object", nx.AShop shop); ("type", nx.AStr "shop")].

Definition add_shop (graph : nx.Graph) (shop : Shop.t) : nx.Graph :=
  nx.add_node (Graph.shop_label shop) (shop_attrs shop) graph.

(** Every node carries the attributes of a shop that satisfies [P]. *)
Definition shop_nodes (P : Shop.t -> Prop) (nd : Dict.t (Dict.t nx.attr)) : Prop :=
  forall k d, In (k, d) nd -> exists s, P s /\ k = Graph.shop_label s /\ d = shop_attrs s.

(** The number of entries of the graph for the edge between [u] and [v]. *)
Definition edge_count (u v : string) (es : list ((string * string) * Dict.t nx.attr)) : nat :=
  length (filter (fun e => nx.same_edge u v (fst e)) es).

(** The length the second loop computes for the edge between two nodes. *)
Definition weight (graph : nx.Graph) (u v : string) : R :=
  match Graph.node_shop graph u, Graph.node_shop graph v with
  | Ok s, Ok o => match distance_between s o with Ok d => d | Raise _ => 0%R end
  | _, _ => 0%R
  end.

Definition length_attrs (d : R) : Dict.t nx.attr := [("length", nx.AFloat d)].

(** The state of the second loop of [createShopGraph]: the nodes are
    those the first loop left; every edge joins two different nodes and
    carries the length [W] gives; no edge has two entries. *)
Definition edges_ok (nd : Dict.t (Dict.t nx.attr)) (W : string -> string -> R)
    (g : nx.Graph) : Prop :=
  nx.node g = nd
  /\ (forall e, In e (nx.edges g) ->
        In (fst (fst e)) (Dict.keys nd) /\ In (snd (fst e)) (Dict.keys nd)
        /\ fst (fst e) <> snd (fst e)
        /\ snd e = length_attrs (W (fst (fst e)) (snd (fst e))))
  /\ (forall u v, (edge_count u v (nx.edges g) <= 1)%nat).

(** The edges of [g] are still edges of [g']. *)
Definition edges_kept (g g' : nx.Graph) : Prop :=
  forall u v, (1 <= edge_count u v (nx.edges g))%nat -> (1 <= edge_count u v (nx.edges g'))%nat.

(** What [createShopGraph] returns for the graph the two loops built. *)
Definition shop_result (graph : nx.Graph) : option (nx.Graph * list string) :=
  match nx.nodes graph with
  | [] => None
  | _ => Some (graph, Graph.top_three graph)
  end.

(** Two shops of one name in one city, where the geocoder puts the city. *)
Definition chain_shop (id : Z) : Shop.t :=
  Shop.init (PInt id) "Knit Nook" (PStr "40.0") (PStr "-75.0") (PStr "Philadelphia").

Definition other_shop : Shop.t :=
  Shop.init (PInt 3) "Purl" (PStr "40.0") (PStr "-75.0") (PStr "Philadelphia").

Definition nowhere_shop : Shop.t :=
  Shop.init (PInt 4) "Lost Stitch" PNone (PStr "-75.0") (PStr "Philadelphia").

Definition geocoder : Web := fun url =>
  if String.eqb url "https://geocode.maps.co/search?city=philadelphia&api_key=" then
    Ok (PList [PDict [("lat", PStr "40.0"); ("lon", PStr "-75.0")]])
  else Raise RequestError.

Definition city_world (shops : list Shop.t) : Graph.World :=
  Graph.mkWorld (Graph.mk [] shops []) geocoder [] [].

(** A shop a quarter of a meridian south of the city. *)
Definition far_shop : Shop.t :=
  Shop.init (PInt 5) "Far Fibers" (PStr "-50.0") (PStr "-75.0") (PStr "Philadelphia").

(** The values [float] gives for the coordinates above. *)
Definition lat40 : R := (IZR 400 * powerRZ 10 (0 - 1))%R.
Definition long75 : R := (- (IZR 750 * powerRZ 10 (0 - 1)))%R.
Definition latm50 : R := (- (IZR 500 * powerRZ 10 (0 - 1)))%R.

(** *** A shop at the antipodes of a city

    The point ('59.9133301', '10.7389701') is in Oslo; the shop is at
    ('-59.9133303', '-169.26103'), within a foot of the point opposite on
    the globe. *)
Section Antipodes.

Import PrimInt63 PrimFloat.
Local Open Scope float_scope.

Definition antipode_lat : float := Binary64.decimal true 599133303 10000000.
Definition antipode_long : float := Binary64.decimal true 16926103 100000.
Definition oslo_lat : float := Binary64.decimal false 599133301 10000000.
Definition oslo_long : float := Binary64.decimal false 107389701 10000000.

(** The values of the sine and of the cosine, rounded to the nearest
    binary64 number, at the angles the formula reaches for the shop and
    the city above, in either order. *)
Definition libm_at_antipodes (libm_sin libm_cos : float -> float) : Prop :=
  libm_sin (-0x1.0bb201102d9f3p+0) = -0x1.bb046ad654c3fp-1
  /\ libm_sin 0x1.0bb201102d9f3p+0 = 0x1.bb046ad654c3fp-1
  /\ libm_sin (-0x1.921fb5480252cp+0) = -1
  /\ libm_sin 0x1.921fb5480252cp+0 = 1
  /\ libm_cos (-0x1.0bb20117aca1ap+0) = 0x1.00aba17fc4c66p-1
  /\ libm_cos 0x1.0bb20108ae9cap+0 = 0x1.00aba199b69b4p-1.

(** A table of these values: a sine and a cosine that are known at these
    angles only. *)
Definition sin_table (x : float) : float :=
  if abs x =? 0x1.0bb201102d9f3p+0 then
    if x <? 0 then -0x1.bb046ad654c3fp-1 else 0x1.bb046ad654c3fp-1
  else if abs x =? 0x1.921fb5480252cp+0 then
    if x <? 0 then -1 else 1
  else nan.

Definition cos_table (x : float) : float :=
  if x =? -0x1.0bb20117aca1ap+0 then 0x1.00aba17fc4c66p-1
  else if x =? 0x1.0bb20108ae9cap+0 then 0x1.00aba199b69b4p-1
  else nan.

End Antipodes.

(** *** Invariants of computations and of the catalogue *)

(** From a state that satisfies [P], the computation [m] raises or returns
    a value and leaves a state that satisfy [Q]. *)
Definition hoare {S A} (P : S -> Prop) (m : M S A) (Q : A -> S -> Prop) : Prop :=
  forall s, P s -> match m s with
                   | (s', Ok a) => Q a s'
                   | (_, Raise _) => True
                   end.

(** Whatever the outcome of [m], it leaves a state that satisfies [I] when
    it starts from one. *)
Definition stable {S A} (I : S -> Prop) (m : M S A) : Prop :=
  forall s, I s -> I (fst (m s)).

(** The names, designers and brands of the catalogue are normalized. *)
Definition catalogue_normalized (w : Graph.World) : Prop :=
  names_normalized (Graph.Patterns (Graph.patterns (Graph.self w)))
  /\ names_normalized (Graph.Shops (Graph.shops (Graph.self w)))
  /\ names_normalized (Graph.Yarns (Graph.yarns (Graph.self w))).

(** The names the catalogue holds, record by record: name and designer of
    each pattern, name of each shop, name and brand of each yarn. *)
Definition names_of (g : Graph.t)
    : list (string * string) * list string * list (string * string) :=
  (map (fun p => (Pattern.name p, Pattern.designer p)) (Graph.patterns g),
   map Shop.name (Graph.shops g),
   map (fun y => (Yarn.name y, Yarn.brand y)) (Graph.yarns g)).

(** The catalogue holds the names [N]. *)
Definition named (N : list (string * string) * list string * list (string * string))
    (w : Graph.World) : Prop :=
  names_of (Graph.self w) = N.

(** Whatever the outcome of [m], the catalogue holds the same names after
    it as before, record by record. *)
Definition keeps_names {A} (m : M Graph.World A) : Prop :=
  forall w, names_of (Graph.self (fst (m w))) = names_of (Graph.self w).

(** A text that [.strip().title()] has returned. *)
Definition cleaned (s : string) : Prop :=
  exists raw, s = PyStr.title (PyStr.strip raw).

(** Every name, designer and brand of the catalogue is a text that
    [.strip().title()] returned. *)
Definition catalogue_cleaned (w : Graph.World) : Prop :=
  names_all cleaned (Graph.Patterns (Graph.patterns (Graph.self w)))
  /\ names_all cleaned (Graph.Shops (Graph.shops (Graph.self w)))
  /\ names_all cleaned (Graph.Yarns (Graph.yarns (Graph.self w))).

(** *** Hydration *)

(** Every character of [s] passes [P]. *)
Fixpoint all_chars (P : ascii -> bool) (s : string) : bool :=
  match s with
  | EmptyString => true
  | String c r => P c && all_chars P r
  end.

(** [[item.get(key) for item in v]] when [v] is truthy, and nothing
    otherwise: what the two loops of [Pattern.getFullData] collect. *)
Definition gets_all (v : pyval) (key : string) : res (list pyval) :=
  if Py.truthy v
  then res_bind (Py.iter v) (Graph.comprehension (fun item => Py.get item key))
  else Ok [].

(** What [Pattern.getFullData] reads in the reply of the pattern
    endpoint. *)
Record pattern_details : Type := {
  d_currency : pyval;
  d_price : pyval;
  d_recyarn : list pyval;
  d_category : list pyval
}.

Definition pattern_reply (web : Web) (id : pyval) : res pattern_details :=
  res_bind (web (RAVELRY_ENDPOINT ++ "/patterns/" ++ Py.str id ++ ".json")) (fun body =>
  res_bind (Py.item body "pattern") (fun data =>
  res_bind (Py.get data "currency") (fun c =>
  res_bind (Py.get data "price") (fun pr =>
  res_bind (Py.get data "packs") (fun recYarn =>
  res_bind (gets_all recYarn "yarn_id") (fun recs =>
  res_bind (Py.get data "pattern_categories") (fun cat =>
  res_bind (gets_all cat "name") (fun cats =>
  Ok {| d_currency := c; d_price := pr; d_recyarn := recs; d_category := cats |})))))))).

(** The pattern [p] with the four attributes set and [info] rewritten. *)
Definition with_details (p : Pattern.t) (d : pattern_details) : Pattern.t :=
  let q := Pattern.mk (Pattern.id p) (Pattern.name p) (Pattern.free p) (Pattern.link p)
             (Pattern.designer p) (Pattern.info p)
             (Some (d_currency d)) (Some (d_price d))
             (Some (d_recyarn d)) (Some (d_category d)) in
  Pattern.set_info (Pattern.full_info q) q.

(** The lines [Yarn.getFullData] writes for the pairs of [yarnfibers]. *)
Fixpoint fiber_lines (yarnfibers : list (pyval * pyval)) : res (list string) :=
  match yarnfibers with
  | [] => Ok []
  | (percentage, fiber) :: rest =>
      res_bind (Py.get fiber "name") (fun material =>
      res_bind (fiber_lines rest) (fun ls =>
      Ok (Yarn.fiber_line percentage material :: ls)))
  end.

(** The fiber content the reply of the yarn endpoint gives. *)
Definition yarn_reply (web : Web) (id : pyval) : res (list string) :=
  res_bind (web (RAVELRY_ENDPOINT ++ "/yarns/" ++ Py.str id ++ ".json")) (fun body =>
  res_bind (Py.item body "yarn") (fun data =>
  res_bind (Py.get data "yarn_fibers") (fun fibers =>
  res_bind (if Py.truthy fibers then res_bind (Py.iter fibers) Yarn.fiber_details else Ok [])
    fiber_lines))).

(** The yarn [y] with its fiber content set and [info] rewritten. *)
Definition with_lines (y : Yarn.t) (ls : list string) : Yarn.t :=
  let q := Yarn.set_fiberContent ls y in
  Yarn.set_info (Yarn.full_info q) q.

(** An item of [yarn_fibers] that gives the integer percentage [z] of the
    fiber called [n]. *)
Definition fiber_record (item : pyval) (f : Z * string) : Prop :=
  Py.get item "percentage" = Ok (PInt (fst f))
  /\ exists ft, Py.get item "fiber_type" = Ok ft /\ Py.get ft "name" = Ok (PStr (snd f)).

(** The reply of the yarn endpoint for the fibers [items]. *)
Definition yarn_body (items : list pyval) : pyval :=
  PDict [("yarn", PDict [("yarn_fibers", PList items)])].

(** The line [getFullData] writes for the percentage and the name of [f]. *)
Definition line_of (f : Z * string) : string :=
  Yarn.fiber_line (PInt (fst f)) (PStr (snd f)).

(** The yarn endpoint answers for [id] with the fibers [fibers]. *)
Definition replies_fibers (web : Web) (id : pyval) (fibers : list (Z * string)) : Prop :=
  exists body data items,
    web (RAVELRY_ENDPOINT ++ "/yarns/" ++ Py.str id ++ ".json") = Ok body
    /\ Py.item body "yarn" = Ok data
    /\ Py.get data "yarn_fibers" = Ok (PList items)
    /\ Forall2 fiber_record items fibers.

(** [yarn.getFullData()] returns. *)
Definition yarn_hydrates (web : Web) (y : Yarn.t) : Prop :=
  snd (Yarn.getFullData web y) = Ok tt.

(** The yarn as [getFullData] leaves it. *)
Definition yarn_hydrated (web : Web) (y : Yarn.t) : Yarn.t :=
  fst (Yarn.getFullData web y).

Definition fiber_item (z : Z) (n : string) : pyval :=
  PDict [("percentage", PInt z); ("fiber_type", PDict [("name", PStr n)])].

(** A web that knows the fibers of yarn 1: 80% wool and 20% nylon. *)
Definition fiber_web : Web := fun url =>
  if String.eqb url "https://api.ravelry.com/yarns/1.json" then
    Ok (yarn_body [fiber_item 80 "wool"; fiber_item 20 "nylon"])
  else Raise RequestError.

(** *** Look-ups that find their record *)

(** The position of the pattern that [getPattern(id, name)] stops at. *)
Definition pattern_index (ps : list Pattern.t) (id name : pyval) : option nat :=
  if Py.truthy id then
    Graph.first_index (fun pattern => Py.eq (Pattern.id pattern) id) ps
  else
    match name with
    | PStr (String c r) =>
        Graph.first_index
          (fun pattern => String.eqb (Pattern.name pattern) (PyStr.title (String c r))) ps
    | _ => None
    end.

(** The text [getPattern] returns for the pattern it found. The look-up
    by id heads the list "by Name" and writes each yarn as brand and name;
    the look-up by name heads it "by Brand + Name" and writes name and
    brand. *)
Definition pattern_text (by_id : bool) (p : Pattern.t) (ys : list Yarn.t) : string :=
  let recyarn := match Pattern.recyarn p with Some l => l | None => [] end in
  Pattern.getInfo p ++ nl
  ++ (if by_id
      then "Recommended Yarns by Name: "
           ++ Graph.str_list
                (Graph.yarn_names (fun yarn => Yarn.brand yarn ++ " " ++ Yarn.name yarn)
                   recyarn ys)
      else "Recommended Yarns by Brand + Name: "
           ++ Graph.str_list
                (Graph.yarn_names (fun yarn => Yarn.name yarn ++ " by " ++ Yarn.brand yarn)
                   recyarn ys)).

(** The position of the yarn that [getYarn(id, name)] stops at. *)
Definition yarn_index (ys : list Yarn.t) (id name : pyval) : option nat :=
  if Py.truthy id then
    Graph.first_index (fun yarn => Py.eq (Yarn.id yarn) id) ys
  else
    match name with
    | PStr (String c r) =>
        Graph.first_index
          (fun yarn => String.eqb (Yarn.name yarn) (PyStr.title (String c r))) ys
    | _ => None
    end.

(** The world when the service answers as [web']: a [Web] is the service
    as it answers at one moment, and a later call may meet another one. *)
Definition with_web (web' : Web) (w : Graph.World) : Graph.World :=
  Graph.mkWorld (Graph.self w) web' (Graph.files w) (Graph.stdout w).

(** The service [web'] answers the detail request of [p] as [web] does. *)
Definition same_details (web web' : Web) (p : Pattern.t) : Prop :=
  pattern_reply web' (Pattern.id p) = pattern_reply web (Pattern.id p).

(** A service that still answers for the Hat and no longer for the other
    patterns. *)
Definition later_web : Web := fun url =>
  if String.eqb url "https://api.ravelry.com/patterns/10.json" then
    Ok (PDict [("pattern", PDict [("currency", PStr "USD"); ("packs", packs [1; 2])])])
  else Raise RequestError.

(** *** The yarn network, as a graph *)

(** What the body of the innermost loop of [createYarnGraph] does to the
    graph. *)
Definition link_graph (patternName : string) (recyarn : pyval) (g : nx.Graph)
    (yarn : Yarn.t) : nx.Graph :=
  fst (Graph.link_yarn patternName recyarn (g, []) yarn).

(** The graph after the round of the loop for the hydrated pattern [p]. *)
Definition add_pattern (ys : list Yarn.t) (g : nx.Graph) (p : Pattern.t) : nx.Graph :=
  fold_left (fun g recyarn => fold_left (link_graph (Pattern.name p) recyarn) ys g)
            (match Pattern.recyarn p with Some l => l | None => [] end)
            (nx.add_node (Pattern.name p) (pattern_attrs (Pattern.name p)) g).

(** The patterns of the catalogue once the builder has hydrated those of
    the designer. *)
Definition hydrate_designer (web : Web) (designer : string) (ps : list Pattern.t)
    : list Pattern.t :=
  map (fun p => if by_designer designer p then hydrated web p else p) ps.

(** The patterns of the designer, hydrated. *)
Definition designer_patterns (w : Graph.World) (designer : string) : list Pattern.t :=
  map (hydrated (Graph.web w))
      (filter (by_designer designer) (Graph.patterns (Graph.self w))).

(** The pairs of a pattern and a yarn it recommends. *)
Definition recommendations (ys : list Yarn.t) (ps : list Pattern.t) : list (string * string) :=
  flat_map (fun p => map (pair (Pattern.name p)) (pattern_labels ys p)) ps.

(** The names the network has for patterns and yarns. *)
Definition network_names (ys : list Yarn.t) (ps : list Pattern.t) : list string :=
  flat_map (fun p => Pattern.name p :: pattern_labels ys p) ps.

(** The node [n] is drawn as a pattern or as a yarn. *)
Definition typed_node (g : nx.Graph) (n : string) : Prop :=
  nx.node_attr g n "type" = Ok (nx.AStr "pattern")
  \/ nx.node_attr g n "type" = Ok (nx.AStr "yarn").

(** The graph [g] has the nodes [N], all typed, and joins the pairs [E]
    and nothing else. *)
Definition network_of (N : list string) (E : list (string * string)) (g : nx.Graph) : Prop :=
  (forall n, In n (nx.nodes g) <-> In n N)
  /\ (forall n, In n (nx.nodes g) -> typed_node g n)
  /\ (forall e, In e (nx.edges g) -> In (fst e) E)
  /\ (forall u v, In (u, v) E -> (1 <= edge_count u v (nx.edges g))%nat).

(** *** The shop network, as a graph *)

(** How many ends of the edge [e] are at the node [k]. *)
Definition ends (k : string) (e : (string * string) * Dict.t nx.attr) : nat :=
  ((if String.eqb (fst (fst e)) k then 1 else 0)
   + (if String.eqb (snd (fst e)) k then 1 else 0))%nat.

(** A graph without loops in which every two nodes are joined once. *)
Definition complete (g : nx.Graph) : Prop :=
  NoDup (nx.nodes g)
  /\ (forall e, In e (nx.edges g) ->
         In (fst (fst e)) (nx.nodes g) /\ In (snd (fst e)) (nx.nodes g)
         /\ fst (fst e) <> snd (fst e))
  /\ (forall u v, In u (nx.nodes g) -> In v (nx.nodes g) -> u <> v ->
         edge_count u v (nx.edges g) = 1%nat).

(** The shops the first loop of [createShopGraph] keeps. *)
Definition near (w : Graph.World) (cityLat cityLong : R) : list Shop.t :=
  filter (included cityLat cityLong) (Graph.shops (Graph.self w)).

(** *** Caching the catalogue *)

(** The catalogue with every object as its constructor first made it. *)
Definition as_built (g : Graph.t) : Graph.t :=
  Graph.mk
    (map (fun p => Pattern.init (Pattern.id p) (Pattern.name p) (Pattern.free p)
                     (Pattern.link p) (Pattern.designer p)) (Graph.patterns g))
    (map (fun s => Shop.init (Shop.id s) (Shop.name s) (Shop.lat s) (Shop.long s)
                     (Shop.city s)) (Graph.shops g))
    (map (fun y => Yarn.init (Yarn.id y) (Yarn.name y) (Yarn.brand y) (Yarn.weight y))
         (Graph.yarns g)).

(** The world after [cacheData(list, filepath)] has written its file. *)
Definition written (list : Graph.objects) (filepath : string) (w : Graph.World)
    : Graph.World :=
  Graph.mkWorld (Graph.self w) (Graph.web w)
    (Dict.set filepath (PList (Graph.dicts list)) (Graph.files w)) (Graph.stdout w).

(** Reading the file named [f] gives what [cacheData] writes from [l]. *)
Definition file_holds (w : Graph.World) (f : string) (l : Graph.objects) : Prop :=
  Dict.get f (Graph.files w) = Some (PList (Graph.dicts l)).

(** The names, designers and brands of the catalogue are ASCII text. *)
Definition catalogue_ascii (w : Graph.World) : Prop :=
  names_ascii (Graph.Patterns (Graph.patterns (Graph.self w)))
  /\ names_ascii (Graph.Shops (Graph.shops (Graph.self w)))
  /\ names_ascii (Graph.Yarns (Graph.yarns (Graph.self w))).

(** A record of a cache file from which no object can be built: it is not
    a dictionary, or its [name] is missing or not text. *)
Definition unnamed (object : pyval) : Prop :=
  match object with
  | PDict d => match Dict.get "name" d with Some (PStr _) => False | _ => True end
  | _ => True
  end.

(** *** Listings *)

(** The number of pages the listing at [url] announces. *)
Definition page_count (web : Web) (url : string) : res Z :=
  res_bind (web url) (fun data =>
  res_bind (res_bind (Py.item data "paginator") (fun p => Py.item p "page_count")) Py.int).

(** Page [i] of the listing at [url] holds the items [items] under
    [key]. *)
Definition page_holds (web : Web) (url key : string) (i : nat) (items : list pyval) : Prop :=
  exists body,
    web (url ++ "?page=" ++ PyStr.of_int (Z.of_nat i)) = Ok body
    /\ Py.item body key = Ok (PList items).

(** *** The finder of alternative yarns *)

(** The attributes of a yarn and of a pattern that hydration leaves
    alone. *)
Definition same_card (a b : Yarn.t) : Prop :=
  Yarn.id a = Yarn.id b /\ Yarn.name a = Yarn.name b
  /\ Yarn.brand a = Yarn.brand b /\ Yarn.weight a = Yarn.weight b.

Definition same_pattern (a b : Pattern.t) : Prop :=
  Pattern.id a = Pattern.id b /\ Pattern.designer a = Pattern.designer b.

(** The pattern at position [i] holds the yarn ids of its reply. *)
Definition hydrated_at (w0 : Graph.World) (i : nat) (w : Graph.World) : Prop :=
  exists q0 q d,
    nth_error (Graph.patterns (Graph.self w0)) i = Some q0
    /\ nth_error (Graph.patterns (Graph.self w)) i = Some q
    /\ pattern_reply (Graph.web w0) (Pattern.id q0) = Ok d
    /\ Pattern.recyarn q = Some (d_recyarn d).

(** What the loops of the finder keep of the world [w0] they started in:
    the web, the records of the catalogue up to hydration, and the yarn ids
    of the patterns at the positions [H], which they have hydrated. *)
Definition finder_inv (w0 : Graph.World) (H : list nat) (w : Graph.World) : Prop :=
  Graph.web w = Graph.web w0
  /\ Forall2 same_card (Graph.yarns (Graph.self w0)) (Graph.yarns (Graph.self w))
  /\ Forall2 same_pattern (Graph.patterns (Graph.self w0)) (Graph.patterns (Graph.self w))
  /\ Forall (fun i => hydrated_at w0 i w) H.

(** The yarn at position [j] holds the fiber lines [ls] of its reply. *)
Definition fibers_at (w0 : Graph.World) (j : nat) (ls : list string) (w : Graph.World) : Prop :=
  exists y0 y,
    nth_error (Graph.yarns (Graph.self w0)) j = Some y0
    /\ yarn_reply (Graph.web w0) (Yarn.id y0) = Ok ls
    /\ nth_error (Graph.yarns (Graph.self w)) j = Some y
    /\ Yarn.fiberContent y = Some ls.

(** The dominant fiber of a yarn as the service describes it. *)
Definition fiber_of (web : Web) (y : Yarn.t) : res string :=
  res_bind (yarn_reply web (Yarn.id y)) Yarn.main_fiber.

(** The yarn at position [j] has the id [r]. *)
Definition yarn_has_id (w0 : Graph.World) (r : pyval) (j : nat) : Prop :=
  exists y, nth_error (Graph.yarns (Graph.self w0)) j = Some y
            /\ Py.eq (Yarn.id y) r = true.

(** The three lists go together: position by position they give a yarn of
    the catalogue that has one of the ids [recyarn], its dominant fiber and
    its weight. *)
Definition picks_ok (w0 : Graph.World) (recyarn : list pyval) (p : Interact.picks) : Prop :=
  Forall (fun j => exists r, In r recyarn /\ yarn_has_id w0 r j) (Interact.recommended_yarns p)
  /\ Forall2 (fun j f => exists y, nth_error (Graph.yarns (Graph.self w0)) j = Some y
                                   /\ fiber_of (Graph.web w0) y = Ok f)
             (Interact.recommended_yarns p) (Interact.main_fibers p)
  /\ Forall2 (fun j e => exists y, nth_error (Graph.yarns (Graph.self w0)) j = Some y
                                   /\ e = Yarn.weight y)
             (Interact.recommended_yarns p) (Interact.recommended_yarnweights p).

(** The position [i] holds another pattern of the designer of the
    target. *)
Definition similar_to (w0 : Graph.World) (target i : nat) : Prop :=
  exists t0 q0,
    nth_error (Graph.patterns (Graph.self w0)) target = Some t0
    /\ nth_error (Graph.patterns (Graph.self w0)) i = Some q0
    /\ Pattern.designer q0 = Pattern.designer t0
    /\ Py.eq (Pattern.id q0) (Pattern.id t0) = false.

(** The id [r] is one that another pattern of the designer recommends. *)
Definition similar_id (w0 : Graph.World) (target : nat) (r : pyval) : Prop :=
  exists i q0 d,
    similar_to w0 target i
    /\ nth_error (Graph.patterns (Graph.self w0)) i = Some q0
    /\ pattern_reply (Graph.web w0) (Pattern.id q0) = Ok d
    /\ In r (d_recyarn d) /\ r <> PNone.

(** The label of the yarn at position [j]. *)
Definition label_at (w0 : Graph.World) (j : nat) (label : string) : Prop :=
  exists y, nth_error (Graph.yarns (Graph.self w0)) j = Some y
            /\ label = Graph.yarn_label y.

(** A label the finder may report as an alternative: that of a yarn which
    is not one of the recommended yarns, which another pattern of the
    designer recommends, and which has the dominant fiber of a recommended
    yarn and the weight of a recommended yarn. *)
Definition alternative (w0 : Graph.World) (target : nat) (p : Interact.picks)
    (label : string) : Prop :=
  exists j y,
    nth_error (Graph.yarns (Graph.self w0)) j = Some y
    /\ label = Graph.yarn_label y
    /\ ~ In j (Interact.recommended_yarns p)
    /\ (exists r, similar_id w0 target r /\ Py.eq (Yarn.id y) r = true)
    /\ (exists k yk f,
          In k (Interact.recommended_yarns p)
          /\ nth_error (Graph.yarns (Graph.self w0)) k = Some yk
          /\ fiber_of (Graph.web w0) yk = Ok f /\ fiber_of (Graph.web w0) y = Ok f)
    /\ (exists k yk,
          In k (Interact.recommended_yarns p)
          /\ nth_error (Graph.yarns (Graph.self w0)) k = Some yk
          /\ Py.eq (Yarn.weight yk) (Yarn.weight y) = true).

(** The last line the finder prints about the alternatives. *)
Definition alternatives_line (set_text : list string -> string) (alts : list string) : string :=
  match alts with
  | [] => nl ++ "No alternative yarns found in similar patterns"
  | _ :: _ => nl ++ "Alternative yarns used in similar patterns: " ++ set_text alts
  end.

(** A text for a set: its elements in the order in which they were
    added. *)
Definition set_in_order (l : list string) : string :=
  "{" ++ PyStr.join ", " (map Py.repr_str l) ++ "}".

(** A catalogue for the finder. The Hat recommends the yarn 1; the Scarf,
    by the same designer, recommends the yarns 1, 2 and 3; the yarn 3 has
    the fiber and the weight of the yarn 1 and the yarn 2 has not. *)
Definition Y3 : Yarn.t := Yarn.init (PInt 3) "Aran" "Croft" (PStr "Worsted").

Definition finder_web : Web := fun url =>
  if String.eqb url "https://api.ravelry.com/patterns/10.json" then
    Ok (PDict [("pattern", PDict [("packs", packs [1])])])
  else if String.eqb url "https://api.ravelry.com/patterns/11.json" then
    Ok (PDict [("pattern", PDict [("packs", packs [1; 2; 3])])])
  else if String.eqb url "https://api.ravelry.com/yarns/1.json" then
    Ok (yarn_body [fiber_item 80 "wool"; fiber_item 20 "nylon"])
  else if String.eqb url "https://api.ravelry.com/yarns/2.json" then
    Ok (yarn_body [fiber_item 100 "cotton"])
  else if String.eqb url "https://api.ravelry.com/yarns/3.json" then
    Ok (yarn_body [fiber_item 100 "wool"])
  else Raise RequestError.

Definition finder_world : Graph.World :=
  Graph.mkWorld (Graph.mk [P1; P3; P2] [] [Y1; Y2; Y3]) finder_web [] [].

(* ================================================================= *)
(** * Properties *)

(** ** Dominant fiber *)

Section MainFiber.

Import PyStr.

Lemma main_loop_app st l1 l2 :
  Yarn.main_loop st (l1 ++ l2)
  = res_bind (Yarn.main_loop st l1) (fun st' => Yarn.main_loop st' l2).
Proof.
  revert st. induction l1 as [|c l1 IH]; intros st; simpl; [reflexivity|].
  destruct (Yarn.main_step st c); simpl; auto.
Qed.

Lemma main_step_skip st content :
  Yarn.percentage content = Ok None -> Yarn.main_step st content = Ok st.
Proof. intros H. unfold Yarn.main_step. rewrite H. reflexivity. Qed.

Lemma main_step_keep m h content pct fiber :
  Yarn.percentage content = Ok (Some pct) ->
  Yarn.fiber_name content = Ok fiber ->
  pct <> 0 ->
  Yarn.main_step (m, h) content
  = Ok (if h <=? pct then (Some fiber, pct) else (m, h)).
Proof.
  intros Hp Hf Hz. unfold Yarn.main_step. rewrite Hp. simpl. rewrite Hf. simpl.
  destruct (Z.eqb_spec pct 0) as [->|_]; [contradiction|]. simpl.
  destruct (h <=? pct); reflexivity.
Qed.

Lemma percentage_nonzero content pct :
  Yarn.percentage content = Ok (Some pct) -> pct <> 0.
Proof.
  unfold Yarn.percentage.
  destruct (_ || _); [discriminate|].
  destruct (is_empty _); [discriminate|].
  destruct (parse_int _) as [z|]; [|discriminate].
  destruct (Z.eqb_spec z 0); [discriminate|].
  intros H; injection H as <-. assumption.
Qed.

(** Entries that are passed over, or kept with a percentage of at most
    [pct], leave the running best at most [pct]. *)
Lemma main_loop_le pct l :
  Forall (entry_bounded Z.le pct) l ->
  forall m h, h <= pct ->
  exists m' h', Yarn.main_loop (m, h) l = Ok (m', h') /\ h' <= pct.
Proof.
  induction 1 as [|c l Hc _ IH]; intros m h Hh; simpl.
  - eauto.
  - destruct Hc as [Hs|(q & f & Hq & Hf & Hle)].
    + rewrite (main_step_skip _ _ Hs). simpl. apply IH; assumption.
    + rewrite (main_step_keep _ _ _ _ _ Hq Hf (percentage_nonzero _ _ Hq)). simpl.
      destruct (h <=? q); apply IH; assumption.
Qed.

(** Entries that are passed over, or kept with a percentage below the
    running best, do not change it. *)
Lemma main_loop_lt m pct l :
  Forall (entry_bounded Z.lt pct) l ->
  Yarn.main_loop (m, pct) l = Ok (m, pct).
Proof.
  induction 1 as [|c l Hc _ IH]; simpl; [reflexivity|].
  destruct Hc as [Hs|(q & f & Hq & Hf & Hlt)].
  - rewrite (main_step_skip _ _ Hs). simpl. exact IH.
  - rewrite (main_step_keep _ _ _ _ _ Hq Hf (percentage_nonzero _ _ Hq)).
    destruct (Z.leb_spec pct q); [lia|]. simpl. exact IH.
Qed.

Lemma main_loop_skipped st l :
  Forall (fun c => Yarn.percentage c = Ok None) l -> Yarn.main_loop st l = Ok st.
Proof.
  induction 1 as [|c l Hc _ IH]; simpl; [reflexivity|].
  rewrite (main_step_skip _ _ Hc). simpl. exact IH.
Qed.

End MainFiber.

Section MainFiberProperties.

Import PyStr.

(** A later entry whose percentage equals the running best does replace
    it: with two entries tied at 50, [getMainFiber] answers the second. *)
Lemma getMainFiber_tie_first_loses :
  Yarn.percentage "50% Wool" = Ok (Some 50)
  /\ Yarn.percentage "50% Nylon" = Ok (Some 50)
  /\ Yarn.getMainFiber (yarn_with ["50% Wool"; "50% Nylon"]) = Ok "Nylon"
  /\ Yarn.getMainFiber (yarn_with ["50% Wool"; "50% Nylon"]) <> Ok "Wool".
Proof. repeat split; try reflexivity. vm_compute. discriminate. Qed.

(** C3, as amended: among the entries with a usable percentage the LAST
    one that reaches the maximum is selected. If [content] is kept with
    percentage [pct], no entry before it is above [pct] (entries equal to
    [pct] are allowed) and every entry after it is below, the answer is
    the fiber of [content]. *)
Theorem getMainFiber_last_maximum_wins :
  forall (y : Yarn.t) (before after : list string) (content : string)
         (pct : Z) (fiber : string),
    Yarn.fiberContent y = Some (before ++ content :: after)%list ->
    Forall (entry_bounded Z.le pct) before ->
    Yarn.percentage content = Ok (Some pct) ->
    0 < pct ->
    Yarn.fiber_name content = Ok fiber ->
    fiber <> EmptyString ->
    Forall (entry_bounded Z.lt pct) after ->
    Yarn.getMainFiber y = Ok fiber.
Proof.
  intros y before after content pct fiber Hy Hb Hp Hpos Hf Hne Ha.
  unfold Yarn.getMainFiber. rewrite Hy. unfold Yarn.main_fiber.
  rewrite main_loop_app.
  destruct (main_loop_le pct before Hb None 0 ltac:(lia)) as (m & h & Hloop & Hh).
  rewrite Hloop. simpl.
  rewrite (main_step_keep _ _ _ _ _ Hp Hf ltac:(lia)).
  destruct (Z.leb_spec h pct); [|lia]. simpl.
  rewrite (main_loop_lt _ _ _ Ha). simpl.
  destruct fiber; [contradiction|reflexivity].
Qed.

Lemma getMainFiber_last_maximum_wins_witness :
  Yarn.getMainFiber (yarn_with ["50% Wool"; "50% Nylon"; "20% Silk"]) = Ok "Nylon".
Proof.
  apply (getMainFiber_last_maximum_wins
           (yarn_with ["50% Wool"; "50% Nylon"; "20% Silk"])
           ["50% Wool"] ["20% Silk"] "50% Nylon" 50 "Nylon").
  - reflexivity.
  - constructor; [|constructor]. right. exists 50, "Wool".
    repeat split; reflexivity.
  - reflexivity.
  - reflexivity.
  - reflexivity.
  - discriminate.
  - constructor; [|constructor]. right. exists 20, "Silk".
    repeat split; reflexivity.
Defined.

(** An entry with a zero percentage is passed over like one without a
    percentage: it cannot be selected by the loop, and the fallback to
    the first entry applies. *)
Lemma zero_percentage_is_skipped :
  Yarn.percentage "0% Wool" = Ok None
  /\ Yarn.main_step (None, 0) "0% Wool" = Ok (None, 0)
  /\ Yarn.getMainFiber (yarn_with ["None% Cotton"; "0% Wool"]) = Ok "Cotton".
Proof. repeat split; reflexivity. Qed.

(** A percentage that is not an integer literal is not passed over:
    [int] raises. *)
Lemma getMainFiber_non_numeric_raises :
  Yarn.getMainFiber (yarn_with ["abc% Wool"]) = Raise ValueError
  /\ Yarn.getMainFiber (yarn_with ["12.5% Wool"]) = Raise ValueError.
Proof. split; reflexivity. Qed.

(** C4, as amended: the loop passes over exactly the entries whose
    percentage text is empty, the token None or null, or an integer equal
    to zero, and it does so without failing, whatever follows the
    percentage; an entry with a non-zero integer percentage takes part
    in the selection of the maximum. *)
Theorem percentage_skipped_iff_missing_or_zero :
  forall content : string,
    (Yarn.percentage content = Ok None
     <-> percentage_text content = EmptyString
         \/ percentage_text content = "None"
         \/ percentage_text content = "null"
         \/ parse_int (percentage_text content) = Some 0)
    /\ (Yarn.percentage content = Ok None ->
        forall st, Yarn.main_step st content = Ok st)
    /\ (forall pct fiber m h,
           parse_int (percentage_text content) = Some pct ->
           pct <> 0 ->
           Yarn.fiber_name content = Ok fiber ->
           Yarn.percentage content = Ok (Some pct)
           /\ Yarn.main_step (m, h) content
              = Ok (if h <=? pct then (Some fiber, pct) else (m, h))).
Proof.
  intros content.
  assert (Hkeep : forall pct, parse_int (percentage_text content) = Some pct ->
                              pct <> 0 -> Yarn.percentage content = Ok (Some pct)).
  { intros pct Hp Hz. unfold Yarn.percentage. fold (percentage_text content).
    destruct (String.eqb_spec (percentage_text content) "None") as [E|_];
      [rewrite E in Hp; discriminate|].
    destruct (String.eqb_spec (percentage_text content) "null") as [E|_];
      [rewrite E in Hp; discriminate|].
    simpl. destruct (percentage_text content) eqn:E; [discriminate|].
    simpl. rewrite Hp. destruct (Z.eqb_spec pct 0); [contradiction|reflexivity]. }
  split; [|split].
  - unfold Yarn.percentage. fold (percentage_text content).
    destruct (String.eqb_spec (percentage_text content) "None") as [E|N1];
      [simpl; tauto|].
    destruct (String.eqb_spec (percentage_text content) "null") as [E|N2];
      [simpl; tauto|].
    simpl. destruct (percentage_text content) as [|c r] eqn:E; [simpl; tauto|].
    simpl. destruct (parse_int (String c r)) as [z|] eqn:Hz.
    + destruct (Z.eqb_spec z 0) as [->|Hn].
      * tauto.
      * split; [discriminate|].
        intros [H|[H|[H|H]]]; try discriminate; try contradiction.
        injection H as ->. contradiction.
    + split; [discriminate|].
      intros [H|[H|[H|H]]]; try discriminate; contradiction.
  - intros H st. apply main_step_skip. exact H.
  - intros pct fiber m h Hp Hz Hf. split; [apply Hkeep; assumption|].
    apply main_step_keep; auto.
Qed.

Lemma percentage_skipped_iff_missing_or_zero_witness :
  (forall st, Yarn.main_step st "0% Wool" = Ok st)
  /\ Yarn.main_step (Some "Nylon", 20) "80% wool" = Ok (Some "Wool", 80).
Proof.
  split.
  - apply (proj1 (proj2 (percentage_skipped_iff_missing_or_zero "0% Wool"))).
    reflexivity.
  - apply (proj2 (proj2 (proj2 (percentage_skipped_iff_missing_or_zero "80% wool"))
                    80 "Wool" (Some "Nylon") 20 eq_refl ltac:(discriminate) eq_refl)).
Defined.

Lemma split_no_sep sep s : contains sep s = false -> split sep s = [s].
Proof.
  induction s as [|c s IH]; simpl; [reflexivity|].
  destruct (Ascii.eqb c sep); simpl; [discriminate|].
  intros H. rewrite (IH H). reflexivity.
Qed.

Lemma split_app_sep sep a b :
  contains sep a = false ->
  split sep (a ++ String sep b) = a :: split sep b.
Proof.
  induction a as [|c a IH]; simpl.
  - rewrite Ascii.eqb_refl. reflexivity.
  - destruct (Ascii.eqb c sep); simpl; [discriminate|].
    intros H. rewrite (IH H). reflexivity.
Qed.

Lemma strip_space_cons s : strip (String " " s) = strip s.
Proof.
  unfold strip. simpl. destruct (rstrip s); reflexivity.
Qed.

Lemma fiber_name_fiber_line pct name :
  contains "%" (Py.str pct) = false ->
  contains "%" name = false ->
  Yarn.fiber_name (Yarn.fiber_line pct (PStr name)) = Ok (title (strip name)).
Proof.
  intros Hp Hn. unfold Yarn.fiber_name, Yarn.fiber_line.
  change (Py.str (PStr name)) with name.
  change ("% " ++ name) with (String "%" (String " " name)).
  rewrite (split_app_sep _ _ _ Hp).
  rewrite (split_no_sep "%" (String " " name)) by exact Hn.
  rewrite strip_space_cons. reflexivity.
Qed.

Lemma no_percentage_skipped content :
  no_percentage content -> Yarn.percentage content = Ok None.
Proof.
  unfold no_percentage, Yarn.percentage. fold (percentage_text content).
  intros [E|[E|[E|E]]].
  - rewrite E. reflexivity.
  - rewrite E. reflexivity.
  - rewrite E. reflexivity.
  - destruct (String.eqb (percentage_text content) "None"
              || String.eqb (percentage_text content) "null"); [reflexivity|].
    destruct (is_empty (percentage_text content)); [reflexivity|].
    rewrite E. reflexivity.
Qed.

(** A percentage that is a text and not a number is not passed over: the
    entry is the only one, no percentage is usable, and [getMainFiber]
    raises where the fallback would answer Cotton. *)
Lemma text_percentage_has_no_fallback :
  Yarn.fiber_line (PStr "n/a") (PStr "Cotton") = "n/a% Cotton"
  /\ Yarn.getMainFiber (yarn_with [Yarn.fiber_line (PStr "n/a") (PStr "Cotton")])
     = Raise ValueError
  /\ Yarn.getMainFiber (yarn_with [Yarn.fiber_line (PStr "n/a") (PStr "Cotton")])
     <> Ok "Cotton".
Proof. repeat split; try reflexivity. vm_compute. discriminate. Qed.

(** C5, as amended: when every entry of a non-empty fiber content is
    without a percentage (the percentage text is empty, None, null or an
    integer equal to zero), [getMainFiber] answers the fiber name of the
    first entry, stripped and title-cased, whatever its percentage field
    is. The entry is the text [{percentage}% {material}] that
    [getFullData] builds; the percentage sign separates the two parts, so
    neither part contains one. *)
Theorem getMainFiber_falls_back_to_first :
  forall (y : Yarn.t) (percentage : pyval) (material : string) (rest : list string),
    Yarn.fiberContent y = Some (Yarn.fiber_line percentage (PStr material) :: rest) ->
    contains "%" (Py.str percentage) = false ->
    contains "%" material = false ->
    Forall no_percentage (Yarn.fiber_line percentage (PStr material) :: rest) ->
    Yarn.getMainFiber y = Ok (title (strip material)).
Proof.
  intros y pct material rest Hy Hp Hm Hall.
  unfold Yarn.getMainFiber. rewrite Hy. unfold Yarn.main_fiber.
  rewrite main_loop_skipped
    by (revert Hall; apply Forall_impl; exact no_percentage_skipped).
  simpl. apply fiber_name_fiber_line; assumption.
Qed.

Lemma getMainFiber_falls_back_to_first_witness :
  Yarn.fiber_line PNone (PStr "Cotton") = "None% Cotton"
  /\ Yarn.getMainFiber (yarn_with [Yarn.fiber_line PNone (PStr "Cotton"); "0% wool"])
     = Ok "Cotton".
Proof.
  split; [reflexivity|].
  apply (getMainFiber_falls_back_to_first
           (yarn_with [Yarn.fiber_line PNone (PStr "Cotton"); "0% wool"])
           PNone "Cotton" ["0% wool"]).
  - reflexivity.
  - reflexivity.
  - reflexivity.
  - constructor; [right; left; reflexivity|].
    constructor; [right; right; right; reflexivity|constructor].
Defined.

End MainFiberProperties.

(** ** Facts about [strip] and [title] *)

Section StringFacts.

Import PyStr.

Lemma lower_facts c :
  is_lower c = true ->
  is_upper c = false /\ is_space c = false
  /\ is_upper (upper c) = true /\ is_lower (upper c) = false
  /\ is_space (upper c) = false.
Proof.
  destruct c as [[] [] [] [] [] [] [] []]; vm_compute; intros H;
    try discriminate H; repeat split.
Qed.

Lemma upper_facts c :
  is_upper c = true ->
  is_lower c = false /\ is_space c = false
  /\ is_lower (lower c) = true /\ is_space (lower c) = false.
Proof.
  destruct c as [[] [] [] [] [] [] [] []]; vm_compute; intros H;
    try discriminate H; repeat split.
Qed.

Lemma space_facts c :
  is_space c = true -> is_lower c = false /\ is_upper c = false.
Proof.
  destruct c as [[] [] [] [] [] [] [] []]; vm_compute; intros H;
    try discriminate H; repeat split.
Qed.

Lemma title_from_idem b s : title_from b (title_from b s) = title_from b s.
Proof.
  revert b. induction s as [|c s IH]; intros b; simpl; [reflexivity|].
  destruct (is_lower c) eqn:Hl.
  - destruct (lower_facts c Hl) as (_ & _ & Hu & Hlu & _).
    destruct b; simpl.
    + rewrite Hl, IH. reflexivity.
    + rewrite Hlu, Hu, IH. reflexivity.
  - destruct (is_upper c) eqn:Hu.
    + destruct (upper_facts c Hu) as (_ & _ & Hll & _).
      destruct b; simpl.
      * rewrite Hll, IH. reflexivity.
      * rewrite Hl, Hu, IH. reflexivity.
    + simpl. rewrite Hl, Hu, IH. reflexivity.
Qed.

(** The first character [title_from] writes is a space exactly when the
    one it reads is. *)
Lemma title_from_space b c s :
  exists c', title_from b (String c s) = String c' (title_from (is_lower c || is_upper c) s)
             /\ is_space c' = is_space c.
Proof.
  simpl. destruct (is_lower c) eqn:Hl.
  - destruct (lower_facts c Hl) as (_ & Hs & _ & _ & Hsu).
    destruct b; eexists; split; try reflexivity. congruence.
  - destruct (is_upper c) eqn:Hu.
    + destruct (upper_facts c Hu) as (_ & Hs & _ & Hsl).
      destruct b; eexists; split; try reflexivity. congruence.
    + eexists; split; reflexivity.
Qed.

Lemma title_from_empty b s : is_empty (title_from b s) = is_empty s.
Proof.
  destruct s as [|c s]; [reflexivity|].
  destruct (title_from_space b c s) as (c' & -> & _). reflexivity.
Qed.

Lemma title_from_rstrip b s : title_from b (rstrip s) = rstrip (title_from b s).
Proof.
  revert b. induction s as [|c s IH]; intros b; [reflexivity|].
  destruct (title_from_space b c s) as (c' & E & Hs). rewrite E.
  simpl rstrip. rewrite Hs, <- IH, title_from_empty.
  destruct (is_space c && is_empty (rstrip s)); [reflexivity|].
  destruct (title_from_space b c (rstrip s)) as (c'' & E' & _).
  rewrite E'. simpl in E, E'.
  destruct (is_lower c); [destruct b; congruence|].
  destruct (is_upper c); [destruct b; congruence|congruence].
Qed.

Lemma title_lstrip s : title (lstrip s) = lstrip (title s).
Proof.
  unfold title. induction s as [|c s IH]; [reflexivity|].
  cbn [lstrip]. destruct (is_space c) eqn:Hs.
  - destruct (space_facts c Hs) as (Hl & Hu).
    cbn [title_from]. rewrite Hl, Hu. cbn [lstrip]. rewrite Hs. exact IH.
  - destruct (title_from_space false c s) as (c' & E & Hs').
    rewrite E. cbn [lstrip]. rewrite Hs', Hs. reflexivity.
Qed.

Lemma title_strip s : title (strip s) = strip (title s).
Proof.
  unfold strip. rewrite title_lstrip. unfold title. rewrite title_from_rstrip.
  reflexivity.
Qed.

Lemma rstrip_idem s : rstrip (rstrip s) = rstrip s.
Proof.
  induction s as [|c s IH]; [reflexivity|]. cbn [rstrip].
  destruct (is_space c && is_empty (rstrip s)) eqn:E; [reflexivity|].
  cbn [rstrip]. rewrite IH, E. reflexivity.
Qed.

Lemma lstrip_idem s : lstrip (lstrip s) = lstrip s.
Proof.
  induction s as [|c s IH]; [reflexivity|]. cbn [lstrip].
  destruct (is_space c) eqn:E; [exact IH|]. cbn [lstrip]. rewrite E. reflexivity.
Qed.

Lemma rstrip_lstrip s : rstrip (lstrip s) = lstrip (rstrip s).
Proof.
  induction s as [|c s IH]; [reflexivity|]. cbn [lstrip rstrip].
  destruct (is_space c) eqn:E; cbn [andb].
  - rewrite IH. destruct (rstrip s); cbn [is_empty lstrip]; [reflexivity|].
    rewrite E. reflexivity.
  - cbn [rstrip lstrip]. rewrite E. reflexivity.
Qed.

Lemma strip_idem s : strip (strip s) = strip s.
Proof.
  unfold strip. rewrite rstrip_lstrip, rstrip_idem, lstrip_idem. reflexivity.
Qed.

End StringFacts.

(** ** The cache *)

Section Cache.

Import Graph.

Lemma dict_get_set_same {V} k (v : V) d : Dict.get k (Dict.set k v d) = Some v.
Proof.
  induction d as [|[k' v'] d IH]; simpl.
  - rewrite String.eqb_refl. reflexivity.
  - destruct (String.eqb k' k) eqn:E; simpl; rewrite E; [reflexivity|exact IH].
Qed.

Lemma load_pattern_dict p :
  normalized (Pattern.name p) -> normalized (Pattern.designer p) ->
  load_pattern (PDict (Pattern.dict p))
  = Ok (Pattern.init (Pattern.id p) (Pattern.name p) (Pattern.free p)
          (Pattern.link p) (Pattern.designer p)).
Proof.
  intros Hn Hd. unfold load_pattern, get_title, Pattern.dict. cbn.
  fold (PyStr.strip (Pattern.name p)). fold (PyStr.title (PyStr.strip (Pattern.name p))).
  fold (PyStr.strip (Pattern.designer p)).
  fold (PyStr.title (PyStr.strip (Pattern.designer p))).
  rewrite Hn, Hd. reflexivity.
Qed.

Lemma load_shop_dict s :
  normalized (Shop.name s) ->
  load_shop (PDict (Shop.dict s))
  = Ok (Shop.init (Shop.id s) (Shop.name s) (Shop.lat s) (Shop.long s) (Shop.city s)).
Proof.
  intros Hn. unfold load_shop, get_title, Shop.dict. cbn.
  fold (PyStr.strip (Shop.name s)). fold (PyStr.title (PyStr.strip (Shop.name s))).
  rewrite Hn. reflexivity.
Qed.

Lemma load_yarn_dict y :
  normalized (Yarn.name y) -> normalized (Yarn.brand y) ->
  load_yarn (PDict (Yarn.dict y))
  = Ok (Yarn.init (Yarn.id y) (Yarn.name y) (Yarn.brand y) (Yarn.weight y)).
Proof.
  intros Hn Hb. unfold load_yarn, get_title, Yarn.dict. cbn.
  fold (PyStr.strip (Yarn.name y)). fold (PyStr.title (PyStr.strip (Yarn.name y))).
  fold (PyStr.strip (Yarn.brand y)). fold (PyStr.title (PyStr.strip (Yarn.brand y))).
  rewrite Hn, Hb. reflexivity.
Qed.

Lemma comprehension_map {A B} (f : pyval -> res B) (d : A -> pyval) (g : A -> B)
    (P : A -> Prop) (l : list A) :
  (forall x, P x -> f (d x) = Ok (g x)) ->
  Forall P l ->
  comprehension f (map d l) = Ok (map g l).
Proof.
  intros Hf. induction 1 as [|x l Hx _ IH]; simpl; [reflexivity|].
  rewrite (Hf x Hx). simpl. rewrite IH. reflexivity.
Qed.

Lemma load_objects_dicts l :
  names_normalized l ->
  load_objects (PList (dicts l)) (kind l) = Ok (as_constructed l).
Proof.
  destruct l as [ps|ss|ys]; intros H; unfold load_objects; simpl in *.
  - erewrite comprehension_map; [reflexivity| |exact H].
    intros p [Hn Hd]. apply load_pattern_dict; assumption.
  - erewrite comprehension_map; [reflexivity| |exact H].
    intros x Hn. apply load_shop_dict; assumption.
  - erewrite comprehension_map; [reflexivity| |exact H].
    intros y [Hn Hb]. apply load_yarn_dict; assumption.
Qed.

(** The names of the objects [loadCache] builds are texts that
    [.strip().title()] returned. *)
Lemma load_objects_cleaned data type l :
  load_objects data type = Ok l -> names_all cleaned l.
Proof.
  assert (HP : forall raw, cleaned (PyStr.title (PyStr.strip raw)))
    by (intros raw; exists raw; reflexivity).
  unfold load_objects.
  destruct (String.eqb type "pattern");
    [|destruct (String.eqb type "shop"); [|destruct (String.eqb type "yarn")]];
    try discriminate;
    destruct (Py.iter data) as [items|]; simpl; try discriminate.
  - destruct (comprehension load_pattern items) as [ps|] eqn:E; simpl; [|discriminate].
    intros H; injection H as <-. simpl.
    revert ps E. induction items as [|i items IH]; simpl; intros ps E.
    + injection E as <-. constructor.
    + unfold load_pattern at 1 in E.
      destruct (Py.get i "id"); simpl in E; [|discriminate].
      unfold get_title at 1 in E.
      destruct (res_bind (Py.get i "name") Py.as_str) as [n|]; simpl in E; [|discriminate].
      destruct (Py.get i "free"); simpl in E; [|discriminate].
      destruct (Py.get i "link"); simpl in E; [|discriminate].
      unfold get_title at 1 in E.
      destruct (res_bind (Py.get i "designer") Py.as_str) as [d|]; simpl in E; [|discriminate].
      destruct (comprehension load_pattern items) as [ps'|]; simpl in E; [|discriminate].
      injection E as <-. constructor; [|apply IH; reflexivity].
      simpl. split; apply HP.
  - destruct (comprehension load_shop items) as [ss|] eqn:E; simpl; [|discriminate].
    intros H; injection H as <-. simpl.
    revert ss E. induction items as [|i items IH]; simpl; intros ss E.
    + injection E as <-. constructor.
    + unfold load_shop at 1 in E.
      destruct (Py.get i "id"); simpl in E; [|discriminate].
      unfold get_title at 1 in E.
      destruct (res_bind (Py.get i "name") Py.as_str) as [n|]; simpl in E; [|discriminate].
      destruct (Py.get i "lat"); simpl in E; [|discriminate].
      destruct (Py.get i "long"); simpl in E; [|discriminate].
      destruct (Py.get i "city"); simpl in E; [|discriminate].
      destruct (comprehension load_shop items) as [ss'|]; simpl in E; [|discriminate].
      injection E as <-. constructor; [|apply IH; reflexivity].
      simpl. apply HP.
  - destruct (comprehension load_yarn items) as [ys|] eqn:E; simpl; [|discriminate].
    intros H; injection H as <-. simpl.
    revert ys E. induction items as [|i items IH]; simpl; intros ys E.
    + injection E as <-. constructor.
    + unfold load_yarn at 1 in E.
      destruct (Py.get i "id"); simpl in E; [|discriminate].
      unfold get_title at 1 in E.
      destruct (res_bind (Py.get i "name") Py.as_str) as [n|]; simpl in E; [|discriminate].
      unfold get_title at 1 in E.
      destruct (res_bind (Py.get i "brand") Py.as_str) as [b|]; simpl in E; [|discriminate].
      destruct (Py.get i "weight"); simpl in E; [|discriminate].
      destruct (comprehension load_yarn items) as [ys'|]; simpl in E; [|discriminate].
      injection E as <-. constructor; [|apply IH; reflexivity].
      simpl. split; apply HP.
Qed.

(** A pattern that a look-up has hydrated is not given back by the cache:
    the list read from the file differs from the list written to it. *)
Lemma hydrated_pattern_not_restored :
  let w := fst (getPattern (PInt 10) PNone example_world) in
  let X := Patterns (patterns (self w)) in
  let w' := fst (cacheData X "patterns.json" w) in
  Pattern.recyarn (hd P3 (patterns (self w))) = Some [PInt 1; PInt 2]
  /\ snd (cacheData X "patterns.json" w) = Ok tt
  /\ snd (loadCache (PStr "patterns.json") "pattern" w') = Ok (Some (as_constructed X))
  /\ snd (loadCache (PStr "patterns.json") "pattern" w') <> Ok (Some X).
Proof.
  repeat split; try reflexivity. vm_compute. discriminate.
Qed.

Lemma comprehension_total {A B} (f : pyval -> res B) (d : A -> pyval) (g : A -> B)
    (l : list A) :
  (forall x, f (d x) = Ok (g x)) ->
  comprehension f (map d l) = Ok (map g l).
Proof.
  intros Hf. induction l as [|x l IH]; simpl; [reflexivity|].
  rewrite (Hf x). simpl. rewrite IH. reflexivity.
Qed.

Lemma load_objects_reloaded l :
  load_objects (PList (dicts l)) (kind l) = Ok (reloaded l).
Proof.
  destruct l as [ps|ss|ys]; unfold load_objects; simpl.
  - rewrite (comprehension_total load_pattern _
               (fun p => Pattern.init (Pattern.id p) (PyStr.title (PyStr.strip (Pattern.name p)))
                           (Pattern.free p) (Pattern.link p)
                           (PyStr.title (PyStr.strip (Pattern.designer p)))));
      [reflexivity|]. intros p. reflexivity.
  - rewrite (comprehension_total load_shop _
               (fun x => Shop.init (Shop.id x) (PyStr.title (PyStr.strip (Shop.name x)))
                           (Shop.lat x) (Shop.long x) (Shop.city x)));
      [reflexivity|]. intros x. reflexivity.
  - rewrite (comprehension_total load_yarn _
               (fun y => Yarn.init (Yarn.id y) (PyStr.title (PyStr.strip (Yarn.name y)))
                           (PyStr.title (PyStr.strip (Yarn.brand y))) (Yarn.weight y)));
      [reflexivity|]. intros y. destruct y as [i n b wt inf [fc|]]; reflexivity.
Qed.

Lemma reloaded_normalized l : names_normalized l -> reloaded l = as_constructed l.
Proof.
  destruct l as [ps|ss|ys]; simpl; intros H; f_equal; apply map_ext_in; intros x Hx;
    rewrite Forall_forall in H; specialize (H x Hx).
  - destruct H as [Hn Hd]. unfold normalized in Hn, Hd. rewrite Hn, Hd. reflexivity.
  - unfold normalized in H. rewrite H. reflexivity.
  - destruct H as [Hn Hb]. unfold normalized in Hn, Hb. rewrite Hn, Hb. reflexivity.
Qed.

Lemma cacheData_returns list filepath w w' :
  cacheData list filepath w = (w', Ok tt) ->
  filepath <> EmptyString
  /\ w' = mkWorld (self w) (web w) (Dict.set filepath (PList (dicts list)) (files w))
            (stdout w).
Proof.
  unfold cacheData. destruct filepath as [|c r]; cbn [PyStr.is_empty].
  - intros E. discriminate E.
  - intros E. injection E as <-. split; [discriminate|reflexivity].
Qed.

(** C1, as amended: for each of the three entity types, when [cacheData]
    has written its file, [loadCache] on that file gives back every object
    as its constructor makes it from the attributes the constructor takes
    (id, name, free, link, designer; id, name, lat, long, city; id, name,
    brand, weight), the names passed through [.strip().title()] once more,
    and with [info] as the constructor writes it. What [getFullData] has
    assigned is not read back. The objects that were never hydrated and
    whose names [.strip().title()] leaves unchanged are reproduced as they
    are. The statement is made for names in ASCII, where [strip] and
    [title] are those of Python. *)
Theorem cacheData_loadCache_round_trip :
  forall (w w' : World) (list : objects) (filepath : string),
    cacheData list filepath w = (w', Ok tt) ->
    names_ascii list ->
    loadCache (PStr filepath) (kind list) w' = (w', Ok (Some (reloaded list)))
    /\ (names_normalized list -> reloaded list = as_constructed list)
    /\ (names_normalized list -> as_constructed list = list ->
        loadCache (PStr filepath) (kind list) w' = (w', Ok (Some list))).
Proof.
  intros w w' l filepath Hrun _.
  destruct (cacheData_returns _ _ _ _ Hrun) as [Hpath ->].
  assert (Hload : forall w1,
            w1 = mkWorld (self w) (web w) (Dict.set filepath (PList (dicts l)) (files w))
                   (stdout w) ->
            loadCache (PStr filepath) (kind l) w1 = (w1, Ok (Some (reloaded l)))).
  { intros w1 ->. unfold loadCache.
    destruct filepath as [|c r]; [contradiction|].
    cbn [PyStr.is_empty Py.truthy negb].
    unfold bind, lift, gets, ret. cbn [files].
    rewrite dict_get_set_same, load_objects_reloaded. reflexivity. }
  split; [apply Hload; reflexivity|]. split; [apply reloaded_normalized|].
  intros Hn E. rewrite (Hload _ eq_refl), (reloaded_normalized l Hn), E. reflexivity.
Qed.

Lemma cacheData_loadCache_round_trip_witness :
  let w' := fst (cacheData (Patterns [P1; P3; P2]) "patterns.json" example_world) in
  loadCache (PStr "patterns.json") "pattern" w' = (w', Ok (Some (Patterns [P1; P3; P2]))).
Proof.
  cbv zeta.
  apply (proj2 (proj2 (cacheData_loadCache_round_trip example_world
                         (fst (cacheData (Patterns [P1; P3; P2]) "patterns.json"
                                 example_world))
                         (Patterns [P1; P3; P2]) "patterns.json"
                         eq_refl
                         ltac:(repeat constructor)))).
  - repeat constructor.
  - reflexivity.
Defined.

End Cache.

(** ** Look-ups *)

Section Lookups.

Import Graph.

Lemma first_index_none {A} (test : A -> bool) l :
  (forall x, In x l -> test x = false) -> first_index test l = None.
Proof.
  induction l as [|x l IH]; simpl; intros H; [reflexivity|].
  rewrite (H x (or_introl eq_refl)). rewrite IH; [reflexivity|].
  intros y Hy. apply H. right. exact Hy.
Qed.

Lemma find_all_false {A} (test : A -> bool) l :
  (forall x, In x l -> test x = false) -> find test l = None.
Proof.
  induction l as [|x l IH]; simpl; intros H; [reflexivity|].
  rewrite (H x (or_introl eq_refl)). apply IH.
  intros y Hy. apply H. right. exact Hy.
Qed.

Lemma find_exists {A} (test : A -> bool) l :
  (exists x, In x l /\ test x = true) ->
  exists y, find test l = Some y /\ In y l /\ test y = true.
Proof.
  intros (x & Hx & Ht). destruct (find test l) as [y|] eqn:E.
  - exists y. split; [reflexivity|]. apply (find_some _ _ E).
  - rewrite (find_none _ _ E x Hx) in Ht. discriminate.
Qed.

Lemma title_of_str {A} s (l : list A) :
  exists t, title_of (PStr s) l = Ok t /\ (l <> [] -> t = PyStr.title s).
Proof.
  destruct l; simpl; eexists; split; try reflexivity. intros H. contradiction.
Qed.

Lemma truthy_str s : s <> EmptyString -> Py.truthy (PStr s) = true.
Proof. destruct s; [contradiction|reflexivity]. Qed.

Lemma eqb_title_false {A} (get_name : A -> string) l s t :
  (l <> [] -> t = PyStr.title s) ->
  (forall x, In x l -> get_name x <> PyStr.title s) ->
  forall x, In x l -> String.eqb (get_name x) t = false.
Proof.
  intros Ht H x Hx. rewrite Ht by (intros ->; contradiction).
  apply String.eqb_neq. apply H. exact Hx.
Qed.

(** Without a selector each look-up returns [False]; it raises nothing. *)
Lemma missing_selector_returns_False :
  getPattern PNone PNone example_world = (example_world, Ok (PBool false))
  /\ getShop PNone PNone example_world = (example_world, Ok (PBool false))
  /\ getYarn PNone PNone example_world = (example_world, Ok (PBool false))
  /\ forall e, snd (getPattern PNone PNone example_world) <> Raise e.
Proof. repeat split; try reflexivity. intros e. vm_compute. discriminate. Qed.

(** C7, as amended: when neither an id nor a name is given, each of the
    three look-ups returns the value [False], without raising and without
    touching the catalogue; when a selector is given and no record matches
    it, the look-up returns a not-found result without raising: a message
    for patterns, [None] for shops and yarns. *)
Theorem lookup_without_selector_or_match :
  forall (w : World) (id name : pyval),
    (no_selector id name ->
     getPattern id name w = (w, Ok (PBool false))
     /\ getShop id name w = (w, Ok (PBool false))
     /\ getYarn id name w = (w, Ok (PBool false)))
    /\ (unmatched Pattern.id Pattern.name (patterns (self w)) id name ->
        getPattern id name w = (w, Ok (PStr "Sorry, we couldn't find your pattern.")))
    /\ (unmatched Shop.id Shop.name (shops (self w)) id name ->
        getShop id name w = (w, Ok PNone))
    /\ (unmatched Yarn.id Yarn.name (yarns (self w)) id name ->
        getYarn id name w = (w, Ok PNone)).
Proof.
  intros w id name. split; [|split; [|split]].
  - intros [Hi Hn]. unfold getPattern, getShop, getYarn, bind, gets.
    rewrite Hi, Hn. repeat split.
  - intros [[Hi H]|(Hi & s & -> & Hs & H)]; unfold getPattern, bind, gets; rewrite Hi.
    + rewrite first_index_none by exact H. reflexivity.
    + rewrite (truthy_str s Hs). unfold lift.
      destruct (title_of_str s (patterns (self w))) as (t & -> & Ht).
      rewrite first_index_none; [reflexivity|].
      apply (eqb_title_false Pattern.name _ s t Ht H).
  - intros [[Hi H]|(Hi & s & -> & Hs & H)]; unfold getShop, bind, gets; rewrite Hi.
    + rewrite find_all_false by exact H. reflexivity.
    + rewrite (truthy_str s Hs). unfold lift.
      destruct (title_of_str s (shops (self w))) as (t & -> & Ht).
      rewrite find_all_false; [reflexivity|].
      apply (eqb_title_false Shop.name _ s t Ht H).
  - intros [[Hi H]|(Hi & s & -> & Hs & H)]; unfold getYarn, bind, gets; rewrite Hi.
    + rewrite first_index_none by exact H. reflexivity.
    + rewrite (truthy_str s Hs). unfold lift.
      destruct (title_of_str s (yarns (self w))) as (t & -> & Ht).
      rewrite first_index_none; [reflexivity|].
      apply (eqb_title_false Yarn.name _ s t Ht H).
Qed.

Lemma lookup_without_selector_or_match_witness :
  getYarn PNone (PStr EmptyString) shop_world = (shop_world, Ok (PBool false))
  /\ getPattern (PInt 99) PNone shop_world
     = (shop_world, Ok (PStr "Sorry, we couldn't find your pattern."))
  /\ getShop PNone (PStr "yarn barn") shop_world = (shop_world, Ok PNone)
  /\ getYarn (PInt 99) PNone shop_world = (shop_world, Ok PNone).
Proof.
  split; [|split; [|split]].
  - apply (proj1 (lookup_without_selector_or_match shop_world PNone (PStr EmptyString))).
    split; reflexivity.
  - apply (proj1 (proj2 (lookup_without_selector_or_match shop_world (PInt 99) PNone))).
    left. split; [reflexivity|]. intros x [<-|[]]. reflexivity.
  - apply (proj1 (proj2 (proj2
             (lookup_without_selector_or_match shop_world PNone (PStr "yarn barn"))))).
    right. split; [reflexivity|]. exists "yarn barn".
    split; [reflexivity|]. split; [discriminate|].
    intros x [<-|[]]. discriminate.
  - apply (proj2 (proj2 (proj2
             (lookup_without_selector_or_match shop_world (PInt 99) PNone)))).
    left. split; [reflexivity|]. intros x [<-|[]]. reflexivity.
Defined.

(** C10: a shop look-up whose selector matches a shop of the catalogue
    prints that it found the shop and then raises [AttributeError], because
    [getFullData] is not an attribute of a [Shop]; it never returns the
    information of the shop. *)
Theorem getShop_match_raises_AttributeError :
  forall (w : World) (id name : pyval),
    matched Shop.id Shop.name (shops (self w)) id name ->
    exists shop,
      In shop (shops (self w))
      /\ getShop id name w
         = (printed ("Found " ++ Shop.name shop ++ "!") w, Raise AttributeError).
Proof.
  intros w id name [(Hi & Hex)|(Hi & s & -> & Hs & x & Hx & Hname)];
    unfold getShop, bind, gets; rewrite Hi.
  - destruct (find_exists (fun shop => Py.eq (Shop.id shop) id) _ Hex) as (y & -> & Hy & _).
    exists y. split; [exact Hy|]. reflexivity.
  - rewrite (truthy_str s Hs). unfold lift.
    destruct (title_of_str s (shops (self w))) as (t & -> & Ht).
    assert (Hne : shops (self w) <> []) by (intros E; rewrite E in Hx; contradiction).
    rewrite (Ht Hne).
    destruct (find_exists (fun shop => String.eqb (Shop.name shop) (PyStr.title s))
                (shops (self w))) as (y & -> & Hy & _).
    { exists x. split; [exact Hx|]. apply String.eqb_eq. exact Hname. }
    exists y. split; [exact Hy|]. reflexivity.
Qed.

Lemma getShop_match_raises_AttributeError_witness :
  getShop (PInt 7) PNone shop_world
  = (printed "Found Knit Nook!" shop_world, Raise AttributeError)
  /\ getShop PNone (PStr "knit nook") shop_world
     = (printed "Found Knit Nook!" shop_world, Raise AttributeError).
Proof.
  split.
  - destruct (getShop_match_raises_AttributeError shop_world (PInt 7) PNone) as (shop & Hin & E).
    + left. split; [reflexivity|]. exists S1. split; [left; reflexivity|reflexivity].
    + destruct Hin as [<-|[]]. exact E.
  - destruct (getShop_match_raises_AttributeError shop_world PNone (PStr "knit nook"))
      as (shop & Hin & E).
    + right. split; [reflexivity|]. exists "knit nook".
      split; [reflexivity|]. split; [discriminate|].
      exists S1. split; [left; reflexivity|reflexivity].
    + destruct Hin as [<-|[]]. exact E.
Defined.

End Lookups.

(** ** Counting and ranking *)

Section Ranking.

Import Graph.

Lemma dict_get_set {V} k k' (v : V) d :
  Dict.get k' (Dict.set k v d) = if String.eqb k k' then Some v else Dict.get k' d.
Proof.
  induction d as [|[k0 v0] d IH]; simpl.
  - reflexivity.
  - destruct (String.eqb_spec k0 k) as [->|Hne]; simpl.
    + destruct (String.eqb k k'); reflexivity.
    + rewrite IH. destruct (String.eqb_spec k0 k') as [->|]; [|reflexivity].
      destruct (String.eqb_spec k k'); [congruence|reflexivity].
Qed.

Lemma dict_mem_in {V} k (d : Dict.t V) : Dict.mem k d = true <-> In k (Dict.keys d).
Proof.
  unfold Dict.mem. induction d as [|[k0 v0] d IH]; simpl.
  - split; [discriminate|contradiction].
  - destruct (String.eqb_spec k0 k) as [->|Hne].
    + split; auto.
    + rewrite IH. split; [auto|]. intros [E|H]; [contradiction|exact H].
Qed.

Lemma dict_keys_set {V} k (v : V) d :
  Dict.keys (Dict.set k v d)
  = if Dict.mem k d then Dict.keys d else (Dict.keys d ++ [k])%list.
Proof.
  unfold Dict.mem. induction d as [|[k0 v0] d IH]; simpl; [reflexivity|].
  destruct (String.eqb k0 k); simpl; [reflexivity|].
  rewrite IH. destruct (Dict.get k d); reflexivity.
Qed.

Lemma dict_get_not_in {V} k (d : Dict.t V) : ~ In k (Dict.keys d) -> Dict.get k d = None.
Proof.
  intros H. pose proof (dict_mem_in k d) as M. unfold Dict.mem in M.
  destruct (Dict.get k d); [|reflexivity]. exfalso. apply H, M. reflexivity.
Qed.

(** A dictionary lists, for each of its keys in order, the value it
    holds for the key. *)
Lemma dict_as_map {V} (v0 : V) (d : Dict.t V) :
  NoDup (Dict.keys d) ->
  d = map (fun k => (k, match Dict.get k d with Some v => v | None => v0 end)) (Dict.keys d).
Proof.
  induction d as [|[k v] d IH]; simpl; intros N; [reflexivity|].
  inversion N as [|? ? Hk N']; subst.
  rewrite String.eqb_refl. f_equal.
  rewrite (IH N') at 1. apply map_ext_in. intros k' Hk'.
  destruct (String.eqb_spec k k') as [->|]; [contradiction|reflexivity].
Qed.

Lemma first_seen_in seen l x : In x (first_seen seen l) <-> In x seen \/ In x l.
Proof.
  revert seen. induction l as [|y l IH]; intros seen; simpl; [tauto|].
  rewrite IH. destruct (in_dec string_dec y seen) as [Hy|Hy].
  - split; [tauto|]. intros [H|[<-|H]]; auto.
  - rewrite in_app_iff. simpl. tauto.
Qed.

Lemma first_seen_nodup seen l : NoDup seen -> NoDup (first_seen seen l).
Proof.
  revert seen. induction l as [|y l IH]; intros seen N; simpl; [exact N|].
  apply IH. destruct (in_dec string_dec y seen) as [Hy|Hy]; [exact N|].
  apply NoDup_app; [exact N|constructor; [intros []|constructor]|].
  intros z Hz [<-|[]]. contradiction.
Qed.

Lemma counter_keys l d :
  Dict.keys (fold_left count_step l d) = first_seen (Dict.keys d) l.
Proof.
  revert d. induction l as [|x l IH]; intros d; simpl; [reflexivity|].
  rewrite IH. unfold count_step. rewrite dict_keys_set.
  destruct (in_dec string_dec x (Dict.keys d)) as [H|H].
  - apply dict_mem_in in H. rewrite H. reflexivity.
  - destruct (Dict.mem x d) eqn:M; [|reflexivity].
    apply dict_mem_in in M. contradiction.
Qed.

Lemma counter_get l d x :
  Dict.get x (fold_left count_step l d)
  = if (count_occ string_dec l x =? 0)%nat then Dict.get x d
    else Some (Z.of_nat (count_occ string_dec l x)
               + match Dict.get x d with Some n => n | None => 0 end).
Proof.
  revert d. induction l as [|y l IH]; intros d; [reflexivity|].
  cbn [fold_left count_occ]. rewrite IH. unfold count_step. rewrite dict_get_set.
  destruct (string_dec y x) as [->|Hne].
  - rewrite String.eqb_refl. cbn [Nat.eqb].
    destruct (count_occ string_dec l x =? 0)%nat eqn:E;
      [apply Nat.eqb_eq in E; rewrite E|]; f_equal; lia.
  - destruct (String.eqb_spec y x); [contradiction|]. reflexivity.
Qed.

(** [Counter(l)] pairs each distinct element, in the order of first
    occurrence, with the number of its occurrences. *)
Lemma Counter_spec l :
  Counter l = map (fun x => (x, occurrences x l)) (first_seen [] l).
Proof.
  unfold Counter. change (fun d x => Dict.set x _ d) with count_step.
  pose proof (counter_keys l []) as K. simpl in K.
  rewrite (dict_as_map 0 (fold_left count_step l [])) at 1
    by (rewrite K; apply first_seen_nodup; constructor).
  rewrite K. apply map_ext_in. intros x Hx. f_equal.
  rewrite counter_get. simpl.
  apply first_seen_in in Hx. destruct Hx as [[]|Hx].
  apply (count_occ_In string_dec) in Hx.
  destruct (Nat.eqb_spec (count_occ string_dec l x) 0); [lia|].
  unfold occurrences. lia.
Qed.

Section StableSort.

Context {A : Type} (key : A -> Z).

Let gtb (y x : A) : bool := key x <? key y.
Let desc (a b : A) : Prop := key b <= key a.

Lemma insert_desc_perm x l : Permutation (Py.insert_desc gtb x l) (x :: l).
Proof.
  induction l as [|y l IH]; simpl; [reflexivity|].
  destruct (gtb y x); [|reflexivity].
  rewrite IH. apply perm_swap.
Qed.

Lemma insert_desc_sorted x l :
  StronglySorted desc l -> StronglySorted desc (Py.insert_desc gtb x l).
Proof.
  induction 1 as [|y l Hl IH Hy]; simpl.
  - repeat constructor.
  - unfold gtb at 1. destruct (Z.ltb_spec (key x) (key y)) as [Hlt|Hge].
    + constructor; [exact IH|].
      eapply Permutation_Forall; [symmetry; apply insert_desc_perm|].
      constructor; [unfold desc; lia|exact Hy].
    + constructor; [constructor; assumption|].
      constructor; [exact Hge|].
      eapply Forall_impl; [|exact Hy]. unfold desc. intros z Hz. lia.
Qed.

(** The elements of one key keep their order: the sort is stable. *)
Lemma insert_desc_filter c x l :
  filter (fun e => key e =? c) (Py.insert_desc gtb x l)
  = filter (fun e => key e =? c) (x :: l).
Proof.
  induction l as [|y l IH]; [reflexivity|].
  cbn [Py.insert_desc]. unfold gtb at 1.
  destruct (Z.ltb_spec (key x) (key y)) as [Hlt|Hge]; [|reflexivity].
  cbn [filter] in *. rewrite IH.
  destruct (Z.eqb_spec (key x) c) as [Hx|Hx]; [|reflexivity].
  destruct (Z.eqb_spec (key y) c) as [Hy|Hy]; [lia|reflexivity].
Qed.

Lemma sorted_desc_perm l : Permutation (Py.sorted_desc gtb l) l.
Proof.
  induction l as [|x l IH]; simpl; [reflexivity|].
  rewrite insert_desc_perm. constructor. exact IH.
Qed.

Lemma sorted_desc_sorted l : StronglySorted desc (Py.sorted_desc gtb l).
Proof.
  induction l as [|x l IH]; simpl; [constructor|].
  apply insert_desc_sorted. exact IH.
Qed.

Lemma sorted_desc_filter c l :
  filter (fun e => key e =? c) (Py.sorted_desc gtb l) = filter (fun e => key e =? c) l.
Proof.
  induction l as [|x l IH]; [reflexivity|].
  cbn [Py.sorted_desc]. rewrite insert_desc_filter. cbn [filter]. rewrite IH. reflexivity.
Qed.

Lemma sorted_app_inv (a b : list A) :
  StronglySorted desc (a ++ b) ->
  StronglySorted desc a /\ forall x y, In x a -> In y b -> desc x y.
Proof.
  induction a as [|z a IH]; simpl; intros H.
  - split; [constructor|]. intros x y [].
  - inversion H as [|? ? Hs Hz]; subst. destruct (IH Hs) as [Ha Hab].
    apply Forall_app in Hz. destruct Hz as [Hza Hzb].
    split; [constructor; assumption|].
    intros x y [<-|Hx] Hy.
    + rewrite Forall_forall in Hzb. apply Hzb. exact Hy.
    + apply Hab; assumption.
Qed.

End StableSort.

Lemma filter_map_comm {A B} (f : A -> B) (g : B -> bool) l :
  filter g (map f l) = map f (filter (fun x => g (f x)) l).
Proof.
  induction l as [|x l IH]; simpl; [reflexivity|].
  rewrite IH. destruct (g (f x)); reflexivity.
Qed.

(** What [Counter(l).most_common(n)] is. *)
Lemma most_common_ranked n l : ranked n l (most_common n (Counter l)).
Proof.
  unfold most_common. rewrite Counter_spec.
  set (f := fun x => (x, occurrences x l)).
  set (C := map f (first_seen [] l)).
  set (s := Py.sorted_desc (fun y x : string * Z => snd x <? snd y) C).
  assert (Hperm : Permutation s C) by apply (sorted_desc_perm snd).
  assert (Hsort : StronglySorted (fun a b => snd b <= snd a) s)
    by apply (sorted_desc_sorted snd).
  assert (Hsplit : s = (firstn n s ++ skipn n s)%list) by (symmetry; apply firstn_skipn).
  assert (Hfst : map fst C = first_seen [] l).
  { unfold C. rewrite map_map. simpl. apply map_id. }
  assert (HinC : forall x c, In (x, c) C -> In x l /\ c = occurrences x l).
  { intros x c H. unfold C in H. apply in_map_iff in H.
    destruct H as (y & E & Hy). unfold f in E. injection E as <- <-.
    apply first_seen_in in Hy. destruct Hy as [[]|Hy]. auto. }
  rewrite Hsplit in Hsort. apply (sorted_app_inv snd) in Hsort.
  destruct Hsort as [Htop Hcross].
  repeat split.
  - rewrite length_firstn. rewrite (Permutation_length Hperm).
    unfold C. rewrite length_map. reflexivity.
  - apply (HinC x c). apply (Permutation_in _ Hperm).
    rewrite Hsplit. apply in_or_app. left. exact H.
  - apply (HinC x c). apply (Permutation_in _ Hperm).
    rewrite Hsplit. apply in_or_app. left. exact H.
  - assert (N : NoDup (map fst s)).
    { eapply Permutation_NoDup; [apply Permutation_map; symmetry; exact Hperm|].
      rewrite Hfst. apply first_seen_nodup. constructor. }
    rewrite Hsplit, map_app in N. apply NoDup_app_remove_r in N. exact N.
  - exact Htop.
  - intros c. exists (map fst (filter (fun e => snd e =? c) (skipn n s))).
    rewrite <- map_app, <- filter_app, <- Hsplit.
    unfold s. rewrite (sorted_desc_filter snd). unfold C.
    rewrite filter_map_comm, map_map. simpl. symmetry. apply map_id.
  - intros x Hx Hnot e He.
    assert (Hs : In (f x) s).
    { apply (Permutation_in _ (Permutation_sym Hperm)). unfold C. apply in_map.
      apply first_seen_in. right. exact Hx. }
    rewrite Hsplit in Hs. apply in_app_or in Hs. destruct Hs as [Hs|Hs].
    + exfalso. apply Hnot. change x with (fst (f x)). apply in_map. exact Hs.
    + apply (Hcross e (f x) He Hs).
Qed.

End Ranking.

(** ** Hydration *)

Section Hydration.

Lemma hoare_bind {S A B} (P : S -> Prop) (m : M S A) (Q : A -> S -> Prop)
    (k : A -> M S B) (R' : B -> S -> Prop) :
  hoare P m Q -> (forall a, hoare (Q a) (k a) R') -> hoare P (bind m k) R'.
Proof.
  intros Hm Hk s Hs. unfold bind. specialize (Hm s Hs).
  destruct (m s) as [s1 [a|e]]; [|exact I]. apply (Hk a s1 Hm).
Qed.

Lemma hoare_ret {S A} (P : S -> Prop) (a : A) : hoare P (ret a) (fun _ => P).
Proof. intros s Hs. exact Hs. Qed.

Lemma hoare_lift {S A} (P : S -> Prop) (r : res A) : hoare P (lift r) (fun _ => P).
Proof. intros s Hs. unfold lift. destruct r; [exact Hs|exact I]. Qed.

Lemma hoare_gets {S A} (P : S -> Prop) (f : S -> A) : hoare P (gets f) (fun _ => P).
Proof. intros s Hs. exact Hs. Qed.

Lemma hoare_modify {S} (P Q : S -> Prop) (f : S -> S) :
  (forall s, P s -> Q (f s)) -> hoare P (modify f) (fun _ => Q).
Proof. intros H s Hs. apply H. exact Hs. Qed.

Lemma hoare_append_gets {T} (P : T -> Prop) append key items :
  (forall v s, P s -> P (append v s)) ->
  hoare P (append_gets append key items) (fun _ => P).
Proof.
  intros H. induction items as [|item rest IH]; cbn [append_gets].
  - apply hoare_ret.
  - eapply hoare_bind; [apply hoare_lift|]. intros v.
    eapply hoare_bind; [apply hoare_modify; intros s; apply H|]. intros ?. exact IH.
Qed.

Lemma hoare_for_if_truthy {T} (P : T -> Prop) v body :
  (forall items, hoare P (body items) (fun _ => P)) ->
  hoare P (for_if_truthy v body) (fun _ => P).
Proof.
  intros H. unfold for_if_truthy. destruct (Py.truthy v); [|apply hoare_ret].
  eapply hoare_bind; [apply hoare_lift|]. exact H.
Qed.

(** A pattern that [getFullData] has returned from has its list of
    recommended yarns. *)
Lemma getFullData_recyarn web :
  hoare (fun _ => True) (Pattern.getFullData web)
        (fun _ p => exists l, Pattern.recyarn p = Some l).
Proof.
  set (has := fun p => exists l, Pattern.recyarn p = Some l).
  unfold Pattern.getFullData.
  eapply hoare_bind; [apply hoare_gets|]. intros self.
  eapply hoare_bind; [apply hoare_lift|]. intros data.
  eapply hoare_bind; [apply hoare_lift|]. intros c.
  eapply hoare_bind; [apply (hoare_modify _ (fun _ => True)); intros; exact I|]. intros ?.
  eapply hoare_bind; [apply hoare_lift|]. intros pr.
  eapply hoare_bind; [apply (hoare_modify _ (fun _ => True)); intros; exact I|]. intros ?.
  eapply hoare_bind; [apply hoare_lift|]. intros recYarn.
  eapply hoare_bind.
  { apply (hoare_modify _ has). intros s _. eexists. reflexivity. }
  intros ?.
  eapply hoare_bind.
  { apply hoare_for_if_truthy. intros items. apply hoare_append_gets.
    intros v s _. eexists. reflexivity. }
  intros ?.
  eapply hoare_bind; [apply hoare_lift|]. intros cat.
  eapply hoare_bind; [apply (hoare_modify _ has); intros s [l H]; exists l; exact H|].
  intros ?.
  eapply hoare_bind.
  { apply hoare_for_if_truthy. intros items. apply hoare_append_gets.
    intros v s [l H]. exists l. exact H. }
  intros ?. apply (hoare_modify _ has). intros s [l H]. exists l. exact H.
Qed.

Lemma hydrates_recyarn web p :
  hydrates web p ->
  Pattern.getFullData web p = (hydrated web p, Ok tt)
  /\ exists l, Pattern.recyarn (hydrated web p) = Some l.
Proof.
  unfold hydrates, hydrated. intros H.
  pose proof (getFullData_recyarn web p I) as Hr.
  destruct (Pattern.getFullData web p) as [p' r]. cbn [fst snd] in *. subst r.
  split; [reflexivity|exact Hr].
Qed.

End Hydration.

(** ** The yarn network of a designer *)

Section YarnGraph.

Import Graph.

Lemma positions_nil {A} (test : A -> bool) from l :
  (forall x, In x l -> test x = false) -> positions test from l = [].
Proof.
  revert from. induction l as [|x l IH]; intros from H; simpl; [reflexivity|].
  rewrite (H x (or_introl eq_refl)). apply IH. intros y Hy. apply H. right. exact Hy.
Qed.

(** C2, where the code departs from the claim: for a designer none of
    whose patterns is in the catalogue, [createYarnGraph] raises nothing
    and returns the empty graph by itself, not a pair of a graph and an
    empty list; [visualizeYarnNetwork] subscripts the result with 0, which
    a graph answers with [KeyError]. *)
Theorem createYarnGraph_no_pattern_returns_bare_graph :
  forall (w : World) (designer : string),
    (forall p, In p (patterns (self w)) ->
               Pattern.designer p <> PyStr.title (PyStr.strip designer)) ->
    exists w',
      createYarnGraph designer w = (w', Ok (GraphOnly nx.empty))
      /\ (forall top, snd (createYarnGraph designer w) <> Ok (GraphAndTop nx.empty top))
      /\ res_bind (snd (createYarnGraph designer w)) Interact.yarnGraph_0 = Raise KeyError.
Proof.
  intros w designer H.
  assert (E : createYarnGraph designer w
              = (printed ("No patterns found for designer: "
                          ++ PyStr.title (PyStr.strip designer))
                   (printed "Creating graph..." w),
                 Ok (GraphOnly nx.empty))).
  { unfold createYarnGraph, bind, print, modify, gets. cbn [self patterns].
    rewrite positions_nil; [reflexivity|].
    intros p Hp. apply String.eqb_neq. apply H. exact Hp. }
  eexists. split; [exact E|]. rewrite E. split; [discriminate|reflexivity].
Qed.

Lemma createYarnGraph_no_pattern_returns_bare_graph_witness :
  snd (createYarnGraph "Nobody" example_world) = Ok (GraphOnly nx.empty)
  /\ res_bind (snd (createYarnGraph "Nobody" example_world)) Interact.yarnGraph_0
     = Raise KeyError.
Proof.
  destruct (createYarnGraph_no_pattern_returns_bare_graph example_world "Nobody")
    as (w' & E & _ & K).
  - intros p [<-|[<-|[<-|[]]]]; discriminate.
  - rewrite E in *. split; [reflexivity|exact K].
Defined.

(** The labels the two inner loops add for one pattern. *)
Lemma link_yarns_labels patternName recyarns ys g acc :
  snd (fold_left (fun a recyarn => fold_left (link_yarn patternName recyarn) ys a)
         recyarns (g, acc))
  = (acc ++ flat_map (fun recyarn =>
               map yarn_label (filter (fun yarn => Py.eq (Yarn.id yarn) recyarn) ys))
             recyarns)%list.
Proof.
  revert g acc. induction recyarns as [|r rs IH]; intros g acc; simpl.
  - rewrite app_nil_r. reflexivity.
  - assert (Hin : forall ys g acc,
               snd (fold_left (link_yarn patternName r) ys (g, acc))
               = (acc ++ map yarn_label
                          (filter (fun yarn => Py.eq (Yarn.id yarn) r) ys))%list).
    { clear. induction ys as [|y ys IHy]; intros g acc; simpl.
      - rewrite app_nil_r. reflexivity.
      - unfold link_yarn at 2. destruct (Py.eq (Yarn.id y) r); simpl.
        + rewrite IHy, <- app_assoc. reflexivity.
        + apply IHy. }
    destruct (fold_left (link_yarn patternName r) ys (g, acc)) as [g' acc'] eqn:E.
    rewrite IH. pose proof (Hin ys g acc) as H. rewrite E in H. simpl in H.
    rewrite H, <- app_assoc. reflexivity.
Qed.

Lemma nth_error_mid {A} (pre : list A) x rest :
  nth_error (pre ++ x :: rest) (length pre) = Some x.
Proof. induction pre as [|y pre IH]; [reflexivity|exact IH]. Qed.

Lemma replace_mid {A} (pre : list A) x y rest :
  replace (length pre) y (pre ++ x :: rest) = (pre ++ y :: rest)%list.
Proof.
  induction pre as [|z pre IH]; [reflexivity|].
  cbn [length app replace]. rewrite IH. reflexivity.
Qed.

Lemma positions_nonempty {A} (test : A -> bool) from l :
  (exists x, In x l /\ test x = true) -> positions test from l <> [].
Proof.
  revert from. induction l as [|y l IH]; intros from (x & Hx & Ht); [contradiction|].
  cbn [positions]. destruct (test y) eqn:E; [discriminate|].
  apply IH. destruct Hx as [->|Hx]; [congruence|]. exists x. auto.
Qed.

(** The loop over the patterns of a designer returns when each of them
    hydrates, and has then collected the labels of the yarns they
    recommend. *)
Lemma yarn_loop_run designer (wb : Web) (ys : list Yarn.t) rest :
  forall pre w acc,
    patterns (self w) = (pre ++ rest)%list -> web w = wb -> yarns (self w) = ys ->
    (forall p, In p rest -> by_designer designer p = true -> hydrates wb p) ->
    exists w' g,
      yarn_loop (positions (by_designer designer) (length pre) rest) acc w
      = (w', Ok (g, (snd acc
                     ++ flat_map (fun p => pattern_labels ys (hydrated wb p))
                          (filter (by_designer designer) rest))%list)).
Proof.
  induction rest as [|p rest IH]; intros pre w acc Hp Hw Hy Hh.
  - exists w, (fst acc). cbn [positions yarn_loop filter flat_map ret].
    rewrite app_nil_r. destruct acc; reflexivity.
  - cbn [positions filter]. destruct (by_designer designer p) eqn:Et.
    + destruct (hydrates_recyarn wb p (Hh p (or_introl eq_refl) Et)) as (Efull & l & El).
      cbn [yarn_loop flat_map].
      unfold bind at 1, gets at 1. rewrite Hw.
      unfold bind at 1, on_pattern at 1. rewrite Hp, nth_error_mid, Efull, replace_mid.
      set (w1 := set_patterns (pre ++ hydrated wb p :: rest) w).
      unfold bind at 1, the_pattern, on_pattern, gets.
      change (patterns (self w1)) with (pre ++ hydrated wb p :: rest)%list.
      rewrite nth_error_mid, replace_mid.
      set (w2 := set_patterns (pre ++ hydrated wb p :: rest) w1).
      unfold bind at 1, lift at 1. rewrite El.
      unfold bind at 1. change (yarns (self w2)) with (yarns (self w)). rewrite Hy.
      destruct (IH (pre ++ [hydrated wb p])%list w2
                  (fold_left
                     (fun a recyarn =>
                        fold_left (link_yarn (Pattern.name (hydrated wb p)) recyarn) ys a)
                     l (nx.add_node (Pattern.name (hydrated wb p))
                          [("label", nx.AStr (Pattern.name (hydrated wb p)));
                           ("type", nx.AStr "pattern")] (fst acc), snd acc)))
        as (w' & g & E).
      * change (patterns (self w2)) with (pre ++ hydrated wb p :: rest)%list.
        rewrite <- app_assoc. reflexivity.
      * exact Hw.
      * exact Hy.
      * intros q Hq. apply Hh. right. exact Hq.
      * rewrite length_app, Nat.add_comm in E. cbn [length Nat.add] in E.
        exists w', g. rewrite E. rewrite link_yarns_labels.
        unfold pattern_labels at 2. rewrite El. rewrite <- app_assoc. reflexivity.
    + destruct (IH (pre ++ [p])%list w acc) as (w' & g & E).
      * rewrite Hp, <- app_assoc. reflexivity.
      * exact Hw.
      * exact Hy.
      * intros q Hq. apply Hh. right. exact Hq.
      * rewrite length_app, Nat.add_comm in E. cbn [length Nat.add] in E.
        exists w', g. exact E.
Qed.

(** C6: in the example catalogue, where Jane Doe has the Hat (recommending
    both yarns) and the Scarf (recommending the first), the network has
    the four nodes and the three edges of the example and the top list
    gives the first yarn twice and the second once. In general, for a
    designer with at least one pattern, all of which hydrate, the builder
    returns a graph together with a list that ranks the five most frequent
    of the yarn labels met: each with its number of occurrences, by
    descending count, equal counts in the order of first occurrence. *)
Theorem createYarnGraph_network_and_ranking :
  (snd (createYarnGraph "Jane Doe" example_world)
   = Ok (GraphAndTop example_graph [("Merino by Acme", 2); ("Sock by Bolt", 1)])
   /\ nx.nodes example_graph = ["Hat"; "Merino by Acme"; "Sock by Bolt"; "Scarf"]
   /\ map fst (nx.edges example_graph)
      = [("Hat", "Merino by Acme"); ("Hat", "Sock by Bolt"); ("Scarf", "Merino by Acme")])
  /\ forall (designer : string) (w : World),
      (exists p, In p (patterns (self w)) /\ by_designer designer p = true) ->
      (forall p, In p (patterns (self w)) -> by_designer designer p = true ->
                 hydrates (web w) p) ->
      exists w' graph top,
        createYarnGraph designer w = (w', Ok (GraphAndTop graph top))
        /\ top = most_common 5 (Counter (designer_labels w designer))
        /\ ranked 5 (designer_labels w designer) top.
Proof.
  split; [repeat split; reflexivity|].
  intros designer w Hex Hh.
  unfold createYarnGraph, bind at 1, print, modify.
  unfold bind at 1, gets. cbn [self patterns].
  fold (printed "Creating graph..." w). fold (by_designer designer).
  pose proof (positions_nonempty (by_designer designer) 0 _ Hex) as Hne.
  destruct (yarn_loop_run designer (web w) (yarns (self w)) (patterns (self w)) []
              (printed "Creating graph..." w) (nx.empty, []) eq_refl eq_refl eq_refl Hh)
    as (w' & g & E).
  cbn [length app snd] in E.
  destruct (positions (by_designer designer) 0 (patterns (self w))) as [|i rest] eqn:Epos;
    [contradiction|].
  unfold bind. rewrite E. unfold ret. cbn [fst snd].
  fold (designer_labels w designer).
  exists w', g, (most_common 5 (Counter (designer_labels w designer))).
  split; [reflexivity|]. split; [reflexivity|]. apply most_common_ranked.
Qed.

Lemma createYarnGraph_network_and_ranking_witness :
  exists w' graph top,
    createYarnGraph " jane doe " example_world = (w', Ok (GraphAndTop graph top))
    /\ top = [("Merino by Acme", 2); ("Sock by Bolt", 1)]
    /\ ranked 5 ["Merino by Acme"; "Sock by Bolt"; "Merino by Acme"] top.
Proof.
  destruct (proj2 createYarnGraph_network_and_ranking " jane doe " example_world)
    as (w' & graph & top & E & Etop & Hr).
  - exists P1. split; [left; reflexivity|reflexivity].
  - intros p [<-|[<-|[<-|[]]]] Hd; try reflexivity. discriminate Hd.
  - exists w', graph, top. split; [exact E|]. split; [exact Etop|exact Hr].
Defined.

End YarnGraph.

(** ** Distances *)

Section Distance.

Local Open Scope R_scope.

Lemma Rle_bool_true x y : x <= y -> Py.Rle_bool x y = true.
Proof. intros H. unfold Py.Rle_bool. destruct (Rle_dec x y); [reflexivity|contradiction]. Qed.

Lemma Rle_bool_false x y : y < x -> Py.Rle_bool x y = false.
Proof.
  intros H. unfold Py.Rle_bool. destruct (Rle_dec x y) as [L|]; [|reflexivity].
  exfalso. apply (Rlt_irrefl x). eapply Rle_lt_trans; eassumption.
Qed.

(** When the four coordinates are numbers, the distance from one shop to
    another is computed to the same result, or fails alike, in both
    directions. *)
Lemma distance_between_sym s o sla slo ola olo :
  PyFloat.float (Shop.lat s) = Ok sla -> PyFloat.float (Shop.long s) = Ok slo ->
  PyFloat.float (Shop.lat o) = Ok ola -> PyFloat.float (Shop.long o) = Ok olo ->
  distance_between s o = distance_between o s.
Proof.
  intros H1 H2 H3 H4. unfold distance_between, Shop.calcDistance.
  rewrite H1, H2, H3, H4. cbn [res_bind].
  replace ((ola - sla) * (PI / 180) / 2) with (- ((sla - ola) * (PI / 180) / 2)) by field.
  replace ((olo - slo) * (PI / 180) / 2) with (- ((slo - olo) * (PI / 180) / 2)) by field.
  rewrite !sin_neg.
  replace (- sin ((sla - ola) * (PI / 180) / 2) * - sin ((sla - ola) * (PI / 180) / 2)
           + cos (ola * (PI / 180)) * cos (sla * (PI / 180))
             * (- sin ((slo - olo) * (PI / 180) / 2) * - sin ((slo - olo) * (PI / 180) / 2)))
    with (sin ((sla - ola) * (PI / 180) / 2) * sin ((sla - ola) * (PI / 180) / 2)
          + cos (sla * (PI / 180)) * cos (ola * (PI / 180))
            * (sin ((slo - olo) * (PI / 180) / 2) * sin ((slo - olo) * (PI / 180) / 2)))
    by ring.
  reflexivity.
Qed.

Lemma calcDistance_floats s x y d :
  Shop.calcDistance s x y = Ok d ->
  exists sla slo, PyFloat.float (Shop.lat s) = Ok sla /\ PyFloat.float (Shop.long s) = Ok slo.
Proof.
  unfold Shop.calcDistance.
  destruct (PyFloat.float (Shop.lat s)) as [sla|]; [|discriminate]. cbn [res_bind].
  destruct (PyFloat.float x); [|discriminate]. cbn [res_bind].
  destruct (PyFloat.float (Shop.long s)) as [slo|]; [|discriminate].
  intros _. eauto.
Qed.

(** The distance from a shop to the point where it stands is zero. *)
Lemma calcDistance_same_point s olat olong x y :
  PyFloat.float (Shop.lat s) = Ok x -> PyFloat.float olat = Ok x ->
  PyFloat.float (Shop.long s) = Ok y -> PyFloat.float olong = Ok y ->
  Shop.calcDistance s olat olong = Ok 0.
Proof.
  intros H1 H2 H3 H4. unfold Shop.calcDistance.
  rewrite H1, H2, H3, H4. cbn [res_bind].
  replace ((x - x) * (PI / 180) / 2) with 0 by field.
  replace ((y - y) * (PI / 180) / 2) with 0 by field.
  rewrite sin_0.
  replace (0 * 0 + cos (x * (PI / 180)) * cos (x * (PI / 180)) * (0 * 0)) with 0 by ring.
  unfold PyFloat.math_sqrt. rewrite (Rle_bool_true 0 0) by apply Rle_refl.
  cbn [res_bind]. rewrite sqrt_0.
  unfold PyFloat.math_asin.
  rewrite (Rle_bool_true (-1) 0) by lra. rewrite (Rle_bool_true 0 1) by lra.
  cbn [andb res_bind]. rewrite asin_0. f_equal. ring.
Qed.

End Distance.

(** ** Distances on binary64 numbers *)

Section Rounding.

Import PrimFloat.
Local Open Scope float_scope.

(** The coordinates as [float] reads them. *)
Lemma antipodes_coordinates :
  antipode_lat = -0x1.df4e801dc7912p+5 /\ antipode_long = -0x1.5285a5b9628ccp+7
  /\ oslo_lat = 0x1.df4e8002ef9e9p+5 /\ oslo_long = 0x1.57a5a49f87196p+3.
Proof. vm_compute. repeat split. Qed.

(** The sum under the square root, from the rounded sines and cosines:
    it is 1 + 2^-51, and its square root is 1 + 2^-52. *)
Lemma antipodes_sum :
  let a := (-0x1.bb046ad654c3fp-1 * -0x1.bb046ad654c3fp-1)
           + 0x1.00aba17fc4c66p-1 * 0x1.00aba199b69b4p-1 * (-1 * -1) in
  a = 0x1.0000000000002p+0
  /\ sqrt a = 0x1.0000000000001p+0
  /\ (1 <? abs (sqrt a)) = true.
Proof. vm_compute. repeat split. Qed.

(** C8, where the code fails it: for the shop within a foot of the
    antipodes of the point in Oslo, the rounded sum under the square root
    is 1 + 2^-51, its square root is 1 + 2^-52, and [math.asin] raises
    [ValueError]; so [calcDistance] returns no distance at all, from the
    shop to the city and from the city to the shop. The sine and the
    cosine are any that give, at the four angles reached, the values
    nearest to the exact ones. *)
Theorem calcDistance_raises_at_antipodes :
  forall libm_sin libm_cos libm_asin : float -> float,
    libm_at_antipodes libm_sin libm_cos ->
    Binary64.calcDistance libm_sin libm_cos libm_asin antipode_lat antipode_long oslo_lat oslo_long
    = Raise ValueError
    /\ Binary64.calcDistance libm_sin libm_cos libm_asin oslo_lat oslo_long antipode_lat antipode_long
       = Raise ValueError.
Proof.
  intros s c a (H1 & H2 & H3 & H4 & H5 & H6). split.
  - vm_compute. rewrite H1, H3, H5, H6. vm_compute. reflexivity.
  - vm_compute. rewrite H2, H4, H5, H6. vm_compute. reflexivity.
Qed.

Lemma calcDistance_raises_at_antipodes_witness :
  Binary64.calcDistance sin_table cos_table (fun x => x) antipode_lat antipode_long oslo_lat oslo_long
  = Raise ValueError.
Proof.
  apply (calcDistance_raises_at_antipodes sin_table cos_table (fun x => x)).
  vm_compute. repeat split.
Defined.

End Rounding.

(** ** The shop network of a city *)

Section ShopGraphNodes.

Import Graph.

Lemma dict_get_in {V} k (v : V) d : Dict.get k d = Some v -> In (k, v) d.
Proof.
  induction d as [|[k0 v0] d IH]; simpl; [discriminate|].
  destruct (String.eqb_spec k0 k) as [->|_].
  - intros H; injection H as ->. left. reflexivity.
  - intros H. right. apply IH. exact H.
Qed.

Lemma dict_in_get {V} k (v : V) d :
  NoDup (Dict.keys d) -> In (k, v) d -> Dict.get k d = Some v.
Proof.
  induction d as [|[k0 v0] d IH]; simpl; intros N H; [contradiction|].
  inversion N as [|? ? Hk N']; subst. destruct H as [E|H].
  - injection E as -> ->. rewrite String.eqb_refl. reflexivity.
  - destruct (String.eqb_spec k0 k) as [->|_]; [|apply IH; assumption].
    exfalso. apply Hk. change k with (fst (k, v)). apply in_map. exact H.
Qed.

Lemma dict_set_in {V} k (v : V) d k' v' :
  In (k', v') (Dict.set k v d) -> (k', v') = (k, v) \/ In (k', v') d.
Proof.
  induction d as [|[k0 v0] d IH]; simpl.
  - intros [E|[]]. left. symmetry. exact E.
  - destruct (String.eqb_spec k0 k) as [->|_]; simpl.
    + intros [E|H]; [left; symmetry; exact E|right; right; exact H].
    + intros [E|H]; [right; left; exact E|].
      destruct (IH H) as [E|H']; [left; exact E|right; right; exact H'].
Qed.

Lemma dict_set_keys_nodup {V} k (v : V) d :
  NoDup (Dict.keys d) -> NoDup (Dict.keys (Dict.set k v d)).
Proof.
  intros N. rewrite dict_keys_set. destruct (Dict.mem k d) eqn:M; [exact N|].
  apply NoDup_app; [exact N|constructor; [intros []|constructor]|].
  intros z Hz [<-|[]]. apply dict_mem_in in Hz. congruence.
Qed.

Lemma dict_set_fresh {V} k (v : V) d :
  ~ In k (Dict.keys d) -> Dict.set k v d = (d ++ [(k, v)])%list.
Proof.
  induction d as [|[k0 v0] d IH]; simpl; intros H; [reflexivity|].
  destruct (String.eqb_spec k0 k) as [->|_]; [exfalso; apply H; left; reflexivity|].
  rewrite IH; [reflexivity|]. intros H'. apply H. right. exact H'.
Qed.

Lemma add_shop_node P g s :
  shop_nodes P (nx.node g) ->
  nx.node (add_shop g s) = Dict.set (shop_label s) (shop_attrs s) (nx.node g)
  /\ nx.edges (add_shop g s) = nx.edges g.
Proof.
  intros N. unfold add_shop, nx.add_node. cbn [nx.node nx.edges]. split; [|reflexivity].
  f_equal. destruct (Dict.get (shop_label s) (nx.node g)) as [d|] eqn:E; [|reflexivity].
  apply dict_get_in in E. destruct (N _ _ E) as (s' & _ & _ & ->). reflexivity.
Qed.

Lemma fold_add_shop P l :
  (forall s, In s l -> P s) ->
  forall g,
    shop_nodes P (nx.node g) ->
    let g' := fold_left add_shop l g in
    shop_nodes P (nx.node g')
    /\ nx.edges g' = nx.edges g
    /\ (forall k, In k (nx.nodes g') <-> In k (nx.nodes g) \/ exists s, In s l /\ shop_label s = k)
    /\ (NoDup (nx.nodes g) -> NoDup (nx.nodes g'))
    /\ (NoDup (nx.nodes g ++ map shop_label l) ->
        nx.node g' = (nx.node g ++ map (fun s => (shop_label s, shop_attrs s)) l)%list).
Proof.
  induction l as [|s l IH]; intros HP g N; cbn [fold_left].
  - cbv zeta. repeat split; auto.
    + intros [H|(s & [] & _)]. exact H.
    + intros _. simpl. rewrite app_nil_r. reflexivity.
  - destruct (add_shop_node P g s N) as [En Ee].
    assert (N1 : shop_nodes P (nx.node (add_shop g s))).
    { rewrite En. intros k d H. apply dict_set_in in H. destruct H as [E|H].
      - injection E as -> ->. exists s. split; [apply HP; left; reflexivity|auto].
      - apply N. exact H. }
    destruct (IH (fun x Hx => HP x (or_intror Hx)) (add_shop g s) N1)
      as (I1 & I2 & I3 & I4 & I5).
    cbv zeta. split; [exact I1|]. split; [rewrite I2; exact Ee|].
    assert (Hk : forall k, In k (nx.nodes (add_shop g s))
                           <-> In k (nx.nodes g) \/ k = shop_label s).
    { intros k. unfold nx.nodes. rewrite En, dict_keys_set.
      destruct (Dict.mem (shop_label s) (nx.node g)) eqn:M.
      - apply dict_mem_in in M. split; [auto|]. intros [H| ->]; assumption.
      - rewrite in_app_iff. simpl. split.
        + intros [H|[<-|[]]]; auto.
        + intros [H| ->]; auto. }
    split; [|split].
    + intros k. rewrite I3, Hk. split.
      * intros [[H| ->]|(x & Hx & E)].
        -- left. exact H.
        -- right. exists s. split; [left; reflexivity|reflexivity].
        -- right. exists x. split; [right; exact Hx|exact E].
      * intros [H|(x & [<-|Hx] & E)].
        -- left. left. exact H.
        -- left. right. symmetry. exact E.
        -- right. exists x. auto.
    + intros ND. apply I4. unfold nx.nodes. rewrite En. apply dict_set_keys_nodup. exact ND.
    + intros ND. cbn [map] in ND.
      assert (Hfresh : ~ In (shop_label s) (nx.nodes g)).
      { intros H. apply (NoDup_remove_2 _ _ _ ND). apply in_or_app. left. exact H. }
      assert (E' : nx.node (add_shop g s) = (nx.node g ++ [(shop_label s, shop_attrs s)])%list).
      { rewrite En. apply dict_set_fresh. exact Hfresh. }
      rewrite I5.
      * rewrite E', <- app_assoc. reflexivity.
      * unfold nx.nodes, Dict.keys in *. rewrite E', map_app, <- app_assoc. exact ND.
Qed.

End ShopGraphNodes.

Section ShopGraphEdges.

Import Graph.

(** A loop that keeps an invariant, only extends the state, and
    establishes for each element a property that extensions keep. *)
Lemma for_each_run {A S} (Inv : S -> Prop) (ext : S -> S -> Prop) (Q : A -> S -> Prop)
    (body : S -> A -> res S) (l : list A) :
  (forall s, ext s s) ->
  (forall a b c, ext a b -> ext b c -> ext a c) ->
  (forall x a b, Q x a -> ext a b -> Q x b) ->
  (forall s x, In x l -> Inv s ->
               exists s', body s x = Ok s' /\ Inv s' /\ ext s s' /\ Q x s') ->
  forall s, Inv s ->
    exists s', for_each body l s = Ok s' /\ Inv s' /\ ext s s'
               /\ forall x, In x l -> Q x s'.
Proof.
  intros Hrefl Htrans Hkeep. induction l as [|x l IH]; intros Hbody s Hs; simpl.
  - exists s. repeat split; auto. intros x [].
  - destruct (Hbody s x (or_introl eq_refl) Hs) as (s1 & E1 & I1 & X1 & Q1).
    rewrite E1. simpl.
    destruct (IH (fun s y Hy => Hbody s y (or_intror Hy)) s1 I1) as (s2 & E2 & I2 & X2 & Q2).
    exists s2. split; [exact E2|]. split; [exact I2|]. split; [eapply Htrans; eassumption|].
    intros y [<-|Hy]; [eapply Hkeep; eassumption|apply Q2; exact Hy].
Qed.

Lemma same_edge_iff u v a b :
  nx.same_edge u v (a, b) = true <-> (a = u /\ b = v) \/ (a = v /\ b = u).
Proof.
  unfold nx.same_edge. cbn [fst snd].
  rewrite orb_true_iff, !andb_true_iff, !String.eqb_eq. reflexivity.
Qed.

Lemma same_edge_pair x y u v e :
  nx.same_edge x y (u, v) = true -> nx.same_edge x y e = nx.same_edge u v e.
Proof.
  intros H. apply same_edge_iff in H. destruct e as [a b].
  apply eq_true_iff_eq. rewrite !same_edge_iff.
  destruct H as [[-> ->]|[-> ->]]; tauto.
Qed.

Lemma edge_count_pair x y u v es :
  nx.same_edge x y (u, v) = true -> edge_count x y es = edge_count u v es.
Proof.
  intros H. unfold edge_count. f_equal. apply filter_ext.
  intros e. apply same_edge_pair. exact H.
Qed.

Lemma edge_count_app u v es e :
  edge_count u v (es ++ [e])
  = (edge_count u v es + if nx.same_edge u v (fst e) then 1 else 0)%nat.
Proof.
  unfold edge_count. rewrite filter_app, length_app. cbn [filter].
  destruct (nx.same_edge u v (fst e)); reflexivity.
Qed.

(** Setting an edge to the attributes its entry already has changes
    nothing; setting an edge that has no entry appends one. *)
Lemma set_edge_cases u v attrs es :
  (forall e, In e es -> nx.same_edge u v (fst e) = true -> Dict.update (snd e) attrs = snd e) ->
  nx.set_edge u v attrs es
  = if (edge_count u v es =? 0)%nat then (es ++ [((u, v), attrs)])%list else es.
Proof.
  induction es as [|[e d] es IH]; intros H; [reflexivity|].
  cbn [nx.set_edge]. unfold edge_count. cbn [filter fst].
  destruct (nx.same_edge u v e) eqn:E.
  - cbn [length Nat.eqb]. pose proof (H (e, d) (or_introl eq_refl) E) as Hu.
    cbn [snd] in Hu. rewrite Hu. reflexivity.
  - fold (edge_count u v es). rewrite IH by (intros e' He'; apply H; right; exact He').
    destruct (edge_count u v es =? 0)%nat; reflexivity.
Qed.

Lemma edge_count_find u v es :
  (1 <= edge_count u v es)%nat ->
  exists e, find (fun e => nx.same_edge u v (fst e)) es = Some e
            /\ In e es /\ nx.same_edge u v (fst e) = true.
Proof.
  unfold edge_count. induction es as [|e es IH]; cbn [filter find length]; [lia|].
  destruct (nx.same_edge u v (fst e)) eqn:E.
  - intros _. exists e. repeat split; [left; reflexivity|exact E].
  - intros H. destruct (IH H) as (e' & F & I & S'). exists e'.
    repeat split; [exact F|right; exact I|exact S'].
Qed.

Lemma ensure_node_mem n (nd : Dict.t (Dict.t nx.attr)) :
  In n (Dict.keys nd) -> nx.ensure_node n nd = nd.
Proof.
  intros H. unfold nx.ensure_node. apply dict_mem_in in H. rewrite H. reflexivity.
Qed.

Lemma node_shop_node g g' k : nx.node g = nx.node g' -> node_shop g k = node_shop g' k.
Proof. intros E. unfold node_shop, nx.node_attr. rewrite E. reflexivity. Qed.

Section Loop.

Variable g0 : nx.Graph.
Variable W : string -> string -> R.

Hypothesis W_sym : forall u v, In u (nx.nodes g0) -> In v (nx.nodes g0) -> W u v = W v u.
Hypothesis W_dist :
  forall u v, In u (nx.nodes g0) -> In v (nx.nodes g0) -> u <> v ->
    exists s o, node_shop g0 u = Ok s /\ node_shop g0 v = Ok o
                /\ distance_between s o = Ok (W u v).

Lemma link_shop_step u v g :
  In u (nx.nodes g0) -> In v (nx.nodes g0) ->
  edges_ok (nx.node g0) W g ->
  exists g', link_shop u g v = Ok g'
             /\ edges_ok (nx.node g0) W g' /\ edges_kept g g'
             /\ (v <> u -> (1 <= edge_count u v (nx.edges g'))%nat).
Proof.
  intros Hu Hv (En & Ee & Ec). unfold link_shop.
  destruct (String.eqb_spec v u) as [->|Hne]; cbn [negb].
  - exists g. split; [reflexivity|]. split; [unfold edges_ok; auto|].
    split; [intros x y Hxy; exact Hxy|]. intros Hvu. contradiction.
  - destruct (W_dist u v Hu Hv (not_eq_sym Hne)) as (s & o & Hs & Ho & Hd).
    rewrite (node_shop_node g g0 u En), Hs, (node_shop_node g g0 v En), Ho.
    cbn [res_bind]. fold (distance_between s o). rewrite Hd. cbn [res_bind].
    eexists. split; [reflexivity|].
    assert (Hset : nx.set_edge u v (length_attrs (W u v)) (nx.edges g)
                   = if (edge_count u v (nx.edges g) =? 0)%nat
                     then (nx.edges g ++ [((u, v), length_attrs (W u v))])%list
                     else nx.edges g).
    { apply set_edge_cases. intros [[a b] d] He Hsame.
      destruct (Ee _ He) as (Ha & Hb & _ & Hattr). cbn [fst snd] in *.
      rewrite Hattr. apply same_edge_iff in Hsame.
      destruct Hsame as [[-> ->]|[-> ->]]; [reflexivity|].
      rewrite (W_sym v u Hv Hu). reflexivity. }
    unfold nx.add_edge, edges_ok, edges_kept. cbn [nx.node nx.edges].
    fold (length_attrs (W u v)). rewrite Hset, En.
    rewrite (ensure_node_mem u) by exact Hu. rewrite (ensure_node_mem v) by exact Hv.
    destruct (Nat.eqb_spec (edge_count u v (nx.edges g)) 0) as [Hz|Hnz].
    + split; [split; [|split]|split].
      * reflexivity.
      * intros e He. apply in_app_or in He. destruct He as [He|[<-|[]]]; [apply Ee; exact He|].
        cbn [fst snd]. auto.
      * intros x y. rewrite edge_count_app. cbn [fst].
        destruct (nx.same_edge x y (u, v)) eqn:Exy; [|rewrite Nat.add_0_r; apply Ec].
        rewrite (edge_count_pair x y u v _ Exy), Hz. lia.
      * intros x y H. rewrite edge_count_app. lia.
      * intros _. rewrite edge_count_app. cbn [fst].
        assert (E : nx.same_edge u v (u, v) = true) by (apply same_edge_iff; auto).
        rewrite E. lia.
    + split; [split; [|split]|split]; auto. intros _. lia.
Qed.

Lemma link_shops_run g :
  nx.node g = nx.node g0 -> nx.edges g = [] ->
  exists g', link_shops g = Ok g'
             /\ edges_ok (nx.node g0) W g'
             /\ forall u v, In u (nx.nodes g0) -> In v (nx.nodes g0) -> u <> v ->
                  (1 <= edge_count u v (nx.edges g'))%nat.
Proof.
  intros En Ee. unfold link_shops, nx.nodes. rewrite En. fold (nx.nodes g0).
  assert (Hrefl : forall a, edges_kept a a) by (intros a u v H; exact H).
  assert (Htrans : forall a b c, edges_kept a b -> edges_kept b c -> edges_kept a c)
    by (intros a b c H1 H2 u v H; apply H2, H1, H).
  destruct (for_each_run (edges_ok (nx.node g0) W) edges_kept
              (fun u g' => forall v, In v (nx.nodes g0) -> v <> u ->
                                     (1 <= edge_count u v (nx.edges g'))%nat)
              (fun g' shop => for_each (link_shop shop) (nx.nodes g0) g')
              (nx.nodes g0) Hrefl Htrans) with (s := g)
    as (g' & E & I & _ & Q).
  - intros u a b Hq Hab v Hv Hne. apply Hab, Hq; assumption.
  - intros s u Hu Hs.
    destruct (for_each_run (edges_ok (nx.node g0) W) edges_kept
                (fun v g' => v <> u -> (1 <= edge_count u v (nx.edges g'))%nat)
                (link_shop u) (nx.nodes g0) Hrefl Htrans) with (s := s)
      as (s' & E' & I' & X' & Q').
    + intros v a b Hq Hab Hne. apply Hab, Hq, Hne.
    + intros s1 v Hv Hs1. apply link_shop_step; assumption.
    + exact Hs.
    + exists s'. auto.
  - unfold edges_ok. rewrite Ee. split; [exact En|]. split.
    + intros e [].
    + intros u v. unfold edge_count. simpl. lia.
  - exists g'. split; [exact E|]. split; [exact I|].
    intros u v Hu Hv Hne. apply (Q u Hu v Hv). intros E'. apply Hne. symmetry. exact E'.
Qed.

End Loop.

End ShopGraphEdges.

Section ShopGraph.

Import Graph.

Lemma createShopGraph_run w city cityLat cityLong :
  city_point w city = Ok (cityLat, cityLong) ->
  createShopGraph city w
  = match res_bind (near_shops cityLat cityLong (shops (self w)) nx.empty) link_shops with
    | Ok graph =>
        match nx.nodes graph with
        | [] =>
            (printed "There are no yarn shops within a 50 mile radius of this city."
               (printed "Creating graph..." w), Ok None)
        | _ => (printed "Creating graph..." w, Ok (shop_result graph))
        end
    | Raise e => (printed "Creating graph..." w, Raise e)
    end.
Proof.
  unfold city_point. intros H.
  destruct (web w _) as [response|] eqn:Ew; cbn [res_bind] in H; [|discriminate].
  destruct (Py.item0 response) as [data|] eqn:Ei; cbn [res_bind] in H; [|discriminate].
  destruct (res_bind (Py.get data "lat") PyFloat.float) as [la|] eqn:Ela;
    cbn [res_bind] in H; [|discriminate].
  destruct (res_bind (Py.get data "lon") PyFloat.float) as [lo|] eqn:Elo;
    cbn [res_bind] in H; [|discriminate].
  injection H as -> ->.
  cbv beta iota zeta delta [createShopGraph bind lift gets get_json print modify ret].
  rewrite Ew, Ei, Ela, Elo. cbn [self shops web files stdout].
  fold (printed "Creating graph..." w).
  destruct (near_shops cityLat cityLong (shops (self w)) nx.empty) as [g|e];
    cbn [res_bind]; [|reflexivity].
  destruct (link_shops g) as [g'|e]; [|reflexivity].
  unfold shop_result. destruct (nx.nodes g'); reflexivity.
Qed.

Lemma near_shops_fold cityLat cityLong ss :
  (forall s, In s ss -> has_coordinates s = true ->
             exists d, distance_to s cityLat cityLong = Ok d) ->
  forall g, near_shops cityLat cityLong ss g
            = Ok (fold_left add_shop (filter (included cityLat cityLong) ss) g).
Proof.
  induction ss as [|s ss IH]; intros H g; [reflexivity|].
  cbn [near_shops filter]. unfold included. fold (has_coordinates s).
  fold (distance_to s cityLat cityLong).
  destruct (has_coordinates s) eqn:Hc; cbn [andb].
  - destruct (H s (or_introl eq_refl) Hc) as (d & ->). cbn [res_bind].
    destruct (Py.Rle_bool d 50); cbn [fold_left];
      apply IH; intros x Hx; apply H; right; exact Hx.
  - apply IH. intros x Hx. apply H. right. exact Hx.
Qed.

(** The test of the first loop, spelled out. *)
Lemma included_iff cityLat cityLong s :
  included cityLat cityLong s = true
  <-> Py.truthy (Shop.lat s) = true /\ Py.truthy (Shop.long s) = true
      /\ exists d, distance_to s cityLat cityLong = Ok d /\ (d <= 50)%R.
Proof.
  unfold included, has_coordinates. rewrite !andb_true_iff. split.
  - intros [[H1 H2] H3]. repeat split; auto.
    destruct (distance_to s cityLat cityLong) as [d|]; [|discriminate].
    exists d. split; [reflexivity|]. unfold Py.Rle_bool in H3.
    destruct (Rle_dec d 50); [assumption|discriminate].
  - intros (H1 & H2 & d & -> & Hd). repeat split; auto. apply Rle_bool_true. exact Hd.
Qed.

(** A shop without a latitude or without a longitude is never included. *)
Lemma null_coordinate_excluded cityLat cityLong s :
  Shop.lat s = PNone \/ Shop.long s = PNone -> included cityLat cityLong s = false.
Proof.
  unfold included, has_coordinates. intros [->| ->]; cbn [Py.truthy andb].
  - reflexivity.
  - rewrite andb_false_r. reflexivity.
Qed.

(** A coordinate that is the number zero fails [shop.lat and shop.long]
    like a missing one: a shop on the equator is not included, however
    close to the city it is. *)
Lemma zero_coordinate_excluded cityLat cityLong s f :
  Shop.lat s = PFloat f -> fval f = 0%R -> included cityLat cityLong s = false.
Proof.
  intros Hl Hf. unfold included, has_coordinates. rewrite Hl.
  cbn [Py.truthy]. rewrite Hf. unfold Py.Req_bool.
  destruct (Req_dec_T 0 0) as [_|N]; [reflexivity|]. exfalso. apply N. reflexivity.
Qed.

Lemma node_shop_of P g u :
  NoDup (nx.nodes g) -> shop_nodes P (nx.node g) -> In u (nx.nodes g) ->
  exists s, P s /\ u = shop_label s /\ node_shop g u = Ok s.
Proof.
  intros ND N Hu. unfold nx.nodes, Dict.keys in Hu. apply in_map_iff in Hu.
  destruct Hu as ([k d] & <- & Hin). destruct (N _ _ Hin) as (s & Ps & -> & ->).
  exists s. repeat split; auto.
  unfold node_shop, nx.node_attr. cbn [fst].
  rewrite (dict_in_get _ _ _ ND Hin). reflexivity.
Qed.

Lemma weight_node g g' u v : nx.node g = nx.node g' -> weight g u v = weight g' u v.
Proof.
  intros E. unfold weight.
  rewrite (node_shop_node g g' u E), (node_shop_node g g' v E). reflexivity.
Qed.

(** C9, as amended. The first loop tests [shop.lat and shop.long], which
    holds when both coordinates are present and neither is zero or empty,
    and then the distance to the city against 50 miles: [included]. A node
    is the label [name (city)] of a shop, so shops with one label share a
    node. Provided the distances involved can be computed: the nodes of
    the graph are exactly the labels of the included shops; there is no
    graph when no shop is included; every two different nodes are joined
    by exactly one edge, whose length is the distance between the shops
    the two nodes hold, and there is no other edge. When the included
    shops have different labels, each has its own node and the length of
    the edge between two of them is the distance between these two
    shops. *)
Theorem createShopGraph_nodes_and_edges :
  forall (w : World) (city : string) (cityLat cityLong : R),
    city_point w city = Ok (cityLat, cityLong) ->
    (forall s, In s (shops (self w)) -> has_coordinates s = true ->
               exists d, distance_to s cityLat cityLong = Ok d) ->
    (forall s o, In s (shops (self w)) -> In o (shops (self w)) ->
                 included cityLat cityLong s = true -> included cityLat cityLong o = true ->
                 exists d, distance_between s o = Ok d) ->
    let near := filter (included cityLat cityLong) (shops (self w)) in
    exists w' result,
      createShopGraph city w = (w', Ok result)
      /\ (near = [] -> result = None)
      /\ (near <> [] ->
          exists graph top,
            result = Some (graph, top)
            /\ (forall l, In l (nx.nodes graph)
                          <-> exists s, In s (shops (self w))
                                        /\ included cityLat cityLong s = true
                                        /\ shop_label s = l)
            /\ (forall u v, In u (nx.nodes graph) -> In v (nx.nodes graph) -> u <> v ->
                  edge_count u v (nx.edges graph) = 1%nat
                  /\ nx.get_edge u v graph = Some (length_attrs (weight graph u v)))
            /\ (forall e, In e (nx.edges graph) ->
                  In (fst (fst e)) (nx.nodes graph) /\ In (snd (fst e)) (nx.nodes graph)
                  /\ fst (fst e) <> snd (fst e))
            /\ (NoDup (map shop_label near) ->
                nx.node graph = map (fun s => (shop_label s, shop_attrs s)) near
                /\ forall s o, In s near -> In o near -> shop_label s <> shop_label o ->
                     exists d, distance_between s o = Ok d
                               /\ nx.get_edge (shop_label s) (shop_label o) graph
                                  = Some (length_attrs d))).
Proof.
  intros w city cityLat cityLong Hcity H1 H2 near.
  rewrite (createShopGraph_run _ _ _ _ Hcity), (near_shops_fold _ _ _ H1).
  cbn [res_bind]. fold near.
  set (P := fun s => In s (shops (self w)) /\ included cityLat cityLong s = true).
  assert (HP : forall s, In s near -> P s) by (intros s Hs; apply filter_In in Hs; exact Hs).
  destruct (fold_add_shop P near HP nx.empty) as (N & Ee & Hk & Hnd & Heq).
  { intros k d []. }
  set (G0 := fold_left add_shop near nx.empty) in *.
  specialize (Hnd (NoDup_nil _)).
  assert (Hdist : forall u v, In u (nx.nodes G0) -> In v (nx.nodes G0) ->
            exists s o d, P s /\ P o /\ u = shop_label s /\ v = shop_label o
                          /\ node_shop G0 u = Ok s /\ node_shop G0 v = Ok o
                          /\ distance_between s o = Ok d /\ weight G0 u v = d).
  { intros u v Hu Hv.
    destruct (node_shop_of P G0 u Hnd N Hu) as (s & [Ps Is] & Eu & Hs).
    destruct (node_shop_of P G0 v Hnd N Hv) as (o & [Po Io] & Ev & Ho).
    destruct (H2 s o Ps Po Is Io) as (d & Hd).
    exists s, o, d. repeat split; auto. unfold weight. rewrite Hs, Ho, Hd. reflexivity. }
  assert (Wsym : forall u v, In u (nx.nodes G0) -> In v (nx.nodes G0) ->
                             weight G0 u v = weight G0 v u).
  { intros u v Hu Hv.
    destruct (Hdist u v Hu Hv) as (s & o & d & _ & _ & _ & _ & Hs & Ho & Hd & <-).
    destruct (Hdist v u Hv Hu) as (o' & s' & d' & _ & _ & _ & _ & Ho' & Hs' & Hd' & <-).
    rewrite Ho in Ho'. injection Ho' as <-. rewrite Hs in Hs'. injection Hs' as <-.
    destruct (calcDistance_floats _ _ _ _ Hd) as (sla & slo & F1 & F2).
    destruct (calcDistance_floats _ _ _ _ Hd') as (ola & olo & F3 & F4).
    pose proof (distance_between_sym s o sla slo ola olo F1 F2 F3 F4) as E.
    rewrite Hd, Hd' in E. injection E as ->. reflexivity. }
  destruct (link_shops_run G0 (weight G0) Wsym) with (g := G0)
    as (g & Elink & (En & Eok & Ecount) & Eone); [|reflexivity|exact Ee|].
  { intros u v Hu Hv _.
    destruct (Hdist u v Hu Hv) as (s & o & d & _ & _ & _ & _ & Hs & Ho & Hd & <-).
    exists s, o. auto. }
  rewrite Elink.
  assert (Hnodes : nx.nodes g = nx.nodes G0) by (unfold nx.nodes; rewrite En; reflexivity).
  assert (Hlabels : forall l, In l (nx.nodes g)
                              <-> exists s, In s (shops (self w))
                                            /\ included cityLat cityLong s = true
                                            /\ shop_label s = l).
  { intros l. rewrite Hnodes, Hk. unfold nx.nodes, nx.empty. cbn [nx.node Dict.keys map].
    split.
    - intros [[]|(s & Hs & E)]. apply filter_In in Hs. exists s. tauto.
    - intros (s & Hs & Hi & E). right. exists s. split; [|exact E].
      apply filter_In. auto. }
  assert (Hedge : forall u v, In u (nx.nodes g) -> In v (nx.nodes g) -> u <> v ->
            edge_count u v (nx.edges g) = 1%nat
            /\ nx.get_edge u v g = Some (length_attrs (weight G0 u v))).
  { intros u v Hu Hv Hne. rewrite Hnodes in Hu, Hv.
    pose proof (Eone u v Hu Hv Hne) as Hge. pose proof (Ecount u v) as Hle.
    split; [lia|].
    destruct (edge_count_find u v _ Hge) as ([[a b] d] & F & I & S').
    unfold nx.get_edge. rewrite F. cbn [option_map snd]. f_equal.
    destruct (Eok _ I) as (_ & _ & _ & Hattr). cbn [fst snd] in *. rewrite Hattr.
    apply same_edge_iff in S'. destruct S' as [[-> ->]|[-> ->]]; [reflexivity|].
    rewrite (Wsym v u Hv Hu). reflexivity. }
  destruct (nx.nodes g) as [|k ks] eqn:Eg.
  - eexists. exists None. split; [reflexivity|]. split; [reflexivity|].
    intros Hne. exfalso.
    assert (Hex : exists s, In s near).
    { clear - Hne. destruct near as [|s rest]; [contradiction|].
      exists s. left. reflexivity. }
    destruct Hex as (s & Hs). apply filter_In in Hs. destruct Hs as [Hs Hi].
    apply (proj2 (Hlabels (shop_label s))). exists s. auto.
  - eexists. exists (shop_result g). split; [reflexivity|].
    assert (Hres : shop_result g = Some (g, top_three g))
      by (unfold shop_result; rewrite Eg; reflexivity).
    split.
    + intros Hnil. exfalso.
      destruct (proj1 (Hlabels k) (or_introl eq_refl)) as (s & Hs & Hi & _).
      assert (Hin : In s near) by (apply filter_In; auto).
      rewrite Hnil in Hin. exact Hin.
    + intros _. exists g, (top_three g). split; [exact Hres|].
      rewrite Eg. split; [exact Hlabels|]. split; [|split].
      * intros u v Hu Hv Hne. rewrite (weight_node g G0 u v En).
        apply Hedge; assumption.
      * intros e He. destruct (Eok e He) as (Ha & Hb & Hab & _).
        rewrite Hnodes. auto.
      * intros ND. specialize (Heq ND). cbn [nx.empty nx.node app] in Heq.
        split; [rewrite En; exact Heq|].
        intros s o Hs Ho Hne.
        assert (Hshop : forall x, In x near -> node_shop G0 (shop_label x) = Ok x).
        { intros x Hx. unfold node_shop, nx.node_attr.
          rewrite (dict_in_get (shop_label x) (shop_attrs x) (nx.node G0) Hnd).
          - reflexivity.
          - rewrite Heq. apply (in_map (fun s => (shop_label s, shop_attrs s))). exact Hx. }
        assert (Hu : In (shop_label s) (nx.nodes G0))
          by (apply Hk; right; exists s; auto).
        assert (Hv : In (shop_label o) (nx.nodes G0))
          by (apply Hk; right; exists o; auto).
        destruct (Hdist _ _ Hu Hv) as (s' & o' & d & _ & _ & _ & _ & Hs' & Ho' & Hd & Hw).
        rewrite (Hshop s Hs) in Hs'. injection Hs' as <-.
        rewrite (Hshop o Ho) in Ho'. injection Ho' as <-.
        exists d. split; [exact Hd|]. rewrite <- Hw.
        apply Hedge; [rewrite Hnodes; exact Hu|rewrite Hnodes; exact Hv|exact Hne].
Qed.

End ShopGraph.

Section ShopGraphExamples.

Import Graph.

Lemma city_point_philadelphia shops :
  city_point (city_world shops) "Philadelphia" = Ok (lat40, long75).
Proof. reflexivity. Qed.

Lemma at_city s :
  Shop.lat s = PStr "40.0" -> Shop.long s = PStr "-75.0" ->
  distance_to s lat40 long75 = Ok 0%R
  /\ included lat40 long75 s = true
  /\ forall o, Shop.lat o = PStr "40.0" -> Shop.long o = PStr "-75.0" ->
               distance_between s o = Ok 0%R.
Proof.
  intros Hla Hlo.
  assert (D : distance_to s lat40 long75 = Ok 0%R).
  { unfold distance_to. apply (calcDistance_same_point s _ _ lat40 long75);
      try reflexivity; [rewrite Hla|rewrite Hlo]; reflexivity. }
  split; [exact D|]. split.
  - unfold included, has_coordinates. rewrite D, Hla, Hlo. cbn [Py.truthy PyStr.is_empty negb andb].
    apply Rle_bool_true. lra.
  - intros o Ola Olo. unfold distance_between.
    apply (calcDistance_same_point s _ _ lat40 long75);
      [rewrite Hla|rewrite Ola|rewrite Hlo|rewrite Olo]; reflexivity.
Qed.

Lemma tenth : powerRZ 10 (0 - 1) = (/ 10)%R.
Proof. change (powerRZ 10 (0 - 1)) with (/ (10 * 1))%R. f_equal. ring. Qed.

(** The far shop is a quarter of a great circle away, more than 50
    miles. *)
Lemma far_shop_distance :
  distance_to far_shop lat40 long75 = Ok (2 * (PI / 4) * Shop.R_earth)%R
  /\ included lat40 long75 far_shop = false.
Proof.
  assert (D : distance_to far_shop lat40 long75 = Ok (2 * (PI / 4) * Shop.R_earth)%R).
  { unfold distance_to, Shop.calcDistance.
    change (PyFloat.float (Shop.lat far_shop)) with (Ok latm50).
    change (PyFloat.float (Shop.long far_shop)) with (Ok long75).
    change (PyFloat.float (Py.float_obj lat40)) with (Ok lat40).
    change (PyFloat.float (Py.float_obj long75)) with (Ok long75).
    cbn [res_bind].
    replace ((latm50 - lat40) * (PI / 180) / 2)%R with (- (PI / 4))%R
      by (unfold latm50, lat40; rewrite tenth; field).
    replace ((long75 - long75) * (PI / 180) / 2)%R with 0%R by field.
    rewrite sin_neg, sin_0, sin_PI4.
    replace (- (1 / sqrt 2) * - (1 / sqrt 2)
             + cos (latm50 * (PI / 180)) * cos (lat40 * (PI / 180)) * (0 * 0))%R
      with (/ sqrt 2 * / sqrt 2)%R
      by (field; apply Rgt_not_eq, sqrt_lt_R0; lra).
    assert (Hpos : (0 < / sqrt 2)%R) by (apply Rinv_0_lt_compat, sqrt_lt_R0; lra).
    assert (Hle : (/ sqrt 2 <= 1)%R).
    { replace (/ sqrt 2)%R with (sin (PI / 4)) by (rewrite sin_PI4; field;
        apply Rgt_not_eq, sqrt_lt_R0; lra).
      apply SIN_bound. }
    unfold PyFloat.math_sqrt.
    rewrite Rle_bool_true by (apply Rmult_le_pos; lra).
    cbn [res_bind]. rewrite sqrt_square by lra.
    unfold PyFloat.math_asin.
    rewrite (Rle_bool_true (-1)) by lra. rewrite (Rle_bool_true _ 1) by exact Hle.
    cbn [andb res_bind]. rewrite asin_inv_sqrt2. reflexivity. }
  split; [exact D|].
  unfold included. rewrite D. change (has_coordinates far_shop) with true. cbn [andb].
  apply Rle_bool_false. pose proof PI2_1 as H. unfold Shop.R_earth. lra.
Qed.

(** Two different shops that share the label [name (city)] share one node:
    both pass the test of the first loop, yet the graph has a single node
    and no edge between the two. *)
Lemma same_label_shops_share_a_node :
  chain_shop 1 <> chain_shop 2
  /\ included lat40 long75 (chain_shop 1) = true
  /\ included lat40 long75 (chain_shop 2) = true
  /\ city_point (city_world [chain_shop 1; chain_shop 2]) "Philadelphia" = Ok (lat40, long75)
  /\ exists w' graph top,
      createShopGraph "Philadelphia" (city_world [chain_shop 1; chain_shop 2])
      = (w', Ok (Some (graph, top)))
      /\ nx.nodes graph = ["Knit Nook (Philadelphia)"]
      /\ nx.edges graph = [].
Proof.
  destruct (at_city (chain_shop 1) eq_refl eq_refl) as (D1 & I1 & _).
  destruct (at_city (chain_shop 2) eq_refl eq_refl) as (D2 & I2 & _).
  split; [discriminate|]. split; [exact I1|]. split; [exact I2|].
  split; [reflexivity|].
  rewrite (createShopGraph_run _ _ lat40 long75 (city_point_philadelphia _)).
  rewrite near_shops_fold.
  - cbn [city_world self shops filter]. rewrite I1, I2.
    eexists. eexists. eexists. split; [reflexivity|]. split; reflexivity.
  - intros s [<-|[<-|[]]] _; eexists; eassumption.
Qed.

Lemma createShopGraph_nodes_and_edges_witness :
  exists w' graph top,
    createShopGraph "Philadelphia"
      (city_world [chain_shop 1; far_shop; other_shop; nowhere_shop])
    = (w', Ok (Some (graph, top)))
    /\ nx.nodes graph = ["Knit Nook (Philadelphia)"; "Purl (Philadelphia)"]
    /\ nx.get_edge "Knit Nook (Philadelphia)" "Purl (Philadelphia)" graph
       = Some (length_attrs 0%R).
Proof.
  destruct (at_city (chain_shop 1) eq_refl eq_refl) as (D1 & I1 & B1).
  destruct (at_city other_shop eq_refl eq_refl) as (D2 & I2 & B2).
  destruct far_shop_distance as (D4 & I4).
  assert (I3 : included lat40 long75 nowhere_shop = false)
    by (apply null_coordinate_excluded; left; reflexivity).
  destruct (createShopGraph_nodes_and_edges
              (city_world [chain_shop 1; far_shop; other_shop; nowhere_shop]) "Philadelphia"
              lat40 long75 (city_point_philadelphia _))
    as (w' & result & E & _ & Hsome).
  - intros s [<-|[<-|[<-|[<-|[]]]]] Hc;
      [eexists; exact D1|eexists; exact D4|eexists; exact D2|discriminate Hc].
  - intros s o [<-|[<-|[<-|[<-|[]]]]] [<-|[<-|[<-|[<-|[]]]]] Hs Ho;
      try (rewrite I3 in Hs; discriminate Hs); try (rewrite I3 in Ho; discriminate Ho);
      try (rewrite I4 in Hs; discriminate Hs); try (rewrite I4 in Ho; discriminate Ho);
      eexists; first [apply B1|apply B2]; reflexivity.
  - cbn [city_world self shops filter] in Hsome. rewrite I1, I2, I3, I4 in Hsome.
    destruct Hsome as (graph & top & -> & _ & _ & _ & Hnd); [discriminate|].
    destruct Hnd as (Hnode & Hedges).
    { repeat constructor; simpl; intuition discriminate. }
    exists w', graph, top. split; [exact E|]. split.
    + unfold nx.nodes. rewrite Hnode. reflexivity.
    + destruct (Hedges (chain_shop 1) other_shop) as (d & Hd & Hget).
      * left. reflexivity.
      * right. left. reflexivity.
      * discriminate.
      * rewrite (B1 other_shop eq_refl eq_refl) in Hd. injection Hd as <-. exact Hget.
Defined.

End ShopGraphExamples.

(** ** The names of the catalogue

    Every name of a catalogue that [Graph(...)] builds is a text that
    [.strip().title()] returned, and no method of the catalogue changes a
    name. *)

Section Invariant.

Import Graph.

Lemma stable_bind {S A B} (I : S -> Prop) (m : M S A) (k : A -> M S B) :
  stable I m -> (forall a, stable I (k a)) -> stable I (bind m k).
Proof.
  intros Hm Hk s Hs. unfold bind. specialize (Hm s Hs).
  destruct (m s) as [s1 [a|e]]; [|exact Hm]. apply (Hk a s1 Hm).
Qed.

Lemma stable_ret {S A} (I : S -> Prop) (a : A) : stable I (ret a).
Proof. intros s Hs. exact Hs. Qed.

Lemma stable_raise {S A} (I : S -> Prop) e : stable I (raise e : M S A).
Proof. intros s Hs. exact Hs. Qed.

Lemma stable_lift {S A} (I : S -> Prop) (r : res A) : stable I (lift r).
Proof. intros s Hs. exact Hs. Qed.

Lemma stable_gets {S A} (I : S -> Prop) (f : S -> A) : stable I (gets f).
Proof. intros s Hs. exact Hs. Qed.

Lemma stable_modify {S} (I : S -> Prop) (f : S -> S) :
  (forall s, I s -> I (f s)) -> stable I (modify f).
Proof. intros H s Hs. apply H. exact Hs. Qed.

Lemma stable_append_gets {T} (I : T -> Prop) append key items :
  (forall v s, I s -> I (append v s)) -> stable I (append_gets append key items).
Proof.
  intros H. induction items as [|item rest IH]; cbn [append_gets].
  - apply stable_ret.
  - apply stable_bind; [apply stable_lift|]. intros v.
    apply stable_bind; [apply stable_modify; intros s; apply H|]. intros ?. exact IH.
Qed.

Lemma stable_for_if_truthy {T} (I : T -> Prop) v body :
  (forall items, stable I (body items)) -> stable I (for_if_truthy v body).
Proof.
  intros H. unfold for_if_truthy. destruct (Py.truthy v); [|apply stable_ret].
  apply stable_bind; [apply stable_lift|]. exact H.
Qed.

Ltac stable_steps :=
  repeat first
    [ apply stable_ret | apply stable_raise | apply stable_lift | apply stable_gets
    | apply stable_bind; [|intros ?] ].

(** [getFullData] assigns neither the name nor the designer of a pattern. *)
Lemma Pattern_getFullData_names web n d :
  stable (fun p => Pattern.name p = n /\ Pattern.designer p = d) (Pattern.getFullData web).
Proof.
  unfold Pattern.getFullData. stable_steps;
    try (apply stable_modify; intros s H; exact H);
    apply stable_for_if_truthy; intros items; apply stable_append_gets;
    intros v s H; exact H.
Qed.

Lemma stable_append_lines (I : Yarn.t -> Prop) l :
  (forall v s, I s -> I (Yarn.append_fiberContent v s)) -> stable I (Yarn.append_lines l).
Proof.
  intros H. induction l as [|[pct fiber] rest IH]; cbn [Yarn.append_lines].
  - apply stable_ret.
  - apply stable_bind; [apply stable_lift|]. intros v.
    apply stable_bind; [apply stable_modify; intros s; apply H|]. intros ?. exact IH.
Qed.

Lemma Yarn_getFullData_names web n b :
  stable (fun y => Yarn.name y = n /\ Yarn.brand y = b) (Yarn.getFullData web).
Proof.
  unfold Yarn.getFullData. stable_steps;
    try (apply stable_modify; intros s H; exact H).
  apply stable_append_lines. intros v s H. exact H.
Qed.

Lemma map_replace {A B} (f : A -> B) (l : list A) :
  forall i x y, nth_error l i = Some x -> f y = f x -> map f (replace i y l) = map f l.
Proof.
  induction l as [|z l IH]; intros [|i] x y H E; try discriminate H; cbn [replace map].
  - injection H as ->. rewrite E. reflexivity.
  - rewrite (IH i x y H E). reflexivity.
Qed.

Lemma stable_on_pattern {A} N i (m : M Pattern.t A) :
  (forall n d, stable (fun p => Pattern.name p = n /\ Pattern.designer p = d) m) ->
  stable (named N) (on_pattern i m).
Proof.
  intros Hm w Hw. unfold on_pattern.
  destruct (nth_error (patterns (self w)) i) as [p|] eqn:E; [|exact Hw].
  pose proof (Hm (Pattern.name p) (Pattern.designer p) p (conj eq_refl eq_refl)) as [Hn Hd].
  destruct (m p) as [p' r]. cbn [fst] in *.
  unfold named, names_of in *. cbn [set_patterns set_self self patterns shops yarns].
  rewrite (map_replace _ _ i p p' E); [exact Hw|]. rewrite Hn, Hd. reflexivity.
Qed.

Lemma stable_on_yarn {A} N i (m : M Yarn.t A) :
  (forall n b, stable (fun y => Yarn.name y = n /\ Yarn.brand y = b) m) ->
  stable (named N) (on_yarn i m).
Proof.
  intros Hm w Hw. unfold on_yarn.
  destruct (nth_error (yarns (self w)) i) as [y|] eqn:E; [|exact Hw].
  pose proof (Hm (Yarn.name y) (Yarn.brand y) y (conj eq_refl eq_refl)) as [Hn Hb].
  destruct (m y) as [y' r]. cbn [fst] in *.
  unfold named, names_of in *. cbn [set_yarns set_self self patterns shops yarns].
  rewrite (map_replace _ _ i y y' E); [exact Hw|]. rewrite Hn, Hb. reflexivity.
Qed.

Lemma stable_print N line : stable (named N) (print line).
Proof. intros w H. exact H. Qed.

Lemma stable_the_pattern N i : stable (named N) (the_pattern i).
Proof. apply stable_on_pattern. intros n d. apply stable_gets. Qed.

Lemma stable_the_yarn N i : stable (named N) (the_yarn i).
Proof. apply stable_on_yarn. intros n b. apply stable_gets. Qed.

Lemma stable_getPattern N id name : stable (named N) (getPattern id name).
Proof.
  assert (F : forall i fmt heading, stable (named N) (found_pattern i fmt heading)).
  { intros i fmt heading. unfold found_pattern.
    apply stable_bind; [apply stable_the_pattern|]. intros ?.
    apply stable_bind; [apply stable_print|]. intros ?.
    apply stable_bind; [apply stable_gets|]. intros ?.
    apply stable_bind; [apply stable_on_pattern; intros; apply Pattern_getFullData_names|].
    intros ?. apply stable_bind; [apply stable_the_pattern|]. intros ?. stable_steps. }
  unfold getPattern. apply stable_bind; [apply stable_gets|]. intros ps.
  destruct (Py.truthy id).
  - destruct (first_index _ ps); [apply F|apply stable_ret].
  - destruct (Py.truthy name); [|apply stable_ret].
    apply stable_bind; [apply stable_lift|]. intros t.
    destruct (first_index _ ps); [apply F|apply stable_ret].
Qed.

Lemma stable_getShop N id name : stable (named N) (getShop id name).
Proof.
  assert (F : forall shop, stable (named N) (found_shop shop)).
  { intros shop. unfold found_shop.
    apply stable_bind; [apply stable_print|]. intros ?. stable_steps. }
  unfold getShop. apply stable_bind; [apply stable_gets|]. intros ss.
  destruct (Py.truthy id).
  - destruct (find _ ss); [apply F|apply stable_ret].
  - destruct (Py.truthy name); [|apply stable_ret].
    apply stable_bind; [apply stable_lift|]. intros t.
    destruct (find _ ss); [apply F|apply stable_ret].
Qed.

Lemma stable_getYarn N id name : stable (named N) (getYarn id name).
Proof.
  assert (F : forall i, stable (named N) (found_yarn i)).
  { intros i. unfold found_yarn.
    apply stable_bind; [apply stable_the_yarn|]. intros ?.
    apply stable_bind; [apply stable_print|]. intros ?.
    apply stable_bind; [apply stable_gets|]. intros ?.
    apply stable_bind; [apply stable_on_yarn; intros; apply Yarn_getFullData_names|].
    intros ?. apply stable_bind; [apply stable_the_yarn|]. intros ?. apply stable_ret. }
  unfold getYarn. apply stable_bind; [apply stable_gets|]. intros ys.
  destruct (Py.truthy id).
  - destruct (first_index _ ys); [apply F|apply stable_ret].
  - destruct (Py.truthy name); [|apply stable_ret].
    apply stable_bind; [apply stable_lift|]. intros t.
    destruct (first_index _ ys); [apply F|apply stable_ret].
Qed.

Lemma stable_yarn_loop N idxs : forall acc, stable (named N) (yarn_loop idxs acc).
Proof.
  induction idxs as [|i rest IH]; intros acc; cbn [yarn_loop]; [apply stable_ret|].
  apply stable_bind; [apply stable_gets|]. intros ?.
  apply stable_bind; [apply stable_on_pattern; intros; apply Pattern_getFullData_names|].
  intros ?. apply stable_bind; [apply stable_the_pattern|]. intros ?.
  apply stable_bind; [apply stable_lift|]. intros ?.
  apply stable_bind; [apply stable_gets|]. intros ?. apply IH.
Qed.

Lemma stable_createYarnGraph N designer :
  stable (named N) (createYarnGraph designer).
Proof.
  unfold createYarnGraph.
  apply stable_bind; [apply stable_print|]. intros ?.
  apply stable_bind; [apply stable_gets|]. intros ps.
  destruct (positions _ 0%nat ps).
  - apply stable_bind; [apply stable_print|]. intros ?. apply stable_ret.
  - apply stable_bind; [apply stable_yarn_loop|]. intros ?. apply stable_ret.
Qed.

Lemma stable_createShopGraph N city :
  stable (named N) (createShopGraph city).
Proof.
  unfold createShopGraph, get_json.
  apply stable_bind; [stable_steps|]. intros ?.
  apply stable_bind; [apply stable_lift|]. intros ?.
  apply stable_bind; [apply stable_lift|]. intros ?.
  apply stable_bind; [apply stable_lift|]. intros ?.
  apply stable_bind; [apply stable_print|]. intros ?.
  apply stable_bind; [apply stable_gets|]. intros ?.
  apply stable_bind; [apply stable_lift|]. intros ?.
  apply stable_bind; [apply stable_lift|]. intros g.
  destruct (nx.nodes g); [|apply stable_ret].
  apply stable_bind; [apply stable_print|]. intros ?. apply stable_ret.
Qed.

Lemma stable_cacheData N list filepath :
  stable (named N) (cacheData list filepath).
Proof.
  unfold cacheData. destruct (PyStr.is_empty filepath); [apply stable_raise|].
  apply stable_modify. intros w H. exact H.
Qed.

Lemma hoare_post {S A} (P : S -> Prop) (m : M S A) (Q Q' : A -> S -> Prop) :
  hoare P m Q -> (forall a s, Q a s -> Q' a s) -> hoare P m Q'.
Proof.
  intros H HQ s Hs. specialize (H s Hs). destruct (m s) as [s' [a|e]]; [|exact I].
  apply HQ. exact H.
Qed.

Lemma hoare_lift_ok {S A} (P : S -> Prop) (r : res A) :
  hoare P (lift r) (fun a s => P s /\ r = Ok a).
Proof. intros s Hs. unfold lift. destruct r; [split; [exact Hs|reflexivity]|exact I]. Qed.

Lemma hoare_stable {S A} (I : S -> Prop) (m : M S A) (Q : A -> S -> Prop) :
  stable I m -> hoare (fun _ => True) m Q -> hoare I m (fun a s => I s /\ Q a s).
Proof.
  intros Hs Hh s Is. specialize (Hs s Is). specialize (Hh s Logic.I).
  destruct (m s) as [s' [a|e]]; [|exact Logic.I]. split; assumption.
Qed.

Lemma comprehension_all {A} (f : pyval -> res A) (Q : A -> Prop) l r :
  (forall x a, f x = Ok a -> Q a) -> comprehension f l = Ok r -> Forall Q r.
Proof.
  intros Hf. revert r. induction l as [|x l IH]; cbn [comprehension]; intros r E.
  - injection E as <-. constructor.
  - destruct (f x) as [a|] eqn:Ex; cbn [res_bind] in E; [|discriminate].
    destruct (comprehension f l) as [r'|]; cbn [res_bind] in E; [|discriminate].
    injection E as <-. constructor; [apply (Hf x a Ex)|apply IH; reflexivity].
Qed.

Lemma get_title_cleaned v key t : get_title v key = Ok t -> cleaned t.
Proof.
  unfold get_title. destruct (res_bind (Py.get v key) Py.as_str) as [x|];
    cbn [res_bind]; [|discriminate].
  intros E. injection E as <-. exists x. reflexivity.
Qed.

Lemma listed_pattern_cleaned x p :
  listed_pattern x = Ok p -> cleaned (Pattern.name p) /\ cleaned (Pattern.designer p).
Proof.
  unfold listed_pattern.
  destruct (Py.get x "id"); cbn [res_bind]; [|discriminate].
  destruct (get_title x "name") as [n|] eqn:En; cbn [res_bind]; [|discriminate].
  destruct (Py.get x "free"); cbn [res_bind]; [|discriminate].
  destruct (Py.get x "permalink"); cbn [res_bind]; [|discriminate].
  destruct x; cbn [res_bind]; try discriminate.
  match goal with
  | |- res_bind ?g _ = _ -> _ => destruct g as [dn|] eqn:Ed; cbn [res_bind]; [|discriminate]
  end.
  intros E. injection E as <-. cbn [Pattern.init Pattern.name Pattern.designer].
  split; eapply get_title_cleaned; eassumption.
Qed.

Lemma listed_shop_cleaned x sh : listed_shop x = Ok sh -> cleaned (Shop.name sh).
Proof.
  unfold listed_shop.
  destruct (Py.get x "id"); cbn [res_bind]; [|discriminate].
  destruct (get_title x "name") as [n|] eqn:En; cbn [res_bind]; [|discriminate].
  destruct (Py.get x "latitude"); cbn [res_bind]; [|discriminate].
  destruct (Py.get x "longitude"); cbn [res_bind]; [|discriminate].
  destruct (Py.get x "city"); cbn [res_bind]; [|discriminate].
  intros E. injection E as <-. cbn [Shop.init Shop.name].
  eapply get_title_cleaned; eassumption.
Qed.

Lemma listed_yarn_cleaned x y :
  listed_yarn x = Ok y -> cleaned (Yarn.name y) /\ cleaned (Yarn.brand y).
Proof.
  unfold listed_yarn.
  destruct (Py.get x "id"); cbn [res_bind]; [|discriminate].
  destruct (get_title x "name") as [n|] eqn:En; cbn [res_bind]; [|discriminate].
  destruct (get_title x "yarn_company_name") as [b|] eqn:Eb; cbn [res_bind]; [|discriminate].
  destruct (Py.get x "yarn_weight"); cbn [res_bind]; [|discriminate].
  intros E. injection E as <-. cbn [Yarn.init Yarn.name Yarn.brand].
  split; eapply get_title_cleaned; eassumption.
Qed.

Lemma stable_fetch_pages {I : World -> Prop} url key first count :
  stable I (fetch_pages url key first count).
Proof.
  revert first. induction count as [|n IH]; intros first; cbn [fetch_pages].
  - apply stable_ret.
  - unfold get_json. stable_steps. apply IH.
Qed.

Lemma stable_fetchData {I : World -> Prop} url key : stable I (fetchData url key).
Proof.
  unfold fetchData, get_json. stable_steps. apply stable_fetch_pages.
Qed.

Lemma stable_loadCache {I : World -> Prop} fileName type : stable I (loadCache fileName type).
Proof.
  unfold loadCache. destruct (Py.truthy fileName); [|apply stable_ret]. stable_steps.
Qed.

Lemma loadCache_cleaned fileName type :
  hoare (fun _ => True) (loadCache fileName type)
        (fun o _ => forall l, o = Some l -> names_all cleaned l).
Proof.
  unfold loadCache. destruct (Py.truthy fileName).
  - eapply hoare_bind; [apply hoare_lift|]. intros path.
    eapply hoare_bind; [apply hoare_gets|]. intros fs.
    eapply hoare_bind; [apply hoare_lift|]. intros object_data.
    eapply hoare_bind; [apply hoare_lift_ok|]. intros data.
    intros w [_ E] l. cbn [ret]. intros H. injection H as <-.
    apply (load_objects_cleaned _ _ _ E).
  - intros w _ l H. discriminate H.
Qed.

Lemma init_patterns_cleaned c :
  hoare (fun _ => True) (init_patterns c)
        (fun ps _ => names_all cleaned (Patterns ps)).
Proof.
  unfold init_patterns. destruct (Py.truthy c).
  - eapply hoare_bind; [apply loadCache_cleaned|]. intros o w H. cbn [ret].
    destruct o as [[l|l|l]|]; try constructor. apply (H _ eq_refl).
  - eapply hoare_bind; [intros w _; destruct (fetchPatternData _ w) as [? [?|?]]; exact I|].
    intros l. eapply hoare_post; [apply hoare_lift_ok|].
    intros ps w [_ E]. apply (comprehension_all _ _ _ _ listed_pattern_cleaned E).
Qed.

Lemma init_shops_cleaned c :
  hoare (fun _ => True) (init_shops c) (fun ss _ => names_all cleaned (Shops ss)).
Proof.
  unfold init_shops. destruct (Py.truthy c).
  - eapply hoare_bind; [apply loadCache_cleaned|]. intros o w H. cbn [ret].
    destruct o as [[l|l|l]|]; try constructor. apply (H _ eq_refl).
  - eapply hoare_bind; [intros w _; destruct (fetchShopsData _ w) as [? [?|?]]; exact I|].
    intros l. eapply hoare_post; [apply hoare_lift_ok|].
    intros ss w [_ E]. apply (comprehension_all _ _ _ _ listed_shop_cleaned E).
Qed.

Lemma init_yarns_cleaned c :
  hoare (fun _ => True) (init_yarns c) (fun ys _ => names_all cleaned (Yarns ys)).
Proof.
  unfold init_yarns. destruct (Py.truthy c).
  - eapply hoare_bind; [apply loadCache_cleaned|]. intros o w H. cbn [ret].
    destruct o as [[l|l|l]|]; try constructor. apply (H _ eq_refl).
  - eapply hoare_bind; [intros w _; destruct (fetchYarnsData _ w) as [? [?|?]]; exact I|].
    intros l. eapply hoare_post; [apply hoare_lift_ok|].
    intros ys w [_ E]. apply (comprehension_all _ _ _ _ listed_yarn_cleaned E).
Qed.

Lemma stable_init_shops {I : World -> Prop} c : stable I (init_shops c).
Proof.
  unfold init_shops. destruct (Py.truthy c).
  - apply stable_bind; [apply stable_loadCache|]. intros ?. apply stable_ret.
  - apply stable_bind; [apply stable_fetchData|]. intros ?. apply stable_lift.
Qed.

Lemma stable_init_yarns {I : World -> Prop} c : stable I (init_yarns c).
Proof.
  unfold init_yarns. destruct (Py.truthy c).
  - apply stable_bind; [apply stable_loadCache|]. intros ?. apply stable_ret.
  - apply stable_bind; [apply stable_fetchData|]. intros ?. apply stable_lift.
Qed.

(** In the catalogue that [Graph(...)] builds, from caches or from the
    listings, every name is a text that [.strip().title()] returned. *)
Lemma init_catalogue_cleaned patternsCache shopsCache yarnsCache :
  hoare (fun _ => True) (init patternsCache shopsCache yarnsCache)
        (fun _ => catalogue_cleaned).
Proof.
  unfold init.
  eapply hoare_bind; [apply init_patterns_cleaned|]. intros ps.
  eapply hoare_bind.
  { apply (hoare_modify _ (fun w => names_all cleaned (Patterns (patterns (self w))))).
    intros w H. exact H. }
  intros ?.
  eapply hoare_bind.
  { apply hoare_stable; [apply stable_init_shops|apply init_shops_cleaned]. }
  intros ss.
  eapply hoare_bind.
  { apply (hoare_modify _ (fun w => names_all cleaned (Patterns (patterns (self w)))
                                    /\ names_all cleaned (Shops (shops (self w))))).
    intros w H. exact H. }
  intros ?.
  eapply hoare_bind.
  { apply hoare_stable; [apply stable_init_yarns|apply init_yarns_cleaned]. }
  intros ys. apply hoare_modify. intros w [[Hp Hs] Hy]. repeat split; assumption.
Qed.

End Invariant.

(** ** Hydration from the detail endpoints *)

Section Replies.

Import Graph.

Lemma append_gets_run {T} (append : pyval -> T -> T) key items :
  forall s,
    (forall vs, comprehension (fun item => Py.get item key) items = Ok vs ->
       append_gets append key items s = (fold_left (fun s v => append v s) vs s, Ok tt))
    /\ (forall e, comprehension (fun item => Py.get item key) items = Raise e ->
          snd (append_gets append key items s) = Raise e).
Proof.
  induction items as [|item rest IH]; intros s; cbn [comprehension append_gets].
  - split; [intros vs E; injection E as <-; reflexivity|intros e E; discriminate E].
  - unfold bind, lift, modify.
    destruct (Py.get item key) as [v|e0]; cbn [res_bind].
    + destruct (IH (append v s)) as [IH1 IH2].
      destruct (comprehension (fun i => Py.get i key) rest) as [vs'|e']; cbn [res_bind].
      * split; [|intros e E; discriminate E].
        intros vs E. injection E as <-. rewrite (IH1 vs' eq_refl). reflexivity.
      * split; [intros vs E; discriminate E|].
        intros e E. injection E as <-. apply IH2. reflexivity.
    + split; [intros vs E; discriminate E|intros e E; injection E as <-; reflexivity].
Qed.

Lemma for_gets_run {T} (append : pyval -> T -> T) v key s :
  (forall vs, gets_all v key = Ok vs ->
     for_if_truthy v (append_gets append key) s
     = (fold_left (fun s v => append v s) vs s, Ok tt))
  /\ (forall e, gets_all v key = Raise e ->
        snd (for_if_truthy v (append_gets append key) s) = Raise e).
Proof.
  unfold gets_all, for_if_truthy. destruct (Py.truthy v).
  - unfold bind, lift. destruct (Py.iter v) as [items|e0]; cbn [res_bind].
    + apply append_gets_run.
    + split; [intros vs E; discriminate E|intros e E; injection E as <-; reflexivity].
  - split; [intros vs E; injection E as <-; reflexivity|intros e E; discriminate E].
Qed.

Lemma fold_append_recyarn vs : forall l p,
  fold_left (fun s v => Pattern.append_recyarn v s) vs (Pattern.set_recyarn l p)
  = Pattern.set_recyarn (l ++ vs) p.
Proof.
  induction vs as [|v vs IH]; intros l p; cbn [fold_left].
  - rewrite app_nil_r. reflexivity.
  - change (Pattern.append_recyarn v (Pattern.set_recyarn l p))
      with (Pattern.set_recyarn (l ++ [v]) p).
    rewrite IH, <- app_assoc. reflexivity.
Qed.

Lemma fold_append_category vs : forall l p,
  fold_left (fun s v => Pattern.append_category v s) vs (Pattern.set_category l p)
  = Pattern.set_category (l ++ vs) p.
Proof.
  induction vs as [|v vs IH]; intros l p; cbn [fold_left].
  - rewrite app_nil_r. reflexivity.
  - change (Pattern.append_category v (Pattern.set_category l p))
      with (Pattern.set_category (l ++ [v]) p).
    rewrite IH, <- app_assoc. reflexivity.
Qed.

Lemma Pattern_getFullData_run web p :
  (forall d, pattern_reply web (Pattern.id p) = Ok d ->
     Pattern.getFullData web p = (with_details p d, Ok tt))
  /\ (forall e, pattern_reply web (Pattern.id p) = Raise e ->
        snd (Pattern.getFullData web p) = Raise e).
Proof.
  unfold Pattern.getFullData, pattern_reply.
  cbv beta iota delta [bind gets lift modify].
  destruct (web _) as [body|e0]; cbn [res_bind];
    [|split; [intros d E; discriminate E|intros e E; injection E as <-; reflexivity]].
  destruct (Py.item body "pattern") as [data|e0]; cbn [res_bind];
    [|split; [intros d E; discriminate E|intros e E; injection E as <-; reflexivity]].
  destruct (Py.get data "currency") as [c|e0]; cbn [res_bind];
    [|split; [intros d E; discriminate E|intros e E; injection E as <-; reflexivity]].
  destruct (Py.get data "price") as [pr|e0]; cbn [res_bind];
    [|split; [intros d E; discriminate E|intros e E; injection E as <-; reflexivity]].
  destruct (Py.get data "packs") as [recYarn|e0]; cbn [res_bind];
    [|split; [intros d E; discriminate E|intros e E; injection E as <-; reflexivity]].
  match goal with |- context [for_if_truthy recYarn ?b ?s] =>
    destruct (for_gets_run Pattern.append_recyarn recYarn "yarn_id" s) as [R1 R2] end.
  destruct (gets_all recYarn "yarn_id") as [recs|e0]; cbn [res_bind].
  2:{ split; [intros d E; discriminate E|]. intros e E. injection E as <-.
      specialize (R2 _ eq_refl).
      match goal with |- snd (match ?m with _ => _ end) = _ =>
        destruct m as [s1 [u|e1]] end; cbn [snd] in R2 |- *;
        [discriminate R2|exact R2]. }
  rewrite (R1 recs eq_refl). clear R1 R2.
  destruct (Py.get data "pattern_categories") as [cat|e0]; cbn [res_bind];
    [|split; [intros d E; discriminate E|intros e E; injection E as <-; reflexivity]].
  match goal with |- context [for_if_truthy cat ?b ?s] =>
    destruct (for_gets_run Pattern.append_category cat "name" s) as [R1 R2] end.
  destruct (gets_all cat "name") as [cats|e0]; cbn [res_bind].
  2:{ split; [intros d E; discriminate E|]. intros e E. injection E as <-.
      specialize (R2 _ eq_refl).
      match goal with |- snd (match ?m with _ => _ end) = _ =>
        destruct m as [s1 [u|e1]] end; cbn [snd] in R2 |- *;
        [discriminate R2|exact R2]. }
  rewrite (R1 cats eq_refl). clear R1 R2.
  split; [|intros e E; discriminate E].
  intros d E. injection E as <-.
  rewrite fold_append_recyarn, fold_append_category. reflexivity.
Qed.

(** What [getFullData] stores: the reply's currency and price, the
    [yarn_id] of every pack and the [name] of every category in the order
    of the reply, replacing whatever the pattern held; the attributes the
    constructor set are left alone. *)
Lemma hydrates_reply web p :
  hydrates web p <-> exists d, pattern_reply web (Pattern.id p) = Ok d.
Proof.
  destruct (Pattern_getFullData_run web p) as [R1 R2]. unfold hydrates. split.
  - intros H. destruct (pattern_reply web (Pattern.id p)) as [d|e]; [exists d; reflexivity|].
    rewrite (R2 e eq_refl) in H. discriminate H.
  - intros [d E]. rewrite (R1 d E). reflexivity.
Qed.

Lemma hydrated_reply web p d :
  pattern_reply web (Pattern.id p) = Ok d -> hydrated web p = with_details p d.
Proof.
  intros E. unfold hydrated.
  rewrite (proj1 (Pattern_getFullData_run web p) d E). reflexivity.
Qed.

Lemma with_details_twice p d0 d : with_details (with_details p d0) d = with_details p d.
Proof. reflexivity. Qed.

Lemma append_lines_run yarnfibers :
  forall s,
    (forall ls, fiber_lines yarnfibers = Ok ls ->
       Yarn.append_lines yarnfibers s
       = (fold_left (fun s l => Yarn.append_fiberContent l s) ls s, Ok tt))
    /\ (forall e, fiber_lines yarnfibers = Raise e ->
          snd (Yarn.append_lines yarnfibers s) = Raise e).
Proof.
  induction yarnfibers as [|[percentage fiber] rest IH]; intros s;
    cbn [fiber_lines Yarn.append_lines].
  - split; [intros ls E; injection E as <-; reflexivity|intros e E; discriminate E].
  - unfold bind, lift, modify.
    destruct (Py.get fiber "name") as [material|e0]; cbn [res_bind].
    + destruct (IH (Yarn.append_fiberContent (Yarn.fiber_line percentage material) s))
        as [IH1 IH2].
      destruct (fiber_lines rest) as [ls'|e']; cbn [res_bind].
      * split; [|intros e E; discriminate E].
        intros ls E. injection E as <-. rewrite (IH1 ls' eq_refl). reflexivity.
      * split; [intros ls E; discriminate E|].
        intros e E. injection E as <-. apply IH2. reflexivity.
    + split; [intros ls E; discriminate E|intros e E; injection E as <-; reflexivity].
Qed.

Lemma fold_append_fiberContent ls : forall l y,
  fold_left (fun s v => Yarn.append_fiberContent v s) ls (Yarn.set_fiberContent l y)
  = Yarn.set_fiberContent (l ++ ls) y.
Proof.
  induction ls as [|v ls IH]; intros l y; cbn [fold_left].
  - rewrite app_nil_r. reflexivity.
  - change (Yarn.append_fiberContent v (Yarn.set_fiberContent l y))
      with (Yarn.set_fiberContent (l ++ [v]) y).
    rewrite IH, <- app_assoc. reflexivity.
Qed.

Lemma Yarn_getFullData_run web y :
  (forall ls, yarn_reply web (Yarn.id y) = Ok ls ->
     Yarn.getFullData web y = (with_lines y ls, Ok tt))
  /\ (forall e, yarn_reply web (Yarn.id y) = Raise e ->
        snd (Yarn.getFullData web y) = Raise e).
Proof.
  unfold Yarn.getFullData, yarn_reply.
  cbv beta iota delta [bind gets lift modify].
  destruct (web _) as [body|e0]; cbn [res_bind];
    [|split; [intros d E; discriminate E|intros e E; injection E as <-; reflexivity]].
  destruct (Py.item body "yarn") as [data|e0]; cbn [res_bind];
    [|split; [intros d E; discriminate E|intros e E; injection E as <-; reflexivity]].
  destruct (Py.get data "yarn_fibers") as [fibers|e0]; cbn [res_bind];
    [|split; [intros d E; discriminate E|intros e E; injection E as <-; reflexivity]].
  destruct (if Py.truthy fibers then res_bind (Py.iter fibers) Yarn.fiber_details else Ok [])
    as [yarnfibers|e0]; cbn [res_bind];
    [|split; [intros d E; discriminate E|intros e E; injection E as <-; reflexivity]].
  destruct (append_lines_run yarnfibers (Yarn.set_fiberContent [] y)) as [R1 R2].
  destruct (fiber_lines yarnfibers) as [ls|e0].
  - rewrite (R1 ls eq_refl). split; [|intros e E; discriminate E].
    intros ls' E. injection E as <-. rewrite fold_append_fiberContent. reflexivity.
  - split; [intros d E; discriminate E|]. intros e E. injection E as <-.
    specialize (R2 _ eq_refl).
    destruct (Yarn.append_lines yarnfibers (Yarn.set_fiberContent [] y)) as [s1 [u|e1]];
      cbn [snd] in R2 |- *; [discriminate R2|exact R2].
Qed.

End Replies.

(** ** Percentages written and read back *)

Section IntText.

Import PyStr.

Lemma digits_value_acc d : forall acc,
  digits_value (Z.pos acc) true (NilEmpty.string_of_uint d)
  = Some (Z.pos (Pos.of_uint_acc d acc)).
Proof.
  induction d; intros acc; cbn [NilEmpty.string_of_uint Pos.of_uint_acc];
    try reflexivity;
    (unfold digits_value; fold digits_value;
     match goal with |- context [is_digit ?c] => change (is_digit c) with true end;
     cbv iota;
     match goal with |- digits_value ?z _ _ = _ =>
       match goal with |- _ = Some (Z.pos (Pos.of_uint_acc _ ?a)) =>
         replace z with (Z.pos a) by (vm_compute code; lia) end end;
     apply IHd).
Qed.

Lemma digits_value_uint d : forall b,
  (d <> Decimal.Nil \/ b = true) ->
  digits_value 0 b (NilEmpty.string_of_uint d) = Some (Z.of_N (Pos.of_uint d)).
Proof.
  induction d; intros b Hb; cbn [NilEmpty.string_of_uint Pos.of_uint];
    [ destruct Hb as [Hb|Hb]; [contradiction|]; subst b; reflexivity
    | unfold digits_value; fold digits_value; change (is_digit "0") with true; cbv iota;
      change (10 * 0 + Z.of_N (code "0" - 48)) with 0; apply IHd; right; reflexivity
    | .. ];
    (unfold digits_value; fold digits_value;
     match goal with |- context [is_digit ?c] => change (is_digit c) with true end;
     cbv iota;
     match goal with |- digits_value ?z _ _ = Some (Z.of_N (N.pos (Pos.of_uint_acc _ ?a))) =>
         change z with (Z.pos a) end;
     apply digits_value_acc).
Qed.

Lemma all_chars_impl (P Q : ascii -> bool) s :
  (forall c, P c = true -> Q c = true) -> all_chars P s = true -> all_chars Q s = true.
Proof.
  intros H. induction s as [|c r IH]; [reflexivity|]. cbn [all_chars]. intros E.
  apply andb_true_iff in E. destruct E as [E1 E2]. rewrite (H c E1), (IH E2). reflexivity.
Qed.

Lemma no_space_strip s : all_chars (fun c => negb (is_space c)) s = true -> strip s = s.
Proof.
  intros H. unfold strip.
  assert (Hr : rstrip s = s).
  { induction s as [|c r IH]; [reflexivity|]. cbn [all_chars] in H.
    apply andb_true_iff in H. destruct H as [Hc Hr]. cbn [rstrip].
    rewrite (IH Hr). apply negb_true_iff in Hc. rewrite Hc. reflexivity. }
  rewrite Hr. destruct s as [|c r]; [reflexivity|]. cbn [all_chars] in H.
  apply andb_true_iff in H. destruct H as [Hc _]. apply negb_true_iff in Hc.
  cbn [lstrip]. rewrite Hc. reflexivity.
Qed.

Lemma c_space_is_space c : is_c_space c = true -> is_space c = true.
Proof.
  destruct c as [[] [] [] [] [] [] [] []]; intros H; try discriminate H; reflexivity.
Qed.

Lemma no_space_strip_c s :
  all_chars (fun c => negb (is_space c)) s = true -> strip_c s = s.
Proof.
  intros H. unfold strip_c.
  assert (Hn : forall c, negb (is_space c) = true -> is_c_space c = false).
  { intros c Hc. destruct (is_c_space c) eqn:E; [|reflexivity].
    rewrite (c_space_is_space c E) in Hc. discriminate Hc. }
  assert (Hr : rstrip_c s = s).
  { induction s as [|c r IH]; [reflexivity|]. cbn [all_chars] in H.
    apply andb_true_iff in H. destruct H as [Hc Hr]. cbn [rstrip_c].
    rewrite (IH Hr), (Hn c Hc). reflexivity. }
  rewrite Hr. destruct s as [|c r]; [reflexivity|]. cbn [all_chars] in H.
  apply andb_true_iff in H. destruct H as [Hc _].
  cbn [lstrip_c]. rewrite (Hn c Hc). reflexivity.
Qed.

(** A character of the text of an integer: a digit or the sign. *)
Lemma int_char_facts c :
  is_digit c = true \/ c = "-"%char ->
  is_space c = false /\ Ascii.eqb c "%" = false
  /\ Ascii.eqb c "N" = false /\ Ascii.eqb c "n" = false.
Proof.
  intros [H| ->]; [|repeat split; reflexivity].
  destruct c as [[] [] [] [] [] [] [] []]; try discriminate H; repeat split; reflexivity.
Qed.

Lemma uint_digits d : all_chars is_digit (NilEmpty.string_of_uint d) = true.
Proof. induction d; cbn [NilEmpty.string_of_uint all_chars]; [reflexivity|..]; exact IHd. Qed.

Lemma digits_no_space s :
  all_chars is_digit s = true -> all_chars (fun c => negb (is_space c)) s = true.
Proof.
  apply all_chars_impl. intros c Hc.
  destruct (int_char_facts c (or_introl Hc)) as [E _]. rewrite E. reflexivity.
Qed.

Lemma parse_int_digits s :
  all_chars is_digit s = true -> parse_int s = digits_value 0 false s.
Proof.
  intros H. unfold parse_int. rewrite (no_space_strip_c s (digits_no_space s H)).
  destruct s as [|c r]; [reflexivity|].
  cbn [all_chars] in H. apply andb_true_iff in H. destruct H as [Hc _].
  destruct c as [[] [] [] [] [] [] [] []]; try discriminate Hc; reflexivity.
Qed.

Lemma string_of_uint_to_uint p :
  NilZero.string_of_uint (Pos.to_uint p) = NilEmpty.string_of_uint (Pos.to_uint p).
Proof.
  pose proof (Unsigned.to_uint_nonnil p) as Hn. unfold NilZero.string_of_uint.
  destruct (Pos.to_uint p); [contradiction|..]; reflexivity.
Qed.

Lemma digits_value_to_uint p :
  digits_value 0 false (NilEmpty.string_of_uint (Pos.to_uint p)) = Some (Z.pos p).
Proof.
  rewrite digits_value_uint by (left; apply Unsigned.to_uint_nonnil).
  rewrite Unsigned.of_to. reflexivity.
Qed.

(** [int(str(z))] is [z]. *)
Lemma parse_int_of_int z : parse_int (of_int z) = Some z.
Proof.
  unfold of_int. destruct z as [|p|p]; [reflexivity| |];
    cbn [Z.to_int NilZero.string_of_int]; rewrite string_of_uint_to_uint.
  - rewrite parse_int_digits by apply uint_digits. apply digits_value_to_uint.
  - unfold parse_int. rewrite no_space_strip_c.
    + cbv iota beta.
      change (option_map Z.opp
                (digits_value 0 false (NilEmpty.string_of_uint (Pos.to_uint p)))
              = Some (Z.neg p)).
      rewrite digits_value_to_uint. reflexivity.
    + cbn [all_chars]. apply andb_true_iff. split; [reflexivity|].
      apply digits_no_space, uint_digits.
Qed.

(** The text of an integer starts with a digit or the sign and goes on
    with digits. *)
Lemma of_int_shape z :
  exists c r, of_int z = String c r
              /\ (is_digit c = true \/ c = "-"%char) /\ all_chars is_digit r = true.
Proof.
  unfold of_int. destruct z as [|p|p].
  - exists "0"%char, EmptyString. repeat split. left. reflexivity.
  - cbn [Z.to_int NilZero.string_of_int]. rewrite string_of_uint_to_uint.
    pose proof (uint_digits (Pos.to_uint p)) as Hd.
    pose proof (Unsigned.to_uint_nonnil p) as Hn.
    destruct (NilEmpty.string_of_uint (Pos.to_uint p)) as [|c r] eqn:E.
    + destruct (Pos.to_uint p); [contradiction|..]; discriminate E.
    + cbn [all_chars] in Hd. apply andb_true_iff in Hd. destruct Hd as [Hc Hr].
      exists c, r. repeat split; [left; exact Hc|exact Hr].
  - cbn [Z.to_int NilZero.string_of_int]. rewrite string_of_uint_to_uint.
    exists "-"%char, (NilEmpty.string_of_uint (Pos.to_uint p)).
    repeat split; [right; reflexivity|apply uint_digits].
Qed.

Lemma of_int_chars z :
  all_chars (fun c => negb (is_space c)) (of_int z) = true
  /\ contains "%" (of_int z) = false
  /\ String.eqb (of_int z) "None" = false
  /\ String.eqb (of_int z) "null" = false
  /\ is_empty (of_int z) = false.
Proof.
  destruct (of_int_shape z) as (c & r & E & Hc & Hr). rewrite E.
  destruct (int_char_facts c Hc) as (F1 & F2 & F3 & F4).
  assert (Hr' : forall c', is_digit c' = true ->
                  negb (is_space c') = true /\ Ascii.eqb c' "%" = false).
  { intros c' H'. destruct (int_char_facts c' (or_introl H')) as (G1 & G2 & _).
    rewrite G1. split; [reflexivity|exact G2]. }
  repeat split.
  - cbn [all_chars]. rewrite F1. cbn [negb andb].
    apply (all_chars_impl is_digit); [|exact Hr]. intros c' H'. apply (Hr' c' H').
  - cbn [contains]. rewrite F2. cbn [orb].
    clear E. induction r as [|c' r IH]; [reflexivity|].
    cbn [all_chars] in Hr. apply andb_true_iff in Hr. destruct Hr as [H1 H2].
    cbn [contains]. rewrite (proj2 (Hr' c' H1)). exact (IH H2).
  - cbn [String.eqb]. rewrite F3. reflexivity.
  - cbn [String.eqb]. rewrite F4. reflexivity.
Qed.

Lemma split_nonempty sep s : exists h t, split sep s = h :: t.
Proof.
  induction s as [|c r IH]; cbn [split]; [eexists; eexists; reflexivity|].
  destruct (Ascii.eqb c sep); [eexists; eexists; reflexivity|].
  destruct IH as (h & t & E). rewrite E. eexists; eexists; reflexivity.
Qed.

Lemma split_fiber_line pct material :
  contains "%" (Py.str pct) = false ->
  split "%" (Yarn.fiber_line pct material)
  = Py.str pct :: split "%" (String " " (Py.str material)).
Proof.
  intros H. unfold Yarn.fiber_line.
  change ("% " ++ Py.str material) with (String "%" (String " " (Py.str material))).
  apply split_app_sep. exact H.
Qed.

(** Whatever the material, a line written for a percentage has a second
    part. *)
Lemma fiber_name_total pct material :
  contains "%" (Py.str pct) = false ->
  exists fiber, Yarn.fiber_name (Yarn.fiber_line pct material) = Ok fiber.
Proof.
  intros H. unfold Yarn.fiber_name. rewrite (split_fiber_line pct material H).
  destruct (split_nonempty "%" (String " " (Py.str material))) as (h & t & E).
  rewrite E. eexists. reflexivity.
Qed.

Lemma percentage_int_line z material :
  Yarn.percentage (Yarn.fiber_line (PInt z) material)
  = Ok (if z =? 0 then None else Some z).
Proof.
  destruct (of_int_chars z) as (H1 & H2 & H3 & H4 & H5).
  unfold Yarn.percentage. rewrite (split_fiber_line (PInt z) material H2).
  cbn [hd Py.str Py.repr]. rewrite (no_space_strip _ H1), H3, H4, H5.
  cbn [orb]. rewrite parse_int_of_int. destruct (z =? 0); reflexivity.
Qed.

End IntText.

(** ** Properties of hydration *)

Section HydrationProperties.

Import PyStr Graph.

(** X1: a percentage that [Yarn.getFullData] writes from an integer is
    read back by [getMainFiber] as that integer, whatever the material:
    the entry is kept with the percentage [z], or passed over when [z] is
    zero, and the entry always has a fiber name. *)
Theorem integer_percentage_round_trip :
  forall (z : Z) (material : pyval),
    Yarn.percentage (Yarn.fiber_line (PInt z) material)
    = Ok (if z =? 0 then None else Some z)
    /\ exists fiber, Yarn.fiber_name (Yarn.fiber_line (PInt z) material) = Ok fiber.
Proof.
  intros z material. split; [apply percentage_int_line|].
  apply fiber_name_total. apply (of_int_chars z).
Qed.

(** X2: [Pattern.getFullData] returns exactly when the reply can be read,
    and then the pattern holds the currency and the price of the reply, the
    [yarn_id] of every pack and the [name] of every category in the order
    of the reply, and the [info] text written from them; the attributes the
    constructor set are unchanged. A request that fails leaves the pattern
    as it was. *)
Theorem Pattern_getFullData_stores_reply :
  forall (web : Web) (p : Pattern.t),
    (hydrates web p <-> exists d, pattern_reply web (Pattern.id p) = Ok d)
    /\ (forall d, pattern_reply web (Pattern.id p) = Ok d ->
          Pattern.getFullData web p = (with_details p d, Ok tt)
          /\ Pattern.recyarn (with_details p d) = Some (d_recyarn d)
          /\ Pattern.category (with_details p d) = Some (d_category d)
          /\ Pattern.init (Pattern.id (with_details p d)) (Pattern.name (with_details p d))
               (Pattern.free (with_details p d)) (Pattern.link (with_details p d))
               (Pattern.designer (with_details p d))
             = Pattern.init (Pattern.id p) (Pattern.name p) (Pattern.free p)
                 (Pattern.link p) (Pattern.designer p))
    /\ (forall e, web (RAVELRY_ENDPOINT ++ "/patterns/" ++ Py.str (Pattern.id p) ++ ".json")
                  = Raise e ->
          Pattern.getFullData web p = (p, Raise e)).
Proof.
  intros web p. split; [apply hydrates_reply|]. split.
  - intros d E. split; [apply (Pattern_getFullData_run web p); exact E|].
    repeat split.
  - intros e E. unfold Pattern.getFullData.
    cbv beta iota delta [bind gets lift modify]. rewrite E. reflexivity.
Qed.

Lemma getFullData_hydrated web0 web p :
  hydrates web0 p -> hydrates web p ->
  Pattern.getFullData web (hydrated web0 p) = (hydrated web p, Ok tt).
Proof.
  intros H0 H.
  apply hydrates_reply in H0. destruct H0 as [d0 E0].
  apply hydrates_reply in H. destruct H as [d E].
  rewrite (hydrated_reply web0 p d0 E0), (hydrated_reply web p d E).
  rewrite (proj1 (Pattern_getFullData_run web (with_details p d0)) d E). reflexivity.
Qed.

(** X3: hydrating a pattern replaces what an earlier hydration stored and
    never adds to it: on a hydrated pattern [getFullData] stores the reply
    as it would on the pattern as constructed, so that with the same reply
    a second call changes nothing. *)
Theorem Pattern_getFullData_idempotent :
  forall (web0 web : Web) (p : Pattern.t),
    hydrates web0 p ->
    hydrates web p ->
    Pattern.getFullData web (hydrated web0 p) = (hydrated web p, Ok tt)
    /\ Pattern.getFullData web (hydrated web p) = (hydrated web p, Ok tt).
Proof.
  intros web0 web p H0 H. split; apply getFullData_hydrated; assumption.
Qed.

Lemma Pattern_getFullData_idempotent_witness :
  Pattern.getFullData example_web (hydrated example_web P1) = (hydrated example_web P1, Ok tt).
Proof.
  apply (Pattern_getFullData_idempotent example_web example_web P1); reflexivity.
Defined.

Lemma yarn_hydrates_reply web y :
  yarn_hydrates web y <-> exists ls, yarn_reply web (Yarn.id y) = Ok ls.
Proof.
  destruct (Yarn_getFullData_run web y) as [R1 R2]. unfold yarn_hydrates. split.
  - intros H. destruct (yarn_reply web (Yarn.id y)) as [d|e]; [exists d; reflexivity|].
    rewrite (R2 e eq_refl) in H. discriminate H.
  - intros [d E]. rewrite (R1 d E). reflexivity.
Qed.

Lemma yarn_hydrated_reply web y ls :
  yarn_reply web (Yarn.id y) = Ok ls -> yarn_hydrated web y = with_lines y ls.
Proof.
  intros E. unfold yarn_hydrated.
  rewrite (proj1 (Yarn_getFullData_run web y) ls E). reflexivity.
Qed.

Lemma yarn_getFullData_hydrated web0 web y :
  yarn_hydrates web0 y -> yarn_hydrates web y ->
  Yarn.getFullData web (yarn_hydrated web0 y) = (yarn_hydrated web y, Ok tt).
Proof.
  intros H0 H.
  apply yarn_hydrates_reply in H0. destruct H0 as [l0 E0].
  apply yarn_hydrates_reply in H. destruct H as [l E].
  rewrite (yarn_hydrated_reply web0 y l0 E0), (yarn_hydrated_reply web y l E).
  rewrite (proj1 (Yarn_getFullData_run web (with_lines y l0)) l E). reflexivity.
Qed.

(** X4: hydrating a yarn replaces the fiber content an earlier hydration
    stored and never adds to it; with the same reply a second call changes
    nothing. *)
Theorem Yarn_getFullData_idempotent :
  forall (web0 web : Web) (y : Yarn.t),
    yarn_hydrates web0 y ->
    yarn_hydrates web y ->
    Yarn.getFullData web (yarn_hydrated web0 y) = (yarn_hydrated web y, Ok tt)
    /\ Yarn.getFullData web (yarn_hydrated web y) = (yarn_hydrated web y, Ok tt).
Proof.
  intros web0 web y H0 H. split; apply yarn_getFullData_hydrated; assumption.
Qed.

Lemma Yarn_getFullData_idempotent_witness :
  Yarn.getFullData fiber_web (yarn_hydrated fiber_web Y1) = (yarn_hydrated fiber_web Y1, Ok tt).
Proof.
  apply (Yarn_getFullData_idempotent fiber_web fiber_web Y1); reflexivity.
Defined.

Lemma fiber_records_lines items fibers :
  Forall2 fiber_record items fibers ->
  res_bind (Yarn.fiber_details items) fiber_lines = Ok (map line_of fibers).
Proof.
  induction 1 as [|item f items fibers [Hp (ft & Hf & Hn)] _ IH]; [reflexivity|].
  cbn [Yarn.fiber_details map]. rewrite Hp, Hf. cbn [res_bind].
  destruct (Yarn.fiber_details items) as [ds|e]; cbn [res_bind] in IH |- *;
    [|discriminate IH].
  cbn [fiber_lines]. rewrite Hn, IH. reflexivity.
Qed.

Lemma replies_fibers_reply web id fibers :
  replies_fibers web id fibers -> yarn_reply web id = Ok (map line_of fibers).
Proof.
  intros (body & data & items & Hb & Hd & Hf & Hr). unfold yarn_reply.
  rewrite Hb. cbn [res_bind]. rewrite Hd. cbn [res_bind]. rewrite Hf. cbn [res_bind].
  destruct items as [|item items].
  - inversion Hr. reflexivity.
  - cbn [Py.truthy Py.iter]. apply (fiber_records_lines _ _ Hr).
Qed.

Lemma line_bounded (cmp : Z -> Z -> Prop) pct f :
  cmp (fst f) pct -> entry_bounded cmp pct (line_of f).
Proof.
  intros H. unfold entry_bounded, line_of. rewrite percentage_int_line.
  destruct (fst f =? 0); [left; reflexivity|right].
  destruct (fiber_name_total (PInt (fst f)) (PStr (snd f))) as [fiber Hf];
    [apply (of_int_chars (fst f))|].
  exists (fst f), fiber. repeat split; assumption.
Qed.

(** X5: once [getFullData] has read integer percentages, [getMainFiber]
    answers the name, stripped and title-cased, of the last fiber of the
    reply whose percentage is the largest, when that percentage is
    positive. *)
Theorem hydrated_yarn_main_fiber :
  forall (web : Web) (y : Yarn.t) (before after : list (Z * string)) (z : Z) (n : string),
    replies_fibers web (Yarn.id y) (before ++ (z, n) :: after) ->
    Forall (fun f => fst f <= z) before ->
    0 < z ->
    Forall (fun f => fst f < z) after ->
    contains "%" n = false ->
    title (strip n) <> EmptyString ->
    Yarn.getFullData web y = (yarn_hydrated web y, Ok tt)
    /\ Yarn.fiberContent (yarn_hydrated web y)
       = Some (map line_of (before ++ (z, n) :: after))
    /\ Yarn.getMainFiber (yarn_hydrated web y) = Ok (title (strip n)).
Proof.
  intros web y before after z n Hr Hb Hz Ha Hn Hne.
  pose proof (replies_fibers_reply _ _ _ Hr) as E.
  rewrite (yarn_hydrated_reply web y _ E).
  split; [apply (Yarn_getFullData_run web y); exact E|].
  split; [reflexivity|].
  unfold Yarn.getMainFiber.
  change (Yarn.fiberContent (with_lines y (map line_of (before ++ (z, n) :: after))))
    with (Some (map line_of (before ++ (z, n) :: after))).
  cbv iota beta. rewrite map_app. cbn [map].
  unfold Yarn.main_fiber. rewrite main_loop_app.
  assert (Hb' : Forall (entry_bounded Z.le z) (map line_of before)).
  { apply Forall_map. revert Hb. apply Forall_impl. intros f. apply line_bounded. }
  assert (Ha' : Forall (entry_bounded Z.lt z) (map line_of after)).
  { apply Forall_map. revert Ha. apply Forall_impl. intros f. apply line_bounded. }
  destruct (main_loop_le z _ Hb' None 0 ltac:(lia)) as (m & h & Hloop & Hh).
  rewrite Hloop. cbn [res_bind Yarn.main_loop].
  assert (Hp : Yarn.percentage (line_of (z, n)) = Ok (Some z)).
  { unfold line_of. rewrite percentage_int_line. cbn [fst].
    destruct (Z.eqb_spec z 0); [lia|reflexivity]. }
  assert (Hf : Yarn.fiber_name (line_of (z, n)) = Ok (title (strip n))).
  { apply fiber_name_fiber_line; [apply (of_int_chars z)|exact Hn]. }
  rewrite (main_step_keep _ _ _ _ _ Hp Hf ltac:(lia)).
  destruct (Z.leb_spec h z); [|lia]. cbn [res_bind].
  rewrite (main_loop_lt _ _ _ Ha'). cbn [res_bind fst].
  destruct (title (strip n)); [contradiction|reflexivity].
Qed.

Lemma hydrated_yarn_main_fiber_witness :
  Yarn.getMainFiber (yarn_hydrated fiber_web Y1) = Ok "Wool".
Proof.
  apply (hydrated_yarn_main_fiber fiber_web Y1 [] [(20, "nylon")] 80 "wool").
  - exists (yarn_body [fiber_item 80 "wool"; fiber_item 20 "nylon"]).
    exists (PDict [("yarn_fibers", PList [fiber_item 80 "wool"; fiber_item 20 "nylon"])]).
    exists [fiber_item 80 "wool"; fiber_item 20 "nylon"].
    repeat split; try reflexivity.
    repeat constructor; eexists; split; reflexivity.
  - constructor.
  - reflexivity.
  - repeat constructor.
  - reflexivity.
  - discriminate.
Defined.

End HydrationProperties.

(** ** Look-ups that find their record *)

Section Found.

Import Graph.

Lemma replace_same {A} (l : list A) : forall i x, nth_error l i = Some x -> replace i x l = l.
Proof.
  induction l as [|y l IH]; intros [|i] x H; try discriminate H; cbn [replace].
  - injection H as ->. reflexivity.
  - rewrite (IH i x H). reflexivity.
Qed.

Lemma nth_error_replace {A} (l : list A) : forall i x y,
  nth_error l i = Some x -> nth_error (replace i y l) i = Some y.
Proof.
  induction l as [|z l IH]; intros [|i] x y H; try discriminate H; cbn [replace nth_error].
  - reflexivity.
  - exact (IH i x y H).
Qed.

Lemma replace_replace {A} (l : list A) : forall i x y,
  replace i y (replace i x l) = replace i y l.
Proof.
  induction l as [|z l IH]; intros [|i] x y; cbn [replace]; try reflexivity.
  rewrite IH. reflexivity.
Qed.

Lemma first_index_nth {A} (test : A -> bool) l :
  forall i, first_index test l = Some i ->
            exists x, nth_error l i = Some x /\ test x = true.
Proof.
  induction l as [|y l IH]; intros i H; [discriminate H|].
  cbn [first_index] in H. destruct (test y) eqn:E.
  - injection H as <-. exists y. split; [reflexivity|exact E].
  - destruct (first_index test l) as [j|]; [|discriminate H].
    injection H as <-. exact (IH j eq_refl).
Qed.

Lemma first_index_replace {A} (test : A -> bool) l :
  forall i x y, nth_error l i = Some x -> test y = test x ->
                first_index test (replace i y l) = first_index test l.
Proof.
  induction l as [|z l IH]; intros [|i] x y H E; try discriminate H;
    cbn [replace first_index nth_error] in *.
  - injection H as ->. rewrite E. reflexivity.
  - rewrite (IH i x y H E). reflexivity.
Qed.

Lemma on_pattern_run {A} i (m : M Pattern.t A) w p :
  nth_error (patterns (self w)) i = Some p ->
  on_pattern i m w = (set_patterns (replace i (fst (m p)) (patterns (self w))) w, snd (m p)).
Proof. intros H. unfold on_pattern. rewrite H. destruct (m p). reflexivity. Qed.

Lemma on_yarn_run {A} i (m : M Yarn.t A) w y :
  nth_error (yarns (self w)) i = Some y ->
  on_yarn i m w = (set_yarns (replace i (fst (m y)) (yarns (self w))) w, snd (m y)).
Proof. intros H. unfold on_yarn. rewrite H. destruct (m y). reflexivity. Qed.

Lemma the_pattern_run i w p :
  nth_error (patterns (self w)) i = Some p ->
  the_pattern i w = (set_patterns (patterns (self w)) w, Ok p).
Proof.
  intros H. unfold the_pattern. rewrite (on_pattern_run i _ w p H).
  unfold gets. cbn [fst snd]. rewrite (replace_same _ _ _ H). reflexivity.
Qed.

Lemma the_yarn_run i w y :
  nth_error (yarns (self w)) i = Some y ->
  the_yarn i w = (set_yarns (yarns (self w)) w, Ok y).
Proof.
  intros H. unfold the_yarn. rewrite (on_yarn_run i _ w y H).
  unfold gets. cbn [fst snd]. rewrite (replace_same _ _ _ H). reflexivity.
Qed.

Lemma found_pattern_run w i p fmt heading :
  nth_error (patterns (self w)) i = Some p ->
  hydrates (web w) p ->
  found_pattern i fmt heading w
  = (set_patterns (replace i (hydrated (web w) p) (patterns (self w)))
       (printed ("Found " ++ Pattern.name p ++ "!") w),
     Ok (PStr (Pattern.getInfo (hydrated (web w) p) ++ nl ++ heading
               ++ str_list (yarn_names fmt
                    (match Pattern.recyarn (hydrated (web w) p) with
                     | Some l => l
                     | None => []
                     end) (yarns (self w)))))).
Proof.
  intros Hn Hh. destruct (hydrates_recyarn _ _ Hh) as (Efull & l & El).
  unfold found_pattern.
  unfold bind at 1. rewrite (the_pattern_run i w p Hn).
  unfold bind at 1, print, modify.
  unfold bind at 1, gets at 1.
  unfold bind at 1.
  match goal with |- context [on_pattern i (Pattern.getFullData ?wb) ?w1] =>
    rewrite (on_pattern_run i (Pattern.getFullData wb) w1 p) by exact Hn end.
  cbn [web set_patterns set_self]. rewrite Efull. cbn [fst snd].
  unfold bind at 1.
  match goal with |- context [the_pattern i ?w1] =>
    rewrite (the_pattern_run i w1 (hydrated (web w) p))
      by (cbn [patterns self]; apply (nth_error_replace _ _ p); exact Hn) end.
  unfold bind at 1, lift. rewrite El.
  unfold bind at 1, gets, ret.
  cbn [patterns self set_patterns set_self web files stdout yarns shops].
  reflexivity.
Qed.

Lemma found_pattern_raises w i p fmt heading e :
  nth_error (patterns (self w)) i = Some p ->
  snd (Pattern.getFullData (web w) p) = Raise e ->
  snd (found_pattern i fmt heading w) = Raise e.
Proof.
  intros Hn He. unfold found_pattern.
  unfold bind at 1. rewrite (the_pattern_run i w p Hn).
  unfold bind at 1, print, modify.
  unfold bind at 1, gets at 1.
  unfold bind at 1.
  match goal with |- context [on_pattern i (Pattern.getFullData ?wb) ?w1] =>
    rewrite (on_pattern_run i (Pattern.getFullData wb) w1 p) by exact Hn end.
  cbn [web set_patterns set_self]. rewrite He. reflexivity.
Qed.

(** How [getPattern] runs once the position it stops at is known. *)
Lemma getPattern_at w id name i :
  pattern_index (patterns (self w)) id name = Some i ->
  getPattern id name w
  = if Py.truthy id
    then found_pattern i (fun yarn => Yarn.brand yarn ++ " " ++ Yarn.name yarn)
           "Recommended Yarns by Name: " w
    else found_pattern i (fun yarn => Yarn.name yarn ++ " by " ++ Yarn.brand yarn)
           "Recommended Yarns by Brand + Name: " w.
Proof.
  unfold pattern_index, getPattern, bind at 1, gets at 1.
  destruct (Py.truthy id).
  - intros ->. reflexivity.
  - destruct name as [| | | |s| |]; try discriminate.
    destruct s as [|c r]; [discriminate|]. intros H.
    cbn [Py.truthy PyStr.is_empty negb].
    unfold bind at 1, lift.
    destruct (patterns (self w)) as [|q ps] eqn:Eps; [discriminate H|].
    cbn [title_of Py.as_str res_bind]. rewrite H. reflexivity.
Qed.

Lemma pattern_index_nth ps id name i :
  pattern_index ps id name = Some i -> exists p, nth_error ps i = Some p.
Proof.
  unfold pattern_index. intros Hi. destruct (Py.truthy id).
  - destruct (first_index_nth _ _ _ Hi) as (p & Hp & _). exists p. exact Hp.
  - destruct name as [| | | |s| |]; try discriminate Hi.
    destruct s as [|c r]; [discriminate Hi|].
    destruct (first_index_nth _ _ _ Hi) as (p & Hp & _). exists p. exact Hp.
Qed.

Lemma getPattern_run w id name i p :
  pattern_index (patterns (self w)) id name = Some i ->
  nth_error (patterns (self w)) i = Some p ->
  (hydrates (web w) p ->
   getPattern id name w
   = (set_patterns (replace i (hydrated (web w) p) (patterns (self w)))
        (printed ("Found " ++ Pattern.name p ++ "!") w),
      Ok (PStr (pattern_text (Py.truthy id) (hydrated (web w) p) (yarns (self w))))))
  /\ (forall e, snd (Pattern.getFullData (web w) p) = Raise e ->
                snd (getPattern id name w) = Raise e).
Proof.
  intros Hi Hp. rewrite (getPattern_at w id name i Hi). split.
  - intros Hh. unfold pattern_text.
    destruct (Py.truthy id); rewrite (found_pattern_run w i p _ _ Hp Hh); reflexivity.
  - intros e He. destruct (Py.truthy id); apply (found_pattern_raises w i p _ _ e Hp He).
Qed.

(** X6: when [getPattern] finds a pattern whose detail request can be read,
    it prints one line, stores the hydrated pattern at the position of the
    pattern it found, leaving every other record of the catalogue as it
    was, and returns the new [info] text followed by the catalogue yarns
    the pattern recommends. When the hydration raises, so does the
    look-up. *)
Theorem getPattern_found :
  forall (w : World) (id name : pyval) (i : nat),
    pattern_index (patterns (self w)) id name = Some i ->
    exists p,
      nth_error (patterns (self w)) i = Some p
      /\ (hydrates (web w) p ->
          getPattern id name w
          = (set_patterns (replace i (hydrated (web w) p) (patterns (self w)))
               (printed ("Found " ++ Pattern.name p ++ "!") w),
             Ok (PStr (pattern_text (Py.truthy id) (hydrated (web w) p)
                         (yarns (self w))))))
      /\ (forall e, snd (Pattern.getFullData (web w) p) = Raise e ->
                    snd (getPattern id name w) = Raise e).
Proof.
  intros w id name i Hi.
  destruct (pattern_index_nth _ _ _ _ Hi) as [p Hp]. exists p.
  split; [exact Hp|]. apply getPattern_run; assumption.
Qed.

Lemma getPattern_found_witness :
  exists p,
    nth_error (patterns (self example_world)) 2 = Some p
    /\ (hydrates (web example_world) p ->
        getPattern PNone (PStr "scarf") example_world
        = (set_patterns (replace 2 (hydrated (web example_world) p)
                           (patterns (self example_world)))
             (printed ("Found " ++ Pattern.name p ++ "!") example_world),
           Ok (PStr (pattern_text false (hydrated (web example_world) p)
                       (yarns (self example_world))))))
    /\ (forall e, snd (Pattern.getFullData (web example_world) p) = Raise e ->
                  snd (getPattern PNone (PStr "scarf") example_world) = Raise e).
Proof.
  apply (getPattern_found example_world PNone (PStr "scarf") 2). reflexivity.
Defined.

Lemma hydrated_fields web p :
  hydrates web p ->
  Pattern.id (hydrated web p) = Pattern.id p
  /\ Pattern.name (hydrated web p) = Pattern.name p
  /\ Pattern.designer (hydrated web p) = Pattern.designer p.
Proof.
  intros H. apply hydrates_reply in H. destruct H as [d E].
  rewrite (hydrated_reply web p d E). repeat split.
Qed.

Lemma pattern_index_replace ps id name i p q :
  nth_error ps i = Some p ->
  Pattern.id q = Pattern.id p -> Pattern.name q = Pattern.name p ->
  forall j, pattern_index (replace j q ps) id name
            = if Nat.eqb j i then pattern_index ps id name
              else pattern_index (replace j q ps) id name.
Proof.
  intros Hn Hi Hnm j. destruct (Nat.eqb_spec j i) as [->|_]; [|reflexivity].
  unfold pattern_index. destruct (Py.truthy id).
  - apply (first_index_replace _ _ _ p); [exact Hn|]. rewrite Hi. reflexivity.
  - destruct name as [| | | |s| |]; try reflexivity.
    destruct s as [|c r]; [reflexivity|].
    apply (first_index_replace _ _ _ p); [exact Hn|]. rewrite Hnm. reflexivity.
Qed.

Lemma getPattern_not_at w id name :
  pattern_index (patterns (self w)) id name = None ->
  fst (getPattern id name w) = w.
Proof.
  unfold pattern_index, getPattern, bind at 1, gets at 1.
  destruct (Py.truthy id).
  - intros ->. reflexivity.
  - destruct (Py.truthy name) eqn:Et; [|reflexivity].
    unfold bind at 1, lift.
    destruct (patterns (self w)) as [|q ps] eqn:Eps; [reflexivity|].
    destruct name as [| | | |s| |]; try reflexivity.
    destruct s as [|c r]; [discriminate Et|].
    cbn [title_of Py.as_str res_bind]. intros ->. reflexivity.
Qed.

Lemma getPattern_unfound w id name :
  pattern_index (patterns (self w)) id name = None ->
  exists r, getPattern id name w = (w, r)
            /\ forall web', getPattern id name (with_web web' w) = (with_web web' w, r).
Proof.
  unfold pattern_index, getPattern, bind, gets, lift, ret.
  change (fun web' => patterns (self (with_web web' w))) with (fun _ : Web => patterns (self w)).
  cbn [with_web self].
  destruct (Py.truthy id).
  - intros ->. eexists; split; [reflexivity|intros; reflexivity].
  - destruct (Py.truthy name) eqn:Et; [|eexists; split; [reflexivity|intros; reflexivity]].
    destruct (patterns (self w)) as [|q ps] eqn:Eps;
      [eexists; split; [reflexivity|intros; reflexivity]|].
    destruct name as [| | | |s| |];
      try (eexists; split; [reflexivity|intros; reflexivity]).
    destruct s as [|c r]; [discriminate Et|].
    cbn [title_of Py.as_str res_bind]. intros ->.
    eexists; split; [reflexivity|intros; reflexivity].
Qed.

Lemma hydrated_same web web' p :
  hydrates web p -> same_details web web' p ->
  hydrates web' p /\ hydrated web' p = hydrated web p.
Proof.
  intros H E. apply hydrates_reply in H. destruct H as [d Ed].
  unfold same_details in E. rewrite Ed in E.
  split; [apply hydrates_reply; exists d; exact E|].
  rewrite (hydrated_reply web p d Ed), (hydrated_reply web' p d E). reflexivity.
Qed.

Lemma getFullData_request_raises web p e :
  web (RAVELRY_ENDPOINT ++ "/patterns/" ++ Py.str (Pattern.id p) ++ ".json") = Raise e ->
  Pattern.getFullData web p = (p, Raise e).
Proof.
  intros E. unfold Pattern.getFullData.
  cbv beta iota delta [bind gets lift modify]. rewrite E. reflexivity.
Qed.

(** X7: a look-up of a pattern that returned can be repeated, as far as
    the service allows. The second call sends the detail request again.
    When the service answers it as it did the first time, the second call
    returns the same value and leaves the catalogue as the first call left
    it; when the request now fails, the second call raises. A look-up that
    found no pattern sends no request and returns the same value again. *)
Theorem getPattern_repeatable :
  forall (w w1 : World) (id name v : pyval) (web' : Web),
    getPattern id name w = (w1, Ok v) ->
    (pattern_index (patterns (self w)) id name = None ->
     w1 = w /\ getPattern id name (with_web web' w1) = (with_web web' w1, Ok v))
    /\ (forall i p,
          pattern_index (patterns (self w)) id name = Some i ->
          nth_error (patterns (self w)) i = Some p ->
          (same_details (web w) web' p ->
           exists w2, getPattern id name (with_web web' w1) = (w2, Ok v)
                      /\ self w2 = self w1)
          /\ (forall e,
                web' (RAVELRY_ENDPOINT ++ "/patterns/" ++ Py.str (Pattern.id p) ++ ".json")
                = Raise e ->
                snd (getPattern id name (with_web web' w1)) = Raise e)).
Proof.
  intros w w1 id name v web' H. split.
  - intros Ei. destruct (getPattern_unfound w id name Ei) as (r & E1 & E2).
    rewrite E1 in H. injection H as <- ->. split; [reflexivity|apply E2].
  - intros i p Ei Hp.
    destruct (getPattern_run w id name i p Ei Hp) as (Hok & Herr).
    assert (Hh : hydrates (web w) p).
    { unfold hydrates. destruct (snd (Pattern.getFullData (web w) p)) as [[]|e] eqn:E;
        [reflexivity|]. rewrite (surjective_pairing (getPattern id name w)) in H.
      rewrite (Herr e eq_refl) in H. discriminate H. }
    rewrite (Hok Hh) in H. injection H as <- <-.
    destruct (hydrated_fields _ _ Hh) as (Fi & Fn & _).
    set (w1 := with_web web' _).
    assert (Ei1 : pattern_index (patterns (self w1)) id name = Some i).
    { change (patterns (self w1)) with (replace i (hydrated (web w) p) (patterns (self w))).
      rewrite (pattern_index_replace _ id name i p _ Hp Fi Fn i), Nat.eqb_refl. exact Ei. }
    assert (Hp1 : nth_error (patterns (self w1)) i = Some (hydrated (web w) p)).
    { apply (nth_error_replace _ _ p _ Hp). }
    destruct (getPattern_run w1 id name i _ Ei1 Hp1) as (Hok1 & Herr1).
    change (web w1) with web' in Hok1, Herr1.
    split.
    + intros Hsame.
      destruct (hydrated_same _ _ _ Hh Hsame) as [Hh' Esame].
      pose proof (getFullData_hydrated (web w) web' p Hh Hh') as Eidem.
      assert (Hh1 : hydrates web' (hydrated (web w) p)).
      { unfold hydrates. rewrite Eidem. reflexivity. }
      assert (Ehh : hydrated web' (hydrated (web w) p) = hydrated (web w) p).
      { unfold hydrated at 1. rewrite Eidem. exact Esame. }
      rewrite Ehh in Hok1. eexists. split; [exact (Hok1 Hh1)|].
      change (patterns (self w1)) with (replace i (hydrated (web w) p) (patterns (self w))).
      rewrite replace_replace. reflexivity.
    + intros e E. apply Herr1.
      rewrite (getFullData_request_raises web' (hydrated (web w) p) e); [reflexivity|].
      rewrite Fi. exact E.
Qed.

Lemma getPattern_repeatable_witness :
  exists w2,
    getPattern (PInt 10) PNone
      (with_web later_web (fst (getPattern (PInt 10) PNone example_world)))
    = (w2, snd (getPattern (PInt 10) PNone example_world))
    /\ self w2 = self (fst (getPattern (PInt 10) PNone example_world)).
Proof.
  apply (proj2 (getPattern_repeatable example_world _ (PInt 10) PNone _ later_web eq_refl)
           0%nat P1 eq_refl eq_refl).
  reflexivity.
Defined.

Lemma found_yarn_step w i y :
  nth_error (yarns (self w)) i = Some y ->
  found_yarn i w
  = (set_yarns (replace i (yarn_hydrated (web w) y) (yarns (self w)))
       (printed ("Found " ++ Yarn.name y ++ "!") w),
     match snd (Yarn.getFullData (web w) y) with
     | Ok _ => Ok (PStr (Yarn.getInfo (yarn_hydrated (web w) y)))
     | Raise e => Raise e
     end).
Proof.
  intros Hn. unfold found_yarn, yarn_hydrated.
  unfold bind at 1. rewrite (the_yarn_run i w y Hn).
  unfold bind at 1, print, modify.
  unfold bind at 1, gets at 1.
  unfold bind at 1.
  match goal with |- context [on_yarn i (Yarn.getFullData ?wb) ?w1] =>
    rewrite (on_yarn_run i (Yarn.getFullData wb) w1 y) by exact Hn end.
  cbn [web set_yarns set_self].
  destruct (Yarn.getFullData (web w) y) as [y' [[]|e]]; cbn [fst snd]; [|reflexivity].
  unfold bind at 1.
  match goal with |- context [the_yarn i ?w1] =>
    rewrite (the_yarn_run i w1 y')
      by (cbn [yarns self]; apply (nth_error_replace _ _ y); exact Hn) end.
  unfold ret.
  cbn [patterns self set_yarns set_self web files stdout yarns shops].
  reflexivity.
Qed.

Lemma found_yarn_run w i y :
  nth_error (yarns (self w)) i = Some y ->
  (yarn_hydrates (web w) y ->
   found_yarn i w
   = (set_yarns (replace i (yarn_hydrated (web w) y) (yarns (self w)))
        (printed ("Found " ++ Yarn.name y ++ "!") w),
      Ok (PStr (Yarn.getInfo (yarn_hydrated (web w) y)))))
  /\ (forall e, snd (Yarn.getFullData (web w) y) = Raise e ->
                snd (found_yarn i w) = Raise e).
Proof.
  intros Hn. rewrite (found_yarn_step w i y Hn). split.
  - unfold yarn_hydrates. intros ->. reflexivity.
  - intros e ->. reflexivity.
Qed.

Lemma getYarn_at w id name i :
  yarn_index (yarns (self w)) id name = Some i ->
  getYarn id name w = found_yarn i w.
Proof.
  unfold yarn_index, getYarn, bind at 1, gets at 1.
  destruct (Py.truthy id).
  - intros ->. reflexivity.
  - destruct name as [| | | |s| |]; try discriminate.
    destruct s as [|c r]; [discriminate|]. intros H.
    cbn [Py.truthy PyStr.is_empty negb].
    unfold bind at 1, lift.
    destruct (yarns (self w)) as [|q ys] eqn:Eys; [discriminate H|].
    cbn [title_of Py.as_str res_bind]. rewrite H. reflexivity.
Qed.

Lemma yarn_index_nth ys id name i :
  yarn_index ys id name = Some i -> exists y, nth_error ys i = Some y.
Proof.
  unfold yarn_index. intros Hi. destruct (Py.truthy id).
  - destruct (first_index_nth _ _ _ Hi) as (y & Hy & _). exists y. exact Hy.
  - destruct name as [| | | |s| |]; try discriminate Hi.
    destruct s as [|c r]; [discriminate Hi|].
    destruct (first_index_nth _ _ _ Hi) as (y & Hy & _). exists y. exact Hy.
Qed.

(** X8: when [getYarn] finds a yarn whose detail request can be read, it
    prints one line, stores the hydrated yarn at the position of the yarn it
    found, and returns its new [info] text, which ends with the list of one
    [percentage% name] line for each fiber of the reply. When the hydration
    raises, so does the look-up. *)
Theorem getYarn_found :
  forall (w : World) (id name : pyval) (i : nat),
    yarn_index (yarns (self w)) id name = Some i ->
    exists y,
      nth_error (yarns (self w)) i = Some y
      /\ (yarn_hydrates (web w) y ->
          getYarn id name w
          = (set_yarns (replace i (yarn_hydrated (web w) y) (yarns (self w)))
               (printed ("Found " ++ Yarn.name y ++ "!") w),
             Ok (PStr (Yarn.getInfo (yarn_hydrated (web w) y)))))
      /\ (forall fibers,
            replies_fibers (web w) (Yarn.id y) fibers ->
            snd (getYarn id name w)
            = Ok (PStr (Yarn.base_info (Yarn.id y) (Yarn.name y) (Yarn.brand y)
                          (Yarn.weight y)
                        ++ nl ++ "Yarn Fiber Content:" ++ str_list (map line_of fibers))))
      /\ (forall e, snd (Yarn.getFullData (web w) y) = Raise e ->
                    snd (getYarn id name w) = Raise e).
Proof.
  intros w id name i Hi.
  destruct (yarn_index_nth _ _ _ _ Hi) as [y Hy]. exists y.
  split; [exact Hy|]. rewrite (getYarn_at w id name i Hi).
  destruct (found_yarn_run w i y Hy) as [Hok Herr].
  split; [exact Hok|]. split; [|exact Herr].
  intros fibers Hr. pose proof (replies_fibers_reply _ _ _ Hr) as E.
  assert (Hh : yarn_hydrates (web w) y) by (apply yarn_hydrates_reply; eauto).
  rewrite (Hok Hh), (yarn_hydrated_reply _ _ _ E). reflexivity.
Qed.

Lemma getYarn_found_witness :
  snd (getYarn (PInt 1) PNone (mkWorld (mk [] [] [Y2; Y1]) fiber_web [] []))
  = Ok (PStr (Yarn.base_info (PInt 1) "Merino" "Acme" (PStr "Worsted")
              ++ nl ++ "Yarn Fiber Content:" ++ "['80% wool', '20% nylon']")).
Proof.
  destruct (getYarn_found (mkWorld (mk [] [] [Y2; Y1]) fiber_web [] []) (PInt 1) PNone 1
              eq_refl) as (y & Hy & _ & Hf & _).
  injection Hy as <-.
  apply (Hf [(80, "wool"); (20, "nylon")]).
  exists (yarn_body [fiber_item 80 "wool"; fiber_item 20 "nylon"]).
  exists (PDict [("yarn_fibers", PList [fiber_item 80 "wool"; fiber_item 20 "nylon"])]).
  exists [fiber_item 80 "wool"; fiber_item 20 "nylon"].
  repeat split; try reflexivity.
  repeat constructor; eexists; split; reflexivity.
Defined.
End Found.

(** ** The yarn network as a graph *)

Section YarnNetwork.

Import Graph.

Lemma nodes_add_node n attrs g m :
  In m (nx.nodes (nx.add_node n attrs g)) <-> In m (nx.nodes g) \/ m = n.
Proof.
  unfold nx.nodes, nx.add_node. cbn [nx.node]. rewrite dict_keys_set.
  destruct (Dict.mem n (nx.node g)) eqn:E.
  - split; [auto|]. intros [H| ->]; [exact H|]. apply dict_mem_in. exact E.
  - rewrite in_app_iff. cbn [In]. split.
    + intros [H|[<-|[]]]; auto.
    + intros [H| ->]; auto.
Qed.

Lemma node_attr_add_node n label t g m :
  nx.node_attr (nx.add_node n [("label", nx.AStr label); ("type", nx.AStr t)] g) m "type"
  = if String.eqb n m then Ok (nx.AStr t) else nx.node_attr g m "type".
Proof.
  unfold nx.node_attr, nx.add_node. cbn [nx.node]. rewrite dict_get_set.
  destruct (String.eqb n m); [|reflexivity].
  unfold Dict.update. cbn [fold_left fst snd]. rewrite dict_get_set_same. reflexivity.
Qed.

Lemma add_edge_plain u v g :
  In u (nx.nodes g) -> In v (nx.nodes g) ->
  nx.node (nx.add_edge u v [] g) = nx.node g
  /\ nx.edges (nx.add_edge u v [] g)
     = if (edge_count u v (nx.edges g) =? 0)%nat
       then (nx.edges g ++ [((u, v), [])])%list else nx.edges g.
Proof.
  intros Hu Hv. unfold nx.add_edge. cbn [nx.node nx.edges]. split.
  - rewrite (ensure_node_mem u _ Hu). apply ensure_node_mem. exact Hv.
  - apply set_edge_cases. intros e _ _. reflexivity.
Qed.

Lemma network_add_node N E g n label t :
  t = "pattern" \/ t = "yarn" ->
  network_of N E g ->
  network_of (N ++ [n]) E
    (nx.add_node n [("label", nx.AStr label); ("type", nx.AStr t)] g).
Proof.
  intros Ht (Hn & Hty & He & Hc). split; [|split; [|split]].
  - intros m. rewrite nodes_add_node, in_app_iff, Hn. cbn [In]. intuition.
  - intros m Hm. unfold typed_node. rewrite node_attr_add_node.
    destruct (String.eqb_spec n m) as [->|Hne].
    + destruct Ht as [-> | ->]; [left|right]; reflexivity.
    + apply nodes_add_node in Hm. destruct Hm as [Hm|Hm]; [|congruence].
      exact (Hty m Hm).
  - exact He.
  - exact Hc.
Qed.

Lemma network_add_edge N E g u v :
  In u N -> In v N ->
  network_of N E g ->
  network_of N (E ++ [(u, v)]) (nx.add_edge u v [] g).
Proof.
  intros Hu Hv (Hn & Hty & He & Hc).
  destruct (add_edge_plain u v g (proj2 (Hn u) Hu) (proj2 (Hn v) Hv)) as [En Ee].
  split; [|split; [|split]].
  - intros m. unfold nx.nodes. rewrite En. apply Hn.
  - intros m Hm. unfold nx.nodes in Hm. rewrite En in Hm.
    unfold typed_node, nx.node_attr. rewrite En. exact (Hty m Hm).
  - intros e. rewrite Ee. destruct (edge_count u v (nx.edges g) =? 0)%nat.
    + rewrite in_app_iff. cbn [In]. intros [H|[<-|[]]]; rewrite in_app_iff.
      * left. exact (He e H).
      * right. left. reflexivity.
    + intros H. apply in_app_iff. left. exact (He e H).
  - intros x y. rewrite Ee, in_app_iff. cbn [In]. intros [H|[H|[]]].
    + specialize (Hc x y H).
      destruct (edge_count u v (nx.edges g) =? 0)%nat; [|exact Hc].
      rewrite edge_count_app. lia.
    + injection H as <- <-.
      destruct (edge_count u v (nx.edges g) =? 0)%nat eqn:E0.
      * rewrite edge_count_app. cbn [fst].
        replace (nx.same_edge u v (u, v)) with true; [lia|].
        symmetry. apply same_edge_iff. left. split; reflexivity.
      * apply Nat.eqb_neq in E0. lia.
Qed.

Lemma network_fold {A} (f : nx.Graph -> A -> nx.Graph) (fn : A -> list string)
    (fe : A -> list (string * string)) (P : list string -> Prop) :
  (forall g N E a, P N -> network_of N E g ->
                   network_of (N ++ fn a) (E ++ fe a) (f g a)) ->
  (forall N N', P N -> P (N ++ N')%list) ->
  forall l g N E, P N -> network_of N E g ->
    network_of (N ++ flat_map fn l) (E ++ flat_map fe l) (fold_left f l g).
Proof.
  intros Hstep Hmono. induction l as [|a l IH]; intros g N E HP H; cbn [fold_left flat_map].
  - rewrite !app_nil_r. exact H.
  - rewrite !app_assoc. apply IH; [apply Hmono; exact HP|].
    apply Hstep; assumption.
Qed.

Lemma flat_map_if {A B} (t : A -> bool) (h : A -> B) l :
  flat_map (fun x => if t x then [h x] else []) l = map h (filter t l).
Proof.
  induction l as [|x l IH]; [reflexivity|]. cbn [flat_map filter].
  destruct (t x); cbn [map app]; rewrite IH; reflexivity.
Qed.

Lemma map_flat_map {A B C} (f : B -> C) (g : A -> list B) l :
  map f (flat_map g l) = flat_map (fun x => map f (g x)) l.
Proof.
  induction l as [|x l IH]; [reflexivity|]. cbn [flat_map].
  rewrite map_app, IH. reflexivity.
Qed.

Lemma network_link_graph pn r N E g yarn :
  In pn N -> network_of N E g ->
  network_of (N ++ if Py.eq (Yarn.id yarn) r then [yarn_label yarn] else [])
             (E ++ if Py.eq (Yarn.id yarn) r then [(pn, yarn_label yarn)] else [])
             (link_graph pn r g yarn).
Proof.
  intros Hp H. unfold link_graph, link_yarn. cbn [fst].
  destruct (Py.eq (Yarn.id yarn) r); cbn [fst].
  - apply network_add_edge.
    + apply in_app_iff. left. exact Hp.
    + apply in_app_iff. right. left. reflexivity.
    + apply network_add_node; [right; reflexivity|exact H].
  - rewrite !app_nil_r. exact H.
Qed.

Lemma network_add_pattern ys N E g p :
  network_of N E g ->
  network_of (N ++ Pattern.name p :: pattern_labels ys p)
             (E ++ map (pair (Pattern.name p)) (pattern_labels ys p))
             (add_pattern ys g p).
Proof.
  intros H. unfold add_pattern, pattern_labels.
  change (N ++ Pattern.name p :: ?l)%list with (N ++ [Pattern.name p] ++ l)%list.
  rewrite app_assoc, map_flat_map.
  apply (network_fold _
           (fun r => map yarn_label (filter (fun yarn => Py.eq (Yarn.id yarn) r) ys))
           (fun r => map (pair (Pattern.name p))
                       (map yarn_label (filter (fun yarn => Py.eq (Yarn.id yarn) r) ys)))
           (fun N => In (Pattern.name p) N)).
  - intros g0 N0 E0 r HP H0.
    rewrite <- (flat_map_if (fun yarn => Py.eq (Yarn.id yarn) r) yarn_label ys).
    rewrite map_flat_map.
    assert (Ee : flat_map (fun x => map (pair (Pattern.name p))
                                  (if Py.eq (Yarn.id x) r then [yarn_label x] else [])) ys
                 = flat_map (fun x => if Py.eq (Yarn.id x) r
                                      then [(Pattern.name p, yarn_label x)] else []) ys).
    { apply flat_map_ext. intros x. destruct (Py.eq (Yarn.id x) r); reflexivity. }
    rewrite Ee.
    apply (network_fold _ _ _ (fun N => In (Pattern.name p) N)); try assumption.
    + intros g1 N1 E1 yarn HP1 H1. apply network_link_graph; assumption.
    + intros N1 N' HN. apply in_app_iff. left. exact HN.
  - intros N1 N' HN. apply in_app_iff. left. exact HN.
  - apply in_app_iff. right. left. reflexivity.
  - apply network_add_node; [left; reflexivity|exact H].
Qed.

Lemma network_empty : network_of [] [] nx.empty.
Proof.
  split; [|split; [|split]].
  - intros n. reflexivity.
  - intros n [].
  - intros e [].
  - intros u v [].
Qed.

Lemma network_patterns ys ps :
  network_of (network_names ys ps) (recommendations ys ps)
             (fold_left (add_pattern ys) ps nx.empty).
Proof.
  apply (network_fold (add_pattern ys)
           (fun p => Pattern.name p :: pattern_labels ys p)
           (fun p => map (pair (Pattern.name p)) (pattern_labels ys p))
           (fun _ => True) ) with (N := []) (E := []).
  - intros g N E p _ H. apply network_add_pattern. exact H.
  - intros; exact I.
  - exact I.
  - exact network_empty.
Qed.

Lemma link_yarn_graph pn r ys : forall g l,
  fst (fold_left (link_yarn pn r) ys (g, l)) = fold_left (link_graph pn r) ys g.
Proof.
  induction ys as [|yarn ys IH]; intros g l; [reflexivity|]. cbn [fold_left].
  unfold link_graph at 2, link_yarn at 2 3. cbn [fst snd].
  destruct (Py.eq (Yarn.id yarn) r); cbn [fst]; apply IH.
Qed.

Lemma link_yarns_graph pn ys recs : forall g l,
  fst (fold_left (fun acc recyarn => fold_left (link_yarn pn recyarn) ys acc) recs (g, l))
  = fold_left (fun g recyarn => fold_left (link_graph pn recyarn) ys g) recs g.
Proof.
  induction recs as [|r recs IH]; intros g l; [reflexivity|]. cbn [fold_left].
  rewrite (surjective_pairing (fold_left (link_yarn pn r) ys (g, l))).
  rewrite IH, link_yarn_graph. reflexivity.
Qed.

Lemma add_pattern_some ys g p l :
  Pattern.recyarn p = Some l ->
  add_pattern ys g p
  = fold_left (fun g recyarn => fold_left (link_graph (Pattern.name p) recyarn) ys g) l
      (nx.add_node (Pattern.name p)
         [("label", nx.AStr (Pattern.name p)); ("type", nx.AStr "pattern")] g).
Proof. intros E. unfold add_pattern. rewrite E. reflexivity. Qed.

(** The loop of [createYarnGraph], with the graph it builds and the
    catalogue it leaves. *)
Lemma yarn_loop_full designer (wb : Web) (ys : list Yarn.t) rest :
  forall pre w acc,
    patterns (self w) = (pre ++ rest)%list -> web w = wb -> yarns (self w) = ys ->
    (forall p, In p rest -> by_designer designer p = true -> hydrates wb p) ->
    exists w',
      yarn_loop (positions (by_designer designer) (length pre) rest) acc w
      = (w', Ok (fold_left (add_pattern ys)
                   (map (hydrated wb) (filter (by_designer designer) rest)) (fst acc),
                 (snd acc
                  ++ flat_map (fun p => pattern_labels ys (hydrated wb p))
                       (filter (by_designer designer) rest))%list))
      /\ patterns (self w') = (pre ++ hydrate_designer wb designer rest)%list
      /\ shops (self w') = shops (self w) /\ yarns (self w') = ys
      /\ web w' = wb /\ files w' = files w /\ stdout w' = stdout w.
Proof.
  induction rest as [|p rest IH]; intros pre w acc Hp Hw Hy Hh.
  - exists w. cbn [positions yarn_loop filter flat_map ret map fold_left hydrate_designer].
    rewrite app_nil_r. split; [destruct acc; reflexivity|]. repeat split; assumption.
  - cbn [positions filter hydrate_designer map]. destruct (by_designer designer p) eqn:Et.
    + destruct (hydrates_recyarn wb p (Hh p (or_introl eq_refl) Et)) as (Efull & l & El).
      cbn [yarn_loop flat_map map fold_left].
      unfold bind at 1, gets at 1. rewrite Hw.
      unfold bind at 1, on_pattern at 1. rewrite Hp, nth_error_mid, Efull, replace_mid.
      set (w1 := set_patterns (pre ++ hydrated wb p :: rest) w).
      unfold bind at 1, the_pattern, on_pattern, gets.
      change (patterns (self w1)) with (pre ++ hydrated wb p :: rest)%list.
      rewrite nth_error_mid, replace_mid.
      set (w2 := set_patterns (pre ++ hydrated wb p :: rest) w1).
      unfold bind at 1, lift at 1. rewrite El.
      unfold bind at 1. change (yarns (self w2)) with (yarns (self w)). rewrite Hy.
      destruct (IH (pre ++ [hydrated wb p])%list w2
                  (fold_left
                     (fun a recyarn =>
                        fold_left (link_yarn (Pattern.name (hydrated wb p)) recyarn) ys a)
                     l (nx.add_node (Pattern.name (hydrated wb p))
                          [("label", nx.AStr (Pattern.name (hydrated wb p)));
                           ("type", nx.AStr "pattern")] (fst acc), snd acc)))
        as (w' & E & F1 & F2 & F3 & F4 & F5 & F6).
      * change (patterns (self w2)) with (pre ++ hydrated wb p :: rest)%list.
        rewrite <- app_assoc. reflexivity.
      * exact Hw.
      * exact Hy.
      * intros q Hq. apply Hh. right. exact Hq.
      * rewrite length_app, Nat.add_comm in E. cbn [length Nat.add] in E.
        exists w'. rewrite E. split.
        -- rewrite link_yarns_labels, link_yarns_graph.
           unfold pattern_labels at 2. rewrite El. rewrite <- app_assoc.
           rewrite (add_pattern_some ys (fst acc) _ l El). reflexivity.
        -- rewrite F1, <- app_assoc. repeat split; assumption.
    + destruct (IH (pre ++ [p])%list w acc) as (w' & E & F1 & F2 & F3 & F4 & F5 & F6).
      * rewrite Hp, <- app_assoc. reflexivity.
      * exact Hw.
      * exact Hy.
      * intros q Hq. apply Hh. right. exact Hq.
      * rewrite length_app, Nat.add_comm in E. cbn [length Nat.add] in E.
        exists w'. split; [exact E|].
        rewrite F1, <- app_assoc. repeat split; assumption.
Qed.

Lemma createYarnGraph_full w designer :
  (exists p, In p (patterns (self w)) /\ by_designer designer p = true) ->
  (forall p, In p (patterns (self w)) -> by_designer designer p = true ->
             hydrates (web w) p) ->
  exists w',
    createYarnGraph designer w
    = (w', Ok (GraphAndTop
                 (fold_left (add_pattern (yarns (self w))) (designer_patterns w designer)
                    nx.empty)
                 (most_common 5 (Counter (designer_labels w designer)))))
    /\ patterns (self w') = hydrate_designer (web w) designer (patterns (self w))
    /\ shops (self w') = shops (self w) /\ yarns (self w') = yarns (self w)
    /\ web w' = web w /\ files w' = files w
    /\ stdout w' = (stdout w ++ ["Creating graph..."])%list.
Proof.
  intros Hex Hh. unfold createYarnGraph.
  unfold bind at 1, print at 1, modify.
  set (w0 := mkWorld (self w) (web w) (files w) (stdout w ++ ["Creating graph..."])).
  unfold bind at 1, gets at 1.
  change (patterns (self w0)) with (patterns (self w)).
  pose proof (positions_nonempty (by_designer designer) O (patterns (self w)) Hex) as Hne.
  unfold by_designer in Hne at 1.
  destruct (yarn_loop_full designer (web w) (yarns (self w)) (patterns (self w))
              [] w0 (nx.empty, []) eq_refl eq_refl eq_refl Hh)
    as (w' & E & F1 & F2 & F3 & F4 & F5 & F6).
  cbn [length] in E. unfold by_designer in E at 1.
  destruct (positions _ 0 (patterns (self w))) as [|i idxs] eqn:Epos; [congruence|].
  unfold bind. rewrite E. unfold ret. cbn [fst snd app].
  exists w'. split; [reflexivity|]. repeat split; assumption.
Qed.

Lemma flat_map_map {A B C} (f : A -> B) (g : B -> list C) l :
  flat_map g (map f l) = flat_map (fun x => g (f x)) l.
Proof.
  induction l as [|x l IH]; [reflexivity|]. cbn [map flat_map]. rewrite IH. reflexivity.
Qed.

Lemma in_network_names ys ps n :
  In n (network_names ys ps)
  <-> exists p, In p ps /\ (n = Pattern.name p \/ In n (pattern_labels ys p)).
Proof.
  unfold network_names. rewrite in_flat_map. split.
  - intros (p & Hp & [H|H]); exists p; auto.
  - intros (p & Hp & [H|H]); exists p; split; try assumption; [left|right]; auto.
Qed.

Lemma in_recommendations ys ps u v :
  In (u, v) (recommendations ys ps)
  <-> exists p, In p ps /\ u = Pattern.name p /\ In v (pattern_labels ys p).
Proof.
  unfold recommendations. rewrite in_flat_map. split.
  - intros (p & Hp & H). apply in_map_iff in H. destruct H as (l & E & Hl).
    injection E as <- <-. exists p. auto.
  - intros (p & Hp & -> & Hv). exists p. split; [exact Hp|]. apply in_map. exact Hv.
Qed.

(** X9: for a designer with at least one pattern, all of which hydrate,
    the graph [createYarnGraph] returns has as nodes the names of the
    designer's patterns and the labels of the catalogue yarns they
    recommend, each drawn as a pattern or as a yarn; every edge joins a
    pattern of the designer to a yarn that pattern recommends, and every
    such pair is joined. *)
Theorem createYarnGraph_graph :
  forall (w : World) (designer : string),
    (exists p, In p (patterns (self w)) /\ by_designer designer p = true) ->
    (forall p, In p (patterns (self w)) -> by_designer designer p = true ->
               hydrates (web w) p) ->
    exists w' graph top,
      createYarnGraph designer w = (w', Ok (GraphAndTop graph top))
      /\ (forall n, In n (nx.nodes graph)
                    <-> exists p, In p (designer_patterns w designer)
                                  /\ (n = Pattern.name p
                                      \/ In n (pattern_labels (yarns (self w)) p)))
      /\ (forall n, In n (nx.nodes graph) -> typed_node graph n)
      /\ (forall e, In e (nx.edges graph) ->
                    exists p, In p (designer_patterns w designer)
                              /\ fst (fst e) = Pattern.name p
                              /\ In (snd (fst e)) (pattern_labels (yarns (self w)) p))
      /\ (forall p l, In p (designer_patterns w designer) ->
                      In l (pattern_labels (yarns (self w)) p) ->
                      exists attrs, nx.get_edge (Pattern.name p) l graph = Some attrs).
Proof.
  intros w designer Hex Hh.
  destruct (createYarnGraph_full w designer Hex Hh) as (w' & E & _).
  destruct (network_patterns (yarns (self w)) (designer_patterns w designer))
    as (Hn & Hty & He & Hc).
  eexists. eexists. eexists. split; [exact E|]. split; [|split; [|split]].
  - intros n. rewrite Hn. apply in_network_names.
  - exact Hty.
  - intros e Hin. specialize (He e Hin). destruct e as [[u v] d]. cbn [fst snd] in *.
    apply in_recommendations in He. exact He.
  - intros p l Hp Hl.
    assert (Hin : In (Pattern.name p, l)
                    (recommendations (yarns (self w)) (designer_patterns w designer))).
    { apply in_recommendations. exists p. auto. }
    destruct (edge_count_find _ _ _ (Hc _ _ Hin)) as (e & Ef & _).
    exists (snd e). unfold nx.get_edge. rewrite Ef. reflexivity.
Qed.

Lemma createYarnGraph_graph_witness :
  exists w' graph top,
    createYarnGraph "Jane Doe" example_world = (w', Ok (GraphAndTop graph top))
    /\ (forall n, In n (nx.nodes graph)
                  <-> exists p, In p (designer_patterns example_world "Jane Doe")
                                /\ (n = Pattern.name p
                                    \/ In n (pattern_labels [Y1; Y2] p)))
    /\ (forall n, In n (nx.nodes graph) -> typed_node graph n)
    /\ (forall e, In e (nx.edges graph) ->
                  exists p, In p (designer_patterns example_world "Jane Doe")
                            /\ fst (fst e) = Pattern.name p
                            /\ In (snd (fst e)) (pattern_labels [Y1; Y2] p))
    /\ (forall p l, In p (designer_patterns example_world "Jane Doe") ->
                    In l (pattern_labels [Y1; Y2] p) ->
                    exists attrs, nx.get_edge (Pattern.name p) l graph = Some attrs).
Proof.
  apply (createYarnGraph_graph example_world "Jane Doe").
  - exists P1. split; [left; reflexivity|reflexivity].
  - intros p [<-|[<-|[<-|[]]]] H; try reflexivity. discriminate H.
Defined.

(** X10: what [createYarnGraph] does to the catalogue for a designer who
    has at least one pattern in it, when the detail request of every
    pattern of the designer can be read. It hydrates the patterns of the
    designer where they stand and leaves every other pattern, the shops,
    the yarns and the cache files as they were, and it prints one line.
    (Without a pattern of the designer a second line is printed, and a
    request that fails ends the call with its exception.) *)
Theorem createYarnGraph_hydrates_designer :
  forall (w : World) (designer : string),
    (exists p, In p (patterns (self w)) /\ by_designer designer p = true) ->
    (forall p, In p (patterns (self w)) -> by_designer designer p = true ->
               hydrates (web w) p) ->
    let w' := fst (createYarnGraph designer w) in
    patterns (self w') = hydrate_designer (web w) designer (patterns (self w))
    /\ shops (self w') = shops (self w) /\ yarns (self w') = yarns (self w)
    /\ files w' = files w
    /\ stdout w' = (stdout w ++ ["Creating graph..."])%list.
Proof.
  intros w designer Hex Hh.
  destruct (createYarnGraph_full w designer Hex Hh) as (w' & E & F1 & F2 & F3 & F4 & F5 & F6).
  rewrite E. cbn [fst]. repeat split; assumption.
Qed.

Lemma createYarnGraph_hydrates_designer_witness :
  patterns (self (fst (createYarnGraph "Jane Doe" example_world)))
  = [hydrated example_web P1; P3; hydrated example_web P2].
Proof.
  apply (createYarnGraph_hydrates_designer example_world "Jane Doe").
  - exists P1. split; [left; reflexivity|reflexivity].
  - intros p [<-|[<-|[<-|[]]]] H; try reflexivity. discriminate H.
Defined.
End YarnNetwork.

(** ** Degrees in the shop network *)

Section Centrality.

Import Graph.

Lemma degree_ends g k :
  nx.degree g k = Z.of_nat (list_sum (map (ends k) (nx.edges g))).
Proof.
  unfold nx.degree.
  assert (H : forall es acc,
             fold_left (fun acc e =>
                          acc + (if String.eqb (fst (fst e)) k then 1 else 0)
                          + (if String.eqb (snd (fst e)) k then 1 else 0)) es acc
             = acc + Z.of_nat (list_sum (map (ends k) es))).
  { induction es as [|e es IH]; intros acc; cbn [fold_left map]; [cbn; lia|].
    rewrite IH.
    change (list_sum (ends k e :: map (ends k) es))
      with (ends k e + list_sum (map (ends k) es))%nat.
    generalize (list_sum (map (ends k) es)). intros r. unfold ends.
    destruct (String.eqb (fst (fst e)) k), (String.eqb (snd (fst e)) k); lia. }
  rewrite H. lia.
Qed.

Lemma list_sum_add {A} (a b : A -> nat) l :
  list_sum (map (fun x => (a x + b x)%nat) l)
  = (list_sum (map a l) + list_sum (map b l))%nat.
Proof. induction l as [|x l IH]; simpl; [reflexivity|]. rewrite IH. lia. Qed.

Lemma list_sum_filter {A} (t : A -> bool) l :
  list_sum (map (fun x => if t x then 1 else 0)%nat l) = length (filter t l).
Proof.
  induction l as [|x l IH]; simpl; [reflexivity|].
  rewrite IH. destruct (t x); reflexivity.
Qed.

Lemma list_sum_ext {A} (a b : A -> nat) l :
  (forall x, In x l -> a x = b x) -> list_sum (map a l) = list_sum (map b l).
Proof.
  induction l as [|x l IH]; intros H; simpl; [reflexivity|].
  rewrite (H x (or_introl eq_refl)), IH; [reflexivity|].
  intros y Hy. apply H. right. exact Hy.
Qed.

Lemma list_sum_const {A} (c : nat) (l : list A) :
  list_sum (map (fun _ => c) l) = (length l * c)%nat.
Proof. induction l as [|x l IH]; simpl; [reflexivity|]. rewrite IH. reflexivity. Qed.

(** Counting the pairs [(v, e)] that pass [f], by [v] or by [e]. *)
Lemma sum_swap {A B} (f : A -> B -> bool) (N : list A) (E : list B) :
  list_sum (map (fun v => length (filter (f v) E)) N)
  = list_sum (map (fun e => length (filter (fun v => f v e) N)) E).
Proof.
  induction N as [|v N IH]; simpl.
  - induction E as [|e E IHE]; [reflexivity|]. simpl. exact IHE.
  - rewrite IH.
    rewrite <- (list_sum_filter (f v) E), <- list_sum_add.
    apply list_sum_ext. intros e _. cbn [filter].
    destruct (f v e); reflexivity.
Qed.

Lemma count_nodup (N : list string) b :
  NoDup N -> In b N -> length (filter (String.eqb b) N) = 1%nat.
Proof.
  induction 1 as [|x N Hx _ IH]; intros Hb; [contradiction|]. cbn [filter].
  destruct (String.eqb_spec b x) as [->|Hne].
  - cbn [length]. f_equal.
    assert (H0 : forall l, ~ In x l -> filter (String.eqb x) l = []).
    { induction l as [|y l IHl]; intros Hn; [reflexivity|]. cbn [filter].
      destruct (String.eqb_spec x y) as [->|_]; [exfalso; apply Hn; left; reflexivity|].
      apply IHl. intros H. apply Hn. right. exact H. }
    rewrite (H0 N Hx). reflexivity.
  - destruct Hb as [->|Hb]; [contradiction|]. exact (IH Hb).
Qed.

Lemma filter_ext_in_len {A} (f g : A -> bool) l :
  (forall x, In x l -> f x = g x) -> length (filter f l) = length (filter g l).
Proof. intros H. rewrite (filter_ext_in f g l H). reflexivity. Qed.

Lemma filter_false {A} (l : list A) : filter (fun _ => false) l = [].
Proof. induction l as [|x l IH]; [reflexivity|exact IH]. Qed.

(** An edge between two different nodes has as many ends at [k] as there
    are nodes it joins to [k]. *)
Lemma ends_count (N : list string) k e :
  NoDup N -> In (fst (fst e)) N -> In (snd (fst e)) N -> fst (fst e) <> snd (fst e) ->
  length (filter (fun v => nx.same_edge k v (fst e)) N) = ends k e.
Proof.
  intros ND Ha Hb Hab. destruct e as [[a b] d]. cbn [fst snd] in *.
  unfold ends, nx.same_edge. cbn [fst snd].
  destruct (String.eqb_spec a k) as [->|Hak].
  - destruct (String.eqb_spec b k) as [->|Hbk]; [contradiction|].
    change (1 + 0)%nat with 1%nat.
    rewrite <- (count_nodup N b ND Hb). apply filter_ext_in_len. intros v _.
    cbn [andb orb]. rewrite andb_false_r, orb_false_r. reflexivity.
  - destruct (String.eqb_spec b k) as [->|Hbk].
    + change (0 + 1)%nat with 1%nat.
      rewrite <- (count_nodup N a ND Ha). apply filter_ext_in_len. intros v _.
      cbn [andb orb]. rewrite andb_true_r. reflexivity.
    + rewrite (filter_ext_in _ (fun _ => false)); [rewrite filter_false; reflexivity|].
      intros v _. cbn [andb orb]. rewrite andb_false_r. reflexivity.
Qed.

Lemma others_count (N : list string) k :
  NoDup N -> In k N ->
  list_sum (map (fun v => if String.eqb v k then 0 else 1)%nat N) = (length N - 1)%nat.
Proof.
  induction 1 as [|x N Hx ND IH]; intros Hk; [contradiction|]. simpl.
  destruct (String.eqb_spec x k) as [->|Hne].
  - rewrite (list_sum_ext _ (fun _ => 1%nat)).
    + clear. induction N as [|y N IH]; simpl; lia.
    + intros v Hv. destruct (String.eqb_spec v k) as [->|_]; [contradiction|reflexivity].
  - destruct Hk as [->|Hk]; [contradiction|]. rewrite (IH Hk).
    destruct N; [contradiction|]. cbn [length]. lia.
Qed.

(** In a complete graph every node has one edge to each other node. *)
Lemma degree_complete g k :
  complete g -> In k (nx.nodes g) ->
  nx.degree g k = Z.of_nat (length (nx.nodes g)) - 1.
Proof.
  intros (ND & He & Hc) Hk. rewrite degree_ends.
  rewrite <- (list_sum_ext (fun e => length (filter (fun v => nx.same_edge k v (fst e))
                                              (nx.nodes g)))).
  2:{ intros e Hin. destruct (He e Hin) as (Ha & Hb & Hab). apply ends_count; assumption. }
  rewrite <- (sum_swap (fun v e => nx.same_edge k v (fst e)) (nx.nodes g) (nx.edges g)).
  rewrite (list_sum_ext _ (fun v => if String.eqb v k then 0 else 1)%nat).
  - rewrite (others_count _ _ ND Hk).
    destruct (nx.nodes g); [contradiction|]. cbn [length]. lia.
  - intros v Hv. destruct (String.eqb_spec v k) as [->|Hne].
    + rewrite (filter_ext_in _ (fun _ => false)); [rewrite filter_false; reflexivity|].
      intros e Hin. destruct (He e Hin) as (_ & _ & Hab).
      destruct (nx.same_edge k k (fst e)) eqn:E; [|reflexivity].
      destruct (fst e) as [a b]. apply same_edge_iff in E. cbn [fst snd] in Hab.
      destruct E as [[-> ->]|[-> ->]]; contradiction.
    + apply (Hc k v Hk Hv). congruence.
Qed.

(** The handshake count: a complete graph on [n] nodes has [n (n - 1) / 2]
    edges. *)
Lemma edges_complete g :
  complete g ->
  (2 * length (nx.edges g) = length (nx.nodes g) * (length (nx.nodes g) - 1))%nat.
Proof.
  intros Hg. pose proof Hg as (ND & He & Hc).
  assert (H1 : list_sum (map (fun k => list_sum (map (ends k) (nx.edges g))) (nx.nodes g))
               = (length (nx.nodes g) * (length (nx.nodes g) - 1))%nat).
  { rewrite (list_sum_ext _ (fun _ => (length (nx.nodes g) - 1)%nat)).
    - apply list_sum_const.
    - intros k Hk. pose proof (degree_complete g k Hg Hk) as Hd.
      rewrite degree_ends in Hd. destruct (nx.nodes g); [contradiction|].
      cbn [length] in *. lia. }
  rewrite <- H1. clear H1.
  assert (H2 : forall N E,
             list_sum (map (fun k : string => list_sum (map (ends k) E)) N)
             = list_sum (map (fun e => list_sum (map (fun k => ends k e) N)) E)).
  { intros N E. induction N as [|k N IH]; simpl.
    - induction E as [|e E IHE]; [reflexivity|]. simpl. exact IHE.
    - rewrite IH, <- list_sum_add. reflexivity. }
  rewrite H2.
  rewrite (list_sum_ext _ (fun _ => 2%nat)).
  - rewrite list_sum_const. lia.
  - intros e Hin. destruct (He e Hin) as (Ha & Hb & Hab).
    unfold ends. rewrite list_sum_add.
    rewrite (list_sum_filter (String.eqb (fst (fst e)))),
            (list_sum_filter (String.eqb (snd (fst e)))).
    rewrite (count_nodup _ _ ND Ha), (count_nodup _ _ ND Hb). reflexivity.
Qed.

Lemma sorted_desc_ties {A} (gtb : A -> A -> bool) l :
  (forall x y, In x l -> In y l -> gtb y x = false) -> Py.sorted_desc gtb l = l.
Proof.
  induction l as [|x l IH]; intros H; [reflexivity|]. cbn [Py.sorted_desc].
  rewrite IH by (intros a b Ha Hb; apply H; right; assumption).
  destruct l as [|y l]; [reflexivity|]. cbn [Py.insert_desc].
  rewrite (H x y); [reflexivity|left; reflexivity|right; left; reflexivity].
Qed.

(** With equal degrees the ranking by centrality keeps the order in which
    the nodes were added. *)
Lemma top_three_complete g :
  complete g -> top_three g = firstn 3 (nx.nodes g).
Proof.
  intros Hg. unfold top_three. f_equal.
  rewrite sorted_desc_ties.
  - unfold nx.degree_centrality.
    destruct (Z.of_nat (length (nx.node g)) <=? 1); rewrite map_map; cbn [fst];
      apply map_id.
  - intros x y Hx Hy. apply Z.ltb_ge.
    unfold nx.degree_centrality in Hx, Hy.
    destruct (Z.of_nat (length (nx.node g)) <=? 1).
    + apply in_map_iff in Hx. destruct Hx as (a & <- & _).
      apply in_map_iff in Hy. destruct Hy as (b & <- & _). cbn [fst snd]. lia.
    + apply in_map_iff in Hx. destruct Hx as (a & <- & Ha).
      apply in_map_iff in Hy. destruct Hy as (b & <- & Hb). cbn [fst snd].
      rewrite (degree_complete g a Hg Ha), (degree_complete g b Hg Hb). lia.
Qed.

Lemma nodes_fold_add_shop l : forall g,
  nx.nodes (fold_left add_shop l g) = first_seen (nx.nodes g) (map shop_label l).
Proof.
  induction l as [|s l IH]; intros g; [reflexivity|]. cbn [fold_left map first_seen].
  rewrite IH. f_equal. unfold add_shop, nx.add_node, nx.nodes. cbn [nx.node].
  rewrite dict_keys_set.
  destruct (in_dec string_dec (shop_label s) (Dict.keys (nx.node g))) as [Hin|Hin].
  - rewrite (proj2 (dict_mem_in _ _) Hin). reflexivity.
  - destruct (Dict.mem (shop_label s) (nx.node g)) eqn:E; [|reflexivity].
    exfalso. apply Hin. apply dict_mem_in. exact E.
Qed.

(** The two loops of [createShopGraph] leave a complete graph on the
    labels of the shops near the city. *)
Lemma shop_graph_complete w cityLat cityLong :
  (forall s, In s (shops (self w)) -> has_coordinates s = true ->
             exists d, distance_to s cityLat cityLong = Ok d) ->
  (forall s o, In s (shops (self w)) -> In o (shops (self w)) ->
               included cityLat cityLong s = true -> included cityLat cityLong o = true ->
               exists d, distance_between s o = Ok d) ->
  exists g,
    res_bind (near_shops cityLat cityLong (shops (self w)) nx.empty) link_shops = Ok g
    /\ complete g
    /\ nx.nodes g = first_seen [] (map shop_label (near w cityLat cityLong))
    /\ (forall k, In k (nx.nodes g) -> nx.node_attr g k "type" = Ok (nx.AStr "shop")).
Proof.
  intros H1 H2. rewrite (near_shops_fold _ _ _ H1). cbn [res_bind].
  fold (near w cityLat cityLong).
  set (P := fun s => In s (shops (self w)) /\ included cityLat cityLong s = true).
  assert (HP : forall s, In s (near w cityLat cityLong) -> P s)
    by (intros s Hs; apply filter_In in Hs; exact Hs).
  destruct (fold_add_shop P _ HP nx.empty) as (N & Ee & Hk & Hnd & Heq).
  { intros k d []. }
  pose proof (nodes_fold_add_shop (near w cityLat cityLong) nx.empty) as Hfs.
  set (G0 := fold_left add_shop (near w cityLat cityLong) nx.empty) in *.
  specialize (Hnd (NoDup_nil _)).
  assert (Hdist : forall u v, In u (nx.nodes G0) -> In v (nx.nodes G0) ->
            exists s o d, node_shop G0 u = Ok s /\ node_shop G0 v = Ok o
                          /\ distance_between s o = Ok d /\ weight G0 u v = d).
  { intros u v Hu Hv.
    destruct (node_shop_of P G0 u Hnd N Hu) as (s & [Ps Is] & Eu & Hs).
    destruct (node_shop_of P G0 v Hnd N Hv) as (o & [Po Io] & Ev & Ho).
    destruct (H2 s o Ps Po Is Io) as (d & Hd).
    exists s, o, d. repeat split; auto. unfold weight. rewrite Hs, Ho, Hd. reflexivity. }
  assert (Wsym : forall u v, In u (nx.nodes G0) -> In v (nx.nodes G0) ->
                             weight G0 u v = weight G0 v u).
  { intros u v Hu Hv.
    destruct (Hdist u v Hu Hv) as (s & o & d & Hs & Ho & Hd & <-).
    destruct (Hdist v u Hv Hu) as (o' & s' & d' & Ho' & Hs' & Hd' & <-).
    rewrite Ho in Ho'. injection Ho' as <-. rewrite Hs in Hs'. injection Hs' as <-.
    destruct (calcDistance_floats _ _ _ _ Hd) as (sla & slo & F1 & F2).
    destruct (calcDistance_floats _ _ _ _ Hd') as (ola & olo & F3 & F4).
    pose proof (distance_between_sym s o sla slo ola olo F1 F2 F3 F4) as E.
    rewrite Hd, Hd' in E. injection E as ->. reflexivity. }
  destruct (link_shops_run G0 (weight G0) Wsym) with (g := G0)
    as (g & Elink & (En & Eok & Ecount) & Eone); [|reflexivity|exact Ee|].
  { intros u v Hu Hv _.
    destruct (Hdist u v Hu Hv) as (s & o & d & Hs & Ho & Hd & <-).
    exists s, o. auto. }
  assert (Hnodes : nx.nodes g = nx.nodes G0) by (unfold nx.nodes; rewrite En; reflexivity).
  exists g. split; [exact Elink|]. split; [|split; [rewrite Hnodes; exact Hfs|]].
  2:{ intros k Hkn. rewrite Hnodes in Hkn.
      unfold nx.node_attr. rewrite En.
      unfold nx.nodes, Dict.keys in Hkn. apply in_map_iff in Hkn.
      destruct Hkn as ([k' d] & Ek' & Hin). cbn [fst] in Ek'. subst k'.
      rewrite (dict_in_get k d (nx.node G0) Hnd Hin).
      destruct (N k d Hin) as (s' & _ & _ & ->). reflexivity. }
  split; [rewrite Hnodes; exact Hnd|]. split.
  - intros e He. destruct (Eok e He) as (Ha & Hb & Hab & _). rewrite Hnodes. auto.
  - intros u v Hu Hv Hne. rewrite Hnodes in Hu, Hv.
    pose proof (Eone u v Hu Hv Hne). pose proof (Ecount u v). lia.
Qed.

(** X11: in the graph [createShopGraph] returns every shop is joined to
    every other, so all degrees are equal and the ranking by degree
    centrality decides nothing: the three shops returned as most central
    are the first three labels of the shops near the city, in the order of
    the catalogue. The graph has [n (n - 1) / 2] edges for its [n] nodes. *)
Theorem createShopGraph_top_three :
  forall (w : World) (city : string) (cityLat cityLong : R),
    city_point w city = Ok (cityLat, cityLong) ->
    (forall s, In s (shops (self w)) -> has_coordinates s = true ->
               exists d, distance_to s cityLat cityLong = Ok d) ->
    (forall s o, In s (shops (self w)) -> In o (shops (self w)) ->
                 included cityLat cityLong s = true -> included cityLat cityLong o = true ->
                 exists d, distance_between s o = Ok d) ->
    near w cityLat cityLong <> [] ->
    exists w' graph,
      createShopGraph city w = (w', Ok (Some (graph, firstn 3 (nx.nodes graph))))
      /\ nx.nodes graph = first_seen [] (map shop_label (near w cityLat cityLong))
      /\ (forall k, In k (nx.nodes graph) ->
                    nx.degree graph k = Z.of_nat (length (nx.nodes graph)) - 1)
      /\ (2 * length (nx.edges graph)
          = length (nx.nodes graph) * (length (nx.nodes graph) - 1))%nat.
Proof.
  intros w city cityLat cityLong Hcity H1 H2 Hne.
  destruct (shop_graph_complete w cityLat cityLong H1 H2) as (g & Eg & Hg & Hn & _).
  assert (Hnn : nx.nodes g <> []).
  { rewrite Hn. destruct (near w cityLat cityLong) as [|s l]; [contradiction|].
    intros E.
    assert (Hin : In (shop_label s) (first_seen [] (map shop_label (s :: l)))).
    { apply first_seen_in. right. left. reflexivity. }
    rewrite E in Hin. exact Hin. }
  assert (Hm : forall (A : Type) (a b : A),
             match nx.nodes g with [] => a | _ :: _ => b end = b).
  { intros A a b. destruct (nx.nodes g); [contradiction|reflexivity]. }
  rewrite (createShopGraph_run _ _ _ _ Hcity), Eg. rewrite Hm.
  unfold shop_result. rewrite Hm, (top_three_complete g Hg).
  eexists. exists g. split; [reflexivity|]. split; [exact Hn|]. split.
  - intros k Hk. apply degree_complete; assumption.
  - apply edges_complete. exact Hg.
Qed.

Lemma createShopGraph_top_three_witness :
  exists w' graph,
    createShopGraph "Philadelphia"
      (city_world [chain_shop 1; far_shop; other_shop; nowhere_shop])
    = (w', Ok (Some (graph, firstn 3 (nx.nodes graph))))
    /\ nx.nodes graph = ["Knit Nook (Philadelphia)"; "Purl (Philadelphia)"]
    /\ (forall k, In k (nx.nodes graph) ->
                  nx.degree graph k = Z.of_nat (length (nx.nodes graph)) - 1)
    /\ (2 * length (nx.edges graph)
        = length (nx.nodes graph) * (length (nx.nodes graph) - 1))%nat.
Proof.
  assert (Hnear : near (city_world [chain_shop 1; far_shop; other_shop; nowhere_shop])
                    lat40 long75 = [chain_shop 1; other_shop]).
  { unfold near, city_world. cbn [self shops filter].
    rewrite (proj1 (proj2 (at_city (chain_shop 1) eq_refl eq_refl))).
    rewrite (proj2 far_shop_distance).
    rewrite (proj1 (proj2 (at_city other_shop eq_refl eq_refl))).
    rewrite (null_coordinate_excluded lat40 long75 nowhere_shop (or_introl eq_refl)).
    reflexivity. }
  destruct (createShopGraph_top_three
              (city_world [chain_shop 1; far_shop; other_shop; nowhere_shop])
              "Philadelphia" lat40 long75) as (w' & graph & E & Hn & Hd & He).
  - reflexivity.
  - intros s [<-|[<-|[<-|[<-|[]]]]] Hc.
    + exists 0%R. apply (at_city (chain_shop 1)); reflexivity.
    + eexists. apply far_shop_distance.
    + exists 0%R. apply (at_city other_shop); reflexivity.
    + discriminate Hc.
  - intros s o Hs Ho Is Io.
    assert (Hat : forall x, In x [chain_shop 1; far_shop; other_shop; nowhere_shop] ->
                    included lat40 long75 x = true ->
                    Shop.lat x = PStr "40.0" /\ Shop.long x = PStr "-75.0").
    { intros x [<-|[<-|[<-|[<-|[]]]]] Hx; try (split; reflexivity).
      - rewrite (proj2 far_shop_distance) in Hx. discriminate Hx.
      - rewrite (null_coordinate_excluded lat40 long75 nowhere_shop (or_introl eq_refl))
          in Hx. discriminate Hx. }
    destruct (Hat s Hs Is) as [S1 S2]. destruct (Hat o Ho Io) as [O1 O2].
    exists 0%R. apply (at_city s S1 S2); assumption.
  - rewrite Hnear. discriminate.
  - exists w', graph. rewrite Hnear in Hn. repeat split; assumption.
Defined.
End Centrality.

(** ** Caching the whole catalogue *)

Section CacheAll.

Import Graph.

Lemma is_empty_false s : s <> EmptyString -> PyStr.is_empty s = false.
Proof. destruct s; [contradiction|reflexivity]. Qed.

Lemma cacheData_run list filepath w :
  filepath <> EmptyString ->
  cacheData list filepath w = (written list filepath w, Ok tt).
Proof. intros H. unfold cacheData. rewrite (is_empty_false _ H). reflexivity. Qed.

Lemma loadCache_dicts w f l :
  f <> EmptyString ->
  Dict.get f (files w) = Some (PList (dicts l)) ->
  names_normalized l ->
  loadCache (PStr f) (kind l) w = (w, Ok (Some (as_constructed l))).
Proof.
  intros Hf Hg Hn. unfold loadCache. rewrite (truthy_str f Hf).
  unfold bind, lift, gets, ret. rewrite Hg, (load_objects_dicts l Hn). reflexivity.
Qed.

Lemma cacheAllData_run w s y p :
  s <> EmptyString -> y <> EmptyString -> p <> EmptyString ->
  Interact.cacheAllData s y p w
  = (written (Patterns (patterns (self w))) p
       (written (Yarns (yarns (self w))) y
          (written (Shops (shops (self w))) s w)), Ok tt).
Proof.
  intros Hs Hy Hp. unfold Interact.cacheAllData.
  unfold bind at 1, gets at 1. unfold bind at 1. rewrite (cacheData_run _ s w Hs).
  unfold bind at 1, gets at 1. unfold bind at 1.
  rewrite (cacheData_run _ y _ Hy).
  unfold bind at 1, gets at 1.
  rewrite (cacheData_run _ p _ Hp). reflexivity.
Qed.

Lemma cacheAllData_returns w w1 s y p :
  Interact.cacheAllData s y p w = (w1, Ok tt) ->
  s <> EmptyString /\ y <> EmptyString /\ p <> EmptyString
  /\ w1 = written (Patterns (patterns (self w))) p
            (written (Yarns (yarns (self w))) y
               (written (Shops (shops (self w))) s w)).
Proof.
  intros H.
  destruct s as [|cs rs]; [discriminate H|].
  destruct y as [|cy ry]; [discriminate H|].
  destruct p as [|cp rp]; [discriminate H|].
  rewrite cacheAllData_run in H by discriminate. injection H as <-.
  repeat split; discriminate.
Qed.

(** With three different names, each file holds what was written under
    its name. *)
Lemma cacheAllData_files w s y p :
  s <> y -> s <> p -> y <> p ->
  let w1 := written (Patterns (patterns (self w))) p
              (written (Yarns (yarns (self w))) y
                 (written (Shops (shops (self w))) s w)) in
  file_holds w1 s (Shops (shops (self w)))
  /\ file_holds w1 y (Yarns (yarns (self w)))
  /\ file_holds w1 p (Patterns (patterns (self w))).
Proof.
  intros Hsy Hsp Hyp. cbv zeta. unfold file_holds, written. cbn [files].
  split; [|split].
  - rewrite dict_get_set.
    destruct (String.eqb_spec p s) as [E|_]; [congruence|]. rewrite dict_get_set.
    destruct (String.eqb_spec y s) as [E|_]; [congruence|]. apply dict_get_set_same.
  - rewrite dict_get_set.
    destruct (String.eqb_spec p y) as [E|_]; [congruence|]. apply dict_get_set_same.
  - apply dict_get_set_same.
Qed.

(** X12: when [cacheAllData] has returned and each of the three files
    holds what was written under its name (the three names are names of
    three different files), the construction of a catalogue from the
    three files gives back the catalogue as it was first built: every
    record with the attributes its constructor takes, in the same order,
    and nothing of what hydration added. This is for a catalogue whose
    names are ASCII text and normalized, as the names are that
    [.strip().title()] makes from ASCII text. *)
Theorem cacheAllData_init_round_trip :
  forall (w w1 : World) (shopsfile yarnsfile patternsfile : string),
    Interact.cacheAllData shopsfile yarnsfile patternsfile w = (w1, Ok tt) ->
    file_holds w1 shopsfile (Shops (shops (self w))) ->
    file_holds w1 yarnsfile (Yarns (yarns (self w))) ->
    file_holds w1 patternsfile (Patterns (patterns (self w))) ->
    catalogue_ascii w ->
    catalogue_normalized w ->
    self w1 = self w
    /\ exists w2,
         init (PStr patternsfile) (PStr shopsfile) (PStr yarnsfile) w1 = (w2, Ok tt)
         /\ self w2 = as_built (self w)
         /\ files w2 = files w1.
Proof.
  intros w w1 s y p Hrun Fs Fy Fp _ (Np & Ns & Ny).
  destruct (cacheAllData_returns _ _ _ _ _ Hrun) as (Hs & Hy & Hp & ->).
  split; [reflexivity|].
  set (w1 := written _ p _) in *.
  unfold file_holds in Fs, Fy, Fp.
  eexists.
  unfold init, init_patterns, init_shops, init_yarns.
  rewrite (truthy_str p Hp), (truthy_str s Hs), (truthy_str y Hy).
  unfold bind at 1. unfold bind at 1.
  pose proof (loadCache_dicts w1 p (Patterns (patterns (self w))) Hp Fp Np) as Lp.
  cbn [kind] in Lp. rewrite Lp.
  unfold ret at 1. unfold bind at 1, modify at 1.
  unfold bind at 1. unfold bind at 1.
  match goal with |- context [loadCache (PStr s) "shop" ?w'] =>
    pose proof (loadCache_dicts w' s (Shops (shops (self w))) Hs Fs Ns) as Ls end.
  cbn [kind] in Ls. rewrite Ls.
  unfold ret at 1. unfold bind at 1, modify at 1.
  unfold bind at 1. unfold bind at 1.
  match goal with |- context [loadCache (PStr y) "yarn" ?w'] =>
    pose proof (loadCache_dicts w' y (Yarns (yarns (self w))) Hy Fy Ny) as Ly end.
  cbn [kind] in Ly. rewrite Ly.
  unfold ret at 1. unfold modify.
  split; [reflexivity|]. split; reflexivity.
Qed.

Lemma cacheAllData_init_round_trip_witness :
  let w1 := fst (Interact.cacheAllData "shops.json" "yarns.json" "patterns.json" shop_world) in
  self w1 = self shop_world
  /\ exists w2,
       init (PStr "patterns.json") (PStr "shops.json") (PStr "yarns.json") w1 = (w2, Ok tt)
       /\ self w2 = as_built (self shop_world)
       /\ files w2 = files w1.
Proof.
  cbv zeta.
  apply (cacheAllData_init_round_trip shop_world _ "shops.json" "yarns.json" "patterns.json").
  - reflexivity.
  - apply (cacheAllData_files shop_world "shops.json" "yarns.json" "patterns.json");
      discriminate.
  - apply (cacheAllData_files shop_world "shops.json" "yarns.json" "patterns.json");
      discriminate.
  - apply (cacheAllData_files shop_world "shops.json" "yarns.json" "patterns.json");
      discriminate.
  - repeat split; repeat constructor.
  - repeat split; repeat constructor.
Defined.

(** X13: [cacheAllData] stops at the first empty file name with
    [FileNotFoundError]; the files before it are written and the later ones
    are not. With an empty name for the shops, as in [main], nothing is
    written. *)
Theorem cacheAllData_empty_name :
  forall (w : World) (shopsfile yarnsfile patternsfile : string),
    Interact.cacheAllData EmptyString yarnsfile patternsfile w = (w, Raise FileNotFoundError)
    /\ (shopsfile <> EmptyString ->
        Interact.cacheAllData shopsfile EmptyString patternsfile w
        = (written (Shops (shops (self w))) shopsfile w, Raise FileNotFoundError))
    /\ (shopsfile <> EmptyString -> yarnsfile <> EmptyString ->
        Interact.cacheAllData shopsfile yarnsfile EmptyString w
        = (written (Yarns (yarns (self w))) yarnsfile
             (written (Shops (shops (self w))) shopsfile w), Raise FileNotFoundError)).
Proof.
  intros w s y p. split; [reflexivity|]. split.
  - intros Hs. unfold Interact.cacheAllData.
    unfold bind at 1, gets at 1. unfold bind at 1. rewrite (cacheData_run _ s w Hs).
    reflexivity.
  - intros Hs Hy. unfold Interact.cacheAllData.
    unfold bind at 1, gets at 1. unfold bind at 1. rewrite (cacheData_run _ s w Hs).
    unfold bind at 1, gets at 1. unfold bind at 1.
    rewrite (cacheData_run _ y _ Hy). reflexivity.
Qed.

Lemma comprehension_raises {A} (f : pyval -> res A) (e0 : exn) l :
  (forall x e, f x = Raise e -> e = e0) ->
  (forall e, comprehension f l = Raise e -> e = e0)
  /\ ((exists x e, In x l /\ f x = Raise e) -> comprehension f l = Raise e0).
Proof.
  intros Hf. induction l as [|x l [IH1 IH2]]; cbn [comprehension].
  - split; [intros e E; discriminate E|intros (x & e & [] & _)].
  - destruct (f x) as [a|e] eqn:Ex; cbn [res_bind].
    + destruct (comprehension f l) as [r|e']; cbn [res_bind].
      * split; [intros e E; discriminate E|].
        intros (z & e & [<-|Hz] & Ez); [congruence|].
        assert (H : Raise e0 = @Ok (list A) r) by (symmetry; apply IH2; eauto).
        discriminate H.
      * split; [intros e E; injection E as <-; apply IH1; reflexivity|].
        intros _. rewrite (IH1 e' eq_refl). reflexivity.
    + rewrite (Hf x e Ex). split; [intros e1 E; injection E as <-; reflexivity|].
      intros _. reflexivity.
Qed.

Lemma get_title_raises v key e : get_title v key = Raise e -> e = AttributeError.
Proof.
  unfold get_title. destruct v; cbn; try (intros E; injection E as <-; reflexivity).
  destruct (Dict.get key d) as [[]|]; cbn; intros E; try discriminate E;
    injection E as <-; reflexivity.
Qed.

Lemma get_raises v key e : Py.get v key = Raise e -> e = AttributeError.
Proof. destruct v; cbn; intros E; try discriminate E; injection E as <-; reflexivity. Qed.

Lemma get_title_unnamed object : unnamed object -> get_title object "name" = Raise AttributeError.
Proof.
  unfold unnamed, get_title. destruct object; try reflexivity. cbn [Py.get res_bind].
  destruct (Dict.get "name" d) as [[]|]; try reflexivity. contradiction.
Qed.

Ltac load_raises :=
  repeat match goal with
    | |- res_bind (Py.get ?v ?k) _ = Raise _ -> _ =>
        let E := fresh in
        destruct (Py.get v k) eqn:E; cbn [res_bind];
          [|intros H'; injection H' as <-; exact (get_raises _ _ _ E)]
    | |- res_bind (get_title ?v ?k) _ = Raise _ -> _ =>
        let E := fresh in
        destruct (get_title v k) eqn:E; cbn [res_bind];
          [|intros H'; injection H' as <-; exact (get_title_raises _ _ _ E)]
    | |- Ok _ = Raise _ -> _ => intros H'; discriminate H'
    end.

Lemma load_pattern_raises x e : load_pattern x = Raise e -> e = AttributeError.
Proof. unfold load_pattern. load_raises. Qed.

Lemma load_shop_raises x e : load_shop x = Raise e -> e = AttributeError.
Proof. unfold load_shop. load_raises. Qed.

Lemma load_yarn_raises x e : load_yarn x = Raise e -> e = AttributeError.
Proof. unfold load_yarn. load_raises. Qed.

Lemma load_unnamed x :
  unnamed x ->
  load_pattern x = Raise AttributeError /\ load_shop x = Raise AttributeError
  /\ load_yarn x = Raise AttributeError.
Proof.
  intros H. pose proof (get_title_unnamed x H) as E.
  unfold load_pattern, load_shop, load_yarn. rewrite E.
  destruct x; try (repeat split; reflexivity).
Qed.

(** X14: how [loadCache] fails. A file that does not exist gives
    [FileNotFoundError]; a type other than the three known gives
    [UnboundLocalError] once the file is read; and from a list of records
    the only failure is [AttributeError], which one record without a text
    [name] is enough to cause, so that no object is returned at all. In
    every case the world is left as it was. *)
Theorem loadCache_failures :
  forall (w : World) (f type : string),
    f <> EmptyString ->
    fst (loadCache (PStr f) type w) = w
    /\ (Dict.get f (files w) = None ->
        snd (loadCache (PStr f) type w) = Raise FileNotFoundError)
    /\ (forall data, Dict.get f (files w) = Some data ->
          type <> "pattern" -> type <> "shop" -> type <> "yarn" ->
          snd (loadCache (PStr f) type w) = Raise UnboundLocalError)
    /\ (forall records, Dict.get f (files w) = Some (PList records) ->
          type = "pattern" \/ type = "shop" \/ type = "yarn" ->
          (forall e, snd (loadCache (PStr f) type w) = Raise e -> e = AttributeError)
          /\ ((exists x, In x records /\ unnamed x) ->
              snd (loadCache (PStr f) type w) = Raise AttributeError)).
Proof.
  intros w f type Hf. unfold loadCache. rewrite (truthy_str f Hf).
  unfold bind, lift, gets, ret.
  split; [|split; [|split]].
  - destruct (Dict.get f (files w)); [|reflexivity].
    destruct (load_objects p type); reflexivity.
  - intros ->. reflexivity.
  - intros data -> H1 H2 H3. unfold load_objects.
    destruct (String.eqb_spec type "pattern"); [contradiction|].
    destruct (String.eqb_spec type "shop"); [contradiction|].
    destruct (String.eqb_spec type "yarn"); [contradiction|]. reflexivity.
  - intros records -> Ht. unfold load_objects. cbn [Py.iter res_bind].
    destruct (comprehension_raises load_pattern AttributeError records load_pattern_raises)
      as [P1 P2].
    destruct (comprehension_raises load_shop AttributeError records load_shop_raises)
      as [S1 S2].
    destruct (comprehension_raises load_yarn AttributeError records load_yarn_raises)
      as [Y1 Y2].
    destruct Ht as [-> | [-> | ->]]; cbn [String.eqb Ascii.eqb Bool.eqb]; cbv iota; split.
    + destruct (comprehension load_pattern records) as [r|e0]; cbn [res_bind snd];
        [intros e E; discriminate E|intros e E; injection E as <-; apply P1; reflexivity].
    + intros (x & Hx & Hu). rewrite P2; [reflexivity|].
      exists x, AttributeError. split; [exact Hx|apply load_unnamed; exact Hu].
    + destruct (comprehension load_shop records) as [r|e0]; cbn [res_bind snd];
        [intros e E; discriminate E|intros e E; injection E as <-; apply S1; reflexivity].
    + intros (x & Hx & Hu). rewrite S2; [reflexivity|].
      exists x, AttributeError. split; [exact Hx|apply load_unnamed; exact Hu].
    + destruct (comprehension load_yarn records) as [r|e0]; cbn [res_bind snd];
        [intros e E; discriminate E|intros e E; injection E as <-; apply Y1; reflexivity].
    + intros (x & Hx & Hu). rewrite Y2; [reflexivity|].
      exists x, AttributeError. split; [exact Hx|apply load_unnamed; exact Hu].
Qed.

Lemma loadCache_failures_witness :
  snd (loadCache (PStr "patterns.json") "pattern" shop_world) = Raise FileNotFoundError.
Proof.
  apply (loadCache_failures shop_world "patterns.json" "pattern"); [discriminate|reflexivity].
Defined.
End CacheAll.

(** ** Failures of the shop network *)

Section ShopGraphFailures.

Import Graph.

Lemma createShopGraph_unlocated w city e :
  city_point w city = Raise e -> createShopGraph city w = (w, Raise e).
Proof.
  unfold city_point, createShopGraph.
  cbv beta iota zeta delta [bind lift gets get_json].
  destruct (web w _) as [response|e0]; cbn [res_bind];
    [|intros E; injection E as <-; reflexivity].
  destruct (Py.item0 response) as [data|e0]; cbn [res_bind];
    [|intros E; injection E as <-; reflexivity].
  destruct (res_bind (Py.get data "lat") PyFloat.float) as [la|e0]; cbn [res_bind];
    [|intros E; injection E as <-; reflexivity].
  destruct (res_bind (Py.get data "lon") PyFloat.float) as [lo|e0]; cbn [res_bind];
    [|intros E; injection E as <-; reflexivity].
  intros E. discriminate E.
Qed.

Lemma near_shops_raises cityLat cityLong bad post e :
  has_coordinates bad = true ->
  distance_to bad cityLat cityLong = Raise e ->
  forall pre g,
    (forall s, In s pre -> has_coordinates s = true ->
               exists d, distance_to s cityLat cityLong = Ok d) ->
    near_shops cityLat cityLong (pre ++ bad :: post) g = Raise e.
Proof.
  intros Hc Hd. induction pre as [|s pre IH]; intros g Hpre; cbn [app near_shops].
  - unfold has_coordinates in Hc. rewrite Hc. unfold distance_to in Hd. rewrite Hd.
    reflexivity.
  - assert (Hpre' : forall s0, In s0 pre -> has_coordinates s0 = true ->
                      exists d, distance_to s0 cityLat cityLong = Ok d)
      by (intros s0 H0; apply Hpre; right; exact H0).
    destruct (Py.truthy (Shop.lat s) && Py.truthy (Shop.long s)) eqn:Ec.
    + destruct (Hpre s (or_introl eq_refl) Ec) as [d Ed].
      unfold distance_to in Ed. rewrite Ed. cbn [res_bind].
      destruct (Py.Rle_bool d 50); apply IH; exact Hpre'.
    + apply IH. exact Hpre'.
Qed.

(** X15: when the city cannot be located (the geocoder gives no result, or
    one without usable coordinates), [createShopGraph] raises before it
    prints anything; and one shop whose coordinates are present but cannot
    be read as numbers makes the whole builder raise, whatever the other
    shops are. The catalogue is untouched in both cases. *)
Theorem createShopGraph_failures :
  forall (w : World) (city : string),
    (forall e, city_point w city = Raise e -> createShopGraph city w = (w, Raise e))
    /\ (web w ("https://geocode.maps.co/search?city="
               ++ PyStr.lower_str (PyStr.strip city) ++ "&api_key=" ++ GEOCODE_KEY)
        = Ok (PList []) ->
        createShopGraph city w = (w, Raise IndexError))
    /\ (forall cityLat cityLong pre bad post e,
          city_point w city = Ok (cityLat, cityLong) ->
          shops (self w) = (pre ++ bad :: post)%list ->
          (forall s, In s pre -> has_coordinates s = true ->
                     exists d, distance_to s cityLat cityLong = Ok d) ->
          has_coordinates bad = true ->
          distance_to bad cityLat cityLong = Raise e ->
          createShopGraph city w = (printed "Creating graph..." w, Raise e)).
Proof.
  intros w city. split; [|split].
  - intros e. apply createShopGraph_unlocated.
  - intros E. apply createShopGraph_unlocated. unfold city_point. rewrite E. reflexivity.
  - intros cityLat cityLong pre bad post e Hcity Hs Hpre Hc Hd.
    rewrite (createShopGraph_run _ _ _ _ Hcity), Hs.
    rewrite (near_shops_raises cityLat cityLong bad post e Hc Hd pre nx.empty Hpre).
    reflexivity.
Qed.

End ShopGraphFailures.

(** ** Listings *)

Section Listings.

Import Graph.

Lemma fetch_pages_run w url key (page : nat -> list pyval) count :
  forall first,
    (forall i, (first <= i < first + count)%nat -> page_holds (web w) url key i (page i)) ->
    fetch_pages url key first count w = (w, Ok (flat_map page (seq first count))).
Proof.
  induction count as [|n IH]; intros first H; cbn [fetch_pages seq flat_map];
    [reflexivity|].
  destruct (H first ltac:(lia)) as (body & Eb & Ei).
  unfold bind at 1, get_json, bind at 1, gets, lift. rewrite Eb.
  unfold bind at 1. rewrite Ei. cbn [res_bind Py.iter].
  unfold bind at 1. rewrite (IH (S first)) by (intros i Hi; apply H; lia).
  reflexivity.
Qed.

(** X16: the listing functions ask for the pages 1 to [page_count] in
    turn and return the items of all of them in that order; with a page
    count of zero or less they return the empty list. *)
Theorem fetchData_pages :
  forall (w : World) (url key : string) (n : Z) (page : nat -> list pyval),
    page_count (web w) url = Ok n ->
    (forall i, (1 <= i <= Z.to_nat n)%nat -> page_holds (web w) url key i (page i)) ->
    fetchData url key w = (w, Ok (flat_map page (seq 1 (Z.to_nat n))))
    /\ (n <= 0 -> fetchData url key w = (w, Ok [])).
Proof.
  intros w url key n page Hn Hp.
  assert (E : fetchData url key w = (w, Ok (flat_map page (seq 1 (Z.to_nat n))))).
  { unfold fetchData, page_count in *.
    unfold bind at 1, get_json, bind at 1, gets, lift.
    destruct (web w url) as [data|e]; [|discriminate Hn]. cbn [res_bind] in Hn.
    unfold bind at 1. rewrite Hn.
    apply fetch_pages_run. intros i Hi. apply Hp. lia. }
  split; [exact E|].
  intros Hle. rewrite E. replace (Z.to_nat n) with O by lia. reflexivity.
Qed.

Lemma fetchData_pages_witness :
  fetchData "u" "shops"
    (mkWorld (mk [] [] [])
       (fun url =>
          if String.eqb url "u" then
            Ok (PDict [("paginator", PDict [("page_count", PInt 2)])])
          else if String.eqb url "u?page=1" then Ok (PDict [("shops", PList [PInt 1; PInt 2])])
          else if String.eqb url "u?page=2" then Ok (PDict [("shops", PList [PInt 3])])
          else Raise RequestError) [] [])
  = (mkWorld (mk [] [] [])
       (fun url =>
          if String.eqb url "u" then
            Ok (PDict [("paginator", PDict [("page_count", PInt 2)])])
          else if String.eqb url "u?page=1" then Ok (PDict [("shops", PList [PInt 1; PInt 2])])
          else if String.eqb url "u?page=2" then Ok (PDict [("shops", PList [PInt 3])])
          else Raise RequestError) [] [],
     Ok [PInt 1; PInt 2; PInt 3]).
Proof.
  apply (fetchData_pages _ "u" "shops" 2
           (fun i => match i with
                     | 1%nat => [PInt 1; PInt 2]
                     | 2%nat => [PInt 3]
                     | _ => []
                     end)).
  - reflexivity.
  - intros i Hi. assert (Hc : i = 1%nat \/ i = 2%nat) by (cbn in Hi; lia).
    destruct Hc as [-> | ->]; eexists; split; reflexivity.
Defined.

End Listings.

(** ** Names in the catalogue *)

Section Names.

Import PyStr Graph.

Lemma stable_cacheAllData N s y p :
  stable (named N) (Interact.cacheAllData s y p).
Proof.
  unfold Interact.cacheAllData.
  repeat first
    [ apply stable_gets | apply stable_cacheData
    | apply stable_bind; [|intros ?] ].
Qed.

Lemma stable_keeps_names {A} (m : M World A) :
  (forall N, stable (named N) m) -> keeps_names m.
Proof. intros H w. exact (H (names_of (self w)) w eq_refl). Qed.

(** X17: the names of the catalogue are fixed by its construction.
    However the catalogue is built, from the service or from cache files,
    every pattern name, designer, shop name, yarn name and brand is a text
    that [.strip().title()] returned; and no method of the catalogue
    changes any of these names, or their order, whether it returns or
    raises. *)
Theorem catalogue_names_fixed_by_construction :
  (forall patternsCache shopsCache yarnsCache,
      hoare (fun _ => True) (init patternsCache shopsCache yarnsCache)
            (fun _ => catalogue_cleaned))
  /\ (forall id name, keeps_names (getPattern id name))
  /\ (forall id name, keeps_names (getShop id name))
  /\ (forall id name, keeps_names (getYarn id name))
  /\ (forall designer, keeps_names (createYarnGraph designer))
  /\ (forall city, keeps_names (createShopGraph city))
  /\ (forall list filepath, keeps_names (cacheData list filepath))
  /\ (forall fileName type, keeps_names (loadCache fileName type))
  /\ (forall s y p, keeps_names (Interact.cacheAllData s y p)).
Proof.
  split; [exact init_catalogue_cleaned|].
  split; [intros; apply stable_keeps_names; intros; apply stable_getPattern|].
  split; [intros; apply stable_keeps_names; intros; apply stable_getShop|].
  split; [intros; apply stable_keeps_names; intros; apply stable_getYarn|].
  split; [intros; apply stable_keeps_names; intros; apply stable_createYarnGraph|].
  split; [intros; apply stable_keeps_names; intros; apply stable_createShopGraph|].
  split; [intros; apply stable_keeps_names; intros; apply stable_cacheData|].
  split; [intros; apply stable_keeps_names; intros; apply stable_loadCache|].
  intros; apply stable_keeps_names; intros; apply stable_cacheAllData.
Qed.

Lemma upper_lower c : is_upper c = true -> upper (lower c) = c.
Proof.
  destruct c as [[] [] [] [] [] [] [] []]; intros H; try discriminate H; reflexivity.
Qed.

Lemma lower_lower c : is_lower c = true -> lower c = c.
Proof.
  intros H. unfold lower. destruct (lower_facts c H) as (E & _). rewrite E. reflexivity.
Qed.

Lemma lower_uncased c :
  is_lower c = false -> is_upper c = false ->
  lower c = c.
Proof. intros _ H. unfold lower. rewrite H. reflexivity. Qed.

Lemma title_from_lower b s : title_from b (lower_str s) = title_from b s.
Proof.
  revert b. induction s as [|c r IH]; intros b; [reflexivity|].
  cbn [lower_str title_from].
  destruct (is_lower c) eqn:El.
  - rewrite (lower_lower c El), El, IH. reflexivity.
  - destruct (is_upper c) eqn:Eu.
    + destruct (upper_facts c Eu) as (_ & _ & E1 & _). rewrite E1, IH.
      rewrite (upper_lower c Eu). reflexivity.
    + rewrite (lower_uncased c El Eu), El, Eu, IH. reflexivity.
Qed.

Lemma normalized_title s : normalized s -> title s = s.
Proof.
  unfold normalized. intros H. rewrite <- H at 1.
  unfold title. rewrite title_from_idem. exact H.
Qed.

Lemma first_index_exists {A} (test : A -> bool) l :
  (exists x, In x l /\ test x = true) -> exists i, first_index test l = Some i.
Proof.
  induction l as [|y l IH]; intros (x & Hx & Ht); [contradiction|].
  cbn [first_index]. destruct (test y) eqn:E; [eexists; reflexivity|].
  destruct Hx as [->|Hx]; [congruence|].
  destruct (IH (ex_intro _ x (conj Hx Ht))) as [i Ei]. rewrite Ei.
  eexists. reflexivity.
Qed.

Lemma lower_str_empty s : lower_str s = EmptyString -> s = EmptyString.
Proof. destruct s; [reflexivity|discriminate]. Qed.

(** X18: a look-up by name does not depend on the case in which the name
    is typed. When a pattern of the catalogue has a normalized name in
    ASCII, asking for a pattern by that name in any mix of upper and lower
    case stops at the first pattern of that name, hydrates it and returns
    its text. *)
Theorem getPattern_name_in_any_case :
  forall (w : World) (p : Pattern.t) (typed : string),
    In p (patterns (self w)) ->
    is_ascii (Pattern.name p) = true ->
    normalized (Pattern.name p) ->
    Pattern.name p <> EmptyString ->
    is_ascii typed = true ->
    lower_str typed = lower_str (Pattern.name p) ->
    exists i q,
      nth_error (patterns (self w)) i = Some q
      /\ Pattern.name q = Pattern.name p
      /\ (hydrates (web w) q ->
          getPattern PNone (PStr typed) w
          = (set_patterns (replace i (hydrated (web w) q) (patterns (self w)))
               (printed ("Found " ++ Pattern.name p ++ "!") w),
             Ok (PStr (pattern_text false (hydrated (web w) q) (yarns (self w)))))).
Proof.
  intros w p typed Hin _ Hn Hne _ Hlow.
  assert (Et : title typed = Pattern.name p).
  { unfold title. rewrite <- (title_from_lower false typed), Hlow, title_from_lower.
    apply normalized_title. exact Hn. }
  assert (Hty : typed <> EmptyString).
  { intros ->. cbn [lower_str] in Hlow. symmetry in Hlow.
    apply lower_str_empty in Hlow. contradiction. }
  assert (Ei : exists i, pattern_index (patterns (self w)) PNone (PStr typed) = Some i).
  { unfold pattern_index. cbn [Py.truthy].
    destruct typed as [|c r]; [contradiction|].
    apply first_index_exists. exists p. split; [exact Hin|].
    rewrite Et. apply String.eqb_refl. }
  destruct Ei as [i Ei]. pose proof Ei as Ei'.
  unfold pattern_index in Ei'. cbn [Py.truthy] in Ei'.
  destruct typed as [|c r] eqn:Ety; [contradiction|].
  destruct (first_index_nth _ _ _ Ei') as (q & Hq & Htest).
  rewrite Et in Htest. apply String.eqb_eq in Htest.
  exists i, q. split; [exact Hq|]. split; [exact Htest|].
  intros Hh. rewrite <- Htest.
  apply (getPattern_run w PNone _ i q Ei Hq). exact Hh.
Qed.

Lemma getPattern_name_in_any_case_witness :
  exists i q,
    nth_error (patterns (self example_world)) i = Some q
    /\ Pattern.name q = "Scarf"
    /\ (hydrates (web example_world) q ->
        getPattern PNone (PStr "sCARF") example_world
        = (set_patterns (replace i (hydrated (web example_world) q)
                           (patterns (self example_world)))
             (printed "Found Scarf!" example_world),
           Ok (PStr (pattern_text false (hydrated (web example_world) q)
                       (yarns (self example_world)))))).
Proof.
  apply (getPattern_name_in_any_case example_world P2 "sCARF").
  - right. right. left. reflexivity.
  - reflexivity.
  - reflexivity.
  - discriminate.
  - reflexivity.
  - reflexivity.
Defined.

End Names.

(** ** Drawing the networks *)

Section Drawing.

Import Graph.

Lemma node_colors_ok G :
  (forall n, In n (nx.nodes G) ->
     exists t c, nx.node_attr G n "type" = Ok (nx.AStr t) /\ Dict.get t color_map = Some c) ->
  exists colors, node_colors G = Ok colors.
Proof.
  intros H. unfold node_colors.
  assert (Hl : forall l acc,
             (forall n, In n l -> In n (nx.nodes G)) ->
             exists colors,
               for_each (fun colors node =>
                           res_bind (node_color G node) (fun c => Ok (colors ++ [c])%list))
                        l acc = Ok colors).
  { induction l as [|n l IH]; intros acc Hin; cbn [for_each].
    - exists acc. reflexivity.
    - destruct (H n (Hin n (or_introl eq_refl))) as (t & c & Et & Ec).
      unfold node_color at 1. rewrite Et. cbn [res_bind]. rewrite Ec. cbn [res_bind].
      apply IH. intros m Hm. apply Hin. right. exact Hm. }
  apply Hl. intros n Hn. exact Hn.
Qed.

Lemma visualizeGraph_run G title w :
  (exists colors, node_colors G = Ok colors) ->
  visualizeGraph G title w = (printed "Visualizing graph..." w, Ok tt).
Proof.
  intros [colors E]. unfold visualizeGraph, bind, print, modify, lift, ret.
  rewrite E. reflexivity.
Qed.

Lemma typed_colors G :
  (forall n, In n (nx.nodes G) -> typed_node G n) ->
  exists colors, node_colors G = Ok colors.
Proof.
  intros H. apply node_colors_ok. intros n Hn.
  destruct (H n Hn) as [E|E]; rewrite E; eexists; eexists; split; reflexivity.
Qed.

(** X19: [visualizeShopNetwork] for a city without a shop in range. The
    builder prints its two lines and returns nothing, the subscript on its
    result raises [TypeError], and the method neither draws nor returns to
    the home page. *)
Theorem visualizeShopNetwork_no_shop :
  forall (home : M World unit) (w : World) (title : pyval) (city : string)
         (cityLat cityLong : R),
    city_point w city = Ok (cityLat, cityLong) ->
    (forall s, In s (shops (self w)) -> has_coordinates s = true ->
               exists d, distance_to s cityLat cityLong = Ok d) ->
    near w cityLat cityLong = [] ->
    Interact.visualizeShopNetwork home title city w
    = (printed "There are no yarn shops within a 50 mile radius of this city."
         (printed "Creating graph..." w), Raise TypeError).
Proof.
  intros home w title city cityLat cityLong Hcity H1 Hnear.
  unfold Interact.visualizeShopNetwork. unfold bind at 1.
  rewrite (createShopGraph_run _ _ _ _ Hcity), (near_shops_fold _ _ _ H1).
  unfold near in Hnear. rewrite Hnear. reflexivity.
Qed.

Lemma visualizeShopNetwork_no_shop_witness :
  Interact.visualizeShopNetwork (ret tt) PNone "Philadelphia" (city_world [far_shop])
  = (printed "There are no yarn shops within a 50 mile radius of this city."
       (printed "Creating graph..." (city_world [far_shop])), Raise TypeError).
Proof.
  apply (visualizeShopNetwork_no_shop (ret tt) (city_world [far_shop]) PNone "Philadelphia"
           lat40 long75).
  - reflexivity.
  - intros s [<-|[]] _. eexists. apply far_shop_distance.
  - unfold near, city_world. cbn [self shops filter].
    rewrite (proj2 far_shop_distance). reflexivity.
Defined.

(** X20: [visualizeShopNetwork] for a city with shops in range. It prints
    the numbers of nodes and of edges, of which there are [n (n - 1) / 2]
    for [n] nodes, looks up a colour for every node without failing, prints
    the first three labels as the most central shops and goes to the home
    page. *)
Theorem visualizeShopNetwork_draws :
  forall (home : M World unit) (w : World) (title : pyval) (city : string)
         (cityLat cityLong : R),
    city_point w city = Ok (cityLat, cityLong) ->
    (forall s, In s (shops (self w)) -> has_coordinates s = true ->
               exists d, distance_to s cityLat cityLong = Ok d) ->
    (forall s o, In s (shops (self w)) -> In o (shops (self w)) ->
                 included cityLat cityLong s = true -> included cityLat cityLong o = true ->
                 exists d, distance_between s o = Ok d) ->
    near w cityLat cityLong <> [] ->
    exists graph,
      nx.nodes graph = first_seen [] (map shop_label (near w cityLat cityLong))
      /\ (2 * length (nx.edges graph)
          = length (nx.nodes graph) * (length (nx.nodes graph) - 1))%nat
      /\ Interact.visualizeShopNetwork home title city w
         = home
             (printed ("Top 3 Most Central Yarn Shops near " ++ city ++ ": "
                       ++ str_list (firstn 3 (nx.nodes graph)))
                (printed "Visualizing graph..."
                   (printed (Interact.created_line graph)
                      (printed "Creating graph..." w)))).
Proof.
  intros home w title city cityLat cityLong Hcity H1 H2 Hne.
  destruct (shop_graph_complete w cityLat cityLong H1 H2) as (g & Eg & Hg & Hn & Hty).
  assert (Hnn : nx.nodes g <> []).
  { rewrite Hn. destruct (near w cityLat cityLong) as [|s l]; [contradiction|].
    intros E.
    assert (Hin : In (shop_label s) (first_seen [] (map shop_label (s :: l)))).
    { apply first_seen_in. right. left. reflexivity. }
    rewrite E in Hin. exact Hin. }
  assert (Hm : forall (A : Type) (a b : A),
             match nx.nodes g with [] => a | _ :: _ => b end = b).
  { intros A a b. destruct (nx.nodes g); [contradiction|reflexivity]. }
  exists g. split; [exact Hn|]. split; [apply edges_complete; exact Hg|].
  unfold Interact.visualizeShopNetwork. unfold bind at 1.
  rewrite (createShopGraph_run _ _ _ _ Hcity), Eg. rewrite Hm.
  unfold shop_result. rewrite Hm, (top_three_complete g Hg).
  unfold bind at 1, lift at 1. cbn [Interact.shopGraph_0].
  unfold bind at 1, print at 1, modify.
  unfold bind at 1. rewrite visualizeGraph_run.
  - unfold bind at 1, lift at 1. cbn [Interact.shopGraph_1].
    unfold bind at 1, print at 1, modify. reflexivity.
  - apply node_colors_ok. intros n Hin. rewrite (Hty n Hin).
    eexists. eexists. split; reflexivity.
Qed.

Lemma visualizeShopNetwork_draws_witness :
  exists graph,
    nx.nodes graph = first_seen [] (map shop_label (near (city_world [S1]) lat40 long75))
    /\ (2 * length (nx.edges graph)
        = length (nx.nodes graph) * (length (nx.nodes graph) - 1))%nat
    /\ Interact.visualizeShopNetwork (ret tt) PNone "Philadelphia" (city_world [S1])
       = ret tt
           (printed ("Top 3 Most Central Yarn Shops near " ++ "Philadelphia" ++ ": "
                     ++ str_list (firstn 3 (nx.nodes graph)))
              (printed "Visualizing graph..."
                 (printed (Interact.created_line graph)
                    (printed "Creating graph..." (city_world [S1]))))).
Proof.
  apply (visualizeShopNetwork_draws (ret tt) (city_world [S1]) PNone "Philadelphia"
           lat40 long75).
  - reflexivity.
  - intros s [<-|[]] _. exists 0%R. apply (at_city S1); reflexivity.
  - intros s o [<-|[]] [<-|[]] _ _. exists 0%R. apply (at_city S1); reflexivity.
  - unfold near, city_world. cbn [self shops filter].
    rewrite (proj1 (proj2 (at_city S1 eq_refl eq_refl))). discriminate.
Defined.

Lemma designer_pattern_node w designer p :
  In p (patterns (self w)) -> by_designer designer p = true ->
  In (Pattern.name (hydrated (web w) p))
     (network_names (yarns (self w)) (designer_patterns w designer)).
Proof.
  intros Hin Hd. apply in_network_names. exists (hydrated (web w) p). split.
  - unfold designer_patterns. apply in_map. apply filter_In. auto.
  - left. reflexivity.
Qed.

(** X21: [visualizeYarnNetwork] for a designer with at least one pattern,
    all of which hydrate. After the builder it prints the numbers of nodes
    and of edges, looks up a colour for every node without failing, prints
    the ranking and goes to the home page; the graph is never empty, so the
    line about a designer without data is not printed. *)
Theorem visualizeYarnNetwork_draws :
  forall (home : M World unit) (w : World) (designer : string) (title : pyval),
    (exists p, In p (patterns (self w)) /\ by_designer designer p = true) ->
    (forall p, In p (patterns (self w)) -> by_designer designer p = true ->
               hydrates (web w) p) ->
    exists w1 graph top,
      createYarnGraph designer w = (w1, Ok (GraphAndTop graph top))
      /\ nx.nodes graph <> []
      /\ Interact.visualizeYarnNetwork home designer title w
         = home
             (printed ("Top 5 Recommended Yarns by " ++ designer ++ ": "
                       ++ Interact.top_text top)
                (printed "Visualizing graph..."
                   (printed (Interact.created_line graph) w1))).
Proof.
  intros home w designer title Hex Hh.
  destruct (createYarnGraph_full w designer Hex Hh) as (w1 & E & _).
  destruct (network_patterns (yarns (self w)) (designer_patterns w designer))
    as (Hn & Hty & _).
  set (g := fold_left (add_pattern (yarns (self w))) (designer_patterns w designer)
              nx.empty) in *.
  assert (Hnn : nx.nodes g <> []).
  { destruct Hex as (p & Hp & Hd).
    pose proof (proj2 (Hn _) (designer_pattern_node w designer p Hp Hd)) as Hin.
    intros E0. rewrite E0 in Hin. exact Hin. }
  exists w1, g. eexists. split; [exact E|]. split; [exact Hnn|].
  unfold Interact.visualizeYarnNetwork. unfold bind at 1. rewrite E.
  unfold bind at 1, lift at 1. cbn [Interact.yarnGraph_0].
  destruct (length (nx.nodes g) =? 0)%nat eqn:El.
  { apply Nat.eqb_eq in El. destruct (nx.nodes g); [contradiction|discriminate El]. }
  unfold bind at 1, print at 1, modify.
  unfold bind at 1. rewrite visualizeGraph_run by (apply typed_colors; exact Hty).
  unfold bind at 1, lift at 1. cbn [Interact.yarnGraph_1].
  unfold bind at 1, print at 1, modify. reflexivity.
Qed.

Lemma visualizeYarnNetwork_draws_witness :
  exists w1 graph top,
    createYarnGraph "Jane Doe" example_world = (w1, Ok (GraphAndTop graph top))
    /\ nx.nodes graph <> []
    /\ Interact.visualizeYarnNetwork (ret tt) "Jane Doe" PNone example_world
       = ret tt
           (printed ("Top 5 Recommended Yarns by " ++ "Jane Doe" ++ ": "
                     ++ Interact.top_text top)
              (printed "Visualizing graph..."
                 (printed (Interact.created_line graph) w1))).
Proof.
  apply (visualizeYarnNetwork_draws (ret tt) example_world "Jane Doe" PNone).
  - exists P1. split; [left; reflexivity|reflexivity].
  - intros p [<-|[<-|[<-|[]]]] H; try reflexivity. discriminate H.
Defined.

End Drawing.

(** ** The finder of alternative yarns *)

Section Finder.

Import Graph Interact.

Lemma hoare_pre {S A} (P P' : S -> Prop) (m : M S A) (Q : A -> S -> Prop) :
  (forall s, P s -> P' s) -> hoare P' m Q -> hoare P m Q.
Proof. intros HP H s Hs. apply H. apply HP. exact Hs. Qed.

Lemma hoare_gets_val {S A} (P : S -> Prop) (f : S -> A) :
  hoare P (gets f) (fun a s => P s /\ a = f s).
Proof. intros s Hs. split; [exact Hs|reflexivity]. Qed.

Lemma hoare_print (P : World -> Prop) line :
  (forall w, P w -> P (printed line w)) -> hoare P (print line) (fun _ => P).
Proof. intros H w Hw. apply H. exact Hw. Qed.

Lemma Forall2_nth_r {A B} (R : A -> B -> Prop) l l' :
  Forall2 R l l' ->
  forall j y, nth_error l' j = Some y -> exists x, nth_error l j = Some x /\ R x y.
Proof.
  induction 1 as [|x y0 l l' Hxy _ IH]; intros [|j] y E; try discriminate E.
  - injection E as <-. exists x. split; [reflexivity|exact Hxy].
  - exact (IH j y E).
Qed.

Lemma Forall2_replace {A B} (R : A -> B -> Prop) l l' :
  Forall2 R l l' ->
  forall j y, (forall x, nth_error l j = Some x -> R x y) -> Forall2 R l (replace j y l').
Proof.
  induction 1 as [|x y0 l l' Hxy H IH]; intros [|j] y Hy; cbn [replace]; constructor;
    try assumption.
  - apply Hy. reflexivity.
  - apply IH. exact Hy.
Qed.

Lemma nth_error_replace_other {A} (l : list A) :
  forall i j x, i <> j -> nth_error (replace j x l) i = nth_error l i.
Proof.
  induction l as [|y l IH]; intros [|i] [|j] x Hne; cbn [replace nth_error];
    try reflexivity; try contradiction.
  apply IH. congruence.
Qed.

Lemma Forall2_refl {A} (R : A -> A -> Prop) l : (forall x, R x x) -> Forall2 R l l.
Proof. intros H. induction l; constructor; auto. Qed.

Lemma Forall2_snoc {A B} (R : A -> B -> Prop) l l' x y :
  Forall2 R l l' -> R x y -> Forall2 R (l ++ [x]) (l' ++ [y]).
Proof. intros H Hxy. apply Forall2_app; [exact H|]. constructor; [exact Hxy|constructor]. Qed.

Lemma Forall2_in_r {A B} (R : A -> B -> Prop) l l' :
  Forall2 R l l' -> forall y, In y l' -> exists x, In x l /\ R x y.
Proof.
  induction 1 as [|x y0 l l' Hxy _ IH]; intros y []; subst.
  - exists x. split; [left; reflexivity|exact Hxy].
  - destruct (IH y H) as (x' & Hx' & Hr). exists x'. split; [right; exact Hx'|exact Hr].
Qed.

Variable w0 : World.

(** The invariant looks at the catalogue and at the web only. *)
Lemma inv_ext H w w' :
  patterns (self w') = patterns (self w) -> yarns (self w') = yarns (self w) ->
  web w' = web w ->
  finder_inv w0 H w -> finder_inv w0 H w'.
Proof.
  intros Ep Ey Ew (Hw & Hy & Hp & Hh). unfold finder_inv, hydrated_at.
  rewrite Ep, Ey, Ew. repeat split; assumption.
Qed.

Lemma inv_start : finder_inv w0 [] w0.
Proof.
  split; [reflexivity|]. split; [|split; [|constructor]].
  - apply Forall2_refl. intros y. repeat split.
  - apply Forall2_refl. intros q. repeat split.
Qed.

Lemma hoare_inv_print H line :
  hoare (finder_inv w0 H) (print line) (fun _ => finder_inv w0 H).
Proof. apply hoare_print. intros w Hw. apply (inv_ext H w); auto. Qed.

Lemma hoare_the_yarn (P : World -> Prop) j :
  (forall w, P w -> P (set_yarns (yarns (self w)) w)) ->
  hoare P (the_yarn j) (fun y w => P w /\ nth_error (yarns (self w)) j = Some y).
Proof.
  intros HP w Hw. unfold the_yarn, on_yarn.
  destruct (nth_error (yarns (self w)) j) as [y|] eqn:E; [|exact I].
  unfold gets. rewrite (replace_same _ _ _ E). split; [apply HP; exact Hw|exact E].
Qed.

Lemma hoare_the_pattern (P : World -> Prop) i :
  (forall w, P w -> P (set_patterns (patterns (self w)) w)) ->
  hoare P (the_pattern i) (fun q w => P w /\ nth_error (patterns (self w)) i = Some q).
Proof.
  intros HP w Hw. unfold the_pattern, on_pattern.
  destruct (nth_error (patterns (self w)) i) as [q|] eqn:E; [|exact I].
  unfold gets. rewrite (replace_same _ _ _ E). split; [apply HP; exact Hw|exact E].
Qed.

Lemma inv_set_yarns H w : finder_inv w0 H w -> finder_inv w0 H (set_yarns (yarns (self w)) w).
Proof. apply inv_ext; reflexivity. Qed.

Lemma inv_set_patterns H w :
  finder_inv w0 H w -> finder_inv w0 H (set_patterns (patterns (self w)) w).
Proof. apply inv_ext; reflexivity. Qed.

(** Hydrating the yarn at [j] keeps the invariant and leaves the fiber
    lines of the reply at [j]. *)
Lemma hoare_hydrate_yarn H j :
  hoare (finder_inv w0 H) (on_yarn j (Yarn.getFullData (web w0)))
        (fun _ w => finder_inv w0 H w /\ exists ls, fibers_at w0 j ls w).
Proof.
  intros w (Hw & Hy & Hp & Hh). unfold on_yarn.
  destruct (nth_error (yarns (self w)) j) as [y|] eqn:E; [|exact I].
  destruct (Forall2_nth_r _ _ _ Hy j y E) as (y0 & E0 & C).
  destruct (Yarn_getFullData_run (web w0) y) as [R1 R2].
  destruct (yarn_reply (web w0) (Yarn.id y)) as [ls|e] eqn:Er.
  - rewrite (R1 ls eq_refl). split.
    + split; [exact Hw|]. split; [|split; [exact Hp|exact Hh]].
      cbn [yarns self set_yarns set_self].
      apply Forall2_replace; [exact Hy|]. intros x Ex. rewrite E0 in Ex.
      injection Ex as <-. destruct C as (C1 & C2 & C3 & C4). repeat split; assumption.
    + exists ls, y0, (with_lines y ls). split; [exact E0|]. split.
      * destruct C as (C1 & _). rewrite C1. exact Er.
      * split; [|reflexivity]. cbn [yarns self set_yarns set_self].
        apply (nth_error_replace _ _ y). exact E.
  - specialize (R2 e eq_refl).
    destruct (Yarn.getFullData (web w0) y) as [y' [[]|e']]; [discriminate R2|exact I].
Qed.

(** The steps both loops over the yarns share: hydrate the yarn at [j],
    read it again and ask for its dominant fiber. *)
Lemma hoare_fiber_step {B} H j (k : Yarn.t -> string -> M World B) (Q : B -> World -> Prop) :
  (forall y f y0,
      nth_error (yarns (self w0)) j = Some y0 -> same_card y0 y ->
      fiber_of (web w0) y0 = Ok f ->
      hoare (finder_inv w0 H) (k y f) Q) ->
  hoare (finder_inv w0 H)
    (w <- gets web ;;
     on_yarn j (Yarn.getFullData w) ;;
     yarn <- the_yarn j ;;
     mainFiber <- lift (Yarn.getMainFiber yarn) ;;
     k yarn mainFiber) Q.
Proof.
  intros Hk.
  apply (hoare_bind _ _ (fun wb w => finder_inv w0 H w /\ wb = web w));
    [apply hoare_gets_val|].
  intros wb.
  apply (hoare_bind _ _ (fun _ w => finder_inv w0 H w /\ exists ls, fibers_at w0 j ls w)).
  { intros w [Hinv ->]. destruct Hinv as (Hw & Hrest). rewrite Hw.
    apply hoare_hydrate_yarn. split; assumption. }
  intros _.
  apply (hoare_bind _ _
           (fun y w => (finder_inv w0 H w /\ exists ls, fibers_at w0 j ls w)
                       /\ nth_error (yarns (self w)) j = Some y)).
  { apply hoare_the_yarn. intros w [Hinv (ls & y0 & y & F)]. split.
    - apply inv_set_yarns. exact Hinv.
    - exists ls, y0, y. exact F. }
  intros y w [[Hinv (ls & y0 & y' & E0 & Er & Ey & Ec)] Ej].
  rewrite Ey in Ej. injection Ej as <-.
  destruct Hinv as (Hw & Hy & Hp & Hh).
  destruct (Forall2_nth_r _ _ _ Hy j y' Ey) as (y0' & E0' & C).
  rewrite E0 in E0'. injection E0' as <-.
  unfold bind at 1, lift at 1. unfold Yarn.getMainFiber. rewrite Ec.
  destruct (Yarn.main_fiber ls) as [f|e] eqn:Ef; [|exact I].
  apply (Hk y' f y0 E0 C).
  - unfold fiber_of. rewrite Er. exact Ef.
  - repeat split; assumption.
Qed.

Lemma hoare_pure {S A} (P : S -> Prop) (phi : Prop) (m : M S A) (Q : A -> S -> Prop) :
  (phi -> hoare P m Q) -> hoare (fun s => P s /\ phi) m Q.
Proof. intros H s [Hs Hphi]. apply (H Hphi s Hs). Qed.

Lemma hoare_ret_val {S A} (P : S -> Prop) (a : A) (Q : A -> S -> Prop) :
  (forall s, P s -> Q a s) -> hoare P (ret a) Q.
Proof. intros H s Hs. apply H. exact Hs. Qed.

Lemma hoare_pick_yarns H recs r :
  In r recs ->
  forall js acc, picks_ok w0 recs acc ->
    hoare (finder_inv w0 H) (pick_yarns r js acc)
          (fun p w => finder_inv w0 H w /\ picks_ok w0 recs p).
Proof.
  intros Hr. induction js as [|j js IH]; intros acc Hacc; cbn [pick_yarns].
  - apply hoare_ret_val. intros w Hw. split; assumption.
  - apply (hoare_bind _ _
             (fun y w => finder_inv w0 H w /\ nth_error (yarns (self w)) j = Some y)).
    { apply hoare_the_yarn. apply inv_set_yarns. }
    intros y. destruct (Py.eq (Yarn.id y) r) eqn:Eq.
    + intros w [Hinv Ey]. pose proof Hinv as (_ & Hy & _).
      destruct (Forall2_nth_r _ _ _ Hy j y Ey) as (y0 & E0 & (C1 & _)).
      apply (hoare_fiber_step H j); [|exact Hinv].
      intros y' f y0' E0' (D1 & D2 & D3 & D4) Ef.
      rewrite E0 in E0'. injection E0' as <-.
      apply IH. destruct Hacc as (A1 & A2 & A3). split; [|split].
      * cbn [recommended_yarns]. apply Forall_app. split; [exact A1|].
        constructor; [|constructor]. exists r. split; [exact Hr|].
        exists y0. split; [exact E0|]. rewrite C1. exact Eq.
      * cbn [recommended_yarns main_fibers]. apply Forall2_snoc; [exact A2|].
        exists y0. split; assumption.
      * cbn [recommended_yarns recommended_yarnweights].
        apply Forall2_snoc; [exact A3|]. exists y0. split; [exact E0|].
        symmetry. exact D4.
    + apply (hoare_pre _ (finder_inv w0 H)); [intros w [Hw _]; exact Hw|].
      apply IH. exact Hacc.
Qed.

Lemma hoare_pick_all H recs :
  forall ids acc, incl ids recs -> picks_ok w0 recs acc ->
    hoare (finder_inv w0 H) (pick_all ids acc)
          (fun p w => finder_inv w0 H w /\ picks_ok w0 recs p).
Proof.
  induction ids as [|r ids IH]; intros acc Hincl Hacc; cbn [pick_all].
  - apply hoare_ret_val. intros w Hw. split; assumption.
  - apply (hoare_bind _ _ (fun _ => finder_inv w0 H)); [apply hoare_gets|].
    intros n.
    apply (hoare_bind _ _ (fun p w => finder_inv w0 H w /\ picks_ok w0 recs p)).
    { apply hoare_pick_yarns; [apply Hincl; left; reflexivity|exact Hacc]. }
    intros p. apply hoare_pure. intros Hp. apply IH; [|exact Hp].
    intros x Hx. apply Hincl. right. exact Hx.
Qed.

(** Hydrating the pattern at [i] keeps the invariant and adds [i] to the
    hydrated positions. *)
Lemma hoare_hydrate_pattern H i :
  hoare (finder_inv w0 H) (on_pattern i (Pattern.getFullData (web w0)))
        (fun _ w => finder_inv w0 (i :: H) w).
Proof.
  intros w (Hw & Hy & Hp & Hh). unfold on_pattern.
  destruct (nth_error (patterns (self w)) i) as [q|] eqn:E; [|exact I].
  destruct (Forall2_nth_r _ _ _ Hp i q E) as (q0 & E0 & (C1 & C2)).
  destruct (Pattern_getFullData_run (web w0) q) as [R1 R2].
  destruct (pattern_reply (web w0) (Pattern.id q)) as [d|e] eqn:Er.
  - rewrite (R1 d eq_refl).
    split; [exact Hw|]. split; [exact Hy|]. cbn [patterns self set_patterns set_self].
    split.
    + apply Forall2_replace; [exact Hp|]. intros x Ex. rewrite E0 in Ex.
      injection Ex as <-. split; assumption.
    + constructor.
      * exists q0, (with_details q d), d. split; [exact E0|]. split.
        -- apply (nth_error_replace _ _ q). exact E.
        -- split; [rewrite C1; exact Er|reflexivity].
      * rewrite Forall_forall in Hh |- *. intros h Hin.
        destruct (Nat.eq_dec h i) as [->|Hne].
        -- exists q0, (with_details q d), d. split; [exact E0|]. split.
           ++ apply (nth_error_replace _ _ q). exact E.
           ++ split; [rewrite C1; exact Er|reflexivity].
        -- destruct (Hh h Hin) as (a & b & d' & F1 & F2 & F3 & F4).
           exists a, b, d'. split; [exact F1|]. split; [|split; assumption].
           cbn [patterns self set_patterns set_self].
           rewrite nth_error_replace_other by exact Hne. exact F2.
  - specialize (R2 e eq_refl).
    destruct (Pattern.getFullData (web w0) q) as [q' [[]|e']]; [discriminate R2|exact I].
Qed.

Lemma inv_more H H' w :
  incl H H' -> finder_inv w0 H' w -> finder_inv w0 H w.
Proof.
  intros Hi (Hw & Hy & Hp & Hh). repeat split; try assumption.
  rewrite Forall_forall in Hh |- *. intros h Hin. apply Hh. apply Hi. exact Hin.
Qed.

(** Reading a record under the invariant: it has the card of the record
    the world started with at that position. *)
Lemma hoare_inv_the_yarn H j :
  hoare (finder_inv w0 H) (the_yarn j)
        (fun y w => finder_inv w0 H w
                    /\ exists y0, nth_error (yarns (self w0)) j = Some y0 /\ same_card y0 y).
Proof.
  apply (hoare_post _ _ (fun y w => finder_inv w0 H w
                                    /\ nth_error (yarns (self w)) j = Some y)).
  - apply hoare_the_yarn. apply inv_set_yarns.
  - intros y w [Hinv Ey]. split; [exact Hinv|].
    destruct Hinv as (_ & Hy & _). exact (Forall2_nth_r _ _ _ Hy j y Ey).
Qed.

Lemma hoare_inv_the_pattern H i :
  hoare (finder_inv w0 H) (the_pattern i)
        (fun q w => finder_inv w0 H w
                    /\ exists q0, nth_error (patterns (self w0)) i = Some q0
                                  /\ same_pattern q0 q
                                  /\ (In i H ->
                                      exists d, pattern_reply (web w0) (Pattern.id q0) = Ok d
                                                /\ Pattern.recyarn q = Some (d_recyarn d))).
Proof.
  apply (hoare_post _ _ (fun q w => finder_inv w0 H w
                                    /\ nth_error (patterns (self w)) i = Some q)).
  - apply hoare_the_pattern. apply inv_set_patterns.
  - intros q w [Hinv Eq]. split; [exact Hinv|].
    destruct Hinv as (_ & _ & Hp & Hh).
    destruct (Forall2_nth_r _ _ _ Hp i q Eq) as (q0 & E0 & C).
    exists q0. split; [exact E0|]. split; [exact C|].
    intros Hin. rewrite Forall_forall in Hh.
    destruct (Hh i Hin) as (a & b & d & F1 & F2 & F3 & F4).
    rewrite E0 in F1. injection F1 as <-. rewrite Eq in F2. injection F2 as <-.
    exists d. split; assumption.
Qed.

Lemma hoare_inv_hydrate_pattern H i (B : Type) (k : M World B) (Q : B -> World -> Prop) :
  hoare (finder_inv w0 (i :: H)) k Q ->
  hoare (finder_inv w0 H) (w <- gets web ;; on_pattern i (Pattern.getFullData w) ;; k) Q.
Proof.
  intros Hk.
  apply (hoare_bind _ _ (fun wb w => finder_inv w0 H w /\ wb = web w));
    [apply hoare_gets_val|].
  intros wb.
  apply (hoare_bind _ _ (fun _ w => finder_inv w0 (i :: H) w)); [|intros _; exact Hk].
  intros w [Hinv ->]. destruct Hinv as (Hw & Hrest). rewrite Hw.
  apply hoare_hydrate_pattern. split; assumption.
Qed.

Lemma hoare_similar_loop target t0 :
  nth_error (patterns (self w0)) target = Some t0 ->
  forall todo H sim,
    Forall (similar_to w0 target) sim -> incl sim H ->
    hoare (finder_inv w0 H) (similar_loop (Pattern.designer t0) target todo sim)
          (fun sim' w => exists H', finder_inv w0 H' w
                                    /\ Forall (similar_to w0 target) sim'
                                    /\ incl sim' H').
Proof.
  intros Et. induction todo as [|i todo IH]; intros H sim Hsim Hincl;
    cbn [similar_loop].
  - apply hoare_ret_val. intros w Hw. exists H. auto.
  - apply (hoare_bind _ _ _ _ _ (hoare_inv_the_pattern H i)).
    intros q. apply hoare_pure. intros (q0 & E0 & (C1 & C2) & _).
    apply (hoare_bind _ _ _ _ _ (hoare_inv_the_pattern H target)).
    intros t. apply hoare_pure. intros (t0' & Et' & (T1 & T2) & _).
    rewrite Et in Et'. injection Et' as <-.
    destruct (String.eqb (Pattern.designer q) (Pattern.designer t0)
              && negb (Py.eq (Pattern.id q) (Pattern.id t))) eqn:Ec.
    + apply andb_true_iff in Ec. destruct Ec as [Ed Ei].
      apply String.eqb_eq in Ed. apply negb_true_iff in Ei.
      apply hoare_inv_hydrate_pattern. apply IH.
      * apply Forall_app. split; [exact Hsim|]. constructor; [|constructor].
        exists t0, q0. split; [exact Et|]. split; [exact E0|]. split.
        -- rewrite C2. exact Ed.
        -- rewrite C1, T1. exact Ei.
      * intros x Hx. apply in_app_iff in Hx. destruct Hx as [Hx|[<-|[]]].
        -- right. apply Hincl. exact Hx.
        -- left. reflexivity.
    + apply IH; assumption.
Qed.

Lemma picked_fiber recs p f :
  picks_ok w0 recs p -> In f (main_fibers p) ->
  exists k yk, In k (recommended_yarns p)
               /\ nth_error (yarns (self w0)) k = Some yk
               /\ fiber_of (web w0) yk = Ok f.
Proof.
  intros (_ & A2 & _) Hf.
  destruct (Forall2_in_r _ _ _ A2 f Hf) as (k & Hk & yk & Ek & Efk).
  exists k, yk. auto.
Qed.

Lemma picked_weight recs p e :
  picks_ok w0 recs p -> In e (recommended_yarnweights p) ->
  exists k yk, In k (recommended_yarns p)
               /\ nth_error (yarns (self w0)) k = Some yk
               /\ e = Yarn.weight yk.
Proof.
  intros (_ & _ & A3) He.
  destruct (Forall2_in_r _ _ _ A3 e He) as (k & Hk & yk & Ek & Eek).
  exists k, yk. auto.
Qed.

Lemma add_label_all (P : string -> Prop) l s :
  P l -> Forall P s -> Forall P (add_label l s).
Proof.
  intros Hl Hs. unfold add_label. destruct (existsb (String.eqb l) s); [exact Hs|].
  apply Forall_app. split; [exact Hs|]. constructor; [exact Hl|constructor].
Qed.

Lemma hoare_alt_yarns H recs target p r :
  picks_ok w0 recs p -> similar_id w0 target r ->
  forall js alts, Forall (alternative w0 target p) alts ->
    hoare (finder_inv w0 H) (alt_yarns p r js alts)
          (fun alts' w => finder_inv w0 H w /\ Forall (alternative w0 target p) alts').
Proof.
  intros Hp Hr. induction js as [|j js IH]; intros alts Halts; cbn [alt_yarns].
  - apply hoare_ret_val. intros w Hw. split; assumption.
  - apply (hoare_bind _ _ _ _ _ (hoare_inv_the_yarn H j)).
    intros y. apply hoare_pure. intros (y0 & E0 & (C1 & _)).
    destruct (Py.eq (Yarn.id y) r) eqn:Eq; [|apply IH; exact Halts].
    apply (hoare_fiber_step H j).
    intros y' f y0' E0' (D1 & D2 & D3 & D4) Ef.
    rewrite E0 in E0'. injection E0' as <-.
    destruct (existsb (String.eqb f) (main_fibers p)
              && existsb (fun weight => Py.eq weight (Yarn.weight y'))
                   (recommended_yarnweights p)
              && negb (existsb (Nat.eqb j) (recommended_yarns p))) eqn:Ec;
      [|apply IH; exact Halts].
    apply andb_true_iff in Ec. destruct Ec as [Ec En].
    apply andb_true_iff in Ec. destruct Ec as [Ef' Ew].
    apply (hoare_bind _ _ _ _ _ (hoare_inv_print H _)). intros _.
    apply IH. apply add_label_all; [|exact Halts].
    exists j, y0. split; [exact E0|]. split.
    { unfold yarn_label. rewrite D2, D3. reflexivity. }
    split.
    { intros Hin. apply negb_true_iff in En.
      assert (Ht : existsb (Nat.eqb j) (recommended_yarns p) = true).
      { apply existsb_exists. exists j. split; [exact Hin|apply Nat.eqb_refl]. }
      rewrite Ht in En. discriminate En. }
    split.
    { exists r. split; [exact Hr|]. rewrite C1. exact Eq. }
    split.
    { apply existsb_exists in Ef'. destruct Ef' as (f' & Hf' & Ee).
      apply String.eqb_eq in Ee. subst f'.
      destruct (picked_fiber recs p f Hp Hf') as (k & yk & Hk & Ek & Efk).
      exists k, yk, f. auto. }
    { apply existsb_exists in Ew. destruct Ew as (e & He & Ee).
      destruct (picked_weight recs p e Hp He) as (k & yk & Hk & Ek & ->).
      exists k, yk. split; [exact Hk|]. split; [exact Ek|]. rewrite D4. exact Ee. }
Qed.

Lemma hoare_alt_ids H recs target p :
  forall ids alts,
    (forall r, In r ids -> r <> PNone -> similar_id w0 target r) ->
    picks_ok w0 recs p ->
    Forall (alternative w0 target p) alts ->
    hoare (finder_inv w0 H) (alt_ids p ids alts)
          (fun alts' w => finder_inv w0 H w /\ Forall (alternative w0 target p) alts').
Proof.
  induction ids as [|r ids IH]; intros alts Hids Hp Halts; cbn [alt_ids].
  - apply hoare_ret_val. intros w Hw. split; assumption.
  - assert (Hrest : forall x, In x ids -> x <> PNone -> similar_id w0 target x)
      by (intros x Hx; apply Hids; right; exact Hx).
    assert (Hstep : r <> PNone ->
              hoare (finder_inv w0 H)
                (n <- gets (fun w => length (yarns (self w))) ;;
                 alts0 <- alt_yarns p r (seq 0 n) alts ;;
                 alt_ids p ids alts0)
                (fun alts' w => finder_inv w0 H w
                                /\ Forall (alternative w0 target p) alts')).
    { intros Hne.
      apply (hoare_bind _ _ (fun _ => finder_inv w0 H)); [apply hoare_gets|].
      intros n.
      apply (hoare_bind _ _
               (fun a w => finder_inv w0 H w /\ Forall (alternative w0 target p) a)).
      - apply (hoare_alt_yarns H recs target p r Hp);
          [apply Hids; [left; reflexivity|exact Hne]|exact Halts].
      - intros a. apply hoare_pure. intros Ha. apply IH; assumption. }
    destruct r; try (apply Hstep; discriminate).
    apply IH; assumption.
Qed.

Lemma hoare_alt_patterns H recs target p :
  picks_ok w0 recs p ->
  forall sim alts,
    Forall (similar_to w0 target) sim -> incl sim H ->
    Forall (alternative w0 target p) alts ->
    hoare (finder_inv w0 H) (alt_patterns p sim alts)
          (fun alts' w => finder_inv w0 H w /\ Forall (alternative w0 target p) alts').
Proof.
  intros Hp. induction sim as [|i sim IH]; intros alts Hsim Hincl Halts;
    cbn [alt_patterns].
  - apply hoare_ret_val. intros w Hw. split; assumption.
  - apply (hoare_bind _ _ _ _ _ (hoare_inv_the_pattern H i)).
    intros q. apply hoare_pure. intros (q0 & E0 & _ & Hd).
    destruct (Hd (Hincl i (or_introl eq_refl))) as (d & Er & Erec). rewrite Erec.
    inversion Hsim as [|? ? Hi Hsim']. subst.
    assert (Hincl' : incl sim H) by (intros x Hx; apply Hincl; right; exact Hx).
    apply (hoare_bind _ _
             (fun a w => finder_inv w0 H w /\ Forall (alternative w0 target p) a)).
    + apply (hoare_alt_ids H recs target p); [|exact Hp|exact Halts].
      intros r Hr Hne. exists i, q0, d. auto.
    + intros a. apply hoare_pure. intros Ha. apply IH; assumption.
Qed.

Lemma hoare_labels_of H :
  forall js,
    hoare (finder_inv w0 H) (labels_of js)
          (fun labels w => finder_inv w0 H w /\ Forall2 (label_at w0) js labels).
Proof.
  induction js as [|j js IH]; cbn [labels_of].
  - apply hoare_ret_val. intros w Hw. split; [exact Hw|constructor].
  - apply (hoare_bind _ _ _ _ _ (hoare_inv_the_yarn H j)).
    intros y. apply hoare_pure. intros (y0 & E0 & (_ & C2 & C3 & _)).
    apply (hoare_bind _ _ _ _ _ IH). intros labels.
    apply hoare_ret_val. intros w [Hw Hl]. split; [exact Hw|].
    constructor; [|exact Hl]. exists y0. split; [exact E0|].
    unfold yarn_label. rewrite C2, C3. reflexivity.
Qed.

Lemma hoare_ex {S A X} (P : X -> S -> Prop) (m : M S A) (Q : A -> S -> Prop) :
  (forall x, hoare (P x) m Q) -> hoare (fun s => exists x, P x s) m Q.
Proof. intros H s [x Hs]. apply (H x s Hs). Qed.

Lemma hoare_print_out (P : World -> Prop) line :
  hoare P (print line ;; ret tt) (fun _ w => exists out, stdout w = (out ++ [line])%list).
Proof. intros w _. exists (stdout w). reflexivity. Qed.

Lemma hoare_two_prints (P : World -> Prop) a b :
  hoare P (print a ;; print b ;; ret tt)
        (fun _ w => exists out, stdout w = (out ++ [a; b])%list).
Proof.
  intros w _. exists (stdout w). cbn. rewrite <- app_assoc. reflexivity.
Qed.

Lemma picks_ok_none recs : picks_ok w0 recs (mk_picks [] [] []).
Proof. repeat split; constructor. Qed.

(** X22: what the finder of alternative yarns reports, whenever it
    returns. The three lists it fills describe yarns of the catalogue that
    have an id the target recommends, with their dominant fibers and
    weights. Without such a yarn the last line says so. Otherwise the last
    two lines give the labels of these yarns and the alternatives, and
    every alternative is the label of a yarn of the catalogue that is not
    one of the recommended yarns, that another pattern of the designer
    recommends, that has the dominant fiber of a recommended yarn and that
    has the weight of a recommended yarn. *)
Theorem find_alternatives_reports :
  forall (set_text : list string -> string) (stop : string) (target : nat) (w' : World),
    find_alternatives (ret tt) set_text stop target w0 = (w', Ok tt) ->
    exists t0 d p,
      nth_error (patterns (self w0)) target = Some t0
      /\ pattern_reply (web w0) (Pattern.id t0) = Ok d
      /\ picks_ok w0 (d_recyarn d) p
      /\ ((recommended_yarns p = []
           /\ exists out,
                stdout w' = (out ++ ["No recommended yarns found for this pattern"])%list)
          \/ (recommended_yarns p <> []
              /\ exists out labels alts,
                   Forall2 (label_at w0) (recommended_yarns p) labels
                   /\ Forall (alternative w0 target p) alts
                   /\ stdout w'
                      = (out ++ [(Pattern.designer t0
                                  ++ " recommends these yarns for this pattern: "
                                  ++ str_list labels ++ stop)%string;
                                 alternatives_line set_text alts])%list)).
Proof.
  intros set_text stop target w' Hrun.
  assert (Hh : hoare (finder_inv w0 [])
                 (find_alternatives (ret tt) set_text stop target)
                 (fun _ w' =>
                    exists t0 d p,
                      nth_error (patterns (self w0)) target = Some t0
                      /\ pattern_reply (web w0) (Pattern.id t0) = Ok d
                      /\ picks_ok w0 (d_recyarn d) p
                      /\ ((recommended_yarns p = []
                           /\ exists out,
                                stdout w'
                                = (out ++ ["No recommended yarns found for this pattern"])%list)
                          \/ (recommended_yarns p <> []
                              /\ exists out labels alts,
                                   Forall2 (label_at w0) (recommended_yarns p) labels
                                   /\ Forall (alternative w0 target p) alts
                                   /\ stdout w'
                                      = (out ++ [(Pattern.designer t0
                                                  ++ " recommends these yarns for this pattern: "
                                                  ++ str_list labels ++ stop)%string;
                                                 alternatives_line set_text alts])%list)))).
  { unfold find_alternatives.
    apply hoare_inv_hydrate_pattern.
    apply (hoare_bind _ _ _ _ _ (hoare_inv_the_pattern [target] target)).
    intros q. apply hoare_pure. intros (t0 & Et & (C1 & C2) & Hd).
    destruct (Hd (or_introl eq_refl)) as (d & Er & Erec). cbv zeta. rewrite Erec, <- C2.
    apply (hoare_bind _ _ (fun recs w => finder_inv w0 [target] w /\ recs = d_recyarn d)).
    { intros w Hw. split; [exact Hw|reflexivity]. }
    intros recs. apply hoare_pure. intros ->.
    apply (hoare_bind _ _ _ _ _
             (hoare_pick_all [target] (d_recyarn d) (d_recyarn d) (mk_picks [] [] [])
                (incl_refl _) (picks_ok_none _))).
    intros p. apply hoare_pure. intros Hp.
    destruct (recommended_yarns p) as [|k ks] eqn:Erp.
    - apply (hoare_post _ _ _ _ (hoare_print_out _ _)).
      intros _ w Hout. exists t0, d, p.
      split; [exact Et|]. split; [exact Er|]. split; [exact Hp|].
      left. split; [exact Erp|exact Hout].
    - apply (hoare_bind _ _ _ _ _ (hoare_inv_print [target] _)). intros _.
      apply (hoare_bind _ _ (fun _ => finder_inv w0 [target])); [apply hoare_gets|].
      intros m.
      apply (hoare_bind _ _ _ _ _
               (hoare_similar_loop target t0 Et (seq 0 m) [target] []
                  (Forall_nil _) (incl_nil_l _))).
      intros sim. apply hoare_ex. intros H'.
      apply (hoare_pre _ (fun w => finder_inv w0 H' w
                                   /\ (Forall (similar_to w0 target) sim /\ incl sim H')));
        [intros w (A & B & C); auto|].
      apply hoare_pure. intros [Hsim Hincl].
      apply (hoare_bind _ _ _ _ _ (hoare_inv_print H' _)). intros _.
      apply (hoare_bind _ _ _ _ _
               (hoare_alt_patterns H' (d_recyarn d) target p Hp sim [] Hsim Hincl
                  (Forall_nil _))).
      intros alts. apply hoare_pure. intros Halts.
      apply (hoare_bind _ _ _ _ _ (hoare_labels_of H' (k :: ks))).
      intros labels. apply hoare_pure. intros Hlabels.
      assert (Em : (match alts with
                    | [] => print (nl ++ "No alternative yarns found in similar patterns")
                    | _ :: _ =>
                        print (nl ++ "Alternative yarns used in similar patterns: "
                               ++ set_text alts)
                    end)
                   = print (alternatives_line set_text alts))
        by (destruct alts; reflexivity).
      rewrite Em.
      apply (hoare_post _ _ _ _ (hoare_two_prints _ _ _)).
      intros _ w (out & Hout). exists t0, d, p.
      split; [exact Et|]. split; [exact Er|]. split; [exact Hp|].
      right. split; [rewrite Erp; discriminate|].
      exists out, labels, alts. rewrite Erp. auto. }
  specialize (Hh w0 inv_start). rewrite Hrun in Hh. exact Hh.
Qed.

End Finder.

Section FinderExample.

Import Graph Interact.

Lemma find_alternatives_reports_witness :
  exists t0 d p,
    nth_error (patterns (self finder_world)) 0 = Some t0
    /\ pattern_reply (web finder_world) (Pattern.id t0) = Ok d
    /\ picks_ok finder_world (d_recyarn d) p
    /\ ((recommended_yarns p = []
         /\ exists out,
              stdout (fst (find_alternatives (ret tt) set_in_order EmptyString 0 finder_world))
              = (out ++ ["No recommended yarns found for this pattern"])%list)
        \/ (recommended_yarns p <> []
            /\ exists out labels alts,
                 Forall2 (label_at finder_world) (recommended_yarns p) labels
                 /\ Forall (alternative finder_world 0 p) alts
                 /\ stdout (fst (find_alternatives (ret tt) set_in_order EmptyString 0
                                   finder_world))
                    = (out ++ [(Pattern.designer t0
                                ++ " recommends these yarns for this pattern: "
                                ++ str_list labels ++ EmptyString)%string;
                               alternatives_line set_in_order alts])%list)).
Proof.
  apply (find_alternatives_reports finder_world set_in_order EmptyString 0).
  vm_compute. reflexivity.
Defined.

End FinderExample.
